(* ===== verification/_CoqProject ===== *)
-Q . S2P
Prelude.v
Crc32.v
Inet.v
PeerManager.v
Stats.v
Log.v
PeerOption.v
Env.v
Sim.v
RoceDefs.v
Arq.v
ArqWindow.v
ArqManager.v
ArqTimeout.v
QpCtx.v
WanTunnel.v
ArpCache.v
Icrc.v
Congestion.v
ArqMsg.v
JitterBuffer.v
Reassembly.v
Processor.v
LanPath.v
LanForward.v
CnpPacing.v
WanPath.v
Gateway.v
Cores.v
LanHistory.v
MainLoop.v
Startup.v
Boot.v
Multicore.v
