(* ===== verification/Prelude.v ===== *)
(** * The RDMA gateway: a verification library

    The program under src/ is a DPDK gateway for RoCEv2 traffic between two
    sites.  A LAN core takes WRITE packets from local hosts, answers each with
    a forged ACK, sends the packet to the WAN and keeps it in an ARQ window; a
    WAN core reassembles WRITE messages arriving from the peer gateway, asks
    for missing packets with NACKs, delivers whole messages to the LAN, and
    handles the peer's ARQ control messages and a timer.  Around them: a table
    of flows, congestion detection with CNPs, a table of peers, an ARP cache,
    the ICRC, counters, a logger, and the start-up that reads the options,
    brings up the two ports and launches one loop per lcore.

    ** Files and the code they model

    - [Prelude] (this file): machine integers, byte order, byte buffers, lists.
    - [Env]: the world (globals, mbufs, trace of DPDK calls), the monad [M],
      the DPDK interface as the class [Dpdk] with its documented laws
      [DpdkSpec], the reference ledger [held], the program logic ([wp],
      [evolves], [kept], [grows]).  [Sim]: a concrete instance, for witnesses.
    - [Crc32]: src/src/crc32c.c.  [PeerManager]: src/src/peer_manager.c.
      [Stats]: src/src/stats.c.  [QpCtx]: src/src/qp_ctx.c.
    - [RoceDefs]: src/include/roce_defs.h, common.h and [get_segment_type].
    - [Arq]: src/src/arq.c without the control messages; [ArqWindow]: the
      window as a bounded queue; [ArqManager]: the manager as a table of
      such queues; [ArqTimeout]: the timer; [ArqMsg]: the control messages
      of arq.c.
    - [WanTunnel]: src/src/wan_tunnel.c; [ArpCache]: its cache as a map;
      [Icrc]: what its [roce_icrc] computes.
    - [Congestion]: src/src/congestion.c.
    - [JitterBuffer]: src/src/jitter_buffer.c; [Reassembly]: whole messages.
    - [Processor]: src/src/processor.c, all of it.  [LanPath], [LanForward],
      [CnpPacing]: the LAN side; [WanPath]: the WAN side.
    - [Inet]: the functions of the C library the program reads and prints
      numbers and addresses with.  [Log]: src/src/log.c, log.h, [pm_dump] and
      [stat_dump].
    - src/src/main.c: [PeerOption], [parse_peer_string] and the rules it
      enters; [Startup], [port_name_to_id], the option loop, [port_init] and
      [main] from its checks to the launch and the shutdown; [MainLoop],
      [lan_main_loop], [wan_main_loop] and [signal_handler].
    - [Gateway]: one core between two calls of its loop, as a transition
      system ([core]).  [Cores]: LAN cores and WAN cores apart; [LanHistory]:
      a LAN core with the packets it has handled.  [Boot]: the state [main]
      starts the loops in.  [Multicore]: all lcores and the world they share,
      from fresh processors and any globals ([system]); what [main] starts is
      one instance ([main_starts_a_system]).

    ** How state and operations correspond

    A C struct is a record with the same fields; a pointer to a table entry is
    its index; an mbuf pointer is a [nat] looked up in [w_mem]; a uint32_t (and
    so on) is a [Z] with the wrap-around written out ([u8] .. [u64]).  A
    function becomes a definition of its name: it takes the structs it works
    on by value and returns them, in the monad [M] when it calls DPDK, takes a
    lock or touches an mbuf.  [M] has three outcomes: [Ret], [Hang] (a spinlock
    that will never be released) and [Undef] (a NULL or unknown mbuf).  Packet
    contents are byte lists; header fields are loads and stores at the offsets
    of the packed structs.  Where a long C function is split into several
    definitions ([proc_process_lan_rx] into [lan_write], [lan_arq],
    [lan_transmit] and so on) they are composed as in the code.

    A burst of received mbufs is a list; [lan_round] and [wan_round] hand it
    to the handlers in order.  [core] and [system] break a round into steps,
    with the rest of the burst as part of the state.

    DPDK is the parameter [Dpdk]: its answers (reception, allocation, append,
    transmit, clock) are arbitrary functions of the history of calls, so every theorem
    covers exhausted pools and full transmit queues.  [DpdkSpec] holds the
    documented behaviour relied on: byte-order conversions, address copies, a
    64-bit clock, an allocated or received mbuf is not one still held, an append stays in
    the data room of 2048 bytes, spinlocks.  Every handover of an mbuf is an
    event; [held w j] counts the references to [j] the program has.

    Start-up is in the monad [boot], which records the device calls and may
    end the program; the machine (lcores, ports, page size, results of device
    calls) is the class [Eal].  What [getopt_long] returns is the input.

    ** What the theorems show

    - The ledger: [Multicore.lcores_share_the_ledger] (any lcores, any peer
      table, in any order: the references held are those of their windows and
      bursts, the tables stay well formed, every next step returns, QPN 0 and
      WRITEs from the WAN excepted) and [Gateway.gateway_ledger], the same of
      one core; [Reassembly.jb_remove_releases_once].
    - Start-up and loops: [Boot.started_loops_block_only_on_writes] (a LAN
      loop runs on any traffic until a signal, a WAN loop until a signal or
      the first WRITE, which hangs it), [startup_types_cores] and
      [queues_are_served_by_number] (which lcore works on what),
      [port_init_correct], [port_name_to_id_correct],
      [refusals_touch_no_device], [PeerOption.peer_option_roundtrip].
    - Logging: [Log.log_file_records_session], [ip_to_str_roundtrip].
    - The LAN path: [LanForward.lan_write_is_tracked_and_forwarded],
      [lan_other_traffic_passes_through], [spoofed_ack_answers_packet];
      [LanHistory.lan_windows_hold_first_packets] (a run of a LAN core: each
      window holds the first 256 packets of its flow); [CnpPacing.cnp_rate_is_limited].
    - ARQ: [ArqWindow.arq_window_refines_queue] (refinement of a bounded
      queue), [ArqManager.arq_manager_refines_table] and
      [arq_flows_do_not_interfere] (the whole manager as a table of queues,
      one per QPN), [arq_get_or_create_correct], [arq_loops_have_enough_fuel],
      [ArqTimeout.arq_timer_retries_then_drops], [ArqMsg.ctrl_message_roundtrip].
    - Reassembly: [Reassembly.reassembly_starts_at_first_arrival] (what is
      handed over, and when, once a context is opened at the PSN of the first
      arrival), [reassembly_waits_for_gaps], [jb_open_correct].
    - Frames: [Crc32.crc32_le_slice8_correct], [Icrc.roce_icrc_correct],
      [icrc_ignores_variant_fields], [Congestion.cnp_frame_correct],
      [RoceDefs.bth_fields_roundtrip], [psn_distance_orders_half_space].
    - Tables: [QpCtx.qp_get_or_create_correct], [PeerManager.pm_lookup_first_match],
      [ArpCache.arp_cache_is_direct_mapped], [Stats.stat_counters_count],
      [Congestion.cc_check_buffer_hysteresis], [Cores.lan_usage_is_bounded],
      [flows_are_pinned_to_cores].
    - Where the code does not do what it means to:
      [Cores.lan_windows_never_drain] and [wan_cores_ignore_acknowledgements]
      (windows and acknowledgements live on different cores),
      [WanPath.wan_write_to_new_flow_deadlocks], [wan_delivery_releases_twice],
      [Boot.configured_peers_are_lost], [PeerOption.peer_rules_are_byte_reversed],
      [ArqTimeout.timeout_overruns_window], [ArqWindow.sequence_wrap_stops_acks],
      [qpn_zero_window_is_overwritten], [Icrc.forwarding_invalidates_icrc],
      [Reassembly.in_order_packet_reports_next_as_missing],
      [gap_after_reordering_is_not_reported], and the examples at the end of
      [Boot].

    ** Bounds and fuel

    [ack_loop] and [nack_scan] take [send_next - send_base] rounds, the number
    the loop tests allow; [arq_loops_have_enough_fuel] shows more change
    nothing.  A main loop is given the signals that arrive in each of its
    rounds, for as many rounds as are looked at.  Every other loop is a fold
    over the indices it visits.  Decimal printing has 20 digits, enough for 64
    bits.  Table
    sizes are those of the headers (1024 contexts, windows of 256, 64 messages
    of 256 segments, 32 peers, 128 ARP slots).

    ** Assumptions

    The target is little-endian.  congestion.c and processor.c use
    [cc->congestion_detected], which is no member of the struct; it is read as
    the field of that name in [cnp_ctx].  The ledger theorems exclude packets of
    QPN 0, which the tables use for free contexts (what happens otherwise is
    [qpn_zero_window_is_overwritten]), and WRITE data on the WAN side (what
    happens there is the two theorems of [WanPath]).  When lcores
    run together a handler is one step: the model does not interleave two
    handlers in the middle, where they share the ARP cache (under its lock),
    [last_arp_time] and the lazily built CRC tables.  What [main] assumes of
    [Eal] (16-bit port count, distinct lcore numbers below RTE_MAX_LCORE,
    itself below 2^16) is [EalSpec].

    ** Not modelled

    [rte_eal_init], [getopt_long] and the usage and error texts of main.c; the
    messages the components log ([log_msg] itself is in [Log]); the periodic
    [stat_dump] of the timer, which only logs; the inside of the C library
    beyond what [Inet] defines (times are given broken down, [fopen] succeeds
    or not).  The overflow of [int] in [atoi] and in the %d of [sscanf], which
    C leaves undefined, is resolved as glibc does. *)

From Stdlib Require Export ZArith Lia.
From stdpp Require Export base tactics numbers list gmap option.

#[global] Open Scope Z_scope.

(** ** Machine integers *)

(** The unsigned C types of the program, as [Z] with the wrap-around
    written out. *)
Definition u8 (x : Z) : Z := x mod 2 ^ 8.
Definition u16 (x : Z) : Z := x mod 2 ^ 16.
Definition u32 (x : Z) : Z := x mod 2 ^ 32.
Definition u64 (x : Z) : Z := x mod 2 ^ 64.

Definition is_u8 (x : Z) : Prop := 0 <= x < 2 ^ 8.
Definition is_u32 (x : Z) : Prop := 0 <= x < 2 ^ 32.

Lemma u8_small x : is_u8 x -> u8 x = x.
Proof. apply Z.mod_small. Qed.
Lemma u32_small x : is_u32 x -> u32 x = x.
Proof. apply Z.mod_small. Qed.
Lemma u64_small x : 0 <= x < 2 ^ 64 -> u64 x = x.
Proof. apply Z.mod_small. Qed.
Lemma u8_range x : is_u8 (u8 x).
Proof. apply Z.mod_pos_bound; lia. Qed.
Lemma u16_range x : 0 <= u16 x < 2 ^ 16.
Proof. apply Z.mod_pos_bound; lia. Qed.
Lemma u32_range x : is_u32 (u32 x).
Proof. apply Z.mod_pos_bound; lia. Qed.
Lemma u64_range x : 0 <= u64 x < 2 ^ 64.
Proof. apply Z.mod_pos_bound; lia. Qed.

#[export] Instance is_u32_dec x : Decision (is_u32 x).
Proof. unfold is_u32. apply _. Defined.

Create HintDb gw.
#[export] Hint Resolve u8_range u16_range u32_range u64_range : gw.

(** [Z.land] with a mask of ones is a remainder. *)
Lemma land_mask x n : 0 <= n -> Z.land x (Z.ones n) = x mod 2 ^ n.
Proof. apply Z.land_ones. Qed.

(** Closed decidable goals, by evaluation. *)
Ltac by_dec := apply (bool_decide_unpack _); vm_compute; exact I.

(** Linear arithmetic with quotients and remainders by constants. *)
Ltac zdiv := Z.div_mod_to_equations; lia.

(** Equations between [Z.lxor] combinations of the same atoms. *)
Ltac lxor_solve :=
  apply Z.bits_inj'; intros ? ?; rewrite ?Z.lxor_spec, ?Z.bits_0;
  repeat match goal with |- context [Z.testbit ?a ?i] => destruct (Z.testbit a i) end;
  reflexivity.

(** Disjoint low and high parts. *)
Lemma land_low_high a b k : 0 <= a < 2 ^ k -> 0 <= k -> Z.land a (Z.shiftl b k) = 0.
Proof.
  intros Ha Hk. apply Z.bits_inj'. intros i Hi. rewrite Z.land_spec, Z.bits_0.
  destruct (Z.ltb_spec i k).
  - rewrite Z.shiftl_spec_low by lia. apply andb_false_r.
  - rewrite <- (Z.mod_small a (2 ^ k)) by lia. by rewrite Z.mod_pow2_bits_high by lia.
Qed.

Lemma lor_low_high a b k :
  0 <= a < 2 ^ k -> 0 <= k -> Z.lor a (Z.shiftl b k) = a + 2 ^ k * b.
Proof.
  intros Ha Hk. pose proof (land_low_high a b k Ha Hk) as Hl.
  rewrite <- Z.lxor_lor, <- Z.add_nocarry_lxor, Z.shiftl_mul_pow2 by done. lia.
Qed.

Lemma lxor_low_shift a b k :
  0 <= a < 2 ^ k -> 0 <= k -> a + 2 ^ k * b = Z.lxor a (Z.shiftl b k).
Proof. intros Ha Hk. by rewrite Z.lxor_lor, lor_low_high by auto using land_low_high. Qed.

(** ** Lists *)

Lemma filter_map {A B} (f : A -> B) (P : B -> Prop) `{!forall x, Decision (P x)} (l : list A) :
  filter P (f <$> l) = f <$> filter (fun x => P (f x)) l.
Proof.
  induction l as [|x l IH]; [done|]. rewrite fmap_cons. destruct (decide (P (f x))) as [Hp|Hp].
  - rewrite (filter_cons_True P) by done. rewrite (filter_cons_True (fun x => P (f x))) by done.
    by rewrite IH.
  - rewrite (filter_cons_False P) by done. rewrite (filter_cons_False (fun x => P (f x))) by done.
    apply IH.
Qed.

Lemma omap_map_ext {A B B' C} (f : B -> option C) (g : A -> B) (f' : B' -> option C) (g' : A -> B') (l : list A) :
  (forall x, f (g x) = f' (g' x)) -> omap f (g <$> l) = omap f' (g' <$> l).
Proof. intros He. induction l as [|x l IH]; [done|]. simpl. rewrite He. destruct (f' (g' x)); by f_equal. Qed.

(** Counting after an update of one element. *)
Lemma filter_length_cons {A} (P : A -> Prop) `{!forall x, Decision (P x)} x (l : list A) :
  length (filter P (x :: l)) = ((if decide (P x) then 1 else 0) + length (filter P l))%nat.
Proof. rewrite list.filter_cons. by case_decide. Qed.

Lemma filter_length_insert_gen {A} (P : A -> Prop) `{!forall x, Decision (P x)} (l : list A) i x y :
  l !! i = Some x ->
  (length (filter P (<[i := y]> l)) + (if decide (P x) then 1 else 0) =
   length (filter P l) + (if decide (P y) then 1 else 0))%nat.
Proof.
  revert i. induction l as [|z l IH]; intros [|i] Hi; simplify_eq/=; rewrite !filter_length_cons; [lia|].
  specialize (IH i Hi). lia.
Qed.

Lemma filter_length_insert {A} (P : A -> Prop) `{!forall x, Decision (P x)} (l : list A) i x y :
  l !! i = Some x -> (P x <-> P y) -> length (filter P (<[i := y]> l)) = length (filter P l).
Proof.
  intros Hi Hxy. pose proof (filter_length_insert_gen P l i x y Hi).
  repeat case_decide; lia || tauto.
Qed.

(** Sums over a list. *)
Fixpoint sumZ {A} (f : A -> Z) (l : list A) : Z :=
  match l with
  | [] => 0
  | x :: l => f x + sumZ f l
  end.

Lemma sumZ_insert {A} (f : A -> Z) (l : list A) i x y :
  l !! i = Some x -> sumZ f (<[i := y]> l) = sumZ f l - f x + f y.
Proof.
  revert i. induction l as [|z l IH]; intros [|i] Hi; simplify_eq/=; [lia|]. rewrite IH by done. lia.
Qed.

Lemma sumZ_zero {A} (f : A -> Z) (l : list A) : Forall (fun x => f x = 0) l -> sumZ f l = 0.
Proof. induction 1 as [|x l Hx _ IH]; cbn; lia. Qed.

Lemma sumZ_nonneg {A} (f : A -> Z) (l : list A) : (forall x, 0 <= f x) -> 0 <= sumZ f l.
Proof. intros Hf. induction l as [|x l IH]; cbn; [lia|]. specialize (Hf x). lia. Qed.

(** Reading with a default inside the list. *)
Lemma nth_lookup_lt {A} (l : list A) i d : (i < length l)%nat -> l !! i = Some (nth i l d).
Proof. intros Hi. destruct (lookup_lt_is_Some_2 l i Hi) as [x Hx]. by rewrite nth_lookup, Hx. Qed.

Lemma nth_insert {A} (l : list A) i j x d :
  (i < length l)%nat -> nth j (<[i := x]> l) d = if decide (i = j) then x else nth j l d.
Proof.
  intros Hi. rewrite !nth_lookup. case_decide as He.
  - subst j. by rewrite list_lookup_insert_eq.
  - by rewrite list_lookup_insert_ne.
Qed.

Lemma seqZ_1 n : seqZ n 1 = [n].
Proof. reflexivity. Qed.

(** ** Bytes and byte buffers *)

Definition byte_ok (b : Z) : Prop := 0 <= b < 256.
Abbreviation bytes_ok := (Forall byte_ok).

#[export] Instance byte_ok_dec b : Decision (byte_ok b).
Proof. unfold byte_ok. apply _. Defined.

(** Byte-list goals whose elements are known to be bytes. *)
Ltac bytes_tac := repeat first [apply Forall_nil_2 | apply Forall_cons_2; [assumption|]].

Ltac bytes_inv H := repeat (apply Forall_cons_1 in H; destruct H as [? H]).

(** The value of a little-endian byte sequence, and its inverse: the target
    is x86-64 (the Makefile's -mavx2 -msse4.2). *)
Fixpoint le_val (bs : list Z) : Z :=
  match bs with
  | [] => 0
  | b :: bs => b + 256 * le_val bs
  end.

Fixpoint le_bytes (n : nat) (v : Z) : list Z :=
  match n with
  | O => []
  | S n => v mod 256 :: le_bytes n (v / 256)
  end.

(** Network byte order. *)
Definition be_bytes (n : nat) (v : Z) : list Z := rev (le_bytes n v).
Definition be_val (bs : list Z) : Z := le_val (rev bs).

Lemma length_le_bytes n v : length (le_bytes n v) = n.
Proof. revert v. induction n; intros v; simpl; auto. Qed.

Lemma length_be_bytes n v : length (be_bytes n v) = n.
Proof. unfold be_bytes. by rewrite length_rev, length_le_bytes. Qed.

Lemma le_bytes_ok n v : bytes_ok (le_bytes n v).
Proof.
  revert v. induction n as [|n IH]; intros v; simpl; constructor; auto.
  unfold byte_ok. apply Z.mod_pos_bound. lia.
Qed.

Lemma be_bytes_ok n v : bytes_ok (be_bytes n v).
Proof. apply Forall_rev, le_bytes_ok. Qed.

Lemma le_val_le_bytes n v : le_val (le_bytes n v) = v mod 2 ^ (8 * Z.of_nat n).
Proof.
  revert v. induction n as [|n IH]; intros v; cbn [le_bytes le_val].
  - by rewrite Z.mul_0_r, Z.mod_1_r.
  - rewrite IH.
    replace (2 ^ (8 * Z.of_nat (S n))) with (256 * 2 ^ (8 * Z.of_nat n)).
    + rewrite Z.rem_mul_r by lia. lia.
    + rewrite Nat2Z.inj_succ. unfold Z.succ.
      rewrite Z.mul_add_distr_l, Z.pow_add_r by lia. change (2 ^ (8 * 1)) with 256. lia.
Qed.

Lemma le_val_range bs : bytes_ok bs -> 0 <= le_val bs < 2 ^ (8 * Z.of_nat (length bs)).
Proof.
  induction 1 as [|b bs Hb _ IH]; cbn [le_val length]; [simpl; lia|].
  rewrite Nat2Z.inj_succ. unfold Z.succ.
  rewrite Z.mul_add_distr_l, Z.pow_add_r by lia. change (2 ^ (8 * 1)) with 256.
  unfold byte_ok in Hb. lia.
Qed.

Lemma le_bytes_le_val bs : bytes_ok bs -> le_bytes (length bs) (le_val bs) = bs.
Proof.
  induction 1 as [|b bs Hb _ IH]; [done|]. unfold byte_ok in Hb.
  cbn [le_val length le_bytes]. f_equal.
  - rewrite (Z.mul_comm 256), Z.mod_add by lia. by apply Z.mod_small.
  - rewrite (Z.mul_comm 256), Z.div_add, Z.div_small by lia. by rewrite Z.add_0_l.
Qed.

Lemma le_bytes_mod n v : le_bytes n (v mod 2 ^ (8 * Z.of_nat n)) = le_bytes n v.
Proof.
  rewrite <- le_val_le_bytes.
  rewrite <- (length_le_bytes n v) at 1.
  apply le_bytes_le_val, le_bytes_ok.
Qed.

Lemma le_val_inj xs ys :
  bytes_ok xs -> bytes_ok ys -> length xs = length ys -> le_val xs = le_val ys -> xs = ys.
Proof.
  intros Hx Hy Hlen Heq.
  rewrite <- (le_bytes_le_val xs), <- (le_bytes_le_val ys) by done. by rewrite Hlen, Heq.
Qed.

Lemma be_val_be_bytes n v : be_val (be_bytes n v) = v mod 2 ^ (8 * Z.of_nat n).
Proof. unfold be_val, be_bytes. rewrite rev_involutive. apply le_val_le_bytes. Qed.

(** Storing bytes at an offset of a buffer, and reading them.  A store never
    changes the length of the buffer. *)
Definition splice (off : nat) (bs b : list Z) : list Z := list_inserts off bs b.
Definition slice (off n : nat) (b : list Z) : list Z := take n (drop off b).

(** Typed loads and stores through a pointer: little-endian, [n] bytes. *)
Definition ld (n off : nat) (b : list Z) : Z := le_val (slice off n b).
Definition st (n off : nat) (v : Z) (b : list Z) : list Z := splice off (le_bytes n v) b.

Lemma length_splice off bs b : length (splice off bs b) = length b.
Proof. apply length_inserts. Qed.

Lemma length_st n off v b : length (st n off v b) = length b.
Proof. apply length_splice. Qed.

Lemma length_slice off n b : (off + n <= length b)%nat -> length (slice off n b) = n.
Proof. intros H. unfold slice. rewrite length_take, length_drop. lia. Qed.

Lemma slice_ok off n b : bytes_ok b -> bytes_ok (slice off n b).
Proof. intros H. by apply Forall_take, Forall_drop. Qed.

Lemma splice_ok off bs b : bytes_ok bs -> bytes_ok b -> bytes_ok (splice off bs b).
Proof. intros H1 H2. by apply Forall_inserts. Qed.

Lemma st_ok n off v b : bytes_ok b -> bytes_ok (st n off v b).
Proof. apply splice_ok, le_bytes_ok. Qed.

Lemma lookup_slice off n b k : slice off n b !! k = if decide (k < n)%nat then b !! (off + k)%nat else None.
Proof.
  unfold slice. rewrite lookup_take, lookup_drop. by destruct (decide (k < n)%nat).
Qed.

Lemma slice_splice_same off n bs b :
  n = length bs -> (off + n <= length b)%nat -> slice off n (splice off bs b) = bs.
Proof.
  intros -> H. apply list_eq. intros k. rewrite lookup_slice. unfold splice. case_decide.
  - rewrite list_lookup_inserts by lia. f_equal. lia.
  - by rewrite lookup_ge_None_2 by lia.
Qed.

Lemma slice_splice_ne off' n off bs b :
  (off' + n <= off \/ off + length bs <= off')%nat ->
  slice off' n (splice off bs b) = slice off' n b.
Proof.
  intros H. apply list_eq. intros k. rewrite !lookup_slice. unfold splice. case_decide; [|done].
  destruct H; [apply list_lookup_inserts_lt|apply list_lookup_inserts_ge]; lia.
Qed.

Lemma slice_st_ne off' n' n off v b :
  (off' + n' <= off \/ off + n <= off')%nat -> slice off' n' (st n off v b) = slice off' n' b.
Proof. intros H. apply slice_splice_ne. by rewrite length_le_bytes. Qed.

Lemma slice_st_same n off v b :
  (off + n <= length b)%nat -> slice off n (st n off v b) = le_bytes n v.
Proof. intros H. apply slice_splice_same; by rewrite ?length_le_bytes. Qed.

Lemma ld_st_same n off v b :
  (off + n <= length b)%nat -> ld n off (st n off v b) = v mod 2 ^ (8 * Z.of_nat n).
Proof. intros H. unfold ld. rewrite slice_st_same by done. apply le_val_le_bytes. Qed.

Lemma ld_st_ne n' off' n off v b :
  (off' + n' <= off \/ off + n <= off')%nat -> ld n' off' (st n off v b) = ld n' off' b.
Proof. intros H. unfold ld. by rewrite slice_st_ne. Qed.

Lemma ld_splice_ne n' off' off bs b :
  (off' + n' <= off \/ off + length bs <= off')%nat -> ld n' off' (splice off bs b) = ld n' off' b.
Proof. intros H. unfold ld. by rewrite slice_splice_ne. Qed.

Lemma ld_range n off b :
  bytes_ok b -> (off + n <= length b)%nat -> 0 <= ld n off b < 2 ^ (8 * Z.of_nat n).
Proof.
  intros Hb H. unfold ld. pose proof (le_val_range (slice off n b) (slice_ok off n b Hb)) as Hr.
  by rewrite length_slice in Hr by done.
Qed.

(** Stores that undo, repeat or commute with one another. *)
Lemma lookup_splice off bs b k :
  (off + length bs <= length b)%nat ->
  splice off bs b !! k =
  if decide (off <= k < off + length bs)%nat then bs !! (k - off)%nat else b !! k.
Proof.
  intros Hl. unfold splice. case_decide.
  - by apply list_lookup_inserts; lia.
  - destruct (decide (k < off)%nat).
    + by apply list_lookup_inserts_lt.
    + apply list_lookup_inserts_ge. lia.
Qed.

Lemma splice_slice off n b : (off + n <= length b)%nat -> splice off (slice off n b) b = b.
Proof.
  intros Hl. apply list_eq. intros k. rewrite lookup_splice by (rewrite length_slice; lia).
  case_decide as Hk; [|done]. rewrite length_slice in Hk by lia.
  rewrite lookup_slice, decide_True by lia. f_equal. lia.
Qed.

Lemma splice_splice off bs bs' b :
  length bs = length bs' -> (off + length bs <= length b)%nat ->
  splice off bs (splice off bs' b) = splice off bs b.
Proof.
  intros He Hl. apply list_eq. intros k.
  rewrite !lookup_splice by (rewrite ?length_splice; lia). rewrite <- He. by case_decide.
Qed.

Lemma splice_comm off bs off' bs' b :
  (off + length bs <= off' \/ off' + length bs' <= off)%nat ->
  (off + length bs <= length b)%nat -> (off' + length bs' <= length b)%nat ->
  splice off bs (splice off' bs' b) = splice off' bs' (splice off bs b).
Proof.
  intros Hd Hl Hl'. apply list_eq. intros k.
  rewrite !lookup_splice by (rewrite ?length_splice; lia). repeat case_decide; done || lia.
Qed.

Lemma st_ld n off b : bytes_ok b -> (off + n <= length b)%nat -> st n off (ld n off b) b = b.
Proof.
  intros Hb Hl. unfold st, ld. rewrite <- (length_slice off n b Hl) at 1.
  rewrite le_bytes_le_val by by apply slice_ok. by apply splice_slice.
Qed.

Lemma st_st n off v v' b : (off + n <= length b)%nat -> st n off v (st n off v' b) = st n off v b.
Proof. intros Hl. apply splice_splice; by rewrite ?length_le_bytes. Qed.

Lemma st_comm n off v n' off' v' b :
  (off + n <= off' \/ off' + n' <= off)%nat -> (off + n <= length b)%nat -> (off' + n' <= length b)%nat ->
  st n off v (st n' off' v' b) = st n' off' v' (st n off v b).
Proof. intros Hd Hl Hl'. apply splice_comm; by rewrite ?length_le_bytes. Qed.

Lemma slice_add off n m b : slice off (n + m) b = slice off n b ++ slice (off + n) m b.
Proof.
  unfold slice. rewrite <- drop_drop. generalize (drop off b). induction n as [|n IH]; intros l; [done|].
  destruct l as [|x l]; cbn; [by rewrite take_nil|]. f_equal. apply IH.
Qed.

(** [memset(b, 0, k)], seen by the loads inside it. *)
Lemma ld_memset n off k b :
  (off + n <= k)%nat -> (k <= length b)%nat -> ld n off (splice 0 (replicate k 0) b) = 0.
Proof.
  intros Hn Hk. unfold ld.
  assert (slice off n (splice 0 (replicate k 0) b) = replicate n 0) as ->.
  { apply list_eq. intros i. rewrite lookup_slice. case_decide.
    - rewrite lookup_splice, length_replicate by (rewrite length_replicate; lia).
      rewrite decide_True by lia. by rewrite !lookup_replicate_2 by lia.
    - symmetry. apply lookup_ge_None_2. rewrite length_replicate. lia. }
  clear. induction n as [|n IH]; [done|]. cbn [replicate le_val]. rewrite IH. done.
Qed.

(** Loads after stores: [bufs] rewrites them away, the offsets being numerals. *)
Create Rewrite HintDb bufs.
#[export] Hint Rewrite length_splice length_st : bufs.
Ltac buf_len := autorewrite with bufs; rewrite ?length_le_bytes, ?length_be_bytes; cbn [length]; lia.
Ltac bufs :=
  repeat first
    [ rewrite length_st | rewrite length_splice
    | rewrite ld_st_same by buf_len | rewrite ld_st_ne by buf_len
    | rewrite ld_splice_ne by buf_len
    | rewrite slice_st_same by buf_len | rewrite slice_st_ne by buf_len
    | rewrite slice_splice_same by buf_len | rewrite slice_splice_ne by buf_len ].
