(* ===== verification/Crc32.v ===== *)
(** * crc32c.c: IEEE CRC-32, the byte-table and the slice-by-8 routine

    [init_crc32_table], [crc32_le], [init_crc32_slice] and
    [crc32_le_slice8] as the code computes them, with the lazily filled
    static tables as explicit state, and [crc_ref], the bit-at-a-time
    division by the reflected polynomial that both routines implement. *)

From S2P Require Import Prelude.

(** ** The static tables *)

Record crc_statics := CrcStatics {
  crc32_table : list Z;
  crc32_table_ready : bool;
  crc32_slice : list (list Z);
  crc32_slice_ready : bool }.

(** The static storage at program start. *)
Definition crc_statics_zero : crc_statics :=
  CrcStatics (replicate 256 0) false (replicate 8 (replicate 256 0)) false.

Definition CRC_POLY : Z := 0xEDB88320.

(** One round of the inner loop: [(c & 1) ? (POLY ^ (c >> 1)) : (c >> 1)]. *)
Definition crc_bit (c : Z) : Z :=
  if Z.land c 1 =? 0 then Z.shiftr c 1 else Z.lxor CRC_POLY (Z.shiftr c 1).

(** The eight rounds that fill one entry. *)
Definition crc_entry (i : Z) : Z := Nat.iter 8 crc_bit i.

Definition init_crc32_table (s : crc_statics) : crc_statics :=
  CrcStatics (crc_entry <$> seqZ 0 256) true (crc32_slice s) (crc32_slice_ready s).

Definition tab (t : list Z) (i : Z) : Z := nth (Z.to_nat i) t 0.

(** [T[(crc ^ b) & 0xFF] ^ (crc >> 8)] *)
Definition crc_table_step (t : list Z) (crc b : Z) : Z :=
  Z.lxor (tab t (Z.land (Z.lxor crc b) 0xFF)) (Z.shiftr crc 8).

Definition crc32_le (s : crc_statics) (crc : Z) (data : list Z) : Z * crc_statics :=
  let s := if crc32_table_ready s then s else init_crc32_table s in
  (fold_left (crc_table_step (crc32_table s)) data crc, s).

(** [slice[n][i]] from [slice[n-1][i]]. *)
Definition crc_slice_next (t0 : list Z) (c : Z) : Z :=
  Z.lxor (tab t0 (Z.land c 0xFF)) (Z.shiftr c 8).

Fixpoint crc_slice_rows (t0 row : list Z) (n : nat) : list (list Z) :=
  match n with
  | O => []
  | S n => row :: crc_slice_rows t0 (crc_slice_next t0 <$> row) n
  end.

Definition init_crc32_slice (s : crc_statics) : crc_statics :=
  let t0 := crc_entry <$> seqZ 0 256 in
  CrcStatics (crc32_table s) (crc32_table_ready s) (crc_slice_rows t0 t0 8) true.

Definition tab2 (t : list (list Z)) (n : nat) (i : Z) : Z := tab (nth n t []) i.

(** The body of the eight-bytes-at-a-time loop, [d] the eight bytes. *)
Definition crc_slice_step (t : list (list Z)) (crc : Z) (d : list Z) : Z :=
  let b k := nth k d 0 in
  let crc := Z.lxor crc (Z.lor (Z.lor (Z.lor (b 0%nat) (Z.shiftl (b 1%nat) 8))
                                      (Z.shiftl (b 2%nat) 16)) (Z.shiftl (b 3%nat) 24)) in
  let w := Z.lor (Z.lor (Z.lor (b 4%nat) (Z.shiftl (b 5%nat) 8))
                        (Z.shiftl (b 6%nat) 16)) (Z.shiftl (b 7%nat) 24) in
  Z.lxor (Z.lxor (Z.lxor (Z.lxor (Z.lxor (Z.lxor (Z.lxor
    (tab2 t 7 (Z.land crc 0xFF))
    (tab2 t 6 (Z.land (Z.shiftr crc 8) 0xFF)))
    (tab2 t 5 (Z.land (Z.shiftr crc 16) 0xFF)))
    (tab2 t 4 (Z.land (Z.shiftr crc 24) 0xFF)))
    (tab2 t 3 (Z.land w 0xFF)))
    (tab2 t 2 (Z.land (Z.shiftr w 8) 0xFF)))
    (tab2 t 1 (Z.land (Z.shiftr w 16) 0xFF)))
    (tab2 t 0 (Z.land (Z.shiftr w 24) 0xFF)).

(** [while (length >= 8) ...; while (length--) ...]: the first loop consumes
    eight bytes per round, the second one byte per round. *)
Fixpoint crc_slice_loop (t : list (list Z)) (crc : Z) (data : list Z) : Z :=
  match data with
  | b0 :: b1 :: b2 :: b3 :: b4 :: b5 :: b6 :: b7 :: rest =>
      crc_slice_loop t (crc_slice_step t crc [b0; b1; b2; b3; b4; b5; b6; b7]) rest
  | _ => fold_left (crc_table_step (nth 0 t [])) data crc
  end.

Definition crc32_le_slice8 (s : crc_statics) (crc : Z) (data : list Z) : Z * crc_statics :=
  let s := if crc32_slice_ready s then s else init_crc32_slice s in
  (crc_slice_loop (crc32_slice s) crc data, s).

(** ** The reference: one bit at a time *)

Definition crc_byte (crc b : Z) : Z := Nat.iter 8 crc_bit (Z.lxor crc b).
Definition crc_ref (crc : Z) (data : list Z) : Z := fold_left crc_byte data crc.

(** The tables, once filled, are the ones the initialisers write. *)
Definition crc_statics_ok (s : crc_statics) : Prop :=
  (crc32_table_ready s = true -> crc32_table s = crc_entry <$> seqZ 0 256) /\
  (crc32_slice_ready s = true ->
   crc32_slice s = crc_slice_rows (crc_entry <$> seqZ 0 256) (crc_entry <$> seqZ 0 256) 8).

Lemma crc_statics_zero_ok : crc_statics_ok crc_statics_zero.
Proof. split; discriminate. Qed.

(** ** Linearity of the division step *)

Lemma crc_bit_lxor a b : crc_bit (Z.lxor a b) = Z.lxor (crc_bit a) (crc_bit b).
Proof.
  assert (Hb : forall c, crc_bit c = Z.lxor (if Z.testbit c 0 then CRC_POLY else 0) (Z.shiftr c 1)).
  { intros c. unfold crc_bit. change 1 with (Z.ones 1) at 1. rewrite Z.land_ones by lia.
    change (2 ^ 1) with 2. rewrite <- Z.bit0_mod.
    destruct (Z.testbit c 0); [done|]. by rewrite Z.lxor_0_l. }
  rewrite !Hb, Z.lxor_spec, Z.shiftr_lxor.
  destruct (Z.testbit a 0), (Z.testbit b 0); simpl xorb; cbv iota;
    lxor_solve.
Qed.

Lemma crc_iter_lxor n a b :
  Nat.iter n crc_bit (Z.lxor a b) = Z.lxor (Nat.iter n crc_bit a) (Nat.iter n crc_bit b).
Proof. induction n as [|n IH]; simpl; [done|]. by rewrite IH, crc_bit_lxor. Qed.

(** A round on a value whose low bit is clear is a shift. *)
Lemma crc_bit_shiftl v k : 0 < k -> crc_bit (Z.shiftl v k) = Z.shiftl v (k - 1).
Proof.
  intros Hk. unfold crc_bit.
  assert (Z.land (Z.shiftl v k) 1 = 0) as ->.
  { change 1 with (Z.ones 1). rewrite Z.land_ones by lia.
    rewrite <- Z.bit0_mod, Z.shiftl_spec_low by lia. done. }
  simpl. rewrite Z.shiftr_shiftl_l by lia. done.
Qed.

Lemma crc_iter_shiftl n v k :
  Z.of_nat n <= k -> Nat.iter n crc_bit (Z.shiftl v k) = Z.shiftl v (k - Z.of_nat n).
Proof.
  induction n as [|n IH]; intros Hk; [by rewrite Z.sub_0_r|].
  rewrite Nat.iter_succ, IH, crc_bit_shiftl by lia. f_equal. lia.
Qed.

Lemma crc_iter_add n m v : Nat.iter (n + m) crc_bit v = Nat.iter n crc_bit (Nat.iter m crc_bit v).
Proof. apply Nat.iter_add. Qed.

(** Splitting off the low byte. *)
Lemma lxor_low_high x k : 0 <= k -> x = Z.lxor (Z.land x (Z.ones k)) (Z.shiftl (Z.shiftr x k) k).
Proof.
  intros Hk. apply Z.bits_inj'. intros i Hi.
  rewrite Z.lxor_spec, Z.land_spec, Z.testbit_ones_nonneg by lia.
  destruct (Z.ltb_spec i k).
  - rewrite Z.shiftl_spec_low by lia. by rewrite andb_true_r, xorb_false_r.
  - rewrite Z.shiftl_spec, Z.shiftr_spec by lia.
    rewrite andb_false_r, xorb_false_l. f_equal. lia.
Qed.

(** Eight rounds: the entry of the low byte, and the rest shifted. *)
Lemma crc_iter8_split x :
  Nat.iter 8 crc_bit x = Z.lxor (crc_entry (Z.land x 0xFF)) (Z.shiftr x 8).
Proof.
  rewrite (lxor_low_high x 8) at 1 by lia. change (Z.ones 8) with 0xFF.
  rewrite crc_iter_lxor, (crc_iter_shiftl 8) by lia. by rewrite Z.shiftl_0_r.
Qed.

(** ** The byte table computes the reference *)

Lemma land_ff_range x : 0 <= Z.land x 0xFF < 256.
Proof. change 0xFF with (Z.ones 8). rewrite Z.land_ones by lia. apply Z.mod_pos_bound. lia. Qed.

Lemma tab_seqZ (f : Z -> Z) i : 0 <= i < 256 -> tab (f <$> seqZ 0 256) i = f i.
Proof.
  intros Hi. unfold tab. rewrite nth_lookup, list_lookup_fmap, lookup_seqZ_lt by lia.
  simpl. by rewrite Z2Nat.id by lia.
Qed.

Lemma crc_table_step_ref crc b :
  byte_ok b -> crc_table_step (crc_entry <$> seqZ 0 256) crc b = crc_byte crc b.
Proof.
  intros Hb. unfold crc_table_step, crc_byte. rewrite tab_seqZ by apply land_ff_range.
  rewrite (crc_iter8_split (Z.lxor crc b)), Z.shiftr_lxor, (Z.shiftr_div_pow2 b) by lia.
  rewrite Z.div_small by (unfold byte_ok in Hb; lia). by rewrite Z.lxor_0_r.
Qed.

Lemma fold_crc_table crc data :
  bytes_ok data -> fold_left (crc_table_step (crc_entry <$> seqZ 0 256)) data crc = crc_ref crc data.
Proof.
  intros Hd. revert crc. induction Hd as [|b data Hb _ IH]; intros crc; [done|].
  cbn [fold_left]. rewrite crc_table_step_ref by done. apply IH.
Qed.

(** ** Consuming several bytes at once *)

Lemma byte_lxor_shift b w : byte_ok b -> b + 256 * w = Z.lxor b (Z.shiftl w 8).
Proof. intros Hb. apply (lxor_low_shift b w 8); [exact Hb|lia]. Qed.

(** The fold over bytes is one division of [crc ^ bytes], [8 * length]
    rounds long, when the accumulator has been aligned with the data. *)
Lemma crc_ref_le_val crc data :
  bytes_ok data ->
  crc_ref crc data = Nat.iter (8 * length data) crc_bit (Z.lxor crc (le_val data)).
Proof.
  intros Hd. revert crc. induction Hd as [|b data Hb _ IH]; intros crc.
  - cbn. by rewrite Z.lxor_0_r.
  - unfold crc_ref. cbn [fold_left length le_val]. fold (crc_ref (crc_byte crc b) data).
    rewrite IH. replace (8 * S (length data))%nat with (8 * length data + 8)%nat by lia.
    rewrite crc_iter_add. f_equal. unfold crc_byte.
    rewrite (byte_lxor_shift b) by done.
    rewrite <- Z.lxor_assoc, (crc_iter_lxor 8 (Z.lxor crc b)), (crc_iter_shiftl 8) by lia.
    by rewrite Z.shiftl_0_r.
Qed.

(** ** The slice tables *)

Lemma crc_slice_next_iter c :
  crc_slice_next (crc_entry <$> seqZ 0 256) c = Nat.iter 8 crc_bit c.
Proof.
  unfold crc_slice_next. rewrite tab_seqZ by apply land_ff_range. by rewrite (crc_iter8_split c).
Qed.

Lemma crc_slice_rows_nth n k (f : Z -> Z) i :
  (k < n)%nat -> 0 <= i < 256 ->
  tab2 (crc_slice_rows (crc_entry <$> seqZ 0 256) (f <$> seqZ 0 256) n) k i =
  Nat.iter (8 * k) crc_bit (f i).
Proof.
  revert k f. induction n as [|n IH]; intros k f Hk Hi; [lia|].
  destruct k as [|k]; cbn [crc_slice_rows]; unfold tab2; cbn [nth].
  - by rewrite tab_seqZ.
  - rewrite <- list_fmap_compose. fold (tab2 (crc_slice_rows (crc_entry <$> seqZ 0 256)
      ((crc_slice_next (crc_entry <$> seqZ 0 256) ∘ f) <$> seqZ 0 256) n) k i).
    rewrite IH by lia. cbn [compose]. rewrite crc_slice_next_iter, <- crc_iter_add.
    f_equal. lia.
Qed.

Definition crc_slices : list (list Z) :=
  crc_slice_rows (crc_entry <$> seqZ 0 256) (crc_entry <$> seqZ 0 256) 8.

(** [slice[n][i]] divides byte [i] by [8 * (n + 1)] rounds. *)
Lemma crc_slices_nth k i :
  (k < 8)%nat -> 0 <= i < 256 -> tab2 crc_slices k i = Nat.iter (8 * (k + 1)) crc_bit i.
Proof.
  intros Hk Hi. unfold crc_slices. rewrite crc_slice_rows_nth by done.
  unfold crc_entry. rewrite <- crc_iter_add. f_equal. lia.
Qed.

(** The word the loop assembles from four bytes. *)
Lemma lor4_le_val b0 b1 b2 b3 :
  byte_ok b0 -> byte_ok b1 -> byte_ok b2 -> byte_ok b3 ->
  Z.lor (Z.lor (Z.lor b0 (Z.shiftl b1 8)) (Z.shiftl b2 16)) (Z.shiftl b3 24) =
  le_val [b0; b1; b2; b3].
Proof.
  unfold byte_ok. intros H0 H1 H2 H3. cbn [le_val].
  rewrite (lor_low_high b0 b1 8), (lor_low_high _ b2 16), (lor_low_high _ b3 24) by lia. lia.
Qed.

(** A 32-bit word from its four bytes, as the tables are indexed. *)
Lemma word_bytes x :
  is_u32 x ->
  x = Z.lxor (Z.lxor (Z.lxor (Z.land x 0xFF) (Z.shiftl (Z.land (Z.shiftr x 8) 0xFF) 8))
                     (Z.shiftl (Z.land (Z.shiftr x 16) 0xFF) 16))
             (Z.shiftl (Z.land (Z.shiftr x 24) 0xFF) 24).
Proof.
  intros Hx.
  assert (Hs : forall y, y = Z.lxor (Z.land y 0xFF) (Z.shiftl (Z.shiftr y 8) 8)).
  { intros y. apply (lxor_low_high y 8). lia. }
  assert (Htop : Z.land (Z.shiftr x 24) 0xFF = Z.shiftr x 24).
  { change 0xFF with (Z.ones 8). rewrite Z.land_ones, Z.shiftr_div_pow2 by lia.
    apply Z.mod_small. unfold is_u32 in Hx. split; [apply Z.div_pos; lia|].
    apply Z.div_lt_upper_bound; lia. }
  rewrite (Hs x) at 1. rewrite (Hs (Z.shiftr x 8)) at 1. rewrite Z.shiftr_shiftr by lia.
  change (8 + 8) with 16.
  rewrite (Hs (Z.shiftr x 16)) at 1. rewrite Z.shiftr_shiftr by lia. change (16 + 8) with 24.
  rewrite !Z.shiftl_lxor, !Z.shiftl_shiftl by lia.
  change (8 + 8) with 16. change (16 + 8) with 24. change (8 + 16) with 24.
  rewrite Htop. lxor_solve.
Qed.

Lemma crc_iter_shift n j v :
  Nat.iter (n + j) crc_bit (Z.shiftl v (Z.of_nat j)) = Nat.iter n crc_bit v.
Proof.
  rewrite crc_iter_add, crc_iter_shiftl by lia. by rewrite Z.sub_diag, Z.shiftl_0_r.
Qed.

(** Dividing a 32-bit word by [8 * (4 + k)] rounds, byte by byte. *)
Lemma crc_iter_word k x :
  is_u32 x -> (k <= 4)%nat ->
  Nat.iter (8 * (4 + k)) crc_bit x =
  Z.lxor (Z.lxor (Z.lxor
    (tab2 crc_slices (k + 3) (Z.land x 0xFF))
    (tab2 crc_slices (k + 2) (Z.land (Z.shiftr x 8) 0xFF)))
    (tab2 crc_slices (k + 1) (Z.land (Z.shiftr x 16) 0xFF)))
    (tab2 crc_slices k (Z.land (Z.shiftr x 24) 0xFF)).
Proof.
  intros Hx Hk. rewrite (word_bytes x Hx) at 1.
  rewrite !crc_slices_nth by (try apply land_ff_range; lia).
  rewrite !crc_iter_lxor. f_equal; [f_equal; [f_equal|]|].
  - f_equal. lia.
  - replace (8 * (4 + k))%nat with (8 * (k + 2 + 1) + 8)%nat by lia. apply (crc_iter_shift _ 8).
  - replace (8 * (4 + k))%nat with (8 * (k + 1 + 1) + 16)%nat by lia. apply (crc_iter_shift _ 16).
  - replace (8 * (4 + k))%nat with (8 * (k + 1) + 24)%nat by lia. apply (crc_iter_shift _ 24).
Qed.

Lemma lxor_u32 x y : is_u32 x -> is_u32 y -> is_u32 (Z.lxor x y).
Proof.
  unfold is_u32. intros Hx Hy. split; [apply Z.lxor_nonneg; lia|].
  destruct (decide (Z.lxor x y = 0)) as [->|Hne]; [lia|].
  apply Z.log2_lt_pow2; [pose proof (proj2 (Z.lxor_nonneg x y)); lia|].
  eapply Z.le_lt_trans; [apply Z.log2_lxor; lia|].
  destruct (decide (x = 0)) as [->|]; destruct (decide (y = 0)) as [->|];
    simpl Z.log2; try lia; rewrite ?Z.max_lt_iff, ?Z.max_lub_lt_iff; repeat split; try lia;
    apply Z.log2_lt_pow2; lia.
Qed.

(** One round of the eight-byte loop is eight rounds of the byte loop. *)
Lemma crc_slice_step_ref crc d :
  is_u32 crc -> bytes_ok d -> length d = 8%nat -> crc_slice_step crc_slices crc d = crc_ref crc d.
Proof.
  intros Hc Hd Hl. rewrite crc_ref_le_val by done.
  destruct d as [|b0 [|b1 [|b2 [|b3 [|b4 [|b5 [|b6 [|b7 [|]]]]]]]]]; try discriminate.
  bytes_inv Hd.
  unfold crc_slice_step. cbn [nth]. rewrite !lor4_le_val by assumption.
  pose proof (le_val_range [b0; b1; b2; b3]) as Hlo.
  pose proof (le_val_range [b4; b5; b6; b7]) as Hhi.
  cbn [length Z.of_nat] in Hlo, Hhi.
  assert (is_u32 (le_val [b0; b1; b2; b3])) as Hlo' by (apply Hlo; bytes_tac).
  assert (is_u32 (le_val [b4; b5; b6; b7])) as Hhi' by (apply Hhi; bytes_tac).
  replace (le_val [b0; b1; b2; b3; b4; b5; b6; b7])
    with (Z.lxor (le_val [b0; b1; b2; b3]) (Z.shiftl (le_val [b4; b5; b6; b7]) 32)).
  2:{ rewrite <- lxor_low_shift by (exact Hlo' || lia). cbn [le_val]. lia. }
  rewrite <- Z.lxor_assoc, crc_iter_lxor.
  change (8 * length [b0; b1; b2; b3; b4; b5; b6; b7])%nat with (8 * (4 + 0) + 32)%nat at 2.
  rewrite (crc_iter_shift _ 32).
  change (8 * length [b0; b1; b2; b3; b4; b5; b6; b7])%nat with (8 * (4 + 4))%nat.
  rewrite (crc_iter_word 4), (crc_iter_word 0) by (auto using lxor_u32 with lia).
  cbn [Nat.add]. lxor_solve.
Qed.

(** ** Ranges and injectivity *)

Lemma crc_bit_u32 c : is_u32 c -> is_u32 (crc_bit c).
Proof.
  intros Hc. assert (Hs : is_u32 (Z.shiftr c 1)).
  { rewrite Z.shiftr_div_pow2 by lia. change (2 ^ 1) with 2. unfold is_u32 in *. zdiv. }
  unfold crc_bit. destruct (_ =? 0); [done|]. apply lxor_u32; [|done].
  unfold is_u32, CRC_POLY. lia.
Qed.

Lemma crc_iter_u32 n c : is_u32 c -> is_u32 (Nat.iter n crc_bit c).
Proof. intros Hc. induction n; [done|]. rewrite Nat.iter_succ. by apply crc_bit_u32. Qed.

Lemma byte_u32 b : byte_ok b -> is_u32 b.
Proof. unfold byte_ok, is_u32. lia. Qed.

Lemma crc_ref_u32 crc data : is_u32 crc -> bytes_ok data -> is_u32 (crc_ref crc data).
Proof.
  intros Hc Hd. revert crc Hc. induction Hd as [|b data Hb _ IH]; intros crc Hc; [done|].
  apply IH. unfold crc_byte. by apply crc_iter_u32, lxor_u32; [|apply byte_u32].
Qed.

(** The polynomial has bit 31 set, so a round loses nothing. *)
Lemma crc_bit_zero c : is_u32 c -> crc_bit c = 0 -> c = 0.
Proof.
  intros Hc Hz. unfold crc_bit in Hz.
  assert (Hl : Z.land c 1 = c mod 2) by (change 1 with (Z.ones 1); by rewrite Z.land_ones by lia).
  rewrite Hl in Hz. rewrite Z.shiftr_div_pow2 in Hz by lia. change (2 ^ 1) with 2 in Hz.
  destruct (Z.eqb_spec (c mod 2) 0) as [He|He]; [zdiv|].
  apply Z.lxor_eq in Hz. unfold is_u32, CRC_POLY in *. zdiv.
Qed.

Lemma crc_iter_inj n a b :
  is_u32 a -> is_u32 b -> Nat.iter n crc_bit a = Nat.iter n crc_bit b -> a = b.
Proof.
  intros Ha Hb He. apply Z.lxor_eq.
  assert (Hx : is_u32 (Z.lxor a b)) by by apply lxor_u32.
  assert (Hz : Nat.iter n crc_bit (Z.lxor a b) = 0).
  { by rewrite crc_iter_lxor, He, Z.lxor_nilpotent. }
  clear He. induction n as [|n IH]; [exact Hz|].
  rewrite Nat.iter_succ in Hz. apply IH, crc_bit_zero; [by apply crc_iter_u32|done].
Qed.

Lemma crc_ref_app crc xs ys : crc_ref crc (xs ++ ys) = crc_ref (crc_ref crc xs) ys.
Proof. apply fold_left_app. Qed.

Lemma crc_ref_inj data a b :
  bytes_ok data -> is_u32 a -> is_u32 b -> crc_ref a data = crc_ref b data -> a = b.
Proof.
  intros Hd. revert a b. induction Hd as [|x data Hx Hd IH]; intros a b Ha Hb He; [done|].
  apply IH in He; [|by apply crc_iter_u32, lxor_u32; [|apply byte_u32]..].
  apply crc_iter_inj in He; [|by apply lxor_u32; [|apply byte_u32]..].
  rewrite <- (Z.lxor_0_r a), <- (Z.lxor_0_r b), <- (Z.lxor_nilpotent x).
  by rewrite <- !Z.lxor_assoc, He.
Qed.

(** ** The two routines and the reference *)

Lemma crc_slice_loop_ref crc data :
  is_u32 crc -> bytes_ok data -> crc_slice_loop crc_slices crc data = crc_ref crc data.
Proof.
  remember (length data) as n eqn:Hn. revert crc data Hn.
  induction (lt_wf n) as [n _ IH]. intros crc data -> Hc Hd.
  destruct data as [|b0 [|b1 [|b2 [|b3 [|b4 [|b5 [|b6 [|b7 rest]]]]]]]];
    try exact (fold_crc_table crc _ Hd).
  cbn [crc_slice_loop].
  change (b0 :: b1 :: b2 :: b3 :: b4 :: b5 :: b6 :: b7 :: rest)
    with ([b0; b1; b2; b3; b4; b5; b6; b7] ++ rest) in *.
  apply Forall_app in Hd as [Hd8 Hrest].
  rewrite crc_slice_step_ref by done. rewrite crc_ref_app.
  eapply IH; [|reflexivity|by apply crc_ref_u32|done].
  rewrite length_app. cbn. lia.
Qed.

Lemma init_crc32_slice_ok s : crc_statics_ok s -> crc_statics_ok (init_crc32_slice s).
Proof. intros [H1 H2]. split; [exact H1|done]. Qed.

Lemma init_crc32_table_ok s : crc_statics_ok s -> crc_statics_ok (init_crc32_table s).
Proof. intros [H1 H2]. split; [done|exact H2]. Qed.

(** The calls, against the reference. *)
Lemma crc32_le_slice8_ref s crc data :
  crc_statics_ok s -> is_u32 crc -> bytes_ok data ->
  fst (crc32_le_slice8 s crc data) = crc_ref crc data /\
  crc_statics_ok (snd (crc32_le_slice8 s crc data)).
Proof.
  intros Hs Hc Hd. unfold crc32_le_slice8. cbn [fst snd].
  destruct (crc32_slice_ready s) eqn:Er; [destruct Hs as [Ht Hsl]; rewrite (Hsl Er)|];
    (split; [by apply crc_slice_loop_ref|]); [by split|by apply init_crc32_slice_ok].
Qed.

(** Buffers that differ only within four consecutive bytes have different
    CRCs. *)
Lemma crc_ref_burst crc pre d1 d2 post :
  is_u32 crc -> bytes_ok pre -> bytes_ok d1 -> bytes_ok d2 -> bytes_ok post ->
  length d1 = length d2 -> (length d1 <= 4)%nat ->
  crc_ref crc (pre ++ d1 ++ post) = crc_ref crc (pre ++ d2 ++ post) -> d1 = d2.
Proof.
  intros Hc Hpre H1 H2 Hpost Hl Hle He. rewrite !crc_ref_app in He.
  pose proof (crc_ref_u32 crc pre Hc Hpre) as Hp.
  apply crc_ref_inj in He; [|done|by apply crc_ref_u32..].
  rewrite (crc_ref_le_val _ d1), (crc_ref_le_val _ d2), Hl in He by done.
  assert (Hr : forall d, bytes_ok d -> (length d <= 4)%nat -> is_u32 (le_val d)).
  { intros d Hd Hld. pose proof (le_val_range d Hd) as Hv. unfold is_u32.
    pose proof (Z.pow_le_mono_r 2 (8 * Z.of_nat (length d)) 32). lia. }
  apply crc_iter_inj in He; [|apply lxor_u32; [done|apply Hr; [done|lia]]..].
  apply le_val_inj; [done..|].
  rewrite <- (Z.lxor_0_l (le_val d1)), <- (Z.lxor_0_l (le_val d2)).
  rewrite <- (Z.lxor_nilpotent (crc_ref crc pre)), !Z.lxor_assoc. by rewrite He.
Qed.

(** ** Properties *)

(** C11 The eight-bytes-at-a-time routine and the
    byte-at-a-time one both compute the bit-by-bit CRC-32 of any byte
    sequence, whether or not their tables were filled before, and leave the
    tables as the initialisers write them. *)
Theorem crc32_le_slice8_correct s crc data :
  crc_statics_ok s -> is_u32 crc -> bytes_ok data ->
  fst (crc32_le_slice8 s crc data) = crc_ref crc data /\
  fst (crc32_le s crc data) = crc_ref crc data /\
  crc_statics_ok (snd (crc32_le_slice8 s crc data)) /\
  crc_statics_ok (snd (crc32_le s crc data)).
Proof.
  intros Hs Hc Hd. unfold crc32_le_slice8, crc32_le. cbn [fst snd].
  destruct (crc32_slice_ready s) eqn:Es, (crc32_table_ready s) eqn:Et; cbn [snd];
    repeat split; auto using init_crc32_slice_ok, init_crc32_table_ok;
    try (destruct Hs as [H1 H2]; rewrite ?H1, ?H2 by done);
    auto using fold_crc_table, crc_slice_loop_ref.
Qed.

(** The check value of CRC-32: "123456789" gives ~0xCBF43926. *)
Lemma crc32_le_slice8_correct_witness :
  fst (crc32_le_slice8 crc_statics_zero 0xFFFFFFFF [0x31; 0x32; 0x33; 0x34; 0x35; 0x36; 0x37; 0x38; 0x39])
  = Z.lxor 0xFFFFFFFF 0xCBF43926.
Proof.
  destruct (crc32_le_slice8_correct crc_statics_zero 0xFFFFFFFF
              [0x31; 0x32; 0x33; 0x34; 0x35; 0x36; 0x37; 0x38; 0x39]) as [-> _].
  - apply crc_statics_zero_ok.
  - unfold is_u32. lia.
  - by_dec.
  - by vm_compute.
Defined.
