(* ===== verification/Inet.v ===== *)
(** * Strings and addresses: what main.c and log.c use of the C library

    C strings as lists of character codes without the final NUL; the
    conversions the program relies on ([atoi], [strtoul] with base 0, the
    directives of its [sscanf], [%u] of [printf], [inet_addr], [htonl]) as
    executable functions, and the facts that relate printing and reading. *)

From Stdlib Require Import Strings.Ascii Strings.String.
From S2P Require Import Prelude.

(** ** Characters and strings *)

(** The codes of a literal. *)
Fixpoint str (s : string) : list Z :=
  match s with
  | EmptyString => []
  | String c s => Z.of_N (N_of_ascii c) :: str s
  end.

Arguments str _%_string_scope.

Definition isdigit (c : Z) : bool := (48 <=? c) && (c <=? 57).
Definition isodigit (c : Z) : bool := (48 <=? c) && (c <=? 55).
Definition isxdigit (c : Z) : bool :=
  isdigit c || ((65 <=? c) && (c <=? 70)) || ((97 <=? c) && (c <=? 102)).
(** [isspace] in the C locale. *)
Definition isspace (c : Z) : bool := (c =? 32) || ((9 <=? c) && (c <=? 13)).

Definition digit_value (c : Z) : Z :=
  if isdigit c then c - 48 else if 97 <=? c then c - 87 else c - 55.

Definition number (base : Z) (ds : list Z) : Z :=
  fold_left (fun v c => v * base + digit_value c) ds 0.

(** The longest prefix of characters satisfying [f], at most [width]. *)
Fixpoint span (f : Z -> bool) (s : list Z) : list Z * list Z :=
  match s with
  | c :: s' => if f c then let '(w, r) := span f s' in (c :: w, r) else ([], s)
  | [] => ([], [])
  end.

Fixpoint span_upto (width : nat) (f : Z -> bool) (s : list Z) : list Z * list Z :=
  match width, s with
  | S width, c :: s' => if f c then let '(w, r) := span_upto width f s' in (c :: w, r) else ([], s)
  | _, _ => ([], s)
  end.

Definition skip_spaces (s : list Z) : list Z := snd (span isspace s).

(** The text after the character [c]. *)
Definition after (c : Z) (s : list Z) : option (list Z) :=
  match s with x :: s => if x =? c then Some s else None | [] => None end.

(** [strstr(s, prefix) == s]: the text after the prefix. *)
Fixpoint after_prefix (prefix s : list Z) : option (list Z) :=
  match prefix, s with
  | [], _ => Some s
  | p :: prefix, s => s' ← after p s; after_prefix prefix s'
  end.

(** ** Numbers *)

(** [strtol(s, &end, 10)]: white space, a sign, digits; out of range it is
    clamped to [long].  [None] when there is no digit. *)
Definition clamp_long (v : Z) : Z := Z.max (- 2 ^ 63) (Z.min v (2 ^ 63 - 1)).

Definition strtol10 (s : list Z) : option (Z * list Z) :=
  let s := skip_spaces s in
  let '(neg, s) := match after 45 s, after 43 s with
                   | Some s, _ => (true, s)
                   | _, Some s => (false, s)
                   | None, None => (false, s)
                   end in
  match span isdigit s with
  | ([], _) => None
  | (ds, rest) => Some (clamp_long (if neg then - number 10 ds else number 10 ds), rest)
  end.

(** A value stored in an [int]. *)
Definition s32 (v : Z) : Z := (v + 2 ^ 31) mod 2 ^ 32 - 2 ^ 31.

Definition atoi (s : list Z) : Z :=
  match strtol10 s with Some (v, _) => s32 v | None => 0 end.

(** [strtoul(s, &end, 0)] of a string that starts with a digit: hexadecimal
    after 0x, octal after 0, decimal otherwise; not clamped. *)
Definition strtoul0 (s : list Z) : Z * list Z :=
  let hex := match s with
             | z :: x :: d :: r => if (z =? 48) && ((x =? 120) || (x =? 88)) && isxdigit d then Some (d :: r) else None
             | _ => None
             end in
  match hex, after 48 s with
  | Some s, _ => let '(ds, rest) := span isxdigit s in (number 16 ds, rest)
  | None, Some _ => let '(ds, rest) := span isodigit s in (number 8 ds, rest)
  | None, None => let '(ds, rest) := span isdigit s in (number 10 ds, rest)
  end.

(** [%u] and [%lu] of a non-negative value: decimal digits, most significant
    first. *)
Fixpoint dec_digits (fuel : nat) (v : Z) : list Z :=
  match fuel with
  | O => []
  | S fuel => (if v <? 10 then [] else dec_digits fuel (v / 10)) ++ [48 + v mod 10]
  end.

Definition dec (v : Z) : list Z := dec_digits 20 v.

(** ** Byte order *)

(** [htonl] on the little-endian target; [ntohl] is the same function. *)
Definition htonl (v : Z) : Z := le_val (be_bytes 4 v).

(** ** [inet_addr] *)

Definition INADDR_NONE : Z := 0xFFFFFFFF.

(** The numbers separated by dots, at most four, all but the last in a
    byte; the bytes so far, the last number and the rest of the text. *)
Fixpoint inet_parts (dots : nat) (acc cp : list Z) : option (list Z * Z * list Z) :=
  match cp with
  | c :: _ =>
      if isdigit c then
        let '(v, rest) := strtoul0 cp in
        if 0xFFFFFFFF <? v then None
        else
          match after 46 rest, dots with
          | None, _ => Some (acc, v, rest)
          | Some _, O => None
          | Some rest, S dots => if 0xFF <? v then None else inet_parts dots (acc ++ [v]) rest
          end
      else None
  | [] => None
  end.

Definition inet_addr (cp : list Z) : Z :=
  match inet_parts 3 [] cp with
  | Some (acc, v, rest) =>
      let trailing := match rest with [] => true | c :: _ => isspace c end in
      if trailing && (v <=? nth (length acc) [0xFFFFFFFF; 0xFFFFFF; 0xFFFF; 0xFF] 0)
      then Z.lor (le_val acc) (htonl v) else INADDR_NONE
  | None => INADDR_NONE
  end.

(** ** [htonl] *)

Lemma htonl_range v : is_u32 (htonl v).
Proof.
  unfold htonl, is_u32. pose proof (le_val_range (be_bytes 4 v) (be_bytes_ok 4 v)) as Hr.
  by rewrite length_be_bytes in Hr.
Qed.

Lemma htonl_involutive v : is_u32 v -> htonl (htonl v) = v.
Proof.
  intros Hv. unfold htonl at 1, be_bytes. unfold htonl. rewrite <- (length_be_bytes 4 v) at 1.
  rewrite le_bytes_le_val by apply be_bytes_ok. unfold be_bytes. rewrite rev_involutive, le_val_le_bytes.
  by apply Z.mod_small.
Qed.

Example inet_1 : inet_addr (str "10.0.0.100") = htonl 0x0A000064. Proof. reflexivity. Qed.
Example inet_2 : inet_addr (str "10.1") = htonl 0x0A000001. Proof. reflexivity. Qed.
Example inet_3 : inet_addr (str "0x7f.0.0.010 x") = htonl 0x7F000008. Proof. reflexivity. Qed.
Example inet_4 : inet_addr (str "10.0.0.256") = INADDR_NONE. Proof. reflexivity. Qed.
Example inet_5 : inet_addr (str "gateway") = INADDR_NONE. Proof. reflexivity. Qed.
Example atoi_1 : atoi (str " -12x") = -12. Proof. reflexivity. Qed.
Example atoi_2 : atoi (str "4294967297") = 1. Proof. reflexivity. Qed.

(** ** Reading what was printed *)

(** The text goes on with something that is not part of a number. *)
Definition number_end (rest : list Z) : Prop :=
  match rest with c :: _ => isdigit c = false /\ c <> 120 /\ c <> 88 | [] => True end.

Lemma span_app f w rest :
  Forall (fun c => f c = true) w -> match rest with c :: _ => f c = false | [] => True end ->
  span f (w ++ rest) = (w, rest).
Proof.
  intros Hw Hr. induction Hw as [|c w Hc Hw IH]; cbn.
  - destruct rest as [|c rest]; [done|]. cbn. by rewrite Hr.
  - by rewrite Hc, IH.
Qed.

Lemma number_app base ds c : number base (ds ++ [c]) = number base ds * base + digit_value c.
Proof. unfold number. by rewrite fold_left_app. Qed.

Lemma digit_char k : 0 <= k < 10 -> isdigit (48 + k) = true /\ digit_value (48 + k) = k.
Proof.
  intros Hk. assert (Hd : isdigit (48 + k) = true) by (unfold isdigit; lia).
  split; [done|]. unfold digit_value. rewrite Hd. lia.
Qed.

Lemma dec_digits_spec fuel v :
  0 <= v < 10 ^ Z.of_nat fuel -> (0 < fuel)%nat ->
  Forall (fun c => isdigit c = true) (dec_digits fuel v) /\ number 10 (dec_digits fuel v) = v /\
  exists c ds, dec_digits fuel v = c :: ds /\ (c = 48 -> v = 0 /\ ds = []).
Proof.
  revert v. induction fuel as [|fuel IH]; intros v Hv Hf; [lia|]. cbn [dec_digits].
  destruct (digit_char (v mod 10)) as [Hd Hdv]; [by apply Z.mod_pos_bound|].
  destruct (Z.ltb_spec v 10) as [Hlt|Hge].
  - rewrite Z.mod_small in * by lia. split; [by apply Forall_singleton|].
    split; [cbn; lia|]. exists (48 + v), []. split; [done|]. intros Hz. split; [lia|done].
  - rewrite Nat2Z.inj_succ, Z.pow_succ_r in Hv by lia.
    destruct fuel as [|fuel]; [cbn in Hv; lia|].
    destruct (IH (v / 10)) as (Hall & Hnum & c & ds & Hcs & Hc0); [zdiv|lia|].
    split; [by apply Forall_app_2; [|apply Forall_singleton]|].
    split; [rewrite number_app, Hnum, Hdv; zdiv|].
    exists c, (ds ++ [48 + v mod 10]). rewrite Hcs. split; [done|]. intros Hz. destruct (Hc0 Hz) as [Hz0 _]. exfalso. zdiv.
Qed.

Lemma dec_spec v :
  0 <= v < 10 ^ 20 ->
  Forall (fun c => isdigit c = true) (dec v) /\ number 10 (dec v) = v /\
  exists c ds, dec v = c :: ds /\ (c = 48 -> v = 0 /\ ds = []).
Proof. intros Hv. by apply (dec_digits_spec 20); [|lia]. Qed.

Lemma isdigit_not c k : isdigit c = true -> ~ (48 <= k <= 57) -> c <> k.
Proof. unfold isdigit. lia. Qed.

Lemma strtol10_dec v rest :
  0 <= v < 2 ^ 63 -> match rest with c :: _ => isdigit c = false | [] => True end ->
  strtol10 (dec v ++ rest) = Some (v, rest).
Proof.
  intros Hv Hr. destruct (dec_spec v ltac:(lia)) as (Hall & Hnum & c & ds & Hd & _).
  rewrite Hd in *. pose proof (Forall_cons_1 _ _ _ Hall) as [Hc _].
  assert (Hs : skip_spaces ((c :: ds) ++ rest) = (c :: ds) ++ rest).
  { unfold skip_spaces. cbn. replace (isspace c) with false; [done|]. unfold isspace, isdigit in *. lia. }
  unfold strtol10. rewrite Hs. clear Hs.
  assert (Hm : forall k, ~ (48 <= k <= 57) -> after k ((c :: ds) ++ rest) = None).
  { intros k Hk. cbn. pose proof (isdigit_not c k Hc Hk). by rewrite (proj2 (Z.eqb_neq c k)). }
  cbv zeta. rewrite !Hm by lia. rewrite (span_app _ _ _ Hall Hr). unfold clamp_long. rewrite Hnum.
  f_equal. f_equal. lia.
Qed.

Lemma strtoul0_dec v rest :
  0 <= v < 10 ^ 20 -> number_end rest -> strtoul0 (dec v ++ rest) = (v, rest).
Proof.
  intros Hv Hr. destruct (dec_spec v Hv) as (Hall & Hnum & c & ds & Hd & H0). rewrite Hd in *.
  assert (Hend : match rest with c :: _ => isdigit c = false | [] => True end) by (destruct rest; [done|apply Hr]).
  destruct (Z.eqb_spec c 48) as [->|Hc].
  - destruct (H0 eq_refl) as [-> ->]. unfold strtoul0. cbn [app after].
    destruct rest as [|x r]; [done|]. destruct Hr as (Hx & Hx1 & Hx2).
    assert (Hox : isodigit x = false) by (unfold isdigit, isodigit in *; lia).
    rewrite (proj2 (Z.eqb_neq x 120)), (proj2 (Z.eqb_neq x 88)) by done. cbn. rewrite Hox. by destruct r.
  - unfold strtoul0. cbn [app after]. rewrite (proj2 (Z.eqb_neq c 48)) by done. cbn [andb].
    assert (Hx : forall t : list Z, match t with _ :: d :: r => None | _ => None end = @None (list Z))
      by (by intros [|? [|? ?]]).
    rewrite Hx. change (c :: ds ++ rest) with ((c :: ds) ++ rest). by rewrite (span_app _ _ _ Hall Hend), Hnum.
Qed.

(** ** Dotted quads *)

Definition dotted (a b c d : Z) : list Z := dec a ++ 46 :: dec b ++ 46 :: dec c ++ 46 :: dec d.

Lemma dec_head v rest : 0 <= v < 10 ^ 20 -> exists c s, dec v ++ rest = c :: s /\ isdigit c = true.
Proof.
  intros Hv. destruct (dec_spec v Hv) as (Hall & _ & c & ds & Hd & _). rewrite Hd in *.
  exists c, (ds ++ rest). split; [done|]. by apply Forall_cons_1 in Hall as [Hc _].
Qed.

Lemma inet_parts_dec dots acc v rest :
  byte_ok v -> number_end rest ->
  inet_parts dots acc (dec v ++ rest) =
    match after 46 rest, dots with
    | None, _ => Some (acc, v, rest)
    | Some _, O => None
    | Some rest, S dots => inet_parts dots (acc ++ [v]) rest
    end.
Proof.
  intros Hv Hr. unfold byte_ok in Hv. destruct (dec_head v rest ltac:(lia)) as (c & s & Hs & Hc).
  pose proof (strtoul0_dec v rest ltac:(lia) Hr) as Hn. rewrite Hs in *.
  destruct dots; cbn [inet_parts]; rewrite Hc, Hn, (proj2 (Z.ltb_ge 0xFFFFFFFF v)) by lia; [done|].
  by rewrite (proj2 (Z.ltb_ge 0xFF v)) by lia.
Qed.

Lemma number_end_space rest :
  match rest with [] => True | c :: _ => isspace c = true end -> number_end rest /\ after 46 rest = None.
Proof.
  destruct rest as [|c rest]; [done|]. intros Hc. unfold isspace in Hc. cbn. unfold isdigit.
  rewrite (proj2 (Z.eqb_neq c 46)) by lia. split; [|done]. lia.
Qed.

Lemma quad_word a b c d :
  byte_ok a -> byte_ok b -> byte_ok c -> byte_ok d ->
  Z.lor (le_val [a; b; c]) (htonl d) = le_val [a; b; c; d].
Proof.
  unfold byte_ok. intros Ha Hb Hc Hd.
  assert (Hh : htonl d = Z.shiftl d 24).
  { unfold htonl, be_bytes. cbn [le_bytes rev app le_val]. rewrite Z.shiftl_mul_pow2 by lia. zdiv. }
  rewrite Hh, lor_low_high; cbn [le_val]; lia.
Qed.

Lemma inet_addr_dotted a b c d rest :
  byte_ok a -> byte_ok b -> byte_ok c -> byte_ok d ->
  match rest with [] => True | c :: _ => isspace c = true end ->
  inet_addr (dotted a b c d ++ rest) = le_val [a; b; c; d].
Proof.
  intros Ha Hb Hc Hd Hr. destruct (number_end_space rest Hr) as [Hend Hdot].
  assert (He : forall s, number_end (46 :: s)) by done.
  unfold inet_addr, dotted. rewrite <- !(assoc app), <- !app_comm_cons.
  rewrite inet_parts_dec by (done || apply He). cbn [after Z.eqb Pos.eqb].
  rewrite <- !(assoc app), <- !app_comm_cons, inet_parts_dec by (done || apply He). cbn [after Z.eqb Pos.eqb].
  rewrite <- !(assoc app), <- !app_comm_cons, inet_parts_dec by (done || apply He). cbn [after Z.eqb Pos.eqb].
  rewrite inet_parts_dec, Hdot by done. cbn [app length nth].
  replace (match rest with [] => true | c :: _ => isspace c end) with true by (destruct rest; [done|by rewrite Hr]).
  unfold byte_ok in Hd. rewrite (proj2 (Z.leb_le d 0xFF)) by lia. by apply quad_word.
Qed.
