(* ===== verification/PeerManager.v ===== *)
(** * peer_manager.c: destination subnet to peer gateway mapping

    The table of [peer_manager.h] and [pm_init], [pm_add], [pm_set_default]
    and [pm_lookup].  The logging calls are left out; [pm_dump] is in [Log]. *)

From S2P Require Import Prelude.

Definition MAX_PEERS : Z := 32.

(** ** State *)

Record peer_mapping := PeerMapping {
  subnet : Z;
  subnet_mask : Z;
  peer_ip : Z;
  peer_mac : list Z }.

Record peer_manager := PeerManager {
  peers : list peer_mapping;
  peer_count : Z;
  default_peer_ip : Z;
  default_peer_mac : list Z }.

Definition zero_mac : list Z := replicate 6 0.
Definition zero_mapping : peer_mapping := PeerMapping 0 0 0 zero_mac.

(** ** Operations *)

(** [memset(pm, 0, sizeof(peer_manager_t))] *)
Definition pm_init (_ : peer_manager) : peer_manager :=
  PeerManager (replicate (Z.to_nat MAX_PEERS) zero_mapping) 0 0 zero_mac.

Definition pm_add (pm : peer_manager) (sub mask ip : Z) : Z * peer_manager :=
  if MAX_PEERS <=? peer_count pm then (-1, pm)
  else (0, PeerManager
             (<[Z.to_nat (peer_count pm) := PeerMapping sub mask ip zero_mac]> (peers pm))
             (u32 (peer_count pm + 1)) (default_peer_ip pm) (default_peer_mac pm)).

Definition pm_set_default (pm : peer_manager) (ip : Z) : Z * peer_manager :=
  (0, PeerManager (peers pm) (peer_count pm) ip zero_mac).

(** The test of the lookup loop: [(dst_ip & subnet_mask) == subnet]. *)
Definition pm_match (dst_ip : Z) (p : peer_mapping) : bool :=
  Z.land dst_ip (subnet_mask p) =? subnet p.

Fixpoint pm_scan (ps : list peer_mapping) (dst_ip : Z) : option Z :=
  match ps with
  | [] => None
  | p :: ps => if pm_match dst_ip p then Some (peer_ip p) else pm_scan ps dst_ip
  end.

(** The entries the loop [i < peer_count] visits, in order. *)
Definition pm_rules (pm : peer_manager) : list peer_mapping :=
  take (Z.to_nat (peer_count pm)) (peers pm).

Definition pm_lookup (pm : peer_manager) (dst_ip : Z) : Z :=
  match pm_scan (pm_rules pm) dst_ip with
  | Some ip => ip
  | None => if default_peer_ip pm =? 0 then 0 else default_peer_ip pm
  end.

(** ** Invariant *)

Definition pm_wf (pm : peer_manager) : Prop :=
  length (peers pm) = Z.to_nat MAX_PEERS /\ 0 <= peer_count pm <= MAX_PEERS.

Lemma pm_init_wf pm : pm_wf (pm_init pm).
Proof. split; [apply length_replicate|]. cbn. unfold MAX_PEERS. lia. Qed.

Lemma pm_rules_length pm : pm_wf pm -> length (pm_rules pm) = Z.to_nat (peer_count pm).
Proof. intros [Hl Hc]. unfold pm_rules. rewrite length_take. unfold MAX_PEERS in *. lia. Qed.

(** The table as an ordered rule list: adding appends. *)
Lemma pm_add_rules pm sub mask ip :
  pm_wf pm -> peer_count pm < MAX_PEERS ->
  pm_rules (snd (pm_add pm sub mask ip)) = pm_rules pm ++ [PeerMapping sub mask ip zero_mac].
Proof.
  intros [Hl Hc] Hlt. unfold pm_add, pm_rules, MAX_PEERS in *.
  destruct (Z.leb_spec 32 (peer_count pm)); [lia|]. cbn [snd peers peer_count].
  rewrite u32_small by (unfold is_u32; lia).
  replace (Z.to_nat (peer_count pm + 1)) with (S (Z.to_nat (peer_count pm))) by lia.
  erewrite take_S_r by (apply list_lookup_insert_eq; lia).
  by rewrite take_insert_ge by lia.
Qed.

Lemma pm_add_wf pm sub mask ip : pm_wf pm -> pm_wf (snd (pm_add pm sub mask ip)).
Proof.
  intros [Hl Hc]. unfold pm_add, MAX_PEERS in *.
  destruct (Z.leb_spec 32 (peer_count pm)); cbn [snd]; [by split|].
  split; cbn [peers peer_count]; [by rewrite length_insert|].
  rewrite u32_small by (unfold is_u32; lia). unfold MAX_PEERS. lia.
Qed.

Lemma pm_scan_app ps qs dst :
  pm_scan (ps ++ qs) dst = match pm_scan ps dst with Some ip => Some ip | None => pm_scan qs dst end.
Proof. induction ps as [|p ps IH]; simpl; [done|]. by destruct (pm_match dst p). Qed.

Lemma pm_scan_None ps dst : pm_scan ps dst = None <-> Forall (fun p => pm_match dst p = false) ps.
Proof.
  induction ps as [|p ps IH]; simpl; [by split; [constructor|]|].
  destruct (pm_match dst p) eqn:E; [split; [done|intros H; by apply Forall_cons_1 in H as [? _]; congruence]|].
  split; [intros H; constructor; tauto|intros H; apply Forall_cons_1 in H; tauto].
Qed.

Lemma pm_scan_Some ps dst ip :
  pm_scan ps dst = Some ip <->
  exists i p, ps !! i = Some p /\ pm_match dst p = true /\ peer_ip p = ip /\
    forall j q, (j < i)%nat -> ps !! j = Some q -> pm_match dst q = false.
Proof.
  split.
  - induction ps as [|p ps IH]; simpl; [done|]. destruct (pm_match dst p) eqn:E.
    + intros [= <-]. exists O, p. repeat split; auto. lia.
    + intros H. apply IH in H as (i & q & Hi & Hm & Hp & Hj). exists (S i), q.
      repeat split; auto. intros [|j] q' Hlt Hq; [by simplify_eq/=|]. apply (Hj j); [lia|done].
  - intros (i & p & Hi & Hm & Hp & Hj). revert i Hi Hj.
    induction ps as [|q ps IH]; intros i Hi Hj; [done|]. destruct i as [|i]; simplify_eq/=.
    + by rewrite Hm.
    + rewrite (Hj O q) by (lia || done). apply (IH i); [done|].
      intros j q' Hlt Hq. apply (Hj (S j)); [lia|done].
Qed.

(** ** Properties *)

(** Rules given to [pm_add] one after the other. *)
Definition pm_install (rules : list (Z * Z * Z)) (pm : peer_manager) : peer_manager :=
  fold_left (fun pm '(sub, mask, ip) => snd (pm_add pm sub mask ip)) rules pm.

Definition rule_mapping (r : Z * Z * Z) : peer_mapping :=
  let '(sub, mask, ip) := r in PeerMapping sub mask ip zero_mac.

Lemma pm_install_rules rules pm :
  pm_wf pm ->
  pm_wf (pm_install rules pm) /\ default_peer_ip (pm_install rules pm) = default_peer_ip pm /\
  pm_rules (pm_install rules pm) =
    pm_rules pm ++ take (Z.to_nat (MAX_PEERS - peer_count pm)) (rule_mapping <$> rules).
Proof.
  revert pm. induction rules as [|[[sub mask] ip] rules IH]; intros pm Hwf; cbn [pm_install fold_left].
  - split; [done|]. split; [done|]. cbn [fmap list_fmap]. by rewrite take_nil, app_nil_r.
  - destruct (IH (snd (pm_add pm sub mask ip))) as (Hw & Hd & Hr); [by apply pm_add_wf|].
    split; [done|]. fold (pm_install rules (snd (pm_add pm sub mask ip))). rewrite Hd, Hr.
    destruct (Z.ltb_spec (peer_count pm) MAX_PEERS) as [Hlt|Hge].
    + rewrite (pm_add_rules pm sub mask ip Hwf Hlt), <- app_assoc.
      unfold pm_add. destruct (Z.leb_spec MAX_PEERS (peer_count pm)); [lia|].
      cbn [snd default_peer_ip peer_count]. split; [done|]. f_equal.
      destruct Hwf as [_ Hc]. rewrite u32_small by (unfold is_u32, MAX_PEERS in *; lia).
      replace (Z.to_nat (MAX_PEERS - peer_count pm)) with (S (Z.to_nat (MAX_PEERS - (peer_count pm + 1)))) by lia.
      done.
    + unfold pm_add. destruct (Z.leb_spec MAX_PEERS (peer_count pm)); [|lia]. cbn [snd].
      split; [done|]. replace (Z.to_nat (MAX_PEERS - peer_count pm)) with O by lia. done.
Qed.

(** C22 After any sequence of [pm_add] calls on an
    initialised table, [pm_lookup] answers with the peer of the first of the
    first 32 rules, in the order they were added, whose subnet contains the
    address, and with the default peer (0 when there is none) otherwise.
    Later rules never shadow earlier ones, however specific they are. *)
Theorem pm_lookup_first_match rules d pm dst :
  pm_lookup (snd (pm_set_default (pm_install rules (pm_init pm)) d)) dst =
  match list_find (fun r => pm_match dst (rule_mapping r) = true) (take 32 rules) with
  | Some (_, (_, _, ip)) => ip
  | None => d
  end.
Proof.
  destruct (pm_install_rules rules (pm_init pm) (pm_init_wf pm)) as (_ & _ & Hr).
  unfold pm_lookup. change (pm_rules (snd (pm_set_default (pm_install rules (pm_init pm)) d)))
    with (pm_rules (pm_install rules (pm_init pm))).
  rewrite Hr. change (pm_rules (pm_init pm)) with (@nil peer_mapping). cbn [app].
  change (Z.to_nat (MAX_PEERS - peer_count (pm_init pm))) with 32%nat.
  rewrite <- fmap_take. cbn [default_peer_ip snd pm_set_default].
  generalize (take 32 rules). clear. intros l.
  assert (Hs : pm_scan (rule_mapping <$> l) dst =
     (fun x => snd (snd x)) <$> list_find (fun r => pm_match dst (rule_mapping r) = true) l).
  { induction l as [|[[sub mask] ip] l IH]; [done|]. rewrite fmap_cons. cbn [pm_scan list_find].
    destruct (pm_match dst (rule_mapping (sub, mask, ip))) eqn:E.
    - by rewrite decide_True.
    - rewrite decide_False by congruence. rewrite IH. by destruct (list_find _ l) as [[? [[? ?] ?]]|]. }
  rewrite Hs. destruct (list_find _ l) as [[? [[? ?] ?]]|]; cbn; [done|].
  by destruct (Z.eqb_spec d 0) as [->|].
Qed.
