(* ===== verification/Stats.v ===== *)
(** * stats.c: the gateway's runtime counters

    [stat_init], [stat_inc], [stat_add], [stat_get] and [stat_reset].  The
    counters wrap at 64 bits; [stat_dump] is in [Log]. *)

From S2P Require Import Prelude.

Inductive stat_counter :=
  | STAT_PKTS_LAN_TO_WAN | STAT_PKTS_WAN_TO_LAN | STAT_PKTS_DROPPED
  | STAT_PKTS_PASSTHROUGH | STAT_ACK_SPOOFED_SENT | STAT_NACK_SENT
  | STAT_RETRANSMIT_SENT | STAT_CNP_SENT | STAT_WRITE_PKTS_PROCESSED
  | STAT_ACTIVE_QPS | STAT_BUFFER_OVERFLOW | STAT_ARQ_ACK_RECEIVED
  | STAT_ARQ_NACK_RECEIVED | STAT_ARQ_ACK_SENT | STAT_COUNTER_COUNT.

#[export] Instance stat_counter_eq_dec : EqDecision stat_counter.
Proof. solve_decision. Defined.

(** The integer value of the enumerator. *)
Definition stat_index (c : stat_counter) : nat :=
  match c with
  | STAT_PKTS_LAN_TO_WAN => 0 | STAT_PKTS_WAN_TO_LAN => 1 | STAT_PKTS_DROPPED => 2
  | STAT_PKTS_PASSTHROUGH => 3 | STAT_ACK_SPOOFED_SENT => 4 | STAT_NACK_SENT => 5
  | STAT_RETRANSMIT_SENT => 6 | STAT_CNP_SENT => 7 | STAT_WRITE_PKTS_PROCESSED => 8
  | STAT_ACTIVE_QPS => 9 | STAT_BUFFER_OVERFLOW => 10 | STAT_ARQ_ACK_RECEIVED => 11
  | STAT_ARQ_NACK_RECEIVED => 12 | STAT_ARQ_ACK_SENT => 13 | STAT_COUNTER_COUNT => 14
  end.

Record gateway_stats := GatewayStats { counters : list Z }.

Definition stat_init (_ : gateway_stats) : gateway_stats :=
  GatewayStats (replicate (stat_index STAT_COUNTER_COUNT) 0).

Definition stat_add (s : gateway_stats) (c : stat_counter) (v : Z) : gateway_stats :=
  if (stat_index c <? stat_index STAT_COUNTER_COUNT)%nat
  then GatewayStats (alter (fun x => u64 (x + v)) (stat_index c) (counters s))
  else s.

Definition stat_inc (s : gateway_stats) (c : stat_counter) : gateway_stats :=
  if (stat_index c <? stat_index STAT_COUNTER_COUNT)%nat
  then GatewayStats (alter (fun x => u64 (x + 1)) (stat_index c) (counters s))
  else s.

Definition stat_get (s : gateway_stats) (c : stat_counter) : Z :=
  if (stat_index c <? stat_index STAT_COUNTER_COUNT)%nat
  then nth (stat_index c) (counters s) 0
  else 0.

Definition stat_reset (_ : gateway_stats) : gateway_stats :=
  GatewayStats (replicate (stat_index STAT_COUNTER_COUNT) 0).

(** ** Laws *)

Definition stats_wf (s : gateway_stats) : Prop := length (counters s) = 14%nat.

Lemma stat_init_wf s : stats_wf (stat_init s).
Proof. done. Qed.

Lemma stat_inc_wf s c : stats_wf s -> stats_wf (stat_inc s c).
Proof. intros H. unfold stat_inc, stats_wf. case_match; [|done]. cbn. by rewrite length_alter. Qed.

Lemma stat_index_inj c d : stat_index c = stat_index d -> c = d.
Proof. by destruct c, d. Qed.

Lemma stat_get_add s c d v :
  stats_wf s -> c <> STAT_COUNTER_COUNT ->
  stat_get (stat_add s c v) d = if decide (c = d) then u64 (stat_get s d + v) else stat_get s d.
Proof.
  intros Hs Hc. unfold stats_wf in Hs. unfold stat_add, stat_get.
  assert (Hlt : (stat_index c < 14)%nat) by (destruct c; cbn; lia || done).
  destruct (Nat.ltb_spec (stat_index c) (stat_index STAT_COUNTER_COUNT)) as [_|Hge]; [|cbn in Hge; lia].
  cbn [counters]. destruct (Nat.ltb_spec (stat_index d) (stat_index STAT_COUNTER_COUNT)) as [Hd|Hd].
  - rewrite !nth_lookup. destruct (decide (c = d)) as [<-|Hne].
    + rewrite list_lookup_alter_eq.
      destruct (lookup_lt_is_Some_2 (counters s) (stat_index c)) as [x Hx]; [lia|].
      by rewrite Hx.
    + rewrite list_lookup_alter_ne; [done|]. intros He. by apply Hne, stat_index_inj.
  - rewrite decide_False; [done|]. intros ->. cbn in Hd. lia.
Qed.

Lemma stat_inc_add s c : stat_inc s c = stat_add s c 1.
Proof. done. Qed.

(** ** Properties *)

(** After [stat_init] and any sequence of [stat_inc]
    calls each counter holds the number of its increments, modulo 2^64. *)
Theorem stat_counters_count s cs d :
  Forall (fun c => c <> STAT_COUNTER_COUNT) cs ->
  stat_get (fold_left stat_inc cs (stat_init s)) d =
  u64 (Z.of_nat (length (filter (fun c => c = d) cs))).
Proof.
  intros Hcs. assert (Hg : forall cs s, stats_wf s -> Forall (fun c => c <> STAT_COUNTER_COUNT) cs ->
    0 <= stat_get s d < 2 ^ 64 ->
    stat_get (fold_left stat_inc cs s) d = u64 (stat_get s d + Z.of_nat (length (filter (fun c => c = d) cs)))).
  { clear. induction cs as [|c cs IH]; intros s Hs Hcs Hr; cbn [fold_left].
    - cbn. by rewrite Z.add_0_r, u64_small.
    - apply Forall_cons_1 in Hcs as [Hc Hcs].
      assert (He : stat_get (stat_inc s c) d = if decide (c = d) then u64 (stat_get s d + 1) else stat_get s d)
        by (rewrite stat_inc_add; by apply stat_get_add).
      rewrite IH; [|by apply stat_inc_wf|done|rewrite He; case_decide; [apply u64_range|done]].
      rewrite He, filter_length_cons. case_decide; cbn [Nat.add]; [|done].
      unfold u64. rewrite Zplus_mod_idemp_l. f_equal. lia. }
  rewrite Hg; [|done|done|].
  - f_equal. assert (stat_get (stat_init s) d = 0) as -> by (by destruct d). lia.
  - by destruct d.
Qed.

Lemma stat_counters_count_witness :
  stat_get (fold_left stat_inc [STAT_CNP_SENT; STAT_PKTS_DROPPED; STAT_CNP_SENT] (stat_init (GatewayStats []))) STAT_CNP_SENT = 2.
Proof. rewrite stat_counters_count; [by vm_compute|]. by_dec. Defined.
