(* ===== verification/Log.v ===== *)
(** * log.c and the dumps of peer_manager.c and stats.c

    The logger's state ([current_level], [log_file]) and what it writes;
    [ip_to_str]; the lines of [pm_dump] and [stat_dump].  The mutex is held
    from the first to the last statement of every function that takes it, so
    a call is one step.  The wall clock and the outcome of [fopen] are
    arguments. *)

From Stdlib Require Import Strings.String.
From S2P Require Import Prelude Inet PeerManager Stats.

(** ** Addresses *)

(** [snprintf(buf, buflen, ...)] of a text: what is left in [buf]. *)
Definition snprintf (buflen : nat) (text : list Z) : list Z := take (buflen - 1) text.

Definition ip_to_str (ip_be : Z) (buflen : nat) : list Z :=
  let ip := htonl ip_be in
  snprintf buflen (dotted (Z.land (Z.shiftr ip 24) 0xFF) (Z.land (Z.shiftr ip 16) 0xFF)
                          (Z.land (Z.shiftr ip 8) 0xFF) (Z.land ip 0xFF)).

(** ** The logger *)

Inductive log_level := LOG_LEVEL_DEBUG | LOG_LEVEL_INFO | LOG_LEVEL_WARN | LOG_LEVEL_ERROR.

#[export] Instance log_level_eq_dec : EqDecision log_level.
Proof. solve_decision. Defined.

(** The value of the enumerator. *)
Definition level_value (l : log_level) : Z :=
  match l with LOG_LEVEL_DEBUG => 0 | LOG_LEVEL_INFO => 1 | LOG_LEVEL_WARN => 2 | LOG_LEVEL_ERROR => 3 end.

Definition level_strings (l : log_level) : list Z :=
  match l with
  | LOG_LEVEL_DEBUG => str "DEBUG" | LOG_LEVEL_INFO => str "INFO"
  | LOG_LEVEL_WARN => str "WARN" | LOG_LEVEL_ERROR => str "ERROR"
  end.

Definition level_colors (l : log_level) : list Z :=
  27 :: match l with
        | LOG_LEVEL_DEBUG => str "[36m" | LOG_LEVEL_INFO => str "[32m"
        | LOG_LEVEL_WARN => str "[33m" | LOG_LEVEL_ERROR => str "[31m"
        end.

(** Where a text went; a file is identified by its path. *)
Inductive sink := Stdout | Stderr | File (path : list Z).

#[export] Instance sink_eq_dec : EqDecision sink.
Proof. solve_decision. Defined.

Record logger := Logger {
  current_level : log_level;
  log_file : option (list Z);
  log_out : list (sink * list Z) }.

Definition logger_init : logger := Logger LOG_LEVEL_INFO None [].

Definition emit (s : sink) (text : list Z) (st : logger) : logger :=
  Logger (current_level st) (log_file st) (log_out st ++ [(s, text)]).

Definition log_set_level (level : log_level) (st : logger) : logger :=
  Logger level (log_file st) (log_out st).

(** [opened]: whether [fopen] succeeds. *)
Definition log_open_file (path : list Z) (opened : bool) (st : logger) : logger :=
  if opened then
    emit Stdout (str "Log file opened: " ++ path ++ [10]) (Logger (current_level st) (Some path) (log_out st))
  else
    emit Stderr (str "Failed to open log file: " ++ path ++ [10]) (Logger (current_level st) None (log_out st)).

Definition log_close_file (st : logger) : logger :=
  match log_file st with
  | Some _ => Logger (current_level st) None (log_out st)
  | None => st
  end.

(** [struct tm] *)
Record tm := Tm { tm_year : Z; tm_mon : Z; tm_mday : Z; tm_hour : Z; tm_min : Z; tm_sec : Z }.

(** [%0<width>d] of a non-negative value. *)
Definition zpad (width : nat) (v : Z) : list Z :=
  let d := dec v in (replicate (width - length d) 48 ++ d).

(** [[%04d-%02d-%02d %02d:%02d:%02d] [%s] %s] *)
Definition log_line (lt : tm) (level : log_level) (msg : list Z) : list Z :=
  (str "[" ++ zpad 4 (tm_year lt + 1900) ++ str "-" ++ zpad 2 (tm_mon lt + 1) ++ str "-" ++ zpad 2 (tm_mday lt) ++
   str " " ++ zpad 2 (tm_hour lt) ++ str ":" ++ zpad 2 (tm_min lt) ++ str ":" ++ zpad 2 (tm_sec lt) ++
   str "] [" ++ level_strings level ++ str "] " ++ msg).

Definition log_msg (lt : tm) (level : log_level) (msg : list Z) (st : logger) : logger :=
  if level_value level <? level_value (current_level st) then st
  else
    let st := emit Stderr (level_colors level ++ log_line lt level msg ++ 27 :: str "[0m" ++ [10]) st in
    match log_file st with
    | Some path => emit (File path) (log_line lt level msg ++ [10]) st
    | None => st
    end.

(** The [LOG_...F] macros: the text is cut to the buffer first. *)
Definition LOG_BUF_SIZE : nat := 256.
Definition logf (lt : tm) (level : log_level) (text : list Z) (st : logger) : logger :=
  log_msg lt level (snprintf LOG_BUF_SIZE text) st.

(** [cleanup] of main.c *)
Definition cleanup (lt : tm) (st : logger) : logger :=
  log_msg lt LOG_LEVEL_INFO (str "Cleanup completed") (log_close_file st).

(** ** Dumps: the messages, all of level INFO, in order *)

(** [%-24s] *)
Definition pad_right (width : nat) (s : list Z) : list Z := (s ++ replicate (width - length s) 32).

Definition counter_names : list (list Z) :=
  [str "packets_lan_to_wan"; str "packets_wan_to_lan"; str "packets_dropped";
   str "packets_passthrough"; str "ack_spoofed_sent"; str "nack_sent";
   str "retransmit_sent"; str "cnp_sent"; str "write_packets_processed";
   str "active_qps"; str "buffer_overflow_count"; str "arq_ack_received";
   str "arq_nack_received"; str "arq_ack_sent"].

Definition stat_line (stats : gateway_stats) (i : nat) : list Z :=
  snprintf LOG_BUF_SIZE
    (str "  " ++ pad_right 24 (nth i counter_names []) ++ str ": " ++ dec (nth i (counters stats) 0)).

Definition stat_dump (stats : gateway_stats) : list (list Z) :=
  ([str "========== RDMA Gateway Statistics =========="] ++
   (stat_line stats <$> seq 0 (stat_index STAT_COUNTER_COUNT)) ++
   [str "=============================================="]).

(** [__builtin_popcount] of a 32-bit word. *)
Definition popcount (v : Z) : Z := sumZ (fun i => if Z.testbit v (Z.of_nat i) then 1 else 0) (seq 0 32).

Definition peer_line (i : nat) (r : peer_mapping) : list Z :=
  snprintf LOG_BUF_SIZE
    (str "Peer " ++ dec (Z.of_nat i) ++ str ": subnet=" ++ ip_to_str (subnet r) 32 ++ str "/" ++
     dec (popcount (subnet_mask r)) ++ str " -> peer=" ++ ip_to_str (peer_ip r) 32).

Definition pm_dump (pm : peer_manager) : list (list Z) :=
  ([str "=== Peer Manager Configuration ==="; snprintf LOG_BUF_SIZE (str "Total peers: " ++ dec (peer_count pm))] ++
   imap peer_line (pm_rules pm) ++
   [if default_peer_ip pm =? 0 then str "No default peer configured"
    else snprintf LOG_BUF_SIZE (str "Default peer: " ++ ip_to_str (default_peer_ip pm) 32);
    str "==================================="]).

Example log_line_1 :
  log_line (Tm 124 0 2 3 4 5) LOG_LEVEL_WARN (str "x") = str "[2024-01-02 03:04:05] [WARN] x".
Proof. reflexivity. Qed.
Example ip_to_str_1 : ip_to_str (htonl 0xC0000209) 32 = str "192.0.2.9".
Proof. reflexivity. Qed.

(** ** [ip_to_str] prints the bytes of the word *)

Lemma ip_bytes ip :
  is_u32 ip ->
  exists a b c d, byte_ok a /\ byte_ok b /\ byte_ok c /\ byte_ok d /\ ip = le_val [a; b; c; d] /\
    forall n, ip_to_str ip n = take (n - 1) (dotted a b c d).
Proof.
  unfold is_u32. intros Hip. exists (ip mod 256), (ip / 256 mod 256), (ip / 256 / 256 mod 256), (ip / 256 / 256 / 256 mod 256).
  unfold byte_ok. do 4 (split; [by apply Z.mod_pos_bound|]). split; [cbn [le_val]; zdiv|]. intros n.
  unfold ip_to_str, snprintf, htonl, be_bytes. cbn [le_bytes rev app le_val].
  set (a := ip mod 256). set (b := ip / 256 mod 256). set (c := ip / 256 / 256 mod 256).
  set (d := ip / 256 / 256 / 256 mod 256).
  assert (Ha : 0 <= a < 256) by by apply Z.mod_pos_bound. assert (Hb : 0 <= b < 256) by by apply Z.mod_pos_bound.
  assert (Hc : 0 <= c < 256) by by apply Z.mod_pos_bound. assert (Hd : 0 <= d < 256) by by apply Z.mod_pos_bound.
  clearbody a b c d. change 0xFF with (Z.ones 8). rewrite !land_mask, !Z.shiftr_div_pow2 by lia.
  f_equal. f_equal; zdiv.
Qed.

Lemma dec_length_byte v : byte_ok v -> (length (dec v) <= 3)%nat.
Proof.
  intros Hv. assert (Ha : forallb (fun v => (length (dec v) <=? 3)%nat) (seqZ 0 256) = true) by by vm_compute.
  rewrite forallb_forall in Ha. apply Nat.leb_le, Ha, list_elem_of_In, elem_of_seqZ. unfold byte_ok in Hv. lia.
Qed.

Lemma dotted_length a b c d :
  byte_ok a -> byte_ok b -> byte_ok c -> byte_ok d -> (length (dotted a b c d) <= 15)%nat.
Proof.
  intros Ha Hb Hc Hd. unfold dotted. repeat (rewrite length_app; cbn [length]).
  pose proof (dec_length_byte a Ha). pose proof (dec_length_byte b Hb).
  pose proof (dec_length_byte c Hc). pose proof (dec_length_byte d Hd). lia.
Qed.

(** The text of an address: at most 15 characters, digits and dots. *)
Definition addr_char (c : Z) : Prop := isdigit c = true \/ c = 46.

Lemma dotted_chars a b c d :
  byte_ok a -> byte_ok b -> byte_ok c -> byte_ok d -> Forall addr_char (dotted a b c d).
Proof.
  intros Ha Hb Hc Hd. unfold byte_ok in *.
  assert (Hdec : forall v, 0 <= v < 256 -> Forall addr_char (dec v)).
  { intros v Hv. destruct (dec_spec v ltac:(lia)) as (Hall & _). eapply list.Forall_impl; [exact Hall|]. by left. }
  unfold dotted. repeat (apply Forall_app_2; [by apply Hdec|apply Forall_cons_2; [by right|]]). by apply Hdec.
Qed.

Lemma ip_to_str_spec ip :
  is_u32 ip ->
  (0 < length (ip_to_str ip 32) <= 15)%nat /\ Forall addr_char (ip_to_str ip 32) /\
  forall rest, match rest with [] => True | c :: _ => isspace c = true end ->
    inet_addr (ip_to_str ip 32 ++ rest) = ip.
Proof.
  intros Hip. destruct (ip_bytes ip Hip) as (a & b & c & d & Ha & Hb & Hc & Hd & Heq & Htext).
  pose proof (dotted_length a b c d Ha Hb Hc Hd) as Hl. rewrite Htext, take_ge by lia. split; [split; [|done]|].
  - destruct (dec_spec a) as (_ & _ & x & ds & Hx & _); [unfold byte_ok in Ha; lia|].
    unfold dotted. rewrite Hx. cbn. lia.
  - split; [by apply dotted_chars|]. intros rest Hr. rewrite inet_addr_dotted; done.
Qed.

Lemma ip_to_str_roundtrip' ip : is_u32 ip -> inet_addr (ip_to_str ip 32) = ip.
Proof.
  intros Hip. destruct (ip_to_str_spec ip Hip) as (_ & _ & Hr). rewrite <- (app_nil_r (ip_to_str ip 32)). by apply Hr.
Qed.

(** ** Properties *)

(** [ip_to_str] and [inet_addr] are inverse: every IPv4 address, printed
    into a buffer of at least 16 bytes (the callers' are 32), is read back as
    the same network-order word. *)
Theorem ip_to_str_roundtrip ip buflen :
  is_u32 ip -> (16 <= buflen)%nat -> inet_addr (ip_to_str ip buflen) = ip.
Proof.
  intros Hip Hb. destruct (ip_bytes ip Hip) as (a & b & c & d & Ha & Hb' & Hc & Hd & Heq & Ht).
  pose proof (dotted_length a b c d Ha Hb' Hc Hd). rewrite Ht, take_ge by lia.
  rewrite <- (app_nil_r (dotted a b c d)), inet_addr_dotted; done.
Qed.

(** What was written to the file at [path]. *)
Definition file_out (path : list Z) (st : logger) : list (list Z) :=
  omap (fun o => if decide (o.1 = File path) then Some o.2 else None) (log_out st).

(** One message: its time, level and text. *)
Definition message : Type := tm * log_level * list Z.
Definition log_message (st : logger) (m : message) : logger := log_msg m.1.1 m.1.2 m.2 st.
Definition passes (level : log_level) (m : message) : bool := negb (level_value m.1.2 <? level_value level).

Lemma file_out_emit path s text st :
  file_out path (emit s text st) = file_out path st ++ (if decide (s = File path) then [text] else []).
Proof. unfold file_out, emit. cbn. rewrite omap_app. cbn. by case_decide. Qed.

Lemma file_out_message path st m :
  log_file st = Some path ->
  log_file (log_message st m) = Some path /\ current_level (log_message st m) = current_level st /\
  file_out path (log_message st m) =
    file_out path st ++ (if passes (current_level st) m then [log_line m.1.1 m.1.2 m.2 ++ [10]] else []).
Proof.
  intros Hf. unfold log_message, log_msg, passes. destruct (_ <? _); cbn [negb]; [by rewrite app_nil_r|].
  cbv zeta. change (log_file (emit ?s ?t st)) with (log_file st). rewrite Hf. cbn [emit log_file current_level].
  split; [done|]. split; [done|]. rewrite !file_out_emit. rewrite (decide_False (P := Stderr = File path)) by done.
  by rewrite decide_True, app_nil_r by done.
Qed.

(** C30 A log file holds exactly the messages at or above the configured
    level, in order, one line each: from [log_open_file] to [cleanup], whose
    own message is only printed, the file being closed before it. *)
Theorem log_file_records_session path level ms lt st :
  let st1 := log_open_file path true (log_set_level level st) in
  let st2 := cleanup lt (fold_left log_message ms st1) in
  log_file st2 = None /\
  file_out path st2 =
    file_out path st ++ ((fun m => log_line m.1.1 m.1.2 m.2 ++ [10]) <$> filter (fun m => passes level m = true) ms).
Proof.
  cbv zeta. set (st1 := log_open_file path true (log_set_level level st)).
  assert (Hg : forall ms st, log_file st = Some path -> let st' := fold_left log_message ms st in
    log_file st' = Some path /\ file_out path st' = file_out path st ++
      ((fun m => log_line m.1.1 m.1.2 m.2 ++ [10]) <$> filter (fun m => passes (current_level st) m = true) ms)).
  { clear. induction ms as [|m ms IH]; intros st Hf; cbv zeta; cbn [fold_left]; [by rewrite app_nil_r|].
    destruct (file_out_message path st m Hf) as (Hf' & Hl & Ho). destruct (IH _ Hf') as [H1 H2].
    split; [done|]. cbv zeta in H2. rewrite H2, Ho, Hl, filter_cons, <- (assoc app).
    destruct (passes (current_level st) m); [by rewrite decide_True|by rewrite decide_False]. }
  destruct (Hg ms st1 eq_refl) as [Hf Ho]. cbv zeta in Ho. set (st2 := fold_left log_message ms st1) in *.
  assert (Hc : log_close_file st2 = Logger (current_level st2) None (log_out st2)).
  { unfold log_close_file. by rewrite Hf. }
  assert (He : file_out path (cleanup lt st2) = file_out path st2 /\ log_file (cleanup lt st2) = None).
  { unfold cleanup. rewrite Hc. unfold log_msg. cbn [current_level]. destruct (_ <? _); [done|].
    cbn [emit log_file]. split; [|done]. rewrite file_out_emit, decide_False by done. apply app_nil_r. }
  destruct He as [-> ->]. split; [done|]. rewrite Ho. unfold st1, log_open_file.
  by rewrite file_out_emit, decide_False, app_nil_r by done.
Qed.
