(* ===== verification/PeerOption.v ===== *)
(** * main.c: the --peer options

    [parse_peer_string] and what the option loop does with its result; the
    byte order of the rules it enters. *)

From Stdlib Require Import Strings.String.
From S2P Require Import Prelude Inet PeerManager Stats Log.

(** ** Reading an option *)

(** [sscanf(str, "%31[^/]/%d:%31s", ...)]: the three conversions when all
    succeed. *)
Definition sscanf_peer (s : list Z) : option (list Z * Z * list Z) :=
  let '(subnet_str, r) := span_upto 31 (fun c => negb (c =? 47)) s in
  match subnet_str with
  | [] => None
  | _ =>
      r ← after 47 r;
      '(prefix_len, r) ← strtol10 r;
      r ← after 58 r;
      let '(peer_str, _) := span_upto 31 (fun c => negb (isspace c)) (skip_spaces r) in
      match peer_str with [] => None | _ => Some (subnet_str, s32 prefix_len, peer_str) end
  end.

(** The mask for a prefix length of 1 to 32. *)
Definition peer_mask (prefix_len : Z) : Z :=
  htonl (Z.land (u32 (Z.shiftl 0xFFFFFFFF (32 - prefix_len))) 0xFFFFFFFF).

(** The result of [parse_peer_string] and the three words it stored. *)
Record peer_option := PeerOption {
  po_result : Z;
  po_subnet : Z;
  po_mask : Z;
  po_peer_ip : Z }.

(** [None]: the shift by [32 - prefix_len] is undefined, for a length
    outside 1 to 32. *)
Definition parse_peer_string (s : list Z) : option peer_option :=
  match after_prefix (str "default:") s with
  | Some r => Some (PeerOption 1 0 0 (inet_addr r))
  | None =>
      match sscanf_peer s with
      | Some (subnet_str, prefix_len, peer_str) =>
          if (1 <=? prefix_len) && (prefix_len <=? 32)
          then Some (PeerOption 0 (inet_addr subnet_str) (peer_mask prefix_len) (inet_addr peer_str))
          else None
      | None => Some (PeerOption (-1) 0 0 0)
      end
  end.

(** [case 'p'] of the option loop; [None] when [main] returns -1.  The
    result of [pm_add] is not looked at. *)
Definition main_peer_option (pm : peer_manager) (o : peer_option) : option peer_manager :=
  if po_result o =? 0 then Some (snd (pm_add pm (po_subnet o) (po_mask o) (po_peer_ip o)))
  else if po_result o =? 1 then Some (snd (pm_set_default pm (po_peer_ip o)))
  else None.

Example parse_1 : parse_peer_string (str "10.0.2.0/24:192.0.2.9")
  = Some (PeerOption 0 (htonl 0x0A000200) (htonl 0xFFFFFF00) (htonl 0xC0000209)).
Proof. reflexivity. Qed.
Example parse_2 : parse_peer_string (str "10.0.2.0/0:192.0.2.9") = None.
Proof. reflexivity. Qed.
Example parse_3 : parse_peer_string (str "10.0.2.0:192.0.2.9") = Some (PeerOption (-1) 0 0 0).
Proof. reflexivity. Qed.
Example parse_4 : parse_peer_string (str "any/8:peer") = Some (PeerOption 0 INADDR_NONE (peer_mask 8) INADDR_NONE).
Proof. reflexivity. Qed.

(** ** Reading what was printed *)

Lemma span_upto_app n f w rest :
  (length w <= n)%nat -> Forall (fun c => f c = true) w ->
  match rest with c :: _ => f c = false | [] => True end -> span_upto n f (w ++ rest) = (w, rest).
Proof.
  revert n. induction w as [|c w IH]; intros n Hl Hw Hr.
  - destruct n, rest as [|c rest]; try done. cbn. by rewrite Hr.
  - apply Forall_cons_1 in Hw as [Hc Hw]. destruct n as [|n]; [cbn in Hl; lia|]. cbn in *.
    by rewrite Hc, IH by (done || lia).
Qed.

Lemma addr_char_plain w : Forall addr_char w ->
  Forall (fun c => negb (c =? 47) = true) w /\ Forall (fun c => negb (isspace c) = true) w.
Proof.
  intros Hw. split; (eapply list.Forall_impl; [exact Hw|]); intros c [Hc| ->]; try done;
    unfold isdigit, isspace in *; lia.
Qed.

(** The option as the README writes it. *)
Definition peer_text (sub len peer : Z) : list Z :=
  ip_to_str sub 32 ++ 47 :: dec len ++ 58 :: ip_to_str peer 32.

Lemma s32_small v : - 2 ^ 31 <= v < 2 ^ 31 -> s32 v = v.
Proof. intros Hv. unfold s32. rewrite Z.mod_small by lia. lia. Qed.

Lemma sscanf_peer_text sub len peer :
  is_u32 sub -> is_u32 peer -> 0 <= len < 2 ^ 31 ->
  sscanf_peer (peer_text sub len peer) = Some (ip_to_str sub 32, len, ip_to_str peer 32).
Proof.
  intros Hs Hp Hl. destruct (ip_to_str_spec sub Hs) as ([Hs1 Hs2] & Hsc & _).
  destruct (ip_to_str_spec peer Hp) as ([Hp1 Hp2] & Hpc & _).
  unfold sscanf_peer, peer_text. rewrite span_upto_app; [|lia|by apply addr_char_plain|done].
  destruct (ip_to_str sub 32) as [|x xs] eqn:Ex; [cbn in Hs1; lia|]. clear Ex. cbn [after Z.eqb Pos.eqb mbind option_bind].
  rewrite strtol10_dec by (done || lia). cbn [after Z.eqb Pos.eqb mbind option_bind].
  assert (Hsk : skip_spaces (ip_to_str peer 32) = ip_to_str peer 32).
  { unfold skip_spaces. destruct (ip_to_str peer 32) as [|y ys]; [done|].
    apply Forall_cons_1 in Hpc as [Hy _]. cbn. replace (isspace y) with false; [done|].
    destruct Hy as [Hy| ->]; [|done]. unfold isdigit, isspace in *. lia. }
  rewrite Hsk, <- (app_nil_r (ip_to_str peer 32)) at 1.
  rewrite span_upto_app; [|lia|by apply addr_char_plain|done].
  destruct (ip_to_str peer 32); [cbn in Hp1; lia|]. by rewrite s32_small by lia.
Qed.

Lemma default_not_text sub len peer : is_u32 sub -> after_prefix (str "default:") (peer_text sub len peer) = None.
Proof.
  intros Hs. destruct (ip_to_str_spec sub Hs) as ([Hs1 _] & Hsc & _). unfold peer_text.
  destruct (ip_to_str sub 32) as [|x xs]; [cbn in Hs1; lia|]. apply Forall_cons_1 in Hsc as [Hx _].
  change (str "default:") with [100; 101; 102; 97; 117; 108; 116; 58]. cbn [app after_prefix after].
  rewrite (proj2 (Z.eqb_neq x 100)); [done|]. destruct Hx as [Hx| ->]; [|done].
  apply (isdigit_not x 100 Hx). lia.
Qed.

Lemma popcount_peer_mask len : 1 <= len <= 32 -> popcount (peer_mask len) = len.
Proof.
  intros Hl. assert (Ha : forallb (fun n => popcount (peer_mask n) =? n) (seqZ 1 32) = true) by by vm_compute.
  rewrite forallb_forall in Ha. apply Z.eqb_eq, Ha. apply list_elem_of_In, elem_of_seqZ. lia.
Qed.

(** ** Byte order of the rules *)

Lemma land_byte_split a b x y :
  byte_ok a -> byte_ok b -> Z.land (a + 256 * x) (b + 256 * y) = Z.land a b + 256 * Z.land x y.
Proof.
  unfold byte_ok. intros Ha Hb. change 256 with (2 ^ 8) in *.
  rewrite !lxor_low_shift by lia.
  assert (Hab : 0 <= Z.land a b < 2 ^ 8).
  { rewrite <- (Z.mod_small a (2 ^ 8)), <- Z.land_ones by lia.
    rewrite <- Z.land_assoc, (Z.land_comm _ b), Z.land_assoc, Z.land_ones by lia. apply Z.mod_pos_bound. lia. }
  rewrite lxor_low_shift by lia.
  apply Z.bits_inj'. intros i Hi. rewrite !Z.land_spec, !Z.lxor_spec, !Z.land_spec.
  destruct (Z.ltb_spec i 8).
  - rewrite !(Z.shiftl_spec_low _ 8) by lia. by rewrite !xorb_false_r.
  - rewrite !Z.shiftl_spec, Z.land_spec by lia.
    rewrite <- (Z.mod_small a (2 ^ 8)), <- (Z.mod_small b (2 ^ 8)) by lia.
    by rewrite !Z.mod_pow2_bits_high, !xorb_false_l by lia.
Qed.

Lemma land_byte_ok a b : byte_ok a -> byte_ok b -> byte_ok (Z.land a b).
Proof.
  unfold byte_ok. change 256 with (2 ^ 8). intros Ha Hb.
  rewrite <- (Z.mod_small a (2 ^ 8)), <- Z.land_ones by lia.
  rewrite <- Z.land_assoc, (Z.land_comm _ b), Z.land_assoc, Z.land_ones by lia. apply Z.mod_pos_bound. lia.
Qed.

Lemma land_le_val xs ys :
  bytes_ok xs -> bytes_ok ys -> length xs = length ys ->
  Z.land (le_val xs) (le_val ys) = le_val (zip_with Z.land xs ys).
Proof.
  intros Hx. revert ys. induction Hx as [|a xs Ha Hx IH]; intros [|b ys] Hy Hl; try done.
  apply Forall_cons_1 in Hy as [Hb Hy]. injection Hl as Hl. cbn [le_val zip_with].
  by rewrite land_byte_split, IH.
Qed.

Lemma zip_land_ok xs ys : bytes_ok xs -> bytes_ok ys -> bytes_ok (zip_with Z.land xs ys).
Proof.
  intros Hx. revert ys. induction Hx as [|a xs Ha Hx IH]; intros [|b ys] Hy; try done.
  apply Forall_cons_1 in Hy as [Hb Hy]. cbn. apply Forall_cons_2; [by apply land_byte_ok|by apply IH].
Qed.

Lemma le_bytes_land n x y :
  le_bytes n (Z.land x y) = zip_with Z.land (le_bytes n x) (le_bytes n y).
Proof.
  revert x y. induction n as [|n IH]; intros x y; [done|]. cbn [le_bytes zip_with]. f_equal.
  - change 256 with (2 ^ 8). rewrite <- !Z.land_ones by lia. apply Z.bits_inj'. intros i Hi.
    rewrite !Z.land_spec. by destruct (Z.testbit x i), (Z.testbit y i), (Z.testbit (Z.ones 8) i).
  - change 256 with (2 ^ 8). by rewrite <- !Z.shiftr_div_pow2, Z.shiftr_land, !Z.shiftr_div_pow2, IH by lia.
Qed.

Lemma rev_zip_with (f : Z -> Z -> Z) xs ys :
  length xs = length ys -> rev (zip_with f xs ys) = zip_with f (rev xs) (rev ys).
Proof.
  revert ys. induction xs as [|x xs IH]; intros [|y ys] Hl; try done. injection Hl as Hl. cbn [zip_with rev].
  rewrite IH, zip_with_app by (rewrite ?length_rev; done). done.
Qed.

Lemma htonl_land x y : htonl (Z.land x y) = Z.land (htonl x) (htonl y).
Proof.
  unfold htonl, be_bytes. rewrite le_bytes_land, rev_zip_with by by rewrite !length_le_bytes.
  rewrite land_le_val; [done|apply be_bytes_ok..|]. by rewrite !length_rev, !length_le_bytes.
Qed.

(** The mask of a prefix length, in host order. *)
Definition prefix_mask (len : Z) : Z := 2 ^ 32 - 2 ^ (32 - len).

Lemma peer_mask_prefix len : 1 <= len <= 32 -> peer_mask len = htonl (prefix_mask len).
Proof.
  intros Hl. assert (Ha : forallb (fun n => peer_mask n =? htonl (prefix_mask n)) (seqZ 1 32) = true) by by vm_compute.
  rewrite forallb_forall in Ha. apply Z.eqb_eq, Ha. apply list_elem_of_In, elem_of_seqZ. lia.
Qed.

Lemma prefix_mask_range len : 1 <= len <= 32 -> is_u32 (prefix_mask len).
Proof.
  intros Hl. unfold is_u32, prefix_mask. pose proof (Z.pow_le_mono_r 2 (32 - len) 32).
  pose proof (Z.pow_pos_nonneg 2 (32 - len)). lia.
Qed.

Lemma pm_lookup_single pm sub mask ip dst :
  pm_lookup (snd (pm_add (pm_init pm) sub mask ip)) dst = if Z.land dst mask =? sub then ip else 0.
Proof.
  unfold pm_lookup. change (pm_rules _) with [PeerMapping sub mask ip zero_mac]. cbn. unfold pm_match. cbn.
  by destruct (_ =? _).
Qed.

Lemma parse_peer_text sub len peer :
  is_u32 sub -> is_u32 peer -> 1 <= len <= 32 ->
  parse_peer_string (peer_text sub len peer) = Some (PeerOption 0 sub (peer_mask len) peer).
Proof.
  intros Hs Hp Hl. unfold parse_peer_string. rewrite default_not_text, sscanf_peer_text by (done || lia).
  rewrite (proj2 (Z.leb_le 1 len)), (proj2 (Z.leb_le len 32)) by lia. cbn [andb].
  by rewrite !ip_to_str_roundtrip' by done.
Qed.

(** ** Properties *)

(** C23 A rule or a default written the documented way is read as the
    addresses and the mask it names, and [pm_dump] prints a stored rule with
    the addresses and the prefix length it was entered with, uncut. *)
Theorem peer_option_roundtrip sub len peer :
  is_u32 sub -> is_u32 peer -> 1 <= len <= 32 ->
  parse_peer_string (peer_text sub len peer) = Some (PeerOption 0 sub (peer_mask len) peer) /\
  parse_peer_string (str "default:" ++ ip_to_str peer 32) = Some (PeerOption 1 0 0 peer) /\
  forall i mac, (i < 32)%nat ->
    peer_line i (PeerMapping sub (peer_mask len) peer mac) =
    str "Peer " ++ dec (Z.of_nat i) ++ str ": subnet=" ++ ip_to_str sub 32 ++ str "/" ++ dec len ++
    str " -> peer=" ++ ip_to_str peer 32.
Proof.
  intros Hs Hp Hl. split; [|split].
  - by apply parse_peer_text.
  - change (Some (PeerOption 1 0 0 (inet_addr (ip_to_str peer 32))) = Some (PeerOption 1 0 0 peer)).
    by rewrite ip_to_str_roundtrip'.
  - intros i mac Hi. unfold peer_line, snprintf. cbn [subnet subnet_mask PeerManager.peer_ip].
    rewrite popcount_peer_mask by done. apply take_ge.
    destruct (ip_to_str_spec sub Hs) as ([_ Hs2] & _). destruct (ip_to_str_spec peer Hp) as ([_ Hp2] & _).
    pose proof (dec_length_byte (Z.of_nat i) ltac:(unfold byte_ok; lia)).
    pose proof (dec_length_byte len ltac:(unfold byte_ok; lia)).
    rewrite !length_app. change (length (str "Peer ")) with 5%nat. change (length (str ": subnet=")) with 9%nat.
    change (length (str "/")) with 1%nat. change (length (str " -> peer=")) with 9%nat. unfold LOG_BUF_SIZE. lia.
Qed.

Lemma peer_option_roundtrip_witness :
  parse_peer_string (peer_text (htonl 0x0A000200) 24 (htonl 0xC0000209))
    = Some (PeerOption 0 (htonl 0x0A000200) (peer_mask 24) (htonl 0xC0000209)).
Proof. apply (peer_option_roundtrip (htonl 0x0A000200) 24 (htonl 0xC0000209)); [by_dec|by_dec|lia]. Defined.

(** C34 A rule given as [--peer sub/len:ip] is
    stored in network byte order, while the LAN path looks addresses up in
    host order: an address matches the rule exactly when its byte reversal
    lies in the subnet. *)
Theorem peer_rules_are_byte_reversed sub len ip dst :
  is_u32 sub -> is_u32 dst -> 1 <= len <= 32 ->
  exists o pm, parse_peer_string (peer_text (htonl sub) len (htonl ip)) = Some o /\
    main_peer_option (pm_init (PeerManager [] 0 0 [])) o = Some pm /\
    pm_lookup pm dst = if Z.land (htonl dst) (prefix_mask len) =? sub then htonl ip else 0.
Proof.
  intros Hs Hd Hl. do 2 eexists. split; [apply parse_peer_text; [apply htonl_range..|done]|]. split; [reflexivity|].
  cbn [po_subnet po_mask po_peer_ip]. rewrite (peer_mask_prefix len Hl).
  pose proof (prefix_mask_range len Hl) as Hm.
  assert (Hswap : htonl (Z.land (htonl dst) (prefix_mask len)) = Z.land dst (htonl (prefix_mask len)))
    by by rewrite htonl_land, htonl_involutive.
  assert (Hback : Z.land (htonl dst) (prefix_mask len) = htonl (Z.land dst (htonl (prefix_mask len))))
    by by rewrite htonl_land, (htonl_involutive (prefix_mask len)).
  rewrite pm_lookup_single, <- Hswap.
  destruct (Z.eqb_spec (Z.land (htonl dst) (prefix_mask len)) sub) as [->|Hne]; [by rewrite Z.eqb_refl|].
  rewrite (proj2 (Z.eqb_neq _ _)); [done|]. intros He. apply Hne.
  apply (f_equal htonl) in He. rewrite (htonl_involutive sub) in He by done. rewrite <- He, Hswap. exact Hback.
Qed.

(** 10.0.2.5 is not found by the rule 10.0.2.0/24:192.0.2.9; 5.2.0.10 is. *)
Lemma peer_rules_are_byte_reversed_witness :
  (exists o pm, parse_peer_string (peer_text (htonl 0x0A000200) 24 (htonl 0xC0000209)) = Some o /\
     main_peer_option (pm_init (PeerManager [] 0 0 [])) o = Some pm /\ pm_lookup pm 0x0A000205 = 0) /\
  (exists o pm, parse_peer_string (peer_text (htonl 0x0A000200) 24 (htonl 0xC0000209)) = Some o /\
     main_peer_option (pm_init (PeerManager [] 0 0 [])) o = Some pm /\ pm_lookup pm 0x0502000A = htonl 0xC0000209).
Proof.
  split.
  - apply (peer_rules_are_byte_reversed 0x0A000200 24 0xC0000209 0x0A000205); [by_dec|by_dec|lia].
  - apply (peer_rules_are_byte_reversed 0x0A000200 24 0xC0000209 0x0502000A); [by_dec|by_dec|lia].
Defined.
