(* ===== verification/Env.v ===== *)
(** * The execution environment: world, monad and the DPDK interface

    The program runs against DPDK, which is not part of the repository.  Its
    calls are the fields of the class [Dpdk] (arbitrary functions of the
    history of calls made so far), and what the code relies on is the class
    [DpdkSpec] of documented laws.  A computation of the program is a state
    transformer [M] over [world], whose outcome is a value, a spin on a lock
    that is never released ([Hang]) or a dereference of a null or unknown
    mbuf pointer ([Undef]).  Every DPDK call that moves ownership of an mbuf
    is logged in the trace; [refs] reads the reference ledger off it. *)

From S2P Require Import Prelude Crc32 PeerManager.

(** ** Program globals *)

(** [arp_entry_t] of wan_tunnel.c. *)
Record arp_entry := ArpEntry {
  ip_addr : Z;
  mac_addr : list Z;
  timestamp : Z;
  valid : Z }.

(** The file-scope and function-static variables of the program that the
    packet path reads or writes. *)
Record globals := Globals {
  wan_tunnel_src_ip : Z;
  g_peer_manager : peer_manager;
  arp_cache : list arp_entry;
  arp_cache_lock : Z;
  last_arp_time : Z;
  crc_tables : crc_statics }.

(** ** mbufs, events and the world *)

(** A packet buffer as the code sees it: the bytes of the data room from the
    [rte_pktmbuf_mtod] pointer on, and the two length fields. *)
Record mbuf := Mbuf {
  room : list Z;
  data_len : Z;
  pkt_len : Z }.

(** A call into DPDK that the properties of the program are about. *)
Inductive event :=
  | EvRdtsc (t : Z)
  | EvPoll (port queue : Z)
  | EvRx (m : nat)
  | EvAlloc (m : option nat)
  | EvAppend (m : nat) (len : Z) (ok : bool)
  | EvFree (m : nat)
  | EvRefcnt (m : nat) (d : Z)
  | EvTx (port queue : Z) (m : nat) (frame : list Z) (sent : bool).

Record world := World {
  w_glob : globals;
  w_mem : gmap nat mbuf;
  w_trace : list event }.

Definition log_event (e : event) (w : world) : world :=
  World (w_glob w) (w_mem w) (e :: w_trace w).

Definition set_mem (mem : gmap nat mbuf) (w : world) : world :=
  World (w_glob w) mem (w_trace w).

Definition set_glob (g : globals) (w : world) : world :=
  World g (w_mem w) (w_trace w).

(** ** The monad *)

Inductive outcome (A : Type) :=
  | Ret (a : A) (w : world)
  | Hang
  | Undef.
Arguments Ret {A}. Arguments Hang {A}. Arguments Undef {A}.

Definition M (A : Type) : Type := world -> outcome A.

#[export] Instance M_ret : MRet M := fun A a w => Ret a w.
#[export] Instance M_bind : MBind M := fun A B f c w =>
  match c w with
  | Ret a w' => f a w'
  | Hang => Hang
  | Undef => Undef
  end.

Definition hang {A} : M A := fun _ => Hang.
Definition undef {A} : M A := fun _ => Undef.
Definition get_glob : M globals := fun w => Ret (w_glob w) w.
Definition put_glob (g : globals) : M unit := fun w => Ret tt (set_glob g w).
Definition get_trace : M (list event) := fun w => Ret (w_trace w) w.
Definition log (e : event) : M unit := fun w => Ret tt (log_event e w).

(** [for (...)] over a list of indices, threading a state. *)
Fixpoint foldM {A S} (f : S -> A -> M S) (l : list A) (s : S) : M S :=
  match l with
  | [] => mret s
  | a :: l => s' ← f s a; foldM f l s'
  end.

(** ** The DPDK interface *)

(** Wire-format constants the code takes from DPDK's headers. *)
Definition RTE_ETHER_TYPE_IPV4 : Z := 0x0800.
Definition RTE_ETHER_TYPE_ARP : Z := 0x0806.
Definition IPPROTO_UDP : Z := 17.
(** [RTE_MBUF_DEFAULT_BUF_SIZE] less the headroom: the bytes addressable from
    the data pointer of an mbuf of the program's pool. *)
Definition DATAROOM : nat := 2048.

Class Dpdk := {
  (** byte order and small copies *)
  rte_cpu_to_be_16 : Z -> Z;
  rte_cpu_to_be_32 : Z -> Z;
  rte_be_to_cpu_16 : Z -> Z;
  rte_be_to_cpu_32 : Z -> Z;
  rte_ether_addr_copy : list Z -> list Z;
  (** the device and the clock *)
  rte_get_timer_hz : Z;
  rte_eth_macaddr_get : Z -> list Z;
  rte_hash_crc_32b : list Z -> Z -> Z;
  rte_mbuf_from_lib_mp : nat -> Z;
  (** answers that depend on the calls made so far *)
  env_rdtsc : list event -> Z;
  env_alloc : Z -> list event -> option (nat * mbuf);
  env_append : list event -> mbuf -> Z -> option (nat * mbuf);
  env_tx : list event -> Z -> Z -> nat -> bool;
  env_rx : list event -> Z -> Z -> Z -> list (nat * mbuf);
  (** spinlocks: [None] is a call that never returns *)
  spin_lock : Z -> option Z;
  spin_unlock : Z -> Z;
  spin_init : Z }.

(** ** The reference ledger *)

(** What one call does to the number of references the program holds on
    mbuf [i]: an allocated or received mbuf comes with one, [rte_pktmbuf_free]
    gives one up, a successful transmit hands one to the NIC. *)
Definition ref_delta (e : event) (i : nat) : Z :=
  match e with
  | EvRx j => if decide (j = i) then 1 else 0
  | EvAlloc (Some j) => if decide (j = i) then 1 else 0
  | EvFree j => if decide (j = i) then -1 else 0
  | EvRefcnt j d => if decide (j = i) then d else 0
  | EvTx _ _ j _ true => if decide (j = i) then -1 else 0
  | _ => 0
  end.

Fixpoint refs (tr : list event) (i : nat) : Z :=
  match tr with
  | [] => 0
  | e :: tr => refs tr i + ref_delta e i
  end.

Definition held (w : world) (i : nat) : Z := refs (w_trace w) i.

(** The buffers are whole data rooms of bytes. *)
Definition mbuf_wf (b : mbuf) : Prop := length (room b) = DATAROOM /\ bytes_ok (room b).
Definition mem_wf (w : world) : Prop := map_Forall (fun _ b => mbuf_wf b) (w_mem w).

(** The documented behaviour the code relies on. *)
Class DpdkSpec `{Dpdk} : Prop := {
  be_16_out v : le_bytes 2 (rte_cpu_to_be_16 v) = be_bytes 2 v;
  be_32_out v : le_bytes 4 (rte_cpu_to_be_32 v) = be_bytes 4 v;
  be_16_in v : rte_be_to_cpu_16 v = be_val (le_bytes 2 v);
  be_32_in v : rte_be_to_cpu_32 v = be_val (le_bytes 4 v);
  ether_copy a : rte_ether_addr_copy a = a;
  macaddr_length p : length (rte_eth_macaddr_get p) = 6%nat;
  macaddr_bytes p : bytes_ok (rte_eth_macaddr_get p);
  rdtsc_u64 tr : 0 <= env_rdtsc tr < 2 ^ 64;
  (** an allocated mbuf is empty and is none the program still holds *)
  alloc_fresh pool tr i b :
    env_alloc pool tr = Some (i, b) -> refs tr i <= 0 /\ mbuf_wf b /\ data_len b = 0;
  (** an append extends the packet inside the data room *)
  append_spec tr b len off b' :
    env_append tr b len = Some (off, b') ->
    Z.of_nat off = data_len b /\ data_len b' = data_len b + len /\
    room b' = room b /\ data_len b + len <= Z.of_nat DATAROOM;
  (** a poll hands over at most [n] distinct mbufs, none the program still holds *)
  rx_fresh tr port queue n :
    let bufs := env_rx tr port queue n in
    Z.of_nat (length bufs) <= Z.max 0 n /\ NoDup bufs.*1 /\
    Forall (fun x => refs tr x.1 <= 0 /\ mbuf_wf x.2) bufs;
  (** a lock word is 0 when free; a held lock is not granted again *)
  lock_free : spin_lock 0 = Some 1;
  lock_held : spin_lock 1 = None;
  lock_release : spin_unlock 1 = 0;
  lock_init : spin_init = 0 }.

Section Calls.
Context `{Dpdk}.

Definition rte_rdtsc : M Z := fun w =>
  let t := env_rdtsc (w_trace w) in Ret t (log_event (EvRdtsc t) w).

Definition rte_spinlock_lock (l : Z) : M Z :=
  match spin_lock l with Some l' => mret l' | None => hang end.

Definition rte_pktmbuf_alloc (pool : Z) : M (option nat) := fun w =>
  match env_alloc pool (w_trace w) with
  | Some (i, b) => Ret (Some i) (log_event (EvAlloc (Some i)) (set_mem (<[i := b]> (w_mem w)) w))
  | None => Ret None (log_event (EvAlloc None) w)
  end.

Definition deref (m : nat) : M mbuf := fun w =>
  match w_mem w !! m with Some b => Ret b w | None => Undef end.

Definition put_mbuf (m : nat) (b : mbuf) : M unit := fun w =>
  Ret tt (set_mem (<[m := b]> (w_mem w)) w).

(** The bytes behind [rte_pktmbuf_mtod(m, ...)], and a store through it. *)
Definition mtod (m : nat) : M (list Z) := b ← deref m; mret (room b).

Definition mstore (m : nat) (f : list Z -> list Z) : M unit :=
  b ← deref m; put_mbuf m (Mbuf (f (room b)) (data_len b) (pkt_len b)).

(** [m->data_len = n; m->pkt_len = n;] *)
Definition set_lens (m : nat) (n : Z) : M unit :=
  b ← deref m; put_mbuf m (Mbuf (room b) n n).

(** [rte_pktmbuf_append]: the offset of the added bytes, or NULL. *)
Definition rte_pktmbuf_append (m : nat) (len : Z) : M (option nat) :=
  b ← deref m;
  tr ← get_trace;
  match env_append tr b len with
  | Some (off, b') => put_mbuf m b';; log (EvAppend m len true);; mret (Some off)
  | None => log (EvAppend m len false);; mret None
  end.

(** [rte_pktmbuf_free(NULL)] does nothing. *)
Definition rte_pktmbuf_free (m : option nat) : M unit :=
  match m with Some i => log (EvFree i) | None => mret tt end.

Definition rte_pktmbuf_refcnt_update (m : option nat) (d : Z) : M unit :=
  match m with Some i => log (EvRefcnt i d) | None => undef end.

(** [rte_eth_tx_burst(port, queue, &m, 1)]: the number of packets taken. *)
Definition rte_eth_tx_burst (port queue : Z) (m : option nat) : M Z :=
  match m with
  | None => undef
  | Some i =>
      b ← deref i;
      tr ← get_trace;
      let sent := env_tx tr port queue i in
      log (EvTx port queue i (take (Z.to_nat (data_len b)) (room b)) sent);;
      mret (if sent then 1 else 0)
  end.

(** The NIC hands over [m] with contents [b]. *)
Definition received (m : nat) (b : mbuf) (w : world) : world :=
  log_event (EvRx m) (set_mem (<[m := b]> (w_mem w)) w).

Definition received_all (bufs : list (nat * mbuf)) (w : world) : world :=
  fold_left (fun w x => received x.1 x.2 w) bufs w.

(** [nb_rx = rte_eth_rx_burst(port, queue, bufs, n)], as the list
    [bufs[0] .. bufs[nb_rx - 1]]. *)
Definition rte_eth_rx_burst (port queue n : Z) : M (list nat) := fun w =>
  let bufs := env_rx (w_trace w) port queue n in
  Ret bufs.*1 (received_all bufs (log_event (EvPoll port queue) w)).

End Calls.

(** ** Reasoning about computations *)

(** Total correctness: the computation returns, in a state satisfying [Q]. *)
Definition wp {A} (c : M A) (Q : A -> world -> Prop) (w : world) : Prop :=
  match c w with Ret a w' => Q a w' | _ => False end.

Section Wp.
Context {A B : Type}.

Lemma wp_ret (a : A) (Q : A -> world -> Prop) w : Q a w -> wp (mret a) Q w.
Proof. done. Qed.

Lemma wp_bind (c : M A) (f : A -> M B) Q w :
  wp c (fun a w' => wp (f a) Q w') w -> wp (mbind f c) Q w.
Proof. unfold wp, mbind, M_bind. by destruct (c w). Qed.

Lemma wp_mono (c : M A) (P Q : A -> world -> Prop) w :
  wp c P w -> (forall a w', P a w' -> Q a w') -> wp c Q w.
Proof. unfold wp. destruct (c w); auto. Qed.

Lemma wp_conj (c : M A) (P Q : A -> world -> Prop) w :
  wp c P w -> wp c Q w -> wp c (fun a w' => P a w' /\ Q a w') w.
Proof. unfold wp. destruct (c w); auto. Qed.

Lemma wp_eq (c : M A) Q w a w' : c w = Ret a w' -> (wp c Q w <-> Q a w').
Proof. unfold wp. by intros ->. Qed.

Lemma wp_exists (c : M A) Q w : wp c Q w -> exists a w', c w = Ret a w' /\ Q a w'.
Proof. unfold wp. destruct (c w); naive_solver. Qed.

Lemma wp_run (c : M A) Q w : wp c Q w -> wp c (fun a w' => Q a w' /\ c w = Ret a w') w.
Proof. unfold wp. by destruct (c w). Qed.

Lemma bind_Ret (c : M A) (f : A -> M B) w b w' :
  (c ≫= f) w = Ret b w' -> exists a w1, c w = Ret a w1 /\ f a w1 = Ret b w'.
Proof. unfold mbind, M_bind. destruct (c w); naive_solver. Qed.

End Wp.

(** A computed outcome and what was observed of it. *)
Lemma outcome_Ret {A} (o : outcome A) (P : A -> world -> Prop) :
  match o with Ret a w => P a w | _ => False end -> exists a w, o = Ret a w /\ P a w.
Proof. destruct o; [eauto|done..]. Qed.

(** The result of a computation that is known to return. *)
Definition ret_of {A} (o : outcome A) (d : A * world) : A * world := match o with Ret a w => (a, w) | _ => d end.

Lemma ret_of_eq {A} (o : outcome A) d :
  match o with Ret _ _ => True | _ => False end -> o = Ret (ret_of o d).1 (ret_of o d).2.
Proof. by destruct o. Qed.

(** [leaves φ v c]: whenever [c] returns, [φ] of its result is [v]; for the
    parts of a state a computation does not change. *)
Definition leaves {A B} (φ : A -> B) (v : B) (c : M A) : Prop := forall w a w', c w = Ret a w' -> φ a = v.

Lemma leaves_ret {A B} (φ : A -> B) v a : φ a = v -> leaves φ v (mret a).
Proof. intros Ha w a' w' [= <- _]. exact Ha. Qed.

Lemma leaves_bind {A B C} (φ : A -> B) v (c : M C) f : (forall x, leaves φ v (f x)) -> leaves φ v (c ≫= f).
Proof. intros Hf w a w' (x & w1 & _ & Hr)%bind_Ret. by eapply Hf. Qed.

Lemma leaves_seq {A B C D} (φ : A -> B) v (ψ : C -> D) u (c : M C) f :
  leaves ψ u c -> (forall x, ψ x = u -> leaves φ v (f x)) -> leaves φ v (c ≫= f).
Proof. intros Hc Hf w a w' (x & w1 & H1 & H2)%bind_Ret. eapply Hf; [by eapply Hc|exact H2]. Qed.

Lemma leaves_foldM {A B S} (φ : S -> B) v (f : S -> A -> M S) l s :
  φ s = v -> (forall s a, φ s = v -> leaves φ v (f s a)) -> leaves φ v (foldM f l s).
Proof.
  intros Hs Hf. revert s Hs. induction l as [|a l IH]; intros s Hs; [by apply leaves_ret|].
  cbn [foldM]. eapply leaves_seq; [by apply Hf|exact IH].
Qed.

(** Follow the control flow; the equations left are on the states returned. *)
Ltac leaves_tac :=
  repeat (cbv beta zeta; intros;
    lazymatch goal with
    | |- leaves _ _ (mret _) => apply leaves_ret; cbn; congruence
    | |- leaves _ _ (mbind _ _) => apply leaves_bind
    | |- leaves _ _ (match ?x with _ => _ end) => destruct x
    end); intros.

(** Loop rule: an invariant indexed by the elements already visited. *)
Lemma wp_foldM {A S} (f : S -> A -> M S) (l : list A) (s : S) (I : list A -> S -> world -> Prop) w :
  I [] s w ->
  (forall done a s w, (exists rest, l = done ++ a :: rest) -> I done s w ->
     wp (f s a) (fun s' w' => I (done ++ [a]) s' w') w) ->
  wp (foldM f l s) (fun s' w' => I l s' w') w.
Proof.
  intros H0 Hstep.
  assert (forall rest done s w, l = done ++ rest -> I done s w ->
            wp (foldM f rest s) (fun s' w' => I l s' w') w) as Hg; [|by apply (Hg l [] s w)].
  induction rest as [|a rest IH]; intros done' s' w' Hl HI.
  - rewrite app_nil_r in Hl. by subst.
  - cbn [foldM]. apply wp_bind. eapply wp_mono; [apply Hstep; [by exists rest|done]|].
    intros s'' w'' HI'. apply (IH (done' ++ [a])); [|done]. by rewrite <- app_assoc.
Qed.

(** One step of a computation, for each primitive. *)
Section WpPrimitives.
Context `{Dpdk}.

Lemma wp_log e (Q : unit -> world -> Prop) w : Q tt (log_event e w) -> wp (log e) Q w.
Proof. done. Qed.

Lemma wp_get_glob (Q : globals -> world -> Prop) w : Q (w_glob w) w -> wp get_glob Q w.
Proof. done. Qed.

Lemma wp_put_glob g (Q : unit -> world -> Prop) w : Q tt (set_glob g w) -> wp (put_glob g) Q w.
Proof. done. Qed.

Lemma wp_get_trace (Q : list event -> world -> Prop) w : Q (w_trace w) w -> wp get_trace Q w.
Proof. done. Qed.

Lemma wp_rdtsc (Q : Z -> world -> Prop) w :
  (forall t, t = env_rdtsc (w_trace w) -> Q t (log_event (EvRdtsc t) w)) -> wp rte_rdtsc Q w.
Proof. intros HQ. by apply HQ. Qed.

Lemma wp_free m (Q : unit -> world -> Prop) w :
  Q tt (log_event (EvFree m) w) -> wp (rte_pktmbuf_free (Some m)) Q w.
Proof. done. Qed.

Lemma wp_refcnt m d (Q : unit -> world -> Prop) w :
  Q tt (log_event (EvRefcnt m d) w) -> wp (rte_pktmbuf_refcnt_update (Some m) d) Q w.
Proof. done. Qed.

Lemma wp_deref m b (Q : mbuf -> world -> Prop) w :
  w_mem w !! m = Some b -> Q b w -> wp (deref m) Q w.
Proof. intros Hm HQ. unfold wp, deref. by rewrite Hm. Qed.

Lemma wp_put_mbuf m b (Q : unit -> world -> Prop) w :
  Q tt (set_mem (<[m := b]> (w_mem w)) w) -> wp (put_mbuf m b) Q w.
Proof. done. Qed.

Lemma wp_mtod m b (Q : list Z -> world -> Prop) w :
  w_mem w !! m = Some b -> Q (room b) w -> wp (mtod m) Q w.
Proof. intros Hm HQ. apply wp_bind. by eapply wp_deref. Qed.

Lemma wp_mstore m f b (Q : unit -> world -> Prop) w :
  w_mem w !! m = Some b ->
  Q tt (set_mem (<[m := Mbuf (f (room b)) (data_len b) (pkt_len b)]> (w_mem w)) w) ->
  wp (mstore m f) Q w.
Proof. intros Hm HQ. apply wp_bind. by eapply wp_deref. Qed.

Lemma wp_set_lens m n b (Q : unit -> world -> Prop) w :
  w_mem w !! m = Some b ->
  Q tt (set_mem (<[m := Mbuf (room b) n n]> (w_mem w)) w) -> wp (set_lens m n) Q w.
Proof. intros Hm HQ. apply wp_bind. by eapply wp_deref. Qed.

Lemma wp_alloc pool (Q : option nat -> world -> Prop) w :
  (forall i b, env_alloc pool (w_trace w) = Some (i, b) ->
     Q (Some i) (log_event (EvAlloc (Some i)) (set_mem (<[i := b]> (w_mem w)) w))) ->
  Q None (log_event (EvAlloc None) w) ->
  wp (rte_pktmbuf_alloc pool) Q w.
Proof.
  intros Hs Hn. unfold wp, rte_pktmbuf_alloc.
  destruct (env_alloc pool (w_trace w)) as [[i b]|] eqn:E; [by apply Hs|done].
Qed.

Lemma wp_append m len b (Q : option nat -> world -> Prop) w :
  w_mem w !! m = Some b ->
  (forall off b', env_append (w_trace w) b len = Some (off, b') ->
     Q (Some off) (log_event (EvAppend m len true) (set_mem (<[m := b']> (w_mem w)) w))) ->
  Q None (log_event (EvAppend m len false) w) ->
  wp (rte_pktmbuf_append m len) Q w.
Proof.
  intros Hm Hs Hn. apply wp_bind. eapply wp_deref; [done|].
  apply wp_bind, wp_get_trace. destruct (env_append _ b len) as [[off b']|] eqn:E; [|done].
  by apply Hs.
Qed.

Lemma wp_tx port queue m b (Q : Z -> world -> Prop) w :
  w_mem w !! m = Some b ->
  (forall sent, sent = env_tx (w_trace w) port queue m ->
     Q (if sent then 1 else 0)
       (log_event (EvTx port queue m (take (Z.to_nat (data_len b)) (room b)) sent) w)) ->
  wp (rte_eth_tx_burst port queue (Some m)) Q w.
Proof.
  intros Hm HQ. apply wp_bind. eapply wp_deref; [done|]. apply wp_bind, wp_get_trace.
  apply wp_bind, wp_log, wp_ret, HQ. done.
Qed.

Lemma wp_lock `{!DpdkSpec} (Q : Z -> world -> Prop) w : Q 1 w -> wp (rte_spinlock_lock 0) Q w.
Proof. unfold wp, rte_spinlock_lock. by rewrite lock_free. Qed.

Lemma bind_lock_free `{!DpdkSpec} {A} (f : Z -> M A) w : (rte_spinlock_lock 0 ≫= f) w = f 1 w.
Proof. unfold mbind, M_bind, rte_spinlock_lock. by rewrite lock_free. Qed.

Lemma bind_hang {A B} (c : M A) (f : A -> M B) w : c w = Hang -> (c ≫= f) w = Hang.
Proof. unfold mbind, M_bind. by intros ->. Qed.

(** Taking a lock this core already holds spins for ever. *)
Lemma lock_held_hangs `{!DpdkSpec} w : rte_spinlock_lock 1 w = Hang.
Proof. unfold rte_spinlock_lock. by rewrite lock_held. Qed.

End WpPrimitives.

(** ** The trace only grows *)

(** Whatever the computation does, the trace of the start is a suffix of the
    trace at the end: what was transmitted stays on record. *)
Definition grows {A} (c : M A) : Prop :=
  forall w a w', c w = Ret a w' -> w_trace w `suffix_of` w_trace w'.

Create HintDb grow.

Lemma grows_ret {A} (a : A) : grows (mret a).
Proof. by intros w a' w' [= _ <-]. Qed.

Lemma grows_bind {A B} (c : M A) (f : A -> M B) : grows c -> (forall a, grows (f a)) -> grows (c ≫= f).
Proof. intros Hc Hf w b w' (a & w1 & H1 & H2)%bind_Ret. etrans; [by eapply Hc|by eapply Hf]. Qed.

Lemma grows_foldM {A S} (f : S -> A -> M S) l s : (forall s a, grows (f s a)) -> grows (foldM f l s).
Proof. intros Hf. revert s. induction l as [|a l IH]; intros s; [apply grows_ret|]. by apply grows_bind. Qed.

Lemma grows_log e : grows (log e).
Proof. intros w a w' [= _ <-]. by apply suffix_cons_r. Qed.

Section Grows.
Context `{Dpdk}.

Lemma grows_rdtsc : grows rte_rdtsc.
Proof. intros w a w' [= _ <-]. by apply suffix_cons_r. Qed.

Lemma grows_alloc pool : grows (rte_pktmbuf_alloc pool).
Proof.
  intros w a w'. unfold rte_pktmbuf_alloc. destruct (env_alloc _ _) as [[i b]|];
    intros [= _ <-]; by apply suffix_cons_r.
Qed.

Lemma grows_deref m : grows (deref m).
Proof. intros w a w'. unfold deref. destruct (_ !! m); [|done]. by intros [= _ <-]. Qed.

Lemma grows_pure {A} (c : M A) : (forall w a w', c w = Ret a w' -> w_trace w' = w_trace w) -> grows c.
Proof. intros Hc w a w' Hr. by rewrite (Hc w a w' Hr). Qed.

Lemma grows_put_mbuf m b : grows (put_mbuf m b).
Proof. apply grows_pure. by intros w a w' [= _ <-]. Qed.
Lemma grows_get_glob : grows get_glob.
Proof. apply grows_pure. by intros w a w' [= _ <-]. Qed.
Lemma grows_put_glob g : grows (put_glob g).
Proof. apply grows_pure. by intros w a w' [= _ <-]. Qed.
Lemma grows_get_trace : grows get_trace.
Proof. apply grows_pure. by intros w a w' [= _ <-]. Qed.
Lemma grows_undef {A} : grows (undef (A := A)).
Proof. by intros w a w'. Qed.
Lemma grows_hang {A} : grows (hang (A := A)).
Proof. by intros w a w'. Qed.

End Grows.

#[export] Hint Resolve grows_ret grows_log grows_rdtsc grows_alloc grows_deref grows_put_mbuf
  grows_get_glob grows_put_glob grows_get_trace grows_undef grows_hang : grow.

(** Walk through a computation, branch by branch. *)
Ltac grow :=
  repeat (cbv beta zeta; intros;
    lazymatch goal with
    | |- grows (mbind _ _) => apply grows_bind
    | |- grows (foldM _ _ _) => apply grows_foldM
    | |- grows (match ?x with _ => _ end) => destruct x
    | |- grows _ => solve [auto with grow nocore]
    end).

Section GrowsCalls.
Context `{Dpdk}.

Lemma grows_lock l : grows (rte_spinlock_lock l).
Proof. unfold rte_spinlock_lock. grow. Qed.
Lemma grows_mtod m : grows (mtod m).
Proof. unfold mtod. grow. Qed.
Lemma grows_mstore m f : grows (mstore m f).
Proof. unfold mstore. grow. Qed.
Lemma grows_set_lens m n : grows (set_lens m n).
Proof. unfold set_lens. grow. Qed.
Lemma grows_append m n : grows (rte_pktmbuf_append m n).
Proof. unfold rte_pktmbuf_append. grow. Qed.
Lemma grows_free m : grows (rte_pktmbuf_free m).
Proof. unfold rte_pktmbuf_free. grow. Qed.
Lemma grows_refcnt m d : grows (rte_pktmbuf_refcnt_update m d).
Proof. unfold rte_pktmbuf_refcnt_update. grow. Qed.
Lemma grows_tx port queue m : grows (rte_eth_tx_burst port queue m).
Proof. unfold rte_eth_tx_burst. grow. Qed.

End GrowsCalls.

#[export] Hint Resolve grows_lock grows_mtod grows_mstore grows_set_lens grows_append grows_free
  grows_refcnt grows_tx : grow.

(** Step through a computation: binds, returns, logged calls, the clock and
    free locks. *)
Ltac wp_step :=
  cbv beta;
  lazymatch goal with
  | |- wp (mbind _ _) _ _ => apply wp_bind
  | |- wp (mret _) _ _ => apply wp_ret
  | |- wp (log _) _ _ => apply wp_log
  | |- wp get_glob _ _ => apply wp_get_glob
  | |- wp (put_glob _) _ _ => apply wp_put_glob
  | |- wp get_trace _ _ => apply wp_get_trace
  | |- wp (rte_pktmbuf_free (Some _)) _ _ => apply wp_free
  | |- wp (rte_pktmbuf_free None) _ _ => apply wp_ret
  | |- wp (rte_pktmbuf_refcnt_update (Some _) _) _ _ => apply wp_refcnt
  | |- wp (rte_spinlock_lock 0) _ _ => apply wp_lock
  | |- wp rte_rdtsc _ _ => apply wp_rdtsc; intros ? ?Ht
  end.
Ltac wp_auto := repeat wp_step; cbv beta.

(** ** Frames: what a computation leaves alone *)

Definition same_store (w w' : world) : Prop := w_glob w' = w_glob w /\ w_mem w' = w_mem w.

#[export] Instance same_store_preorder : PreOrder same_store.
Proof. split; [by split|]. intros w1 w2 w3 [H1 H2] [H3 H4]. split; congruence. Qed.

(** [w'] holds [d i] more references on each mbuf [i] than [w]. *)
Definition held_by (d : nat -> Z) (w w' : world) : Prop := forall i, held w' i = held w i + d i.

Lemma held_by_trans d1 d2 w1 w2 w3 :
  held_by d1 w1 w2 -> held_by d2 w2 w3 -> held_by (fun i => d1 i + d2 i) w1 w3.
Proof. intros H1 H2 i. rewrite (H2 i), (H1 i). lia. Qed.

Lemma held_by_refl w : held_by (fun _ => 0) w w.
Proof. intros i. lia. Qed.

Lemma held_by_ext d1 d2 w w' : (forall i, d1 i = d2 i) -> held_by d1 w w' -> held_by d2 w w'.
Proof. intros He H i. rewrite (H i), He. done. Qed.

Lemma held_log e w i : held (log_event e w) i = held w i + ref_delta e i.
Proof. done. Qed.

Lemma held_set_mem mem w i : held (set_mem mem w) i = held w i.
Proof. done. Qed.

Lemma held_set_glob g w i : held (set_glob g w) i = held w i.
Proof. done. Qed.

(** One reference to [m]. *)
Definition one (m : nat) (i : nat) : Z := if decide (m = i) then 1 else 0.

(** What the outside sees of a trace, newest first: the transmissions
    attempted and the mbufs released. *)
Inductive io := Sent (port : Z) (m : nat) | Released (m : nat).
Definition io_of (e : event) : option io :=
  match e with
  | EvTx port _ m _ _ => Some (Sent port m)
  | EvFree m => Some (Released m)
  | _ => None
  end.
Definition io_log (tr : list event) : list io := omap io_of tr.

(** ** What every packet-path operation preserves *)

Definition ARP_CACHE_SIZE : Z := 128.

Definition glob_ok (g : globals) : Prop :=
  length (arp_cache g) = Z.to_nat ARP_CACHE_SIZE /\
  Forall (fun e => length (mac_addr e) = 6%nat /\ bytes_ok (mac_addr e)) (arp_cache g) /\
  arp_cache_lock g = 0 /\ crc_statics_ok (crc_tables g) /\ pm_wf (g_peer_manager g).

Definition world_ok (w : world) : Prop := glob_ok (w_glob w) /\ mem_wf w.

(** From [w] to [w'] nothing configured changed, no mbuf disappeared, and the
    program holds [d i] more references on each mbuf [i]. *)
Record evolves (d : nat -> Z) (w w' : world) : Prop := Evolves {
  ev_ok : world_ok w';
  ev_mem i : is_Some (w_mem w !! i) -> is_Some (w_mem w' !! i);
  ev_pm : g_peer_manager (w_glob w') = g_peer_manager (w_glob w);
  ev_ip : wan_tunnel_src_ip (w_glob w') = wan_tunnel_src_ip (w_glob w);
  ev_arp : arp_cache (w_glob w') = arp_cache (w_glob w);
  ev_held : held_by d w w' }.

Lemma evolves_refl w : world_ok w -> evolves (fun _ => 0) w w.
Proof. intros Hw. split; auto using held_by_refl. Qed.

Lemma evolves_trans d1 d2 w1 w2 w3 :
  evolves d1 w1 w2 -> evolves d2 w2 w3 -> evolves (fun i => d1 i + d2 i) w1 w3.
Proof.
  intros [] []. split; try done; try congruence; eauto using held_by_trans.
Qed.

Lemma evolves_ext d1 d2 w w' : (forall i, d1 i = d2 i) -> evolves d1 w w' -> evolves d2 w w'.
Proof. intros He []. split; try done. by eapply held_by_ext. Qed.

Lemma evolves_seq d1 d2 d w1 w2 w3 :
  evolves d1 w1 w2 -> evolves d2 w2 w3 -> (forall i, d1 i + d2 i = d i) -> evolves d w1 w3.
Proof. intros H1 H2 He. eapply evolves_ext; [exact He|]. by eapply evolves_trans. Qed.

Lemma evolves_same_store d w w' :
  world_ok w -> same_store w w' -> held_by d w w' -> evolves d w w'.
Proof.
  intros [Hg Hm] [Hgl Hme] Hh. split; rewrite ?Hgl, ?Hme; try done.
  unfold world_ok, mem_wf. by rewrite Hgl, Hme.
Qed.

Lemma evolves_held_eq d w0 w w' j : evolves d w0 w' -> evolves d w0 w -> held w' j = held w j.
Proof. intros H1 H2. by rewrite (ev_held _ _ _ H1 j), (ev_held _ _ _ H2 j). Qed.

Lemma evolves_log d w e :
  world_ok w -> (forall i, ref_delta e i = d i) -> evolves d w (log_event e w).
Proof.
  intros Hw Hd. apply evolves_same_store; [done|done|]. intros i. by rewrite held_log, Hd.
Qed.

Lemma evolves_store w m b :
  world_ok w -> mbuf_wf b -> evolves (fun _ => 0) w (set_mem (<[m := b]> (w_mem w)) w).
Proof.
  intros [Hg Hm] Hb. split; try done.
  - split; [done|]. apply map_Forall_insert_2; done.
  - intros i Hi. cbn. rewrite lookup_insert_is_Some'. by right.
  - intros i. rewrite held_set_mem. lia.
Qed.

Lemma world_ok_mbuf w m b : world_ok w -> w_mem w !! m = Some b -> mbuf_wf b.
Proof. intros [_ Hm] Hb. by apply (Hm m). Qed.

(** Rules that track only [evolves]. *)
Section Evolves.
Context `{DpdkSpec}.

Lemma ev_mstore m f (Q : unit -> world -> Prop) w :
  world_ok w -> is_Some (w_mem w !! m) ->
  (forall b, mbuf_wf b -> length (f (room b)) = length (room b) /\ bytes_ok (f (room b))) ->
  (forall w', evolves (fun _ => 0) w w' -> Q tt w') ->
  wp (mstore m f) Q w.
Proof.
  intros Hw [b Hb] Hf HQ. eapply wp_mstore; [done|]. apply HQ, evolves_store; [done|].
  pose proof (world_ok_mbuf w m b Hw Hb) as Hwf. destruct (Hf b Hwf) as [Hl Hok].
  destruct Hwf as [Hlen _]. split; cbn; [congruence|done].
Qed.

Lemma ev_alloc pool (Q : option nat -> world -> Prop) w :
  world_ok w ->
  (forall i b, env_alloc pool (w_trace w) = Some (i, b) ->
     forall w', w' = log_event (EvAlloc (Some i)) (set_mem (<[i := b]> (w_mem w)) w) ->
     evolves (one i) w w' -> w_mem w' !! i = Some b -> mbuf_wf b -> data_len b = 0 ->
     held w i <= 0 -> Q (Some i) w') ->
  (forall w', evolves (fun _ => 0) w w' -> w_mem w' = w_mem w -> Q None w') ->
  wp (rte_pktmbuf_alloc pool) Q w.
Proof.
  intros Hw Hs Hn. apply wp_alloc; [|by apply Hn; [apply evolves_log|]].
  intros i b He. destruct (alloc_fresh _ _ _ _ He) as (Hr & Hb & Hl).
  eapply Hs; try done.
  - eapply evolves_seq; [by apply (evolves_store w i b)|apply evolves_log|].
    + split; [apply Hw|]. cbn. apply map_Forall_insert_2; [done|apply Hw].
    + cbn. intros j. reflexivity.
    + cbn. unfold one. intros j. by destruct (decide (i = j)).
  - cbn. by rewrite lookup_insert_eq.
Qed.

Lemma ev_tx port queue m (Q : Z -> world -> Prop) w :
  world_ok w -> is_Some (w_mem w !! m) ->
  (forall w', evolves (fun j => - one m j) w w' -> Q 1 w') ->
  (forall w', evolves (fun _ => 0) w w' -> Q 0 w') ->
  wp (rte_eth_tx_burst port queue (Some m)) Q w.
Proof.
  intros Hw [b Hb] HQ1 HQ0. eapply wp_tx; [done|]. intros sent _.
  destruct sent; [apply HQ1|apply HQ0]; apply evolves_log; try done.
  intros j. cbn. unfold one. by destruct (decide (m = j)).
Qed.

Lemma ev_free m (Q : unit -> world -> Prop) w :
  world_ok w -> (forall w', evolves (fun j => - one m j) w w' -> Q tt w') ->
  wp (rte_pktmbuf_free (Some m)) Q w.
Proof.
  intros Hw HQ. apply wp_free, HQ, evolves_log; [done|]. intros j. cbn. unfold one.
  by destruct (decide (m = j)).
Qed.

Lemma ev_refcnt m d (Q : unit -> world -> Prop) w :
  world_ok w -> (forall w', evolves (fun j => d * one m j) w w' -> Q tt w') ->
  wp (rte_pktmbuf_refcnt_update (Some m) d) Q w.
Proof.
  intros Hw HQ. apply wp_refcnt, HQ, evolves_log; [done|]. intros j. cbn. unfold one.
  destruct (decide (m = j)); lia.
Qed.

Lemma ev_rdtsc (Q : Z -> world -> Prop) w :
  world_ok w -> (forall t w', evolves (fun _ => 0) w w' -> Q t w') -> wp rte_rdtsc Q w.
Proof. intros Hw HQ. apply wp_rdtsc. intros t _. apply HQ, evolves_log; done. Qed.

End Evolves.

(** Stepping while accumulating what happened since a start state [w0] in a
    hypothesis [He : evolves d w0 w], and keeping the facts about which mbufs
    exist ([is_Some (w_mem w !! m)] and [mem_le w1 w]) up to date. *)
Definition mem_le (w w' : world) : Prop :=
  forall i, is_Some (w_mem w !! i) -> is_Some (w_mem w' !! i).

Lemma mem_le_refl w : mem_le w w.
Proof. by intros i. Qed.

Lemma mem_le_trans w1 w2 w3 : mem_le w1 w2 -> mem_le w2 w3 -> mem_le w1 w3.
Proof. intros H1 H2 i Hi. by apply H2, H1. Qed.

Section Exact.
Context `{DpdkSpec}.

(** Rules that also keep the memory and the trace. *)
Lemma ev_tx_exact port queue m b (Q : Z -> world -> Prop) d w0 w :
  evolves d w0 w -> w_mem w !! m = Some b ->
  (forall w', evolves (fun j => d j - one m j) w0 w' -> w_mem w' = w_mem w ->
     w_trace w' = EvTx port queue m (take (Z.to_nat (data_len b)) (room b)) true :: w_trace w -> Q 1 w') ->
  (forall w', evolves d w0 w' -> w_mem w' = w_mem w ->
     w_trace w' = EvTx port queue m (take (Z.to_nat (data_len b)) (room b)) false :: w_trace w -> Q 0 w') ->
  wp (rte_eth_tx_burst port queue (Some m)) Q w.
Proof.
  intros He Hb HQ1 HQ0. eapply wp_tx; [exact Hb|]. intros sent _.
  destruct sent; [apply HQ1|apply HQ0]; try done;
    (eapply evolves_seq; [exact He|apply evolves_log; [apply He|intros j; reflexivity]|]);
    intros j; cbn; unfold one; try destruct (decide (m = j)); lia.
Qed.

Lemma ev_free_exact m (Q : unit -> world -> Prop) d w0 w :
  evolves d w0 w ->
  (forall w', evolves (fun j => d j - one m j) w0 w' -> w_mem w' = w_mem w ->
     w_trace w' = EvFree m :: w_trace w -> Q tt w') ->
  wp (rte_pktmbuf_free (Some m)) Q w.
Proof.
  intros He HQ. apply wp_free, HQ; try done.
  eapply evolves_seq; [exact He|apply evolves_log; [apply He|intros j; reflexivity]|].
  intros j; cbn; unfold one. destruct (decide (m = j)); lia.
Qed.

Lemma ev_refcnt_exact m n (Q : unit -> world -> Prop) d w0 w :
  evolves d w0 w ->
  (forall w', evolves (fun j => d j + n * one m j) w0 w' -> w_mem w' = w_mem w -> Q tt w') ->
  wp (rte_pktmbuf_refcnt_update (Some m) n) Q w.
Proof.
  intros He HQ. apply wp_refcnt, HQ; try done.
  eapply evolves_seq; [exact He|apply evolves_log; [apply He|intros j; reflexivity]|].
  intros j; cbn; unfold one. destruct (decide (m = j)); lia.
Qed.

Lemma ev_rdtsc_exact (Q : Z -> world -> Prop) d w0 w :
  evolves d w0 w ->
  (forall t w', evolves d w0 w' -> w_mem w' = w_mem w -> w_glob w' = w_glob w -> Q t w') ->
  wp rte_rdtsc Q w.
Proof.
  intros He HQ. apply wp_rdtsc. intros t _. apply HQ; try done.
  eapply evolves_seq; [exact He|apply evolves_log; [apply He|intros j; reflexivity]|]. intros j. cbn. lia.
Qed.

End Exact.

Ltac mem_push Hle :=
  let w := match type of Hle with mem_le ?w _ => w end in
  repeat match goal with
    | H : is_Some (w_mem w !! _) |- _ => apply Hle in H
    | H : mem_le _ w |- _ => apply (fun H => mem_le_trans _ _ _ H Hle) in H
    end.

Ltac ev_push He Hs :=
  let Hle := fresh in pose proof (ev_mem _ _ _ Hs : mem_le _ _) as Hle;
  mem_push Hle;
  apply (evolves_trans _ _ _ _ _ He) in Hs; clear He; rename Hs into He.

Ltac ev_ok_tac :=
  match goal with He : evolves _ _ ?w |- world_ok ?w => exact (ev_ok _ _ _ He) end.

Ltac ev_step :=
  cbv beta;
  lazymatch goal with
  | |- wp (mbind _ _) _ _ => apply wp_bind
  | |- wp (mret _) _ _ => apply wp_ret
  | |- wp get_glob _ _ => apply wp_get_glob
  | |- wp (rte_pktmbuf_free None) _ _ => apply wp_ret
  | |- wp (rte_spinlock_lock 0) _ _ => apply wp_lock
  | He : evolves _ _ ?w |- wp (rte_pktmbuf_free (Some _)) _ ?w =>
      apply ev_free; [ev_ok_tac|let Hs := fresh "Hs" in intros ? Hs; ev_push He Hs]
  | He : evolves _ _ ?w |- wp (rte_pktmbuf_refcnt_update (Some _) _) _ ?w =>
      apply ev_refcnt; [ev_ok_tac|let Hs := fresh "Hs" in intros ? Hs; ev_push He Hs]
  | He : evolves _ _ ?w |- wp rte_rdtsc _ ?w =>
      apply ev_rdtsc; [ev_ok_tac|let Hs := fresh "Hs" in intros ? ? Hs; ev_push He Hs]
  | He : evolves _ _ ?w |- wp (rte_eth_tx_burst _ _ (Some _)) _ ?w =>
      apply ev_tx; [ev_ok_tac|eassumption|
        let Hs := fresh "Hs" in intros ? Hs; ev_push He Hs; cbn [Z.eqb] ..]
  end.
Ltac ev_auto := repeat ev_step; cbv beta.

(** Close a goal about the accumulated ledger, or about the mbufs in memory. *)
Ltac ev_done :=
  match goal with He : evolves _ ?w0 ?w |- evolves _ ?w0 ?w =>
    refine (evolves_ext _ _ _ _ _ He); intros ?; cbv beta iota; lia end.
Ltac ev_le := first [assumption | apply mem_le_refl | eauto using mem_le_trans].
