(* ===== verification/Sim.v ===== *)
(** * A concrete environment

    An instance of [Dpdk] that satisfies [DpdkSpec]: the hypotheses of the
    theorems about the packet path hold of it.  It answers from the trace:
    a fresh mbuf is one no earlier call mentions, the clock counts calls,
    [full] says whether the transmit queues are full, and [sim_arrivals] what
    the NIC receives. *)

From S2P Require Import Prelude Crc32 PeerManager Env.

(** The mbuf an event is about. *)
Definition event_id (e : event) : nat :=
  match e with
  | EvRx m | EvAlloc (Some m) | EvAppend m _ _ | EvFree m | EvRefcnt m _ | EvTx _ _ m _ _ => m
  | _ => O
  end.

Fixpoint fresh_id (tr : list event) : nat :=
  match tr with
  | [] => 1000
  | e :: tr => Nat.max (S (event_id e)) (fresh_id tr)
  end.

Definition empty_mbuf : mbuf := Mbuf (replicate DATAROOM 0) 0 0.

(** [bs] padded to a data room. *)
Definition sim_mbuf (bs : list Z) : mbuf :=
  Mbuf (take DATAROOM (bs ++ replicate DATAROOM 0)) (Z.of_nat (length bs)) (Z.of_nat (length bs)).

(** A RoCEv2 frame from 10.0.1.7 to 10.0.2.5: opcode, QPN, PSN, 16 bytes of
    payload. *)
Definition sim_packet (opcode qpn psn : Z) : list Z :=
  [2; 0; 0; 0; 0; 1] ++ [2; 0; 0; 0; 0; 7] ++ [8; 0] ++
  [0x45; 0; 0; 60; 0; 0; 0; 0; 64; 17; 0; 0; 10; 0; 1; 7; 10; 0; 2; 5] ++
  [0xC0; 0; 0x12; 0xB7; 0; 40; 0; 0] ++
  [opcode; 0x40; 0xFF; 0xFF; 0] ++ be_bytes 3 qpn ++ [0x80] ++ be_bytes 3 psn ++
  replicate 16 0xAB.

(** An acknowledgement of PSN [psn] of QPN [qpn], from the peer's gateway. *)
Definition sim_ack (qpn psn : Z) : list Z :=
  [2; 0; 0; 0; 0; 1] ++ [2; 0; 0; 0; 0; 9] ++ [8; 0] ++
  [0x45; 0; 1; 48; 0; 0; 0; 0; 64; 17; 0; 0; 192; 0; 2; 9; 192; 0; 2; 1] ++
  be_bytes 2 4792 ++ be_bytes 2 4792 ++ [1; 28; 0; 0] ++
  be_bytes 4 0x41525130 ++ [1; 0; 0; 0] ++ be_bytes 4 qpn ++ be_bytes 4 psn.

Lemma sim_packet_ok opcode qpn psn : byte_ok opcode -> bytes_ok (sim_packet opcode qpn psn).
Proof.
  intros Ho. unfold sim_packet.
  repeat (apply Forall_app_2; [first [apply be_bytes_ok|apply Forall_cons_2; [done|by_dec]|by_dec]|]).
  by_dec.
Qed.

Lemma sim_ack_ok qpn psn : bytes_ok (sim_ack qpn psn).
Proof.
  unfold sim_ack. repeat (apply Forall_app_2; [first [apply be_bytes_ok|by_dec]|]). apply be_bytes_ok.
Qed.

Lemma sim_mbuf_wf bs : bytes_ok bs -> mbuf_wf (sim_mbuf bs).
Proof.
  intros Hb. unfold sim_mbuf. split; cbn [room].
  - rewrite length_take, length_app, length_replicate. lia.
  - apply Forall_take, Forall_app_2; [done|by apply Forall_replicate].
Qed.

(** What arrives: two WRITE packets of QPN 17 when the LAN port is first
    polled, and an acknowledgement at every poll of the WAN port. *)
Definition sim_arrivals (tr : list event) (port : Z) : list (list Z) :=
  if port =? 0 then
    if existsb (fun e => match e with EvPoll _ _ => true | _ => false end) tr then []
    else [sim_packet 0x0A 17 5; sim_packet 0x0A 17 6]
  else [sim_ack 17 5].

Definition sim_rx (tr : list event) (port n : Z) : list (nat * mbuf) :=
  take (Z.to_nat n) (imap (fun i bs => ((fresh_id tr + i)%nat, sim_mbuf bs)) (sim_arrivals tr port)).

#[export] Instance sim (full : bool) : Dpdk := {
  rte_cpu_to_be_16 v := le_val (be_bytes 2 v);
  rte_cpu_to_be_32 v := le_val (be_bytes 4 v);
  rte_be_to_cpu_16 v := be_val (le_bytes 2 v);
  rte_be_to_cpu_32 v := be_val (le_bytes 4 v);
  rte_ether_addr_copy a := a;
  rte_get_timer_hz := 2000000000;
  rte_eth_macaddr_get p := [0x02; 0; 0; 0; 0; p mod 256];
  rte_hash_crc_32b bs seed := u32 (31 * seed + le_val bs);
  rte_mbuf_from_lib_mp _ := 0;
  env_rdtsc tr := u64 (1000 * Z.of_nat (length tr));
  env_alloc _ tr := Some (fresh_id tr, empty_mbuf);
  env_append _ b len :=
    if (0 <=? data_len b) && (data_len b + len <=? Z.of_nat DATAROOM)
    then Some (Z.to_nat (data_len b), Mbuf (room b) (data_len b + len) (pkt_len b + len))
    else None;
  env_tx _ _ _ _ := negb full;
  env_rx tr port _ n := sim_rx tr port n;
  spin_lock l := if l =? 0 then Some 1 else None;
  spin_unlock _ := 0;
  spin_init := 0 }.

Lemma refs_fresh tr i : (fresh_id tr <= i)%nat -> refs tr i = 0.
Proof.
  induction tr as [|e tr IH]; [done|]. cbn [fresh_id refs]. intros Hi. rewrite IH by lia.
  destruct e as [| | |[]| | | |? ? ? ? []]; cbn [event_id] in *; cbn; try case_decide; lia.
Qed.

Lemma empty_mbuf_wf : mbuf_wf empty_mbuf.
Proof. split; [apply length_replicate|by apply Forall_replicate]. Qed.

Lemma sim_arrivals_ok tr port : Forall bytes_ok (sim_arrivals tr port).
Proof.
  unfold sim_arrivals. destruct (_ =? 0); [destruct (existsb _ _); [done|]|];
    repeat (apply Forall_cons_2; [first [apply sim_ack_ok|apply sim_packet_ok; unfold byte_ok; lia]|]); done.
Qed.

Lemma sim_rx_fresh tr port n :
  let bufs := sim_rx tr port n in
  Z.of_nat (length bufs) <= Z.max 0 n /\ NoDup bufs.*1 /\
  Forall (fun x => refs tr x.1 <= 0 /\ mbuf_wf x.2) bufs.
Proof.
  cbv zeta. unfold sim_rx. split; [rewrite length_take; lia|]. split.
  - rewrite fmap_take, fmap_imap. eapply sublist_NoDup; [|apply sublist_take].
    apply list.NoDup_alt. intros i j x. rewrite !list_lookup_imap.
    destruct (_ !! i), (_ !! j); cbn; intros Hi Hj; simplify_eq; lia.
  - apply Forall_take, list.Forall_forall. intros x (i & bs & -> & Hbs)%elem_of_lookup_imap_1. cbn.
    rewrite refs_fresh by lia. split; [done|]. apply sim_mbuf_wf.
    by apply (Forall_lookup_1 _ _ _ _ (sim_arrivals_ok tr port) Hbs).
Qed.

#[export] Instance sim_spec full : @DpdkSpec (sim full).
Proof.
  split.
  - intros v. exact (le_bytes_le_val (be_bytes 2 v) (be_bytes_ok 2 v)).
  - intros v. exact (le_bytes_le_val (be_bytes 4 v) (be_bytes_ok 4 v)).
  - done.
  - done.
  - done.
  - done.
  - intros p. cbn. repeat (apply Forall_cons_2; [unfold byte_ok; try lia|]); [|done].
    apply Z.mod_pos_bound. lia.
  - intros tr. apply u64_range.
  - intros pool tr i b. cbn. intros [= <- <-]. rewrite refs_fresh by done.
    split; [done|]. split; [apply empty_mbuf_wf|done].
  - intros tr b len off b'. cbn. destruct (Z.leb_spec 0 (data_len b)); [|done].
    destruct (Z.leb_spec (data_len b + len) (Z.of_nat DATAROOM)); [|done].
    intros [= <- <-]. cbn. split; [lia|done].
  - intros tr port queue n. apply sim_rx_fresh.
  - done.
  - done.
  - done.
  - done.
Qed.

(** A configured gateway: one peer rule, an empty ARP cache, no CRC table
    filled yet.  10.0.2.0/24 is behind the peer 192.0.2.9. *)
Definition sim_pm : peer_manager :=
  snd (pm_add (pm_init (PeerManager [] 0 0 [])) 0x0A000200 0xFFFFFF00 0xC0000209).
Definition sim_glob : globals :=
  Globals 0xC0000201 sim_pm (replicate 128 (ArpEntry 0 (replicate 6 0) 0 0)) 0 0 crc_statics_zero.

(** mbufs [1], [2], ... holding the given packets, each held once. *)
Definition sim_world (pkts : list (list Z)) : world :=
  World sim_glob (list_to_map (imap (fun i bs => (S i, sim_mbuf bs)) pkts))
    (imap (fun i _ => EvRx (S i)) pkts).

Lemma sim_glob_ok : glob_ok sim_glob.
Proof.
  split; [done|]. split.
  - apply Forall_replicate. split; [done|by apply (Forall_replicate _ 6 0)].
  - split; [done|]. split; [apply crc_statics_zero_ok|]. by apply pm_add_wf, pm_init_wf.
Qed.

Lemma sim_world_ok pkts : Forall (Forall byte_ok) pkts -> world_ok (sim_world pkts).
Proof.
  intros Hp. split; [apply sim_glob_ok|]. intros i b Hb. cbn in Hb.
  apply elem_of_list_to_map_2 in Hb. apply list_elem_of_lookup in Hb as [k Hk].
  rewrite list_lookup_imap in Hk. destruct (pkts !! k) as [bs|] eqn:E; [|done]. simplify_eq/=.
  apply sim_mbuf_wf. by apply (Forall_lookup_1 _ _ _ _ Hp E).
Qed.

Definition sim_boot : world := World sim_glob ∅ [].

Lemma sim_boot_ok : world_ok sim_boot.
Proof. split; [apply sim_glob_ok|]. apply map_Forall_empty. Qed.

