(* ===== verification/RoceDefs.v ===== *)
(** * roce_defs.h, common.h: packet layout, BTH accessors, opcodes, PSNs

    Frames are Ethernet / IPv4 / UDP / BTH; headers sit at fixed offsets of
    the data room (the code never looks at IHL or VLAN tags).  A struct
    field is a typed load or store at its offset; multi-byte fields hold
    network byte order and the accessors return them as loaded. *)

From S2P Require Import Prelude.

(** ** Layout *)

(** [sizeof] of the DPDK headers and of the packed structs of roce_defs.h. *)
Definition ETHER_LEN : nat := 14.
Definition IPV4_LEN : nat := 20.
Definition UDP_LEN : nat := 8.
Definition BTH_LEN : nat := 12.
Definition AETH_LEN : nat := 4.

(** Pointers [eth + 1], [ip + 1] and [udp + 1] as offsets. *)
Definition IP_OFF : nat := 14.
Definition UDP_OFF : nat := 34.
Definition BTH_OFF : nat := 42.

Definition eth_d_addr (b : list Z) : list Z := slice 0 6 b.
Definition eth_s_addr (b : list Z) : list Z := slice 6 6 b.
Definition ether_type (b : list Z) : Z := ld 2 12 b.
Definition ip_tos (b : list Z) : Z := ld 1 15 b.
Definition ip_ttl (b : list Z) : Z := ld 1 22 b.
Definition ip_proto (b : list Z) : Z := ld 1 23 b.
Definition ip_cksum (b : list Z) : Z := ld 2 24 b.
Definition ip_src (b : list Z) : Z := ld 4 26 b.
Definition ip_dst (b : list Z) : Z := ld 4 30 b.
Definition udp_sport (b : list Z) : Z := ld 2 34 b.
Definition udp_dport (b : list Z) : Z := ld 2 36 b.
Definition udp_cksum (b : list Z) : Z := ld 2 40 b.

Definition set_eth_d_addr (a b : list Z) : list Z := splice 0 a b.
Definition set_eth_s_addr (a b : list Z) : list Z := splice 6 a b.
Definition set_ether_type (v : Z) (b : list Z) : list Z := st 2 12 v b.
Definition set_ip_tos (v : Z) (b : list Z) : list Z := st 1 15 v b.
Definition set_ip_ttl (v : Z) (b : list Z) : list Z := st 1 22 v b.
Definition set_ip_cksum (v : Z) (b : list Z) : list Z := st 2 24 v b.
Definition set_ip_src (v : Z) (b : list Z) : list Z := st 4 26 v b.
Definition set_udp_cksum (v : Z) (b : list Z) : list Z := st 2 40 v b.

(** ** struct roce_bth *)

Definition bth_opcode (b : list Z) : Z := ld 1 42 b.
Definition bth_flags (b : list Z) : Z := ld 1 43 b.
Definition bth_pkey (b : list Z) : Z := ld 2 44 b.
Definition set_bth_opcode (v : Z) (b : list Z) : list Z := st 1 42 v b.
Definition set_bth_flags (v : Z) (b : list Z) : list Z := st 1 43 v b.
Definition set_bth_pkey (v : Z) (b : list Z) : list Z := st 2 44 v b.
Definition set_bth_fecn (v : Z) (b : list Z) : list Z := st 1 46 v b.
Definition set_bth_ack_res (v : Z) (b : list Z) : list Z := st 1 50 v b.

Definition bth_get_qpn (b : list Z) : Z :=
  Z.lor (Z.lor (Z.shiftl (ld 1 47 b) 16) (Z.shiftl (ld 1 48 b) 8)) (ld 1 49 b).

Definition bth_set_qpn (qpn : Z) (b : list Z) : list Z :=
  st 1 49 qpn (st 1 48 (Z.shiftr qpn 8) (st 1 47 (Z.shiftr qpn 16) b)).

Definition bth_get_psn (b : list Z) : Z :=
  Z.lor (Z.lor (Z.shiftl (ld 1 51 b) 16) (Z.shiftl (ld 1 52 b) 8)) (ld 1 53 b).

Definition bth_set_psn (psn : Z) (b : list Z) : list Z :=
  st 1 53 psn (st 1 52 (Z.shiftr psn 8) (st 1 51 (Z.shiftr psn 16) b)).

(** ** Opcodes *)

Definition ROCE_OPCODE_WRITE_FIRST : Z := 0x0A.
Definition ROCE_OPCODE_WRITE_MIDDLE : Z := 0x0B.
Definition ROCE_OPCODE_WRITE_LAST : Z := 0x0C.
Definition ROCE_OPCODE_WRITE_ONLY : Z := 0x0D.
Definition ROCE_OPCODE_WRITE_LAST_IMM : Z := 0x0E.
Definition ROCE_OPCODE_ACK : Z := 0x11.
Definition ROCE_OPCODE_CNP : Z := 0x81.

Definition is_write_opcode (opcode : Z) : bool :=
  (ROCE_OPCODE_WRITE_FIRST <=? opcode) && (opcode <=? ROCE_OPCODE_WRITE_LAST_IMM).

(** [write_segment_type_t] *)
Definition WRITE_SEG_FIRST : Z := 1.
Definition WRITE_SEG_MIDDLE : Z := 2.
Definition WRITE_SEG_LAST : Z := 3.
Definition WRITE_SEG_ONLY : Z := 4.

(** The switch of processor.c. *)
Definition get_segment_type (opcode : Z) : Z :=
  if opcode =? ROCE_OPCODE_WRITE_FIRST then WRITE_SEG_FIRST
  else if opcode =? ROCE_OPCODE_WRITE_MIDDLE then WRITE_SEG_MIDDLE
  else if opcode =? ROCE_OPCODE_WRITE_LAST then WRITE_SEG_LAST
  else if opcode =? ROCE_OPCODE_WRITE_ONLY then WRITE_SEG_ONLY
  else if opcode =? ROCE_OPCODE_WRITE_LAST_IMM then WRITE_SEG_LAST
  else 0.

(** ** Packet sequence numbers *)

Definition PSN_MASK : Z := 0x00FFFFFF.
Definition MAX_PSN : Z := 0x01000000.

Definition psn_forward_dist (from to : Z) : Z :=
  let from := Z.land from PSN_MASK in
  let to := Z.land to PSN_MASK in
  if from <=? to then to - from else MAX_PSN - from + to.

(** ** Properties *)

Lemma psn_mask_mod x : Z.land x PSN_MASK = x mod MAX_PSN.
Proof. change PSN_MASK with (Z.ones 24). by rewrite Z.land_ones by lia. Qed.

(** The distance is subtraction modulo [2^24]. *)
Lemma psn_forward_dist_mod from to : psn_forward_dist from to = (to - from) mod MAX_PSN.
Proof.
  unfold psn_forward_dist. rewrite !psn_mask_mod. rewrite Zminus_mod.
  pose proof (Z.mod_pos_bound from MAX_PSN) as Hf. pose proof (Z.mod_pos_bound to MAX_PSN) as Ht.
  unfold MAX_PSN in *. revert Hf Ht.
  generalize (from mod 0x1000000) (to mod 0x1000000). intros f t Hf Ht.
  destruct (Z.leb_spec f t); symmetry.
  - apply Z.mod_small. lia.
  - rewrite <- (Z.mod_add _ 1) by lia. rewrite Z.mod_small; lia.
Qed.

Lemma psn_forward_dist_range from to : 0 <= psn_forward_dist from to < MAX_PSN.
Proof. rewrite psn_forward_dist_mod. apply Z.mod_pos_bound. unfold MAX_PSN. lia. Qed.

Lemma psn_forward_dist_step p n : psn_forward_dist p ((p + n) mod MAX_PSN) = n mod MAX_PSN.
Proof. rewrite psn_forward_dist_mod, Zminus_mod_idemp_l. f_equal. lia. Qed.

Lemma psn_forward_dist_zero from to :
  0 <= from < MAX_PSN -> 0 <= to < MAX_PSN -> psn_forward_dist from to = 0 <-> from = to.
Proof.
  intros Hf Ht. rewrite psn_forward_dist_mod. unfold MAX_PSN in *.
  split; [|intros ->; by rewrite Z.sub_diag].
  intros Hz. apply Z.mod_divide in Hz as [k Hk]; lia.
Qed.

Lemma is_write_segment opcode :
  is_write_opcode opcode = true <-> get_segment_type opcode <> 0.
Proof.
  unfold is_write_opcode, get_segment_type, ROCE_OPCODE_WRITE_FIRST, ROCE_OPCODE_WRITE_MIDDLE,
    ROCE_OPCODE_WRITE_LAST, ROCE_OPCODE_WRITE_ONLY, ROCE_OPCODE_WRITE_LAST_IMM,
    WRITE_SEG_FIRST, WRITE_SEG_MIDDLE, WRITE_SEG_LAST, WRITE_SEG_ONLY.
  repeat match goal with |- context [?a =? ?b] => destruct (Z.eqb_spec a b) end;
    rewrite andb_true_iff, !Z.leb_le; lia.
Qed.

(** A 24-bit number from its three big-endian bytes. *)
Lemma lor24 a b c :
  byte_ok a -> byte_ok b -> byte_ok c ->
  Z.lor (Z.lor (Z.shiftl a 16) (Z.shiftl b 8)) c = 65536 * a + 256 * b + c.
Proof.
  unfold byte_ok. intros Ha Hb Hc.
  rewrite (Z.lor_comm (Z.shiftl a 16)), Z.lor_comm, Z.lor_assoc.
  rewrite (lor_low_high c b 8), (lor_low_high _ a 16) by lia. lia.
Qed.

Lemma ld1_byte off b : bytes_ok b -> byte_ok (ld 1 off b).
Proof.
  intros Hb. unfold ld. pose proof (le_val_range _ (slice_ok off 1 b Hb)) as Hr.
  assert (Hl : (length (slice off 1 b) <= 1)%nat) by (unfold slice; rewrite length_take; lia).
  unfold byte_ok. destruct (length (slice off 1 b)) as [|[|]]; cbn in Hr; lia.
Qed.

(** What the getters return is what the three bytes say. *)
Lemma bth_get_qpn_bytes b :
  bytes_ok b -> bth_get_qpn b = 65536 * ld 1 47 b + 256 * ld 1 48 b + ld 1 49 b.
Proof. intros Hb. unfold bth_get_qpn. rewrite lor24 by (apply ld1_byte, Hb). reflexivity. Qed.

Lemma bth_get_psn_bytes b :
  bytes_ok b -> bth_get_psn b = 65536 * ld 1 51 b + 256 * ld 1 52 b + ld 1 53 b.
Proof. intros Hb. unfold bth_get_psn. rewrite lor24 by (apply ld1_byte, Hb). reflexivity. Qed.

Lemma bth_get_qpn_range b : bytes_ok b -> 0 <= bth_get_qpn b < MAX_PSN.
Proof.
  intros Hb. rewrite bth_get_qpn_bytes by done.
  pose proof (ld1_byte 47 b Hb). pose proof (ld1_byte 48 b Hb). pose proof (ld1_byte 49 b Hb).
  unfold byte_ok, MAX_PSN in *. lia.
Qed.

Lemma bth_get_psn_range b : bytes_ok b -> 0 <= bth_get_psn b < MAX_PSN.
Proof.
  intros Hb. rewrite bth_get_psn_bytes by done.
  pose proof (ld1_byte 51 b Hb). pose proof (ld1_byte 52 b Hb). pose proof (ld1_byte 53 b Hb).
  unfold byte_ok, MAX_PSN in *. lia.
Qed.

Lemma split24 v : 65536 * ((Z.shiftr v 16) mod 256) + 256 * ((Z.shiftr v 8) mod 256) + v mod 256
                  = v mod MAX_PSN.
Proof.
  rewrite !Z.shiftr_div_pow2 by lia. change (2 ^ 16) with (256 * 256). change (2 ^ 8) with 256.
  change MAX_PSN with (256 * (256 * 256)).
  rewrite <- Z.div_div, !Z.rem_mul_r, Z.div_div by lia. lia.
Qed.

(** Setting then getting keeps the low 24 bits. *)
Lemma bth_qpn_roundtrip q b :
  bytes_ok b -> (BTH_OFF + BTH_LEN <= length b)%nat ->
  bth_get_qpn (bth_set_qpn q b) = q mod MAX_PSN.
Proof.
  unfold BTH_OFF, BTH_LEN. intros Hb Hl.
  rewrite bth_get_qpn_bytes by (unfold bth_set_qpn; auto using st_ok).
  unfold bth_set_qpn. bufs. apply split24.
Qed.

Lemma bth_psn_roundtrip p b :
  bytes_ok b -> (BTH_OFF + BTH_LEN <= length b)%nat ->
  bth_get_psn (bth_set_psn p b) = p mod MAX_PSN.
Proof.
  unfold BTH_OFF, BTH_LEN. intros Hb Hl.
  rewrite bth_get_psn_bytes by (unfold bth_set_psn; auto using st_ok).
  unfold bth_set_psn. bufs. apply split24.
Qed.

(** C28 The forward distance of two PSNs is
    their difference modulo 2^24, and comparing it with 0x800000, as the ARQ
    does, tells which of two PSNs less than half the space apart is ahead,
    across the wrap of the sequence space. *)
Theorem psn_distance_orders_half_space p n :
  0 < n < 0x800000 ->
  psn_forward_dist p ((p + n) mod MAX_PSN) = n /\
  (psn_forward_dist p ((p + n) mod MAX_PSN) <? 0x800000) = true /\
  (psn_forward_dist ((p + n) mod MAX_PSN) p <? 0x800000) = false /\
  psn_forward_dist p (p mod MAX_PSN) = 0.
Proof.
  intros Hn. assert (Hs : psn_forward_dist p ((p + n) mod MAX_PSN) = n).
  { rewrite psn_forward_dist_step. apply Z.mod_small. unfold MAX_PSN. lia. }
  split; [done|]. rewrite Hs. split; [apply Z.ltb_lt; lia|]. split.
  - apply Z.ltb_ge. rewrite psn_forward_dist_mod. unfold MAX_PSN. rewrite Zminus_mod_idemp_r.
    replace (p - (p + n)) with (- n) by lia. rewrite Z.mod_opp_l_nz; rewrite ?Z.mod_small; lia.
  - rewrite psn_forward_dist_mod, Zminus_mod_idemp_l. by rewrite Z.sub_diag.
Qed.

Lemma psn_distance_orders_half_space_witness :
  psn_forward_dist 0xFFFFFE 3 = 5 /\ (psn_forward_dist 3 0xFFFFFE <? 0x800000) = false.
Proof. destruct (psn_distance_orders_half_space 0xFFFFFE 5) as (H1 & _ & H3 & _); [lia|by split]. Defined.

(** Writing the 24-bit QPN and PSN of a base transport
    header and reading them back gives the low 24 bits of each, and neither
    setter disturbs the other field, the opcode or the partition key. *)
Theorem bth_fields_roundtrip q p b :
  bytes_ok b -> (BTH_OFF + BTH_LEN <= length b)%nat ->
  let b' := bth_set_psn p (bth_set_qpn q b) in
  bth_get_qpn b' = q mod MAX_PSN /\ bth_get_psn b' = p mod MAX_PSN /\
  bth_opcode b' = bth_opcode b /\ bth_pkey b' = bth_pkey b /\ length b' = length b.
Proof.
  intros Hb Hl. cbv zeta.
  assert (Hb1 : bytes_ok (bth_set_qpn q b)) by (unfold bth_set_qpn; auto using st_ok).
  assert (Hl1 : length (bth_set_qpn q b) = length b) by (unfold bth_set_qpn; by bufs).
  split; [|split; [apply bth_psn_roundtrip; [done|by rewrite Hl1]|]].
  - rewrite <- (bth_qpn_roundtrip q b Hb Hl). unfold bth_get_qpn, bth_set_psn.
    by rewrite !ld_st_ne by lia.
  - unfold bth_opcode, bth_pkey, bth_set_psn, bth_set_qpn. by bufs.
Qed.

Lemma bth_fields_roundtrip_witness :
  let b' := bth_set_psn 0x1000005 (bth_set_qpn 0xABCDEF (replicate 54 7)) in
  bth_get_qpn b' = 0xABCDEF /\ bth_get_psn b' = 5.
Proof.
  destruct (bth_fields_roundtrip 0xABCDEF 0x1000005 (replicate 54 7)) as (H1 & H2 & _).
  - by_dec.
  - by vm_compute.
  - cbv zeta. rewrite H1, H2. by split.
Defined.
