(* ===== verification/Arq.v ===== *)
(** * arq.c: the ARQ send window

    [arq_mgr_init], [arq_find], [arq_get_or_create], [arq_lookup],
    [arq_send_pkt], [arq_handle_ack], [arq_handle_nack],
    [arq_check_timeouts] and [arq_set_peer_ip].  A context pointer is an
    index into the manager's array; the operations on one context take it by
    value and return it.  The control messages are in [ArqMsg]. *)

From S2P Require Import Prelude Env RoceDefs.

Definition WINDOW_SIZE : Z := 256.
Definition MAX_QP_CTX : Z := 1024.
Definition MAX_RETRY_COUNT : Z := 3.
Definition RETRY_TIMEOUT_MS : Z := 10.
Definition MAX_RETX_BURST : Z := 64.

(** ** State *)

Record arq_send_entry := ArqEntry {
  psn : Z;
  e_mbuf : option nat;
  send_time : Z;
  retry_count : Z;
  segment_type : Z;
  in_flight : Z }.

Record arq_context := ArqContext {
  a_qpn : Z;
  send_window : list arq_send_entry;
  send_base : Z;
  send_next : Z;
  send_max : Z;
  a_lock : Z;
  total_sent : Z;
  total_ack_received : Z;
  total_retransmit : Z;
  total_timeout : Z;
  a_peer_ip : Z }.

Record arq_manager := ArqManager {
  contexts : list arq_context;
  a_global_lock : Z }.

(** The all-zero structs [memset] leaves. *)
Definition zero_entry : arq_send_entry := ArqEntry 0 None 0 0 0 0.
Definition zero_context : arq_context :=
  ArqContext 0 (replicate (Z.to_nat WINDOW_SIZE) zero_entry) 0 0 0 0 0 0 0 0 0.
Definition zero_manager : arq_manager :=
  ArqManager (replicate (Z.to_nat MAX_QP_CTX) zero_context) 0.

(** Field updates. *)
Definition set_a_lock (l : Z) (a : arq_context) : arq_context :=
  ArqContext (a_qpn a) (send_window a) (send_base a) (send_next a) (send_max a) l
    (total_sent a) (total_ack_received a) (total_retransmit a) (total_timeout a) (a_peer_ip a).
Definition set_a_qpn (q : Z) (a : arq_context) : arq_context :=
  ArqContext q (send_window a) (send_base a) (send_next a) (send_max a) (a_lock a)
    (total_sent a) (total_ack_received a) (total_retransmit a) (total_timeout a) (a_peer_ip a).
Definition set_a_peer_ip (ip : Z) (a : arq_context) : arq_context :=
  ArqContext (a_qpn a) (send_window a) (send_base a) (send_next a) (send_max a) (a_lock a)
    (total_sent a) (total_ack_received a) (total_retransmit a) (total_timeout a) ip.
Definition set_entry (i : nat) (e : arq_send_entry) (a : arq_context) : arq_context :=
  ArqContext (a_qpn a) (<[i := e]> (send_window a)) (send_base a) (send_next a) (send_max a)
    (a_lock a) (total_sent a) (total_ack_received a) (total_retransmit a) (total_timeout a)
    (a_peer_ip a).
Definition set_total_retransmit (n : Z) (a : arq_context) : arq_context :=
  ArqContext (a_qpn a) (send_window a) (send_base a) (send_next a) (send_max a) (a_lock a)
    (total_sent a) (total_ack_received a) n (total_timeout a) (a_peer_ip a).
Definition set_total_timeout (n : Z) (a : arq_context) : arq_context :=
  ArqContext (a_qpn a) (send_window a) (send_base a) (send_next a) (send_max a) (a_lock a)
    (total_sent a) (total_ack_received a) (total_retransmit a) n (a_peer_ip a).

(** [i % WINDOW_SIZE] and the entry there. *)
Definition slot (i : Z) : nat := Z.to_nat (i mod WINDOW_SIZE).
Definition entry_at (a : arq_context) (i : Z) : arq_send_entry :=
  nth (slot i) (send_window a) zero_entry.

Section Operations.
Context `{Dpdk}.

(** ** The manager *)

Definition arq_mgr_init (_ : arq_manager) : arq_manager :=
  ArqManager (contexts zero_manager) spin_init.

Definition arq_find (mgr : arq_manager) (qpn : Z) : option nat :=
  fst <$> list_find (fun c => a_qpn c = qpn) (contexts mgr).

Definition arq_get_or_create (mgr : arq_manager) (qpn : Z) : M (option nat * arq_manager) :=
  l ← rte_spinlock_lock (a_global_lock mgr);
  match arq_find mgr qpn with
  | Some i => mret (Some i, ArqManager (contexts mgr) (spin_unlock l))
  | None =>
      match list_find (fun c => a_qpn c = 0) (contexts mgr) with
      | Some (i, _) =>
          let ctx := set_a_lock spin_init (set_a_qpn qpn zero_context) in
          mret (Some i, ArqManager (<[i := ctx]> (contexts mgr)) (spin_unlock l))
      | None => mret (None, ArqManager (contexts mgr) (spin_unlock l))
      end
  end.

Definition arq_lookup (mgr : arq_manager) (qpn : Z) : M (option nat * arq_manager) :=
  l ← rte_spinlock_lock (a_global_lock mgr);
  mret (arq_find mgr qpn, ArqManager (contexts mgr) (spin_unlock l)).

(** ** One context *)

Definition arq_send_pkt (arq : arq_context) (m : option nat) (p seg : Z) : M (Z * arq_context) :=
  l ← rte_spinlock_lock (a_lock arq);
  if negb (in_flight (entry_at arq (send_next arq)) =? 0) then
    mret (-1, set_a_lock (spin_unlock l) arq)
  else
    t ← rte_rdtsc;
    let next := u32 (send_next arq + 1) in
    let used := u32 (next - send_base arq) in
    mret (0, ArqContext (a_qpn arq)
               (<[slot (send_next arq) := ArqEntry p m t 0 seg 1]> (send_window arq))
               (send_base arq) next (if send_max arq <? used then used else send_max arq)
               (spin_unlock l) (u64 (total_sent arq + 1)) (total_ack_received arq)
               (total_retransmit arq) (total_timeout arq) (a_peer_ip arq)).

(** The body of the loop of [arq_handle_ack]: release the oldest entry. *)
Definition arq_pop (arq : arq_context) : arq_context :=
  let e := entry_at arq (send_base arq) in
  let i := slot (send_base arq) in
  ArqContext (a_qpn arq)
    (<[i := ArqEntry (psn e) None (send_time e) (retry_count e) (segment_type e) 0]>
       (send_window arq))
    (u32 (send_base arq + 1)) (send_next arq) (send_max arq) (a_lock arq) (total_sent arq)
    (u64 (total_ack_received arq + 1)) (total_retransmit arq) (total_timeout arq) (a_peer_ip arq).

(** [while (send_base < send_next)]: [send_next - send_base] rounds at most. *)
Fixpoint ack_loop (fuel : nat) (ack_psn : Z) (arq : arq_context) : M arq_context :=
  match fuel with
  | O => mret arq
  | S fuel =>
      if send_base arq <? send_next arq then
        let e := entry_at arq (send_base arq) in
        if 0x800000 <=? psn_forward_dist (psn e) ack_psn then mret arq
        else
          rte_pktmbuf_free (e_mbuf e);;
          ack_loop fuel ack_psn (arq_pop arq)
      else mret arq
  end.

Definition arq_handle_ack (arq : arq_context) (ack_psn : Z) : M (Z * arq_context) :=
  l ← rte_spinlock_lock (a_lock arq);
  arq ← ack_loop (Z.to_nat (send_next arq - send_base arq)) ack_psn (set_a_lock l arq);
  mret (0, set_a_lock (spin_unlock (a_lock arq)) arq).

(** The marking loop of [arq_handle_nack]: it collects the slots to resend
    (the arrays [retrans_idx] and [retrans_psns]) and restarts their timers. *)
Fixpoint nack_scan (fuel : nat) (i nack_psn : Z) (acc : list (nat * Z)) (arq : arq_context)
  : M (list (nat * Z) * arq_context) :=
  match fuel with
  | O => mret (acc, arq)
  | S fuel =>
      if (i <? send_next arq) && (Z.of_nat (length acc) <? MAX_RETX_BURST) then
        let e := entry_at arq i in
        if psn_forward_dist (psn e) nack_psn <? 0x800000 then
          t ← rte_rdtsc;
          nack_scan fuel (i + 1) nack_psn (acc ++ [(slot i, psn e)])
            (set_total_retransmit (u64 (total_retransmit arq + 1))
               (set_entry (slot i)
                  (ArqEntry (psn e) (e_mbuf e) t (u8 (retry_count e + 1)) (segment_type e)
                     (in_flight e)) arq))
        else nack_scan fuel (i + 1) nack_psn acc arq
      else mret (acc, arq)
  end.

(** Resend one window mbuf, the window keeping its own reference. *)
Definition resend (wan_port : Z) (m : option nat) : M unit :=
  rte_pktmbuf_refcnt_update m 1;;
  n ← rte_eth_tx_burst wan_port 0 m;
  if n =? 0 then rte_pktmbuf_refcnt_update m (-1) else mret tt.

Definition resend_slot (wan_port : Z) (arq : arq_context) (_ : unit) (s : nat * Z) : M unit :=
  match e_mbuf (nth (fst s) (send_window arq) zero_entry) with
  | None => mret tt
  | Some m => resend wan_port (Some m)
  end.

Definition arq_handle_nack (arq : arq_context) (nack_psn wan_port : Z) : M (Z * arq_context) :=
  l ← rte_spinlock_lock (a_lock arq);
  '(acc, arq) ← nack_scan (Z.to_nat (send_next arq - send_base arq)) (send_base arq) nack_psn []
                  (set_a_lock l arq);
  let arq := set_a_lock (spin_unlock (a_lock arq)) arq in
  foldM (resend_slot wan_port arq) acc tt;;
  mret (Z.of_nat (length acc), arq).

(** One round of the timeout loop, for the entry at sequence index [i]. *)
Definition timeout_entry (wan_port now cycles : Z) (arq : arq_context) (i : Z) : M arq_context :=
  let e := entry_at arq i in
  if in_flight e =? 0 then mret arq
  else if cycles <? u64 (now - send_time e) then
    if retry_count e <? MAX_RETRY_COUNT then
      resend wan_port (e_mbuf e);;
      mret (set_total_retransmit (u64 (total_retransmit arq + 1))
              (set_entry (slot i)
                 (ArqEntry (psn e) (e_mbuf e) now (u8 (retry_count e + 1)) (segment_type e)
                    (in_flight e)) arq))
    else
      rte_pktmbuf_free (e_mbuf e);;
      mret (set_total_timeout (u64 (total_timeout arq + 1))
              (set_entry (slot i)
                 (ArqEntry (psn e) None (send_time e) (retry_count e) (segment_type e) 0) arq))
  else mret arq.

Definition arq_check_timeouts (arq : arq_context) (wan_port : Z) : M arq_context :=
  l ← rte_spinlock_lock (a_lock arq);
  now ← rte_rdtsc;
  let cycles := u64 (rte_get_timer_hz * RETRY_TIMEOUT_MS) / 1000 in
  arq ← foldM (timeout_entry wan_port now cycles)
          (seqZ (send_base arq) (send_next arq - send_base arq)) (set_a_lock l arq);
  mret (set_a_lock (spin_unlock (a_lock arq)) arq).

Definition arq_set_peer_ip (arq : arq_context) (ip : Z) : M arq_context :=
  l ← rte_spinlock_lock (a_lock arq);
  mret (set_a_lock (spin_unlock l) (set_a_peer_ip ip arq)).

End Operations.

(** ** Well-formedness *)

(** A slot is either free, with no mbuf, or in flight and owns one. *)
Definition entry_ok (e : arq_send_entry) : Prop :=
  (in_flight e = 0 /\ e_mbuf e = None) \/ (in_flight e = 1 /\ is_Some (e_mbuf e)).

Definition arq_wf (a : arq_context) : Prop :=
  length (send_window a) = Z.to_nat WINDOW_SIZE /\ Forall entry_ok (send_window a) /\
  is_u32 (send_base a) /\ is_u32 (send_next a).

(** The references the window of a context, and the whole manager, own. *)
Definition own (e : arq_send_entry) (j : nat) : Z := if decide (e_mbuf e = Some j) then 1 else 0.

Fixpoint win_refs (win : list arq_send_entry) (j : nat) : Z :=
  match win with
  | [] => 0
  | e :: win => own e j + win_refs win j
  end.

Fixpoint mgr_refs (cs : list arq_context) (j : nat) : Z :=
  match cs with
  | [] => 0
  | c :: cs => win_refs (send_window c) j + mgr_refs cs j
  end.

(** Every mbuf in the window is one the program can still dereference. *)
Definition win_in_mem (win : list arq_send_entry) (mem : gmap nat mbuf) : Prop :=
  Forall (fun e => forall j, e_mbuf e = Some j -> is_Some (mem !! j)) win.

Lemma zero_entry_ok : entry_ok zero_entry.
Proof. by left. Qed.

Lemma zero_context_wf : arq_wf zero_context.
Proof.
  unfold zero_context, arq_wf, is_u32. cbn [send_window send_base send_next a_lock].
  split; [apply length_replicate|]. split; [apply Forall_replicate, zero_entry_ok|].
  repeat split; lia.
Qed.

Lemma slot_lt a i : arq_wf a -> (slot i < length (send_window a))%nat.
Proof.
  intros (Hl & _). rewrite Hl. unfold slot, WINDOW_SIZE.
  pose proof (Z.mod_pos_bound i 256). lia.
Qed.

Lemma nth_entry_lookup (win : list arq_send_entry) i :
  (i < length win)%nat -> win !! i = Some (nth i win zero_entry).
Proof.
  intros Hi. destruct (lookup_lt_is_Some_2 win i Hi) as [e He].
  by rewrite nth_lookup, He.
Qed.

Lemma entry_at_lookup a i : arq_wf a -> send_window a !! slot i = Some (entry_at a i).
Proof. intros Ha. apply nth_entry_lookup. by apply slot_lt. Qed.

Lemma entry_at_ok a i : arq_wf a -> entry_ok (entry_at a i).
Proof.
  intros Ha. destruct (Ha) as (_ & Hf & _). rewrite Forall_lookup in Hf.
  apply (Hf (slot i)). by apply entry_at_lookup.
Qed.

Lemma win_refs_insert win i e e' j :
  win !! i = Some e -> win_refs (<[i := e']> win) j = win_refs win j - own e j + own e' j.
Proof.
  revert i. induction win as [|x win IH]; intros [|i] Hi; simplify_eq/=; [lia|].
  rewrite IH by done. lia.
Qed.

Lemma mgr_refs_insert cs i c c' j :
  cs !! i = Some c ->
  mgr_refs (<[i := c']> cs) j = mgr_refs cs j - win_refs (send_window c) j + win_refs (send_window c') j.
Proof.
  revert i. induction cs as [|x cs IH]; intros [|i] Hi; simplify_eq/=; [lia|].
  rewrite IH by done. lia.
Qed.

Lemma own_none e j : e_mbuf e = None -> own e j = 0.
Proof. unfold own. intros ->. by rewrite decide_False by discriminate. Qed.

Lemma own_some e m j : e_mbuf e = Some m -> own e j = one m j.
Proof.
  unfold own, one. intros ->. destruct (decide (m = j)) as [->|Hne].
  - by rewrite decide_True.
  - rewrite decide_False by congruence. done.
Qed.

Lemma own_nonneg e j : 0 <= own e j.
Proof. unfold own. case_decide; lia. Qed.

Lemma win_refs_nonneg win j : 0 <= win_refs win j.
Proof. induction win as [|e win IH]; simpl; [lia|]. pose proof (own_nonneg e j). lia. Qed.

Lemma mgr_refs_nonneg cs j : 0 <= mgr_refs cs j.
Proof. induction cs as [|c cs IH]; simpl; [lia|]. pose proof (win_refs_nonneg (send_window c) j). lia. Qed.

Lemma win_refs_zero n j : win_refs (replicate n zero_entry) j = 0.
Proof. induction n; simpl; [done|]. rewrite IHn. done. Qed.

Lemma mgr_refs_zero n c j : win_refs (send_window c) j = 0 -> mgr_refs (replicate n c) j = 0.
Proof. intros Hc. induction n; simpl; [done|]. rewrite IHn, Hc. done. Qed.

(** Rewriting one slot of a well-formed context, or its lock word. *)
Lemma set_a_lock_wf a l : arq_wf a -> arq_wf (set_a_lock l a).
Proof. done. Qed.

Lemma set_entry_wf a i e : arq_wf a -> entry_ok e -> arq_wf (set_entry i e a).
Proof.
  intros (Hl & Hf & Hr) He. split; cbn [send_window set_entry]; [by rewrite length_insert|].
  split; [by apply Forall_insert|exact Hr].
Qed.

Lemma win_in_mem_insert win i e mem :
  win_in_mem win mem -> (forall j, e_mbuf e = Some j -> is_Some (mem !! j)) ->
  win_in_mem (<[i := e]> win) mem.
Proof. intros Hw He. by apply Forall_insert. Qed.

Lemma win_in_mem_at a i mem j :
  arq_wf a -> win_in_mem (send_window a) mem -> e_mbuf (entry_at a i) = Some j -> is_Some (mem !! j).
Proof.
  intros Ha Hw. unfold win_in_mem in Hw. rewrite Forall_lookup in Hw.
  apply (Hw (slot i)). by apply entry_at_lookup.
Qed.

(** ** Memory safety and ownership of the operations *)

(** What an operation on one context promises, whatever DPDK answers: it
    returns, leaves the store alone and the lock as found, and the references it gave up or took
    are exactly the change of the window's. *)
Definition arq_safe (extra : nat -> Z) (a : arq_context) (w : world) (a' : arq_context) (w' : world) : Prop :=
  arq_wf a' /\ win_in_mem (send_window a') (w_mem w') /\ same_store w w' /\ a_qpn a' = a_qpn a /\ a_lock a' = a_lock a /\
  held_by (fun j => win_refs (send_window a') j - win_refs (send_window a) j - extra j) w w'.

Section Safety.
Context `{DpdkSpec}.

Lemma arq_send_pkt_safe a m p seg w :
  arq_wf a -> a_lock a = 0 -> win_in_mem (send_window a) (w_mem w) -> is_Some (w_mem w !! m) ->
  wp (arq_send_pkt a (Some m) p seg) (fun r w' =>
    let '(rc, a') := r in
    (rc = 0 \/ rc = -1) /\
    arq_safe (fun j => if decide (rc = 0) then one m j else 0) a w a' w') w.
Proof.
  intros Ha Hlock Hw Hm. destruct (Ha) as (Hlen & Hf & Hb & Hn).
  unfold arq_send_pkt. rewrite Hlock. wp_auto. rewrite lock_release.
  destruct (Z.eqb_spec (in_flight (entry_at a (send_next a))) 0) as [Hz|Hz]; cbn [negb]; wp_auto.
  - assert (He : e_mbuf (entry_at a (send_next a)) = None).
    { destruct (entry_at_ok a (send_next a) Ha) as [[_ He]|[Hc _]]; [done|lia]. }
    split; [by left|]. split.
    { split; cbn; [by rewrite length_insert|]. split; [apply Forall_insert; [done|right; cbn; eauto]|].
      split; [done|]. apply u32_range. }
    split; [apply win_in_mem_insert; [done|cbn; naive_solver]|].
    split; [done|]. split; [done|]. split; [by rewrite Hlock|].
    intros j. rewrite held_log. cbn [send_window ref_delta].
    erewrite win_refs_insert by by apply entry_at_lookup.
    rewrite (own_none _ j He), (own_some _ m) by done. rewrite decide_True by done. lia.
  - split; [by right|]. split; [done|]. do 3 (split; [done|]). split; [by rewrite Hlock|].
    intros j. cbn. case_decide; lia.
Qed.

(** Composition of safe steps. *)
Lemma arq_safe_refl a w :
  arq_wf a -> win_in_mem (send_window a) (w_mem w) -> arq_safe (fun _ => 0) a w a w.
Proof. intros Ha Hw. repeat (split; [done|]). intros j. lia. Qed.

Lemma arq_safe_rdtsc a w t :
  arq_wf a -> win_in_mem (send_window a) (w_mem w) ->
  arq_safe (fun _ => 0) a w a (log_event (EvRdtsc t) w).
Proof. intros Ha Hw. repeat (split; [done|]). intros j. rewrite held_log. cbn. lia. Qed.

Lemma arq_safe_trans d1 d2 a1 w1 a2 w2 a3 w3 :
  arq_safe d1 a1 w1 a2 w2 -> arq_safe d2 a2 w2 a3 w3 ->
  arq_safe (fun j => d1 j + d2 j) a1 w1 a3 w3.
Proof.
  intros (_ & _ & Hs1 & Hq1 & Hl1 & Hh1) (Ha & Hw & Hs2 & Hq2 & Hl2 & Hh2).
  split; [done|]. split; [done|]. split; [by transitivity w2|].
  split; [congruence|]. split; [congruence|].
  intros j. rewrite (Hh2 j), (Hh1 j). lia.
Qed.

Lemma arq_safe_ext d1 d2 a w a' w' :
  (forall j, d1 j = d2 j) -> arq_safe d1 a w a' w' -> arq_safe d2 a w a' w'.
Proof.
  intros He (Ha & Hw & Hs & Hq & Hl & Hh). repeat (split; [done|]).
  intros j. rewrite (Hh j), He. done.
Qed.

(** Releasing or resending a window mbuf, in terms of the ledger. *)
Lemma free_entry_safe e (Q : unit -> world -> Prop) w :
  (forall w', same_store w w' -> (forall j, held w' j = held w j - own e j) -> Q tt w') ->
  wp (rte_pktmbuf_free (e_mbuf e)) Q w.
Proof.
  intros HQ. destruct (e_mbuf e) as [m|] eqn:E; wp_auto; apply HQ; try done; intros j.
  - rewrite held_log, (own_some e m) by done. cbn. unfold one. destruct (decide (m = j)); lia.
  - rewrite own_none by done. lia.
Qed.

Lemma resend_safe port m (Q : unit -> world -> Prop) w :
  is_Some (w_mem w !! m) ->
  (forall w', same_store w w' -> (forall j, held w' j = held w j) -> Q tt w') ->
  wp (resend port (Some m)) Q w.
Proof.
  intros [b Hm] HQ. unfold resend. wp_auto. eapply wp_tx; [exact Hm|]. intros sent _.
  destruct sent; cbn [Z.eqb]; wp_auto; apply HQ; try done; intros j; rewrite !held_log; cbn;
    destruct (decide (m = j)); lia.
Qed.

Lemma arq_pop_safe a w :
  arq_wf a -> win_in_mem (send_window a) (w_mem w) -> send_base a < send_next a ->
  wp (rte_pktmbuf_free (e_mbuf (entry_at a (send_base a)))) (fun _ w' =>
    arq_safe (fun _ => 0) a w (arq_pop a) w') w.
Proof.
  intros Ha Hw Hlt. apply free_entry_safe. intros w' Hs Hh.
  destruct (Ha) as (Hlen & Hf & Hb & Hn). destruct (Hs) as [_ Hmem].
  split.
  { split; cbn; [by rewrite length_insert|]. split; [by apply Forall_insert; [|left]|].
    split; [apply u32_range|done]. }
  split; [rewrite Hmem; by apply win_in_mem_insert|]. do 3 (split; [done|]).
  intros j. rewrite Hh. cbn [send_window arq_pop].
  erewrite win_refs_insert by by apply entry_at_lookup. rewrite (own_none (ArqEntry _ _ _ _ _ _)) by done.
  lia.
Qed.

Lemma ack_loop_safe fuel p a w :
  arq_wf a -> win_in_mem (send_window a) (w_mem w) ->
  wp (ack_loop fuel p a) (fun a' w' => arq_safe (fun _ => 0) a w a' w') w.
Proof.
  revert a w. induction fuel as [|fuel IH]; intros a w Ha Hw; cbn [ack_loop];
    [wp_auto; by apply arq_safe_refl|].
  destruct (Z.ltb_spec (send_base a) (send_next a)) as [Hlt|]; [|wp_auto; by apply arq_safe_refl].
  destruct (_ <=? _); wp_auto; [by apply arq_safe_refl|].
  eapply wp_mono; [by apply arq_pop_safe|]. intros [] w1 Hs1.
  eapply wp_mono; [apply IH; apply Hs1|]. intros a' w2 Hs2.
  eapply arq_safe_ext; [|by eapply arq_safe_trans]. done.
Qed.

(** Rewriting the timer and retry fields of one slot, or the counters. *)
Lemma retime_safe a w w' i t r a' :
  arq_wf a -> win_in_mem (send_window a) (w_mem w) ->
  (let e := entry_at a i in
   send_window a' = <[slot i := ArqEntry (psn e) (e_mbuf e) t r (segment_type e) (in_flight e)]> (send_window a)) ->
  send_base a' = send_base a -> send_next a' = send_next a ->
  a_qpn a' = a_qpn a -> a_lock a' = a_lock a ->
  same_store w w' -> (forall j, held w' j = held w j) ->
  arq_safe (fun _ => 0) a w a' w'.
Proof.
  intros Ha Hw Hwin Hb Hn Hq Hl Hs Hh. cbv zeta in Hwin.
  pose proof (entry_at_ok a i Ha) as Hok. destruct (Ha) as (Hlen & Hf & Hu & Hu').
  destruct (Hs) as [_ Hmem]. split.
  { unfold arq_wf. rewrite Hwin, Hb, Hn, length_insert. split; [done|].
    split; [by apply Forall_insert|done]. }
  split.
  { rewrite Hwin, Hmem. apply win_in_mem_insert; [done|]. cbn. intros j Hj.
    by apply (win_in_mem_at a i). }
  do 3 (split; [done|]). intros j. rewrite Hh, Hwin.
  erewrite win_refs_insert by by apply entry_at_lookup. unfold own. cbn. lia.
Qed.

Lemma nack_scan_safe fuel i p acc a w :
  arq_wf a -> win_in_mem (send_window a) (w_mem w) ->
  wp (nack_scan fuel i p acc a) (fun r w' => arq_safe (fun _ => 0) a w (snd r) w') w.
Proof.
  revert i acc a w. induction fuel as [|fuel IH]; intros i acc a w Ha Hw; cbn [nack_scan];
    [wp_auto; by apply arq_safe_refl|].
  destruct (_ && _); [|wp_auto; by apply arq_safe_refl].
  destruct (_ <? 0x800000); [wp_auto|by apply IH].
  match goal with |- wp (nack_scan _ _ _ _ ?a1) _ ?w1 =>
    assert (Hs1 : arq_safe (fun _ => 0) a w a1 w1) end.
  { eapply retime_safe; try done; [cbv zeta; reflexivity|]. intros j. rewrite held_log. cbn. lia. }
  eapply wp_mono; [apply IH; apply Hs1|]. intros r w2 Hs2.
  eapply arq_safe_ext; [|eapply arq_safe_trans; [exact Hs1|exact Hs2]]. done.
Qed.

Lemma resend_slot_safe port a s w :
  win_in_mem (send_window a) (w_mem w) ->
  wp (resend_slot port a tt s) (fun _ w' => same_store w w' /\ forall j, held w' j = held w j) w.
Proof.
  intros Hw. unfold resend_slot. destruct (e_mbuf _) as [m|] eqn:E; [|by wp_auto].
  apply resend_safe; [|done].
  destruct (decide (fst s < length (send_window a))%nat) as [Hlt|Hge].
  - unfold win_in_mem in Hw. rewrite Forall_lookup in Hw. eapply Hw; [|exact E].
    by apply nth_entry_lookup.
  - rewrite nth_overflow in E by lia. done.
Qed.

Lemma arq_handle_nack_safe a p port w :
  arq_wf a -> a_lock a = 0 -> win_in_mem (send_window a) (w_mem w) ->
  wp (arq_handle_nack a p port) (fun r w' => arq_safe (fun _ => 0) a w (snd r) w') w.
Proof.
  intros Ha Hlock Hw. unfold arq_handle_nack. rewrite Hlock. wp_auto.
  eapply wp_mono; [by apply nack_scan_safe|]. intros [acc a1] w1 Hs1. cbn [snd] in Hs1.
  wp_auto. destruct (Hs1) as (Ha1 & Hw1 & Hst1 & Hq1 & Hl1 & Hh1). cbn in Hl1. rewrite Hl1, lock_release.
  eapply wp_mono.
  - apply (wp_foldM _ _ _ (fun _ _ w2 => same_store w1 w2 /\ forall j, held w2 j = held w1 j)); [done|].
    intros done' s [] w2 _ [Hst Hh]. eapply wp_mono.
    + apply resend_slot_safe. destruct Hst as [_ ->]. done.
    + intros _ w3 [Hst3 Hh3]. split; [by transitivity w2|]. intros j. by rewrite Hh3.
  - intros _ w2 [Hst Hh]. wp_auto. cbn [snd]. split; [done|].
    split; [destruct Hst as [_ ->]; done|]. split; [by transitivity w1|].
    split; [done|]. split; [by rewrite Hlock|]. intros j. rewrite Hh, (Hh1 j). done.
Qed.

Lemma arq_handle_ack_safe a p w :
  arq_wf a -> a_lock a = 0 -> win_in_mem (send_window a) (w_mem w) ->
  wp (arq_handle_ack a p) (fun r w' => arq_safe (fun _ => 0) a w (snd r) w') w.
Proof.
  intros Ha Hlock Hw. unfold arq_handle_ack. rewrite Hlock. wp_auto.
  eapply wp_mono; [by apply ack_loop_safe|]. intros a1 w1 (Ha1 & Hw1 & Hst1 & Hq1 & Hl1 & Hh1).
  wp_auto. cbn in Hl1. rewrite Hl1, lock_release. cbn [snd].
  do 4 (split; [done|]). split; [by rewrite Hlock|]. done.
Qed.

Lemma timeout_entry_safe port now cycles a i w :
  arq_wf a -> win_in_mem (send_window a) (w_mem w) ->
  wp (timeout_entry port now cycles a i) (fun a' w' => arq_safe (fun _ => 0) a w a' w') w.
Proof.
  intros Ha Hw. unfold timeout_entry.
  destruct (Z.eqb_spec (in_flight (entry_at a i)) 0) as [_|Hf]; [wp_auto; by apply arq_safe_refl|].
  destruct (cycles <? _); [|wp_auto; by apply arq_safe_refl].
  destruct (retry_count _ <? _); wp_auto.
  - pose proof (entry_at_ok a i Ha) as [[Hz _]|[_ [m Hm]]]; [lia|]. rewrite Hm.
    apply resend_safe; [by apply (win_in_mem_at a i)|]. intros w' Hst Hh. wp_auto.
    eapply retime_safe; try done. cbv zeta. cbn [send_window set_total_retransmit set_entry].
    by rewrite Hm.
  - apply free_entry_safe. intros w' Hst Hh. wp_auto. destruct (Hst) as [_ Hmem].
    split; [by apply set_entry_wf; [|left]|].
    split; [rewrite Hmem; by apply win_in_mem_insert|]. do 3 (split; [done|]).
    intros j. rewrite Hh. cbn [send_window set_total_timeout set_entry].
    erewrite win_refs_insert by by apply entry_at_lookup.
    rewrite (own_none (ArqEntry _ _ _ _ _ _)) by done. lia.
Qed.

Lemma arq_check_timeouts_safe a port w :
  arq_wf a -> a_lock a = 0 -> win_in_mem (send_window a) (w_mem w) ->
  wp (arq_check_timeouts a port) (fun a' w' => arq_safe (fun _ => 0) a w a' w') w.
Proof.
  intros Ha Hlock Hw. unfold arq_check_timeouts. rewrite Hlock. wp_auto.
  eapply wp_mono.
  - apply (wp_foldM _ _ _ (fun _ a1 w1 => arq_safe (fun _ => 0) (set_a_lock 1 a) w a1 w1)).
    + by apply arq_safe_rdtsc.
    + intros done' i a1 w1 _ Hs1. eapply wp_mono; [apply timeout_entry_safe; apply Hs1|].
      intros a2 w2 Hs2. eapply arq_safe_ext; [|by eapply arq_safe_trans]. done.
  - intros a1 w1 (Ha1 & Hw1 & Hst1 & Hq1 & Hl1 & Hh1). wp_auto. cbn in Hl1.
    rewrite Hl1, lock_release. do 4 (split; [done|]). split; [by rewrite Hlock|]. done.
Qed.

End Safety.

(** ** The manager *)

(** Between calls: every context is well formed with its lock free, nonzero
    QPNs are unique, and a free context (QPN 0) owns no mbuf. *)
Record mgr_wf (mgr : arq_manager) : Prop := MgrWf {
  mgr_length : length (contexts mgr) = Z.to_nat MAX_QP_CTX;
  mgr_ctx i c : contexts mgr !! i = Some c -> arq_wf c /\ a_lock c = 0;
  mgr_unique i j c d :
    contexts mgr !! i = Some c -> contexts mgr !! j = Some d ->
    a_qpn c = a_qpn d -> a_qpn c <> 0 -> i = j;
  mgr_free i c m : contexts mgr !! i = Some c -> a_qpn c = 0 -> win_refs (send_window c) m = 0;
  mgr_lock : a_global_lock mgr = 0 }.

Definition mgr_in_mem (cs : list arq_context) (mem : gmap nat mbuf) : Prop :=
  forall i c, cs !! i = Some c -> win_in_mem (send_window c) mem.

Lemma zero_manager_wf : mgr_wf zero_manager.
Proof.
  split.
  - apply length_replicate.
  - intros i c Hc. apply lookup_replicate in Hc as [-> _]. split; [apply zero_context_wf|done].
  - intros i j c d Hc Hd _ Hq. apply lookup_replicate in Hc as [-> _]. by destruct Hq.
  - intros i c m Hc _. apply lookup_replicate in Hc as [-> _]. apply win_refs_zero.
  - done.
Qed.

(** The new context that creation writes. *)
Definition fresh_context (qpn : Z) : arq_context := set_a_qpn qpn zero_context.

Lemma arq_find_Some mgr qpn i :
  arq_find mgr qpn = Some i <->
  (exists c, contexts mgr !! i = Some c /\ a_qpn c = qpn) /\
  forall j d, contexts mgr !! j = Some d -> (j < i)%nat -> a_qpn d <> qpn.
Proof.
  unfold arq_find. rewrite fmap_Some. split.
  - intros ([i' c] & Hf & ->). apply list_find_Some in Hf as (Hc & Hq & Hlt). cbn.
    split; [by exists c|]. intros j d Hd Hj. by apply (Hlt j d).
  - intros [(c & Hc & Hq) Hlt]. exists (i, c). split; [|done]. apply list_find_Some. naive_solver.
Qed.

Lemma arq_find_None mgr qpn :
  arq_find mgr qpn = None <-> forall i c, contexts mgr !! i = Some c -> a_qpn c <> qpn.
Proof.
  unfold arq_find. rewrite fmap_None, list_find_None, Forall_lookup. done.
Qed.

(** Under uniqueness, finding a nonzero QPN is membership. *)
Lemma arq_find_unique mgr qpn i c :
  mgr_wf mgr -> qpn <> 0 -> contexts mgr !! i = Some c -> a_qpn c = qpn -> arq_find mgr qpn = Some i.
Proof.
  intros Hm Hq Hc Hqc. apply arq_find_Some. split; [by exists c|].
  intros j d Hd Hj Hqd. enough (j = i) by lia. eapply (mgr_unique mgr Hm); eauto; congruence.
Qed.

(** Writing back a context that keeps its QPN. *)
Lemma mgr_put_wf mgr i c c' :
  mgr_wf mgr -> contexts mgr !! i = Some c -> a_qpn c' = a_qpn c ->
  arq_wf c' -> a_lock c' = 0 ->
  (a_qpn c = 0 -> forall m, win_refs (send_window c') m = 0) ->
  mgr_wf (ArqManager (<[i := c']> (contexts mgr)) (a_global_lock mgr)).
Proof.
  intros Hm Hc Hq Hwf Hl Hfree.
  assert (Hlt : (i < length (contexts mgr))%nat) by by eapply lookup_lt_Some.
  assert (Hsame : forall j d, <[i:=c']> (contexts mgr) !! j = Some d ->
            (j = i /\ d = c') \/ (j <> i /\ contexts mgr !! j = Some d)).
  { intros j d. rewrite list_lookup_insert_Some. intros [(-> & -> & _)|[Hne Hd]]; [by left|right].
    by split; [congruence|]. }
  split; cbn [contexts a_global_lock].
  - rewrite length_insert. apply Hm.
  - intros j d [[-> ->]|[_ Hd]]%Hsame; [done|]. by eapply (mgr_ctx mgr Hm).
  - intros j k d e Hd He Hde Hd0. apply Hsame in Hd, He.
    destruct Hd as [[-> ->]|[Hj Hd]], He as [[-> ->]|[Hk He]]; try done.
    + eapply (mgr_unique mgr Hm i k c e); eauto; congruence.
    + eapply (mgr_unique mgr Hm j i d c); eauto; congruence.
    + eapply (mgr_unique mgr Hm j k d e); eauto.
  - intros j d m [[-> ->]|[_ Hd]]%Hsame Hd0; [apply Hfree; congruence|]. by eapply (mgr_free mgr Hm).
  - apply Hm.
Qed.

Section Manager.
Context `{DpdkSpec}.

(** What [arq_get_or_create] promises: it returns with the lock free, and
    either finds the context of the QPN, or turns the first free slot into a
    fresh context for it, or reports that there is none. *)
Inductive get_or_create_result (mgr : arq_manager) (qpn : Z) : option nat -> arq_manager -> Prop :=
  | goc_found i : arq_find mgr qpn = Some i -> get_or_create_result mgr qpn (Some i) mgr
  | goc_created i : arq_find mgr qpn = None -> arq_find mgr 0 = Some i ->
      get_or_create_result mgr qpn (Some i)
        (ArqManager (<[i := fresh_context qpn]> (contexts mgr)) (a_global_lock mgr))
  | goc_full : arq_find mgr qpn = None -> arq_find mgr 0 = None ->
      get_or_create_result mgr qpn None mgr.

Lemma arq_get_or_create_spec mgr qpn w :
  a_global_lock mgr = 0 ->
  wp (arq_get_or_create mgr qpn) (fun r w' => w' = w /\ get_or_create_result mgr qpn (fst r) (snd r)) w.
Proof.
  intros Hl. unfold arq_get_or_create. destruct mgr as [cs l]. cbn in Hl. subst l.
  cbn [a_global_lock contexts]. wp_auto. rewrite lock_release, lock_init.
  destruct (arq_find _ qpn) as [i|] eqn:Ef; [wp_auto; split; [done|by constructor]|].
  destruct (list_find (fun c => a_qpn c = 0) cs) as [[i c]|] eqn:Ez; wp_auto; (split; [done|]); cbn [fst snd].
  - apply (goc_created (ArqManager cs 0)); [done|]. unfold arq_find. cbn. by rewrite Ez.
  - apply (goc_full (ArqManager cs 0)); [done|]. unfold arq_find. cbn. by rewrite Ez.
Qed.

(** [arq_lookup] answers as [arq_find] does and changes nothing. *)
Lemma arq_lookup_rule mgr qpn (Q : option nat * arq_manager -> world -> Prop) w :
  mgr_wf mgr -> Q (arq_find mgr qpn, mgr) w -> wp (arq_lookup mgr qpn) Q w.
Proof.
  intros Hm HQ. unfold arq_lookup. rewrite (mgr_lock _ Hm). wp_auto. rewrite lock_release.
  replace (ArqManager (contexts mgr) 0) with mgr; [done|]. destruct mgr. pose proof (mgr_lock _ Hm) as Hl.
  cbn in Hl. by subst.
Qed.

(** Creation keeps the manager well formed and moves no reference. *)
Lemma get_or_create_wf mgr qpn r mgr' :
  mgr_wf mgr -> qpn <> 0 -> get_or_create_result mgr qpn r mgr' ->
  mgr_wf mgr' /\ (forall j, mgr_refs (contexts mgr') j = mgr_refs (contexts mgr) j) /\
  (forall mem, mgr_in_mem (contexts mgr) mem -> mgr_in_mem (contexts mgr') mem) /\
  forall i, r = Some i -> exists c, contexts mgr' !! i = Some c /\ a_qpn c = qpn.
Proof.
  intros Hm Hq Hr. destruct Hr as [i Hf|i Hn Hf|].
  - do 3 (split; [done|]). intros i' [= <-]. by apply arq_find_Some in Hf as [? _].
  - apply arq_find_Some in Hf as [(c & Hc & Hc0) _].
    assert (Hlt : (i < length (contexts mgr))%nat) by by eapply lookup_lt_Some.
    split; [split; cbn [contexts a_global_lock]|].
    + rewrite length_insert. apply Hm.
    + intros j d. rewrite list_lookup_insert_Some.
      intros [(-> & <- & _)|[_ Hd]]; [split; [apply zero_context_wf|done]|]. by eapply (mgr_ctx mgr Hm).
    + intros j k d e. rewrite !list_lookup_insert_Some. rewrite arq_find_None in Hn.
      intros [(-> & <- & _)|[Hj Hd]] [(-> & <- & _)|[Hk He]] Hde Hd0; try done.
      * by destruct (Hn k e He).
      * by destruct (Hn j d Hd).
      * eapply (mgr_unique mgr Hm); eauto.
    + intros j d m. rewrite list_lookup_insert_Some.
      intros [(-> & <- & _)|[_ Hd]] Hd0; [done|]. by eapply (mgr_free mgr Hm).
    + apply Hm.
    + split.
      { intros j. cbn [contexts]. erewrite mgr_refs_insert by done.
        rewrite (mgr_free mgr Hm i c j Hc Hc0). cbn [send_window fresh_context set_a_qpn zero_context].
        rewrite win_refs_zero. lia. }
      split.
      { intros mem Hmem j d. cbn [contexts]. rewrite list_lookup_insert_Some.
        intros [(-> & <- & _)|[_ Hd]]; [|by eapply Hmem].
        apply Forall_replicate. done. }
      intros i' [= <-]. exists (fresh_context qpn). cbn [contexts].
      by rewrite list_lookup_insert_eq.
  - do 3 (split; [done|]). done.
Qed.

End Manager.
