(* ===== verification/ArqWindow.v ===== *)
(** * The ARQ window as a queue: refinement of arq.c's send window

    The abstract window is the list of unacknowledged (PSN, mbuf) pairs,
    oldest first.  Sending appends unless 256 are outstanding, a cumulative
    ACK drops the longest covered prefix, a NACK changes nothing but timers.
    [arq_send_pkt], [arq_handle_ack] and [arq_handle_nack] refine these on
    the tight windows (the slots in flight are exactly those between
    [send_base] and [send_next]); [arq_check_timeouts] leaves that set of
    states when it drops an entry. *)

From S2P Require Import Prelude Crc32 PeerManager Env Sim RoceDefs Arq.

(** ** The abstract window *)

Definition queue : Type := list (Z * option nat).

(** A cumulative acknowledgement of [p] covers the PSNs at most half the
    sequence space behind it. *)
Definition covers (p : Z) (x : Z * option nat) : bool := psn_forward_dist (fst x) p <? 0x800000.

Definition q_send (q : queue) (x : Z * option nat) : Z * queue :=
  if WINDOW_SIZE <=? Z.of_nat (length q) then (-1, q) else (0, q ++ [x]).

Fixpoint q_ack (p : Z) (q : queue) : queue :=
  match q with
  | [] => []
  | x :: q' => if covers p x then q_ack p q' else q
  end.

(** The prefix an acknowledgement releases. *)
Fixpoint q_acked (p : Z) (q : queue) : queue :=
  match q with
  | [] => []
  | x :: q' => if covers p x then x :: q_acked p q' else []
  end.

Lemma q_acked_ack p q : q_acked p q ++ q_ack p q = q.
Proof. induction q as [|x q IH]; simpl; [done|]. destruct (covers p x); simpl; by rewrite ?IH. Qed.

(** ** The abstraction *)

Definition item (a : arq_context) (k : Z) : Z * option nat :=
  (psn (entry_at a k), e_mbuf (entry_at a k)).

Definition arq_queue (a : arq_context) : queue :=
  item a <$> seqZ (send_base a) (send_next a - send_base a).

Record tight (a : arq_context) : Prop := Tight {
  tight_wf : arq_wf a;
  tight_range : send_base a <= send_next a <= send_base a + WINDOW_SIZE;
  tight_busy k : send_base a <= k < send_next a -> in_flight (entry_at a k) = 1;
  tight_free k : send_next a <= k < send_base a + WINDOW_SIZE -> in_flight (entry_at a k) = 0 }.

Lemma tight_fresh qpn : tight (fresh_context qpn).
Proof.
  split.
  - apply zero_context_wf.
  - cbn. unfold WINDOW_SIZE. lia.
  - cbn. lia.
  - intros k _. unfold entry_at. cbn [send_window fresh_context set_a_qpn zero_context].
    rewrite nth_lookup. destruct (replicate _ _ !! _) eqn:E; [|done].
    by apply lookup_replicate in E as [-> _].
Qed.

(** ** Slots *)

Lemma slot_eq_mod i j : slot i = slot j -> i mod WINDOW_SIZE = j mod WINDOW_SIZE.
Proof.
  unfold slot, WINDOW_SIZE. pose proof (Z.mod_pos_bound i 256). pose proof (Z.mod_pos_bound j 256). lia.
Qed.

Lemma slot_inj b i j :
  b <= i < b + WINDOW_SIZE -> b <= j < b + WINDOW_SIZE -> slot i = slot j -> i = j.
Proof. intros Hi Hj He%slot_eq_mod. unfold WINDOW_SIZE in *. zdiv. Qed.

Lemma slot_wrap i : slot (i + WINDOW_SIZE) = slot i.
Proof. unfold slot, WINDOW_SIZE. f_equal. rewrite <- (Z.mul_1_l 256) at 1. by rewrite Z.mod_add. Qed.

Lemma entry_at_insert_same a a' k e :
  arq_wf a -> send_window a' = <[slot k := e]> (send_window a) -> entry_at a' k = e.
Proof.
  intros Ha Hw. unfold entry_at. rewrite Hw, nth_lookup, list_lookup_insert_eq; [done|].
  by apply slot_lt.
Qed.

Lemma entry_at_insert_ne a a' k i e :
  send_window a' = <[slot k := e]> (send_window a) -> slot i <> slot k -> entry_at a' i = entry_at a i.
Proof. intros Hw Hne. unfold entry_at. rewrite Hw, !nth_lookup, list_lookup_insert_ne; auto. Qed.

(** ** Sending *)

Lemma arq_queue_length a : tight a -> Z.of_nat (length (arq_queue a)) = send_next a - send_base a.
Proof. intros [_ Hr _ _]. unfold arq_queue. rewrite length_fmap, length_seqZ. lia. Qed.

(** A slot is free exactly when fewer than 256 packets are outstanding. *)
Lemma tight_slot_free a :
  tight a -> in_flight (entry_at a (send_next a)) = 0 <-> send_next a < send_base a + WINDOW_SIZE.
Proof.
  intros [Hwf Hr Hb Hf]. split.
  - intros Hz. destruct (Z.lt_ge_cases (send_next a) (send_base a + WINDOW_SIZE)) as [|Hge]; [done|].
    assert (send_next a = send_base a + WINDOW_SIZE) as Heq by lia.
    unfold entry_at in Hz. rewrite Heq, slot_wrap in Hz. fold (entry_at a (send_base a)) in Hz.
    rewrite Hb in Hz; [done|]. unfold WINDOW_SIZE in *. lia.
  - intros Hlt. apply Hf. lia.
Qed.

(** Appending one in-flight entry at [send_next]. *)
Lemma tight_append a a' e :
  tight a -> send_next a < send_base a + WINDOW_SIZE -> in_flight e = 1 -> arq_wf a' ->
  send_window a' = <[slot (send_next a) := e]> (send_window a) ->
  send_base a' = send_base a -> send_next a' = send_next a + 1 ->
  tight a' /\ arq_queue a' = arq_queue a ++ [(psn e, e_mbuf e)].
Proof.
  intros [Hwf Hr Hb Hf] Hlt He Hwf' Hw Hb' Hn'.
  assert (Hother : forall k, send_base a <= k < send_base a + WINDOW_SIZE -> k <> send_next a ->
            entry_at a' k = entry_at a k).
  { intros k Hk Hne. eapply entry_at_insert_ne; [exact Hw|]. intros Hs. apply Hne.
    eapply slot_inj; [exact Hk| |exact Hs]. lia. }
  pose proof (entry_at_insert_same a a' (send_next a) e Hwf Hw) as Hnew.
  split; [split|].
  - done.
  - lia.
  - intros k Hk. destruct (decide (k = send_next a)) as [->|Hne]; [by rewrite Hnew|].
    rewrite Hother by lia. apply Hb. lia.
  - intros k Hk. rewrite Hother by lia. apply Hf. lia.
  - unfold arq_queue. rewrite Hb', Hn'.
    replace (send_next a + 1 - send_base a) with ((send_next a - send_base a) + 1) by lia.
    rewrite seqZ_app, fmap_app by lia. f_equal.
    + apply list_fmap_ext. intros i k Hk. apply lookup_seqZ in Hk as [-> Hi].
      unfold item. by rewrite Hother by lia.
    + replace (send_base a + (send_next a - send_base a)) with (send_next a) by lia.
      rewrite seqZ_1. cbn. unfold item. by rewrite Hnew.
Qed.

Section Refinement.
Context `{DpdkSpec}.

Lemma arq_send_pkt_refines a m p seg w :
  tight a -> a_lock a = 0 -> send_next a + 1 < 2 ^ 32 ->
  wp (arq_send_pkt a (Some m) p seg) (fun r w' =>
    tight (snd r) /\ a_lock (snd r) = 0 /\ send_next (snd r) <= send_next a + 1 /\
    io_log (w_trace w') = io_log (w_trace w) /\
    (fst r, arq_queue (snd r)) = q_send (arq_queue a) (p, Some m)) w.
Proof.
  intros Ht Hl Hn. unfold arq_send_pkt. rewrite Hl. wp_auto. rewrite lock_release.
  unfold q_send. rewrite (arq_queue_length a Ht).
  pose proof (tight_slot_free a Ht) as Hfree. destruct (Ht) as [Hwf Hr Hb Hf].
  destruct (Z.eqb_spec (in_flight (entry_at a (send_next a))) 0) as [Hz|Hz]; cbn [negb]; wp_auto; cbn [fst snd].
  - apply Hfree in Hz as Hlt. rewrite (proj2 (Z.leb_gt _ _)) by lia.
    match goal with |- tight ?a1 /\ _ => destruct (tight_append a a1 (ArqEntry p (Some m) t 0 seg 1)) as [Ht' Hq] end;
      try done.
    + destruct (Hwf) as (Hlen & Hok & Hub & Hun). split; cbn; [by rewrite length_insert|].
      split; [apply Forall_insert; [done|right; cbn; eauto]|]. split; [done|]. apply u32_range.
    + cbn. destruct Hwf as (_ & _ & _ & Hun). unfold is_u32 in Hun. apply u32_small. unfold is_u32. lia.
    + split; [done|]. split; [done|]. split; [cbn; rewrite u32_small; [lia|]|].
      { destruct Hwf as (_ & _ & _ & Hun). unfold is_u32 in *. lia. }
      split; [done|]. by rewrite Hq.
  - rewrite (proj2 (Z.leb_le _ _)) by (destruct (Z.lt_ge_cases (send_next a) (send_base a + WINDOW_SIZE)); [tauto|lia]).
    do 2 (split; [done|]). split; [cbn; lia|done].
Qed.

(** ** Acknowledging *)

(** Releasing the oldest entry: the queue loses its head. *)
Lemma arq_pop_refines a :
  tight a -> send_base a < send_next a ->
  tight (arq_pop a) /\ arq_queue a = item a (send_base a) :: arq_queue (arq_pop a).
Proof.
  intros [Hwf Hr Hb Hf] Hlt. destruct (Hwf) as (Hlen & Hok & Hub & Hun).
  assert (Hbase : send_base (arq_pop a) = send_base a + 1).
  { cbn. apply u32_small. unfold is_u32 in *. lia. }
  assert (Hother : forall k, send_base a <= k < send_base a + WINDOW_SIZE -> k <> send_base a ->
            entry_at (arq_pop a) k = entry_at a k).
  { intros k Hk Hne. eapply entry_at_insert_ne; [reflexivity|]. intros Hs. apply Hne.
    eapply slot_inj; [exact Hk| |exact Hs]. unfold WINDOW_SIZE. lia. }
  split; [split|].
  - split; cbn; [by rewrite length_insert|]. split; [by apply Forall_insert; [|left]|].
    split; [apply u32_range|done].
  - rewrite Hbase. cbn [send_next arq_pop]. lia.
  - rewrite Hbase. cbn [send_next arq_pop]. intros k Hk. rewrite Hother by lia. apply Hb. lia.
  - rewrite Hbase. cbn [send_next arq_pop]. intros k Hk.
    destruct (decide (k < send_base a + WINDOW_SIZE)).
    + rewrite Hother by lia. apply Hf. lia.
    + replace k with (send_base a + WINDOW_SIZE) by lia. unfold entry_at at 1. rewrite slot_wrap.
      fold (entry_at (arq_pop a) (send_base a)).
      by erewrite (entry_at_insert_same a) by done.
  - unfold arq_queue. rewrite Hbase. cbn [send_next arq_pop].
    replace (send_next a - send_base a) with (1 + (send_next a - (send_base a + 1))) by lia.
    rewrite seqZ_app, seqZ_1 by lia. cbn [app fmap list_fmap]. f_equal.
    apply list_fmap_ext. intros i k Hk. apply lookup_seqZ in Hk as [-> Hi].
    unfold item. by rewrite Hother by lia.
Qed.

(** The releases of a list of window items, oldest first. *)
Definition released (q : queue) : list io := omap (fun x => Released <$> snd x) q.

Lemma ack_loop_refines fuel p a w :
  tight a -> Z.of_nat fuel = send_next a - send_base a ->
  wp (ack_loop fuel p a) (fun a' w' =>
    tight a' /\ a_lock a' = a_lock a /\ send_next a' = send_next a /\
    arq_queue a' = q_ack p (arq_queue a) /\
    io_log (w_trace w') = rev (released (q_acked p (arq_queue a))) ++ io_log (w_trace w)) w.
Proof.
  revert a w. induction fuel as [|fuel IH]; intros a w Ht Hfuel.
  - cbn [ack_loop]. wp_auto. unfold arq_queue. rewrite <- Hfuel. cbn. done.
  - cbn [ack_loop]. rewrite (proj2 (Z.ltb_lt _ _)) by lia.
    destruct (arq_pop_refines a Ht) as [Ht' Hq]; [lia|]. rewrite Hq. cbn [q_ack q_acked].
    unfold covers. cbn [fst item].
    rewrite (Z.leb_antisym (psn_forward_dist _ _)). destruct (_ <? _); cbn [negb].
    + assert (Hrest : forall w1, wp (ack_loop fuel p (arq_pop a)) (fun a' w' =>
          tight a' /\ a_lock a' = a_lock a /\ send_next a' = send_next a /\
          arq_queue a' = q_ack p (arq_queue (arq_pop a)) /\
          io_log (w_trace w') = rev (released (q_acked p (arq_queue (arq_pop a)))) ++ io_log (w_trace w1)) w1).
      { intros w1. apply (IH (arq_pop a)); [done|]. cbn [send_next arq_pop].
        replace (send_base (arq_pop a)) with (send_base a + 1); [lia|].
        cbn. symmetry. apply u32_small. destruct Ht as [(_ & _ & Hub & Hun) Hr _ _].
        unfold is_u32 in *. lia. }
      wp_auto. unfold released. cbn [omap list_omap snd item].
      destruct (tight_wf a Ht) as (_ & _ & _ & _).
      pose proof (entry_at_ok a (send_base a) (tight_wf a Ht)) as [[_ Hm]|[_ [m Hm]]]; rewrite Hm.
      * wp_auto. apply Hrest.
      * wp_auto. eapply wp_mono; [apply Hrest|]. intros a' w' (H1 & H2 & H3 & H4 & H5).
        do 4 (split; [done|]). rewrite H5. cbn. by rewrite <- app_assoc.
    + wp_auto. by rewrite Hq.
Qed.

Lemma arq_handle_ack_refines a p w :
  tight a -> a_lock a = 0 ->
  wp (arq_handle_ack a p) (fun r w' =>
    fst r = 0 /\ tight (snd r) /\ a_lock (snd r) = 0 /\ send_next (snd r) = send_next a /\
    arq_queue (snd r) = q_ack p (arq_queue a) /\
    io_log (w_trace w') = rev (released (q_acked p (arq_queue a))) ++ io_log (w_trace w)) w.
Proof.
  intros Ht Hl. unfold arq_handle_ack. rewrite Hl. wp_auto.
  eapply wp_mono; [apply ack_loop_refines; [by destruct Ht; split|]|].
  - cbn. destruct Ht as [_ Hr _ _]. lia.
  - intros a1 w1 (Ht1 & Hl1 & Hn1 & Hq1 & Htr). wp_auto. cbn in Hl1. rewrite Hl1, lock_release.
    cbn [fst snd]. split; [done|]. split; [by destruct Ht1; split|]. done.
Qed.

(** ** Negative acknowledgements *)

(** [a'] differs from [a] in timers, retry counts and statistics only. *)
Record same_items (a a' : arq_context) : Prop := SameItems {
  si_wf : arq_wf a';
  si_item k : item a' k = item a k;
  si_busy k : in_flight (entry_at a' k) = in_flight (entry_at a k);
  si_base : send_base a' = send_base a;
  si_next : send_next a' = send_next a;
  si_lock : a_lock a' = a_lock a;
  si_qpn : a_qpn a' = a_qpn a }.

Lemma same_items_refl a : arq_wf a -> same_items a a.
Proof. by split. Qed.

Lemma same_items_trans a b c : same_items a b -> same_items b c -> same_items a c.
Proof.
  intros [] []. split; try done; congruence.
Qed.

Lemma same_items_tight a a' : same_items a a' -> tight a -> tight a'.
Proof.
  intros [] [_ Hr Hb Hf]. split; [done|by rewrite si_base0, si_next0| |];
    intros k; rewrite si_base0, si_next0, si_busy0; auto.
Qed.

Lemma same_items_queue a a' : same_items a a' -> arq_queue a' = arq_queue a.
Proof.
  intros []. unfold arq_queue. rewrite si_base0, si_next0. apply list_fmap_ext. intros; apply si_item0.
Qed.

(** Restarting the timer of one entry. *)
Lemma retime_items a a' i t r :
  arq_wf a ->
  (let e := entry_at a i in
   send_window a' = <[slot i := ArqEntry (psn e) (e_mbuf e) t r (segment_type e) (in_flight e)]> (send_window a)) ->
  send_base a' = send_base a -> send_next a' = send_next a -> a_lock a' = a_lock a ->
  a_qpn a' = a_qpn a -> same_items a a'.
Proof.
  intros Ha Hw Hb Hn Hl Hq. cbv zeta in Hw.
  assert (Hcase : forall k, (slot k = slot i /\ entry_at a k = entry_at a i) \/ slot k <> slot i).
  { intros k. destruct (decide (slot k = slot i)) as [Heq|]; [left|by right].
    split; [done|]. unfold entry_at. by rewrite Heq. }
  pose proof (entry_at_insert_same a a' i _ Ha Hw) as Hi.
  assert (Hsame : forall k, psn (entry_at a' k) = psn (entry_at a k) /\
     e_mbuf (entry_at a' k) = e_mbuf (entry_at a k) /\ in_flight (entry_at a' k) = in_flight (entry_at a k)).
  { intros k. destruct (Hcase k) as [[Hs He]|Hne].
    - unfold entry_at at 1 3 5. rewrite Hs. fold (entry_at a' i). by rewrite Hi, He.
    - by rewrite (entry_at_insert_ne a a' i k _ Hw Hne). }
  split; try done.
  - destruct (Ha) as (Hlen & Hok & Hub & Hun). unfold arq_wf. rewrite Hw, Hb, Hn, length_insert.
    split; [done|]. split; [|done]. apply Forall_insert; [done|]. apply (entry_at_ok a i Ha).
  - intros k. unfold item. by destruct (Hsame k) as (-> & -> & _).
  - intros k. apply Hsame.
Qed.

(** The sequence indices a NACK of [p] selects, from [i] on. *)
Definition nack_hits (a : arq_context) (i p : Z) : list Z :=
  filter (fun k => covers p (item a k) = true) (seqZ i (send_next a - i)).

Lemma nack_scan_refines fuel i p acc a w :
  arq_wf a -> Z.of_nat fuel = send_next a - i -> Z.of_nat (length acc) <= MAX_RETX_BURST ->
  wp (nack_scan fuel i p acc a) (fun r w' =>
    same_items a (snd r) /\ w_mem w' = w_mem w /\ io_log (w_trace w') = io_log (w_trace w) /\
    fst r = acc ++ ((fun k => (slot k, psn (entry_at a k))) <$>
                    take (Z.to_nat MAX_RETX_BURST - length acc) (nack_hits a i p))) w.
Proof.
  revert i acc a w. induction fuel as [|fuel IH]; intros i acc a w Ha Hfuel Hacc; cbn [nack_scan].
  { wp_auto. split; [by apply same_items_refl|]. do 2 (split; [done|]). cbn [fst].
    assert (nack_hits a i p = []) as -> by (unfold nack_hits; by rewrite <- Hfuel).
    rewrite take_nil. cbn [fmap list_fmap]. by rewrite app_nil_r. }
  rewrite (proj2 (Z.ltb_lt i _)) by lia. cbn [andb].
  assert (Hhits : nack_hits a i p =
    (if psn_forward_dist (psn (entry_at a i)) p <? 0x800000 then [i] else []) ++ nack_hits a (i + 1) p).
  { unfold nack_hits. replace (send_next a - i) with (1 + (send_next a - (i + 1))) by lia.
    rewrite seqZ_app, seqZ_1, list.filter_app by lia. f_equal.
    unfold filter, list_filter. cbn [list_filter]. unfold covers, item. cbn [fst].
    by destruct (psn_forward_dist _ _ <? _). }
  destruct (Z.ltb_spec (Z.of_nat (length acc)) MAX_RETX_BURST) as [Hlt|Hge].
  2:{ wp_auto. split; [by apply same_items_refl|]. do 2 (split; [done|]). cbn [fst].
      replace (Z.to_nat MAX_RETX_BURST - length acc)%nat with O by lia.
      by rewrite take_0, app_nil_r. }
  rewrite Hhits. destruct (psn_forward_dist _ _ <? _) eqn:Ec.
  - wp_auto. match goal with |- wp (nack_scan _ _ _ _ ?a1) _ _ =>
      assert (Hsi : same_items a a1) by (eapply retime_items; try done; cbv zeta; reflexivity) end.
    eapply wp_mono; [apply IH|].
    + by apply Hsi.
    + cbn [send_next set_total_retransmit set_entry]. lia.
    + rewrite length_app. cbn. lia.
    + intros r w' (Hs & Hm & Htx & Hr). split; [by eapply same_items_trans|]. split; [done|].
      split; [done|]. rewrite Hr, <- app_assoc. f_equal. rewrite length_app. cbn [length].
      replace (Z.to_nat MAX_RETX_BURST - length acc)%nat
        with (S (Z.to_nat MAX_RETX_BURST - (length acc + 1)))%nat by lia.
      cbn [app take fmap list_fmap]. f_equal.
      assert (nack_hits (set_total_retransmit (u64 (total_retransmit a + 1))
          (set_entry (slot i) (ArqEntry (psn (entry_at a i)) (e_mbuf (entry_at a i)) t
            (u8 (retry_count (entry_at a i) + 1)) (segment_type (entry_at a i))
            (in_flight (entry_at a i))) a)) (i + 1) p = nack_hits a (i + 1) p) as ->.
      { unfold nack_hits. cbn [send_next set_total_retransmit set_entry].
        apply list_filter_iff. intros k. by rewrite (si_item _ _ Hsi). }
      apply list_fmap_ext. intros _ k _. f_equal. by apply (f_equal fst (si_item _ _ Hsi k)).
  - cbn [app]. apply IH; [done|lia|done].
Qed.

(** The resend loop transmits the selected slots' mbufs, in order. *)
Lemma resend_all_tx port a acc w :
  win_in_mem (send_window a) (w_mem w) ->
  wp (foldM (resend_slot port a) acc tt) (fun _ w' =>
    w_mem w' = w_mem w /\
    io_log (w_trace w') =
      rev (omap (fun s => Sent port <$> e_mbuf (nth (fst s) (send_window a) zero_entry)) acc)
      ++ io_log (w_trace w)) w.
Proof.
  revert w. induction acc as [|s acc IH]; intros w Hw; cbn [foldM]; [by wp_auto|]. wp_auto.
  unfold resend_slot at 1. cbn [omap list_omap].
  destruct (e_mbuf (nth (fst s) (send_window a) zero_entry)) as [m|] eqn:Em; [|wp_auto; by apply IH].
  assert (is_Some (w_mem w !! m)) as [b Hb].
  { destruct (decide (fst s < length (send_window a))%nat) as [Hlt|Hge].
    - unfold win_in_mem in Hw. rewrite Forall_lookup in Hw. eapply Hw; [|exact Em].
      by apply nth_entry_lookup.
    - by rewrite nth_overflow in Em by lia. }
  unfold resend. wp_auto. eapply wp_tx; [exact Hb|]. intros sent _.
  destruct sent; cbn [Z.eqb]; wp_auto; (eapply wp_mono; [by apply IH|]); intros [] w' [Hm Htx];
    (split; [done|]); rewrite Htx; cbn; by rewrite <- app_assoc.
Qed.

(** What a NACK of [p] resends: the oldest 64 covered items. *)
Definition nack_items (p : Z) (q : queue) : queue :=
  take (Z.to_nat MAX_RETX_BURST) (filter (fun x => covers p x = true) q).

Lemma nack_hits_items a p :
  item a <$> take (Z.to_nat MAX_RETX_BURST) (nack_hits a (send_base a) p) = nack_items p (arq_queue a).
Proof.
  unfold nack_items, nack_hits, arq_queue. rewrite fmap_take. f_equal.
  by rewrite (filter_map (item a) (fun x => covers p x = true)).
Qed.

Lemma arq_handle_nack_refines a p port w :
  tight a -> a_lock a = 0 -> win_in_mem (send_window a) (w_mem w) ->
  wp (arq_handle_nack a p port) (fun r w' =>
    fst r = Z.of_nat (length (nack_items p (arq_queue a))) /\
    tight (snd r) /\ a_lock (snd r) = 0 /\ send_next (snd r) = send_next a /\
    arq_queue (snd r) = arq_queue a /\
    io_log (w_trace w') =
      rev (omap (fun x => Sent port <$> snd x) (nack_items p (arq_queue a)))
      ++ io_log (w_trace w)) w.
Proof.
  intros Ht Hl Hw. destruct (Ht) as [Hwf Hrange Hbusy _].
  unfold arq_handle_nack. rewrite Hl. wp_auto.
  eapply wp_mono; [apply nack_scan_refines; [done|cbn; lia|cbn; unfold MAX_RETX_BURST; lia]|].
  intros [acc a1] w1 (Hsi & Hmem & Htx & Hacc). cbn [fst snd] in *. wp_auto.
  rewrite Nat.sub_0_r in Hacc. cbn [app length] in Hacc.
  pose proof (nack_hits_items a p) as Hitems. cbn [send_base set_a_lock] in Hacc.
  change (nack_hits (set_a_lock 1 a)) with (nack_hits a) in Hacc.
  change (entry_at (set_a_lock 1 a)) with (entry_at a) in Hacc.
  assert (Hwin1 : win_in_mem (send_window a1) (w_mem w1)).
  { rewrite Hmem. apply Forall_lookup. intros k e He j Hj. pose proof (lookup_lt_Some _ _ _ He) as Hk.
    destruct (si_wf _ _ Hsi) as (Hlen & _). rewrite Hlen in Hk.
    assert (Hslot : slot (Z.of_nat k) = k).
    { unfold slot, WINDOW_SIZE in *. rewrite Z.mod_small; lia. }
    apply (win_in_mem_at a (Z.of_nat k)); [done|done|].
    rewrite <- Hj. change (snd (item a (Z.of_nat k)) = e_mbuf e).
    pose proof (si_item _ _ Hsi (Z.of_nat k)) as Hi. change (item (set_a_lock 1 a)) with (item a) in Hi.
    rewrite <- Hi. cbn. unfold entry_at. by rewrite Hslot, nth_lookup, He. }
  eapply wp_mono; [by apply resend_all_tx|]. intros [] w2 [_ Htx2]. wp_auto. cbn [fst snd].
  pose proof (si_lock _ _ Hsi) as Hl1. cbn [a_lock set_a_lock] in Hl1. rewrite Hl1, lock_release.
  assert (Hsi' : same_items a (set_a_lock 0 a1)) by (destruct Hsi; split; try done; by rewrite Hl).
  rewrite <- Hitems, length_fmap. split; [by rewrite Hacc, length_fmap|].
  split; [by eapply same_items_tight|]. split; [done|]. split; [apply (si_next _ _ Hsi')|].
  split; [by apply same_items_queue|]. rewrite Htx2, Htx, Hacc. f_equal. f_equal.
  apply omap_map_ext. intros k. cbn [fst snd item]. f_equal.
  exact (f_equal snd (si_item _ _ Hsi k)).
Qed.

(** ** Whole runs *)

Inductive op := OpSend (m : nat) (p seg : Z) | OpAck (p : Z) | OpNack (p : Z).

(** The specification: result, window and outside effects of an operation. *)
Definition q_step (port : Z) (q : queue) (o : op) : Z * queue * list io :=
  match o with
  | OpSend m p _ => (q_send q (p, Some m), [])
  | OpAck p => (0, q_ack p q, released (q_acked p q))
  | OpNack p =>
      (Z.of_nat (length (nack_items p q)), q, omap (fun x => Sent port <$> snd x) (nack_items p q))
  end.

Fixpoint q_run (port : Z) (ops : list op) (q : queue) : list Z * queue * list io :=
  match ops with
  | [] => ([], q, [])
  | o :: ops =>
      let '(z, q, e) := q_step port q o in
      let '(zs, q, es) := q_run port ops q in (z :: zs, q, e ++ es)
  end.

(** The program. *)
Definition arq_step (port : Z) (a : arq_context) (o : op) : M (Z * arq_context) :=
  match o with
  | OpSend m p seg => arq_send_pkt a (Some m) p seg
  | OpAck p => arq_handle_ack a p
  | OpNack p => arq_handle_nack a p port
  end.

Fixpoint arq_run (port : Z) (ops : list op) (a : arq_context) : M (list Z * arq_context) :=
  match ops with
  | [] => mret ([], a)
  | o :: ops =>
      '(z, a) ← arq_step port a o;
      '(zs, a) ← arq_run port ops a;
      mret (z :: zs, a)
  end.

Definition op_mbuf (o : op) : option nat := match o with OpSend m _ _ => Some m | _ => None end.
Definition op_sends (o : op) : Z := match o with OpSend _ _ _ => 1 | _ => 0 end.

(** A context the operations may run on: tight, unlocked, its mbufs live. *)
Record ready (a : arq_context) (w : world) : Prop := Ready {
  rd_tight : tight a;
  rd_lock : a_lock a = 0;
  rd_mem : win_in_mem (send_window a) (w_mem w) }.

Lemma arq_step_refines port a o w :
  ready a w -> send_next a + op_sends o < 2 ^ 32 ->
  (forall m, op_mbuf o = Some m -> is_Some (w_mem w !! m)) ->
  wp (arq_step port a o) (fun r w' =>
    let '(z, q, es) := q_step port (arq_queue a) o in
    fst r = z /\ arq_queue (snd r) = q /\ ready (snd r) w' /\ a_qpn (snd r) = a_qpn a /\
    send_next (snd r) <= send_next a + op_sends o /\ same_store w w' /\
    io_log (w_trace w') = rev es ++ io_log (w_trace w)) w.
Proof.
  intros [Ht Hl Hm] Hn Ho. destruct o as [m p seg|p|p]; cbn [arq_step q_step op_sends] in *.
  - eapply wp_mono; [apply wp_conj; [by apply arq_send_pkt_refines|]|].
    { apply (arq_send_pkt_safe a m p seg w); [apply Ht|done|done|by apply Ho]. }
    intros [z a'] w' [(Ht' & Hl' & Hn' & Hio & Hq) (_ & _ & Hm' & Hs & Hqn & _)]. cbn [fst snd] in *.
    rewrite <- Hq. done.
  - eapply wp_mono; [apply wp_conj; [by apply arq_handle_ack_refines|]|].
    { apply (arq_handle_ack_safe a p w); [apply Ht|done|done]. }
    intros [z a'] w' [(-> & Ht' & Hl' & Hn' & Hq & Hio) (_ & Hm' & Hs & Hqn & _)]. cbn [fst snd] in *.
    do 4 (split; [done|]). split; [lia|done].
  - eapply wp_mono; [apply wp_conj; [by apply arq_handle_nack_refines|]|].
    { apply (arq_handle_nack_safe a p port w); [apply Ht|done|done]. }
    intros [z a'] w' [(-> & Ht' & Hl' & Hn' & Hq & Hio) (_ & Hm' & Hs & Hqn & _)]. cbn [fst snd] in *.
    do 4 (split; [done|]). split; [lia|done].
Qed.

Lemma arq_run_sim port ops a w :
  ready a w -> send_next a + sumZ op_sends ops < 2 ^ 32 ->
  Forall (fun o => forall m, op_mbuf o = Some m -> is_Some (w_mem w !! m)) ops ->
  wp (arq_run port ops a) (fun r w' =>
    let '(zs, q, es) := q_run port ops (arq_queue a) in
    fst r = zs /\ arq_queue (snd r) = q /\ tight (snd r) /\ same_store w w' /\
    io_log (w_trace w') = rev es ++ io_log (w_trace w)) w.
Proof.
  revert a w. induction ops as [|o ops IH]; intros a w Hr Hn Hops; cbn [arq_run q_run].
  - apply wp_ret. split; [done|]. split; [done|]. split; [apply Hr|done].
  - apply Forall_cons_1 in Hops as [Ho Hops]. cbn [sumZ] in Hn.
    assert (Hpos : 0 <= sumZ op_sends ops) by (apply sumZ_nonneg; intros []; cbn; lia).
    apply wp_bind. eapply wp_mono; [by apply arq_step_refines; [|lia|]|].
    intros [z a1] w1. destruct (q_step port (arq_queue a) o) as [[z' q1] e1]. cbn [fst snd].
    intros (-> & <- & Hr1 & _ & Hn1 & Hs1 & Hio1). apply wp_bind.
    eapply wp_mono; [apply IH; [done|lia|]|].
    { destruct Hs1 as [_ ->]. done. }
    intros [zs a2] w2. destruct (q_run port ops (arq_queue a1)) as [[zs' q2] e2]. cbn [fst snd].
    intros (-> & <- & Ht2 & Hs2 & Hio2). apply wp_ret. cbn [fst snd].
    split; [done|]. split; [done|]. split; [done|]. split; [by transitivity w1|].
    by rewrite Hio2, Hio1, rev_app_distr, app_assoc.
Qed.

End Refinement.

(** ** Fuel *)

Lemma arq_pop_base a : arq_wf a -> send_base a < send_next a -> send_base (arq_pop a) = send_base a + 1.
Proof.
  intros (_ & _ & Hb & Hn) Hlt. cbn. apply u32_small. unfold is_u32 in *. lia.
Qed.

Lemma arq_pop_wf a : arq_wf a -> arq_wf (arq_pop a).
Proof.
  intros (Hlen & Hok & Hb & Hn). split; cbn; [by rewrite length_insert|].
  split; [by apply Forall_insert; [|left]|]. split; [apply u32_range|done].
Qed.

Lemma ack_loop_fuel n k p a w :
  arq_wf a -> (Z.to_nat (send_next a - send_base a) <= n)%nat ->
  ack_loop (n + k) p a w = ack_loop n p a w /\ exists a' w', ack_loop n p a w = Ret a' w'.
Proof.
  revert a w. induction n as [|n IH]; intros a w Ha Hn.
  - cbn [Nat.add ack_loop]. split; [|by exists a, w]. destruct k as [|k]; [done|]. cbn [ack_loop].
    by rewrite (proj2 (Z.ltb_ge _ _)) by lia.
  - cbn [Nat.add ack_loop]. destruct (Z.ltb_spec (send_base a) (send_next a)) as [Hlt|_]; [|by split; [|exists a, w]].
    destruct (_ <=? _); [by split; [|exists a, w]|].
    assert (Hfuel : (Z.to_nat (send_next (arq_pop a) - send_base (arq_pop a)) <= n)%nat).
    { rewrite arq_pop_base by done. cbn [send_next arq_pop]. lia. }
    unfold mbind, M_bind. destruct (e_mbuf _) as [m|]; cbn [rte_pktmbuf_free];
      apply IH; auto using arq_pop_wf.
Qed.

Lemma nack_scan_fuel `{Dpdk} n k i p acc a w :
  (Z.to_nat (send_next a - i) <= n)%nat ->
  nack_scan (n + k) i p acc a w = nack_scan n i p acc a w /\ exists r w', nack_scan n i p acc a w = Ret r w'.
Proof.
  revert i acc a w. induction n as [|n IH]; intros i acc a w Hn.
  - cbn [Nat.add nack_scan]. split; [|by exists (acc, a), w]. destruct k as [|k]; [done|]. cbn [nack_scan].
    by rewrite (proj2 (Z.ltb_ge _ _)) by lia.
  - cbn [Nat.add nack_scan]. destruct (Z.ltb_spec i (send_next a)) as [Hlt|_]; [|by split; [|exists (acc, a), w]].
    destruct (_ <? MAX_RETX_BURST); cbn [andb]; [|by split; [|exists (acc, a), w]].
    destruct (_ <? 0x800000); [|apply IH; lia]. apply IH. cbn [send_next set_total_retransmit set_entry]. lia.
Qed.

(** ** Properties *)

(** C3 Any sequence of sends, acknowledgements and
    negative acknowledgements on a fresh context (fewer than 2^32 sends)
    behaves as the bounded queue does: the same results (0 or window full, 0,
    number resent), the same unacknowledged packets in the same order, the
    same releases and retransmissions in the same order. *)
Theorem arq_window_refines_queue `{DpdkSpec} port qpn ops w :
  sumZ op_sends ops < 2 ^ 32 ->
  Forall (fun o => forall m, op_mbuf o = Some m -> is_Some (w_mem w !! m)) ops ->
  wp (arq_run port ops (fresh_context qpn)) (fun r w' =>
    let '(zs, q, es) := q_run port ops [] in
    fst r = zs /\ arq_queue (snd r) = q /\ tight (snd r) /\ same_store w w' /\
    io_log (w_trace w') = rev es ++ io_log (w_trace w)) w.
Proof.
  intros Hn Hops. apply (arq_run_sim port ops (fresh_context qpn) w); [|done|done].
  split; [apply tight_fresh|done|by apply Forall_replicate].
Qed.

(** Three packets sent, the first resent and then acknowledged with the second. *)
Lemma arq_window_refines_queue_witness :
  let ops := [OpSend 1 5 1; OpSend 2 6 2; OpSend 3 7 3; OpNack 5; OpAck 6] in
  wp (@arq_run (sim false) 1 ops (fresh_context 17)) (fun r w' =>
    fst r = [0; 0; 0; 1; 0] /\ arq_queue (snd r) = [(7, Some 3%nat)] /\
    io_log (w_trace w') = [Released 2; Released 1; Sent 1 1]) (sim_world [[]; []; []]).
Proof.
  intros ops. eapply wp_mono.
  - apply (@arq_window_refines_queue (sim false) (sim_spec false) 1 17 ops); [by vm_compute|].
    repeat (apply Forall_cons_2; [intros m [= <-] || intros m [=]; by eexists|]). by apply Forall_nil_2.
  - assert (q_run 1 ops [] = ([0; 0; 0; 1; 0], [(7, Some 3%nat)], [Sent 1 1; Released 1; Released 2])) as ->
      by by vm_compute.
    intros r w' (Hz & Hq & _ & _ & Hio). rewrite Hio. done.
Defined.

(** For a QPN other than 0 the manager returns a
    context of that QPN, which a second call finds again, and stays well
    formed; a context it opens is an empty window, and no packet held by a
    window is lost. *)
Theorem arq_get_or_create_correct `{DpdkSpec} mgr qpn w :
  mgr_wf mgr -> qpn <> 0 ->
  wp (arq_get_or_create mgr qpn) (fun r w' =>
    w' = w /\ mgr_wf (snd r) /\
    (forall j, mgr_refs (contexts (snd r)) j = mgr_refs (contexts mgr) j) /\
    match fst r with
    | Some i =>
        exists c, contexts (snd r) !! i = Some c /\ a_qpn c = qpn /\ arq_find (snd r) qpn = Some i /\
          (arq_find mgr qpn = None -> tight c /\ arq_queue c = [])
    | None => snd r = mgr /\ forall i c, contexts mgr !! i = Some c -> a_qpn c <> qpn /\ a_qpn c <> 0
    end) w.
Proof.
  intros Hm Hq. eapply wp_mono; [apply arq_get_or_create_spec, Hm|]. intros [r mgr'] w' [-> Hr].
  cbn [fst snd] in *. destruct (get_or_create_wf _ _ _ _ Hm Hq Hr) as (Hm' & Hrefs & _ & Hsome).
  split; [done|]. split; [done|]. split; [done|]. destruct r as [i|].
  - destruct (Hsome i eq_refl) as (c & Hc & Hcq). exists c. split; [done|]. split; [done|].
    split; [by eapply arq_find_unique|]. intros Hn. inversion Hr as [? Hf|? ? Hf|]; subst; [congruence|].
    apply arq_find_Some in Hf as [(c0 & Hc0 & _) _]. apply lookup_lt_Some in Hc0.
    cbn [contexts] in Hc. rewrite list_lookup_insert_eq in Hc by done. injection Hc as Hc. rewrite <- Hc.
    split; [apply tight_fresh|done].
  - inversion Hr as [| |Hn Hf]; subst. split; [done|]. intros i c Hc.
    rewrite arq_find_None in Hn, Hf. split; [by eapply Hn|by eapply Hf].
Qed.

Lemma arq_get_or_create_correct_witness :
  wp (@arq_get_or_create (sim false) zero_manager 17) (fun r _ => mgr_wf (snd r)) sim_boot.
Proof.
  eapply wp_mono; [apply (@arq_get_or_create_correct (sim false) (sim_spec false) zero_manager 17)|].
  - apply zero_manager_wf.
  - done.
  - intros r w' (_ & Hm & _). exact Hm.
Defined.

(** C39 A context with QPN 0 counts as free even
    when packets of QPN 0 were put into its window: opening a context for
    another QPN clears it, and the references its window held are forgotten
    without being released. *)
Theorem qpn_zero_window_is_overwritten `{DpdkSpec} mgr i c qpn w :
  a_global_lock mgr = 0 -> arq_find mgr 0 = Some i -> contexts mgr !! i = Some c ->
  arq_find mgr qpn = None ->
  wp (arq_get_or_create mgr qpn) (fun r w' =>
    w' = w /\ fst r = Some i /\ contexts (snd r) !! i = Some (fresh_context qpn) /\
    forall j, mgr_refs (contexts (snd r)) j = mgr_refs (contexts mgr) j - win_refs (send_window c) j) w.
Proof.
  intros Hl Hz Hc Hn. eapply wp_mono; [by apply arq_get_or_create_spec|]. intros [r mgr'] w' [-> Hr].
  cbn [fst snd] in *. inversion Hr as [? Hf|i' ? Hf|]; subst; [congruence| |congruence].
  assert (i' = i) as -> by congruence. cbn [contexts].
  split; [done|]. split; [done|]. split; [apply list_lookup_insert_eq; by eapply lookup_lt_Some|].
  intros j. rewrite (mgr_refs_insert _ _ _ _ j Hc). cbn [send_window fresh_context set_a_qpn zero_context].
  rewrite win_refs_zero. lia.
Qed.

(** The context a packet of QPN 0 was put into. *)
Definition zero_flow_context : arq_context :=
  ArqContext 0 (<[0%nat := ArqEntry 5 (Some 1%nat) 1000 0 4 1]> (send_window zero_context)) 0 1 1 0 1 0 0 0 7.
Definition zero_flow_manager : arq_manager := ArqManager [zero_flow_context; zero_context] 0.

Lemma qpn_zero_window_is_overwritten_witness :
  win_refs (send_window zero_flow_context) 1%nat = 1 /\
  wp (@arq_get_or_create (sim false) zero_flow_manager 17)
     (fun r _ => mgr_refs (contexts (snd r)) 1%nat = 0) sim_boot.
Proof.
  split; [by vm_compute|]. eapply wp_mono.
  - apply (@qpn_zero_window_is_overwritten (sim false) (sim_spec false) zero_flow_manager 0%nat zero_flow_context 17);
      [done|by vm_compute|done|by vm_compute].
  - intros r w' (_ & _ & _ & Hr). rewrite Hr. by vm_compute.
Defined.

(** The state of a window after [send_next] has wrapped, and before
    [budget] more sends bring it past [send_base] again. *)
Record wrapped (budget : Z) (a : arq_context) : Prop := Wrapped {
  wr_wf : arq_wf a;
  wr_lock : a_lock a = 0;
  wr_next : 0 <= send_next a /\ send_next a + budget <= send_base a }.

(** The packets in flight in [a] are where they were in [a']. *)
Definition retains (a a' : arq_context) : Prop :=
  forall k, in_flight (entry_at a k) <> 0 -> entry_at a' k = entry_at a k.

Lemma retains_trans a b c : retains a b -> retains b c -> retains a c.
Proof. intros Hab Hbc k Hk. pose proof (Hab k Hk) as He. rewrite <- He. apply Hbc. by rewrite He. Qed.

Section Wrap.
Context `{DpdkSpec}.

(** A send only writes a slot that is free. *)
Lemma arq_send_retains a m p seg (Q : Z * arq_context -> world -> Prop) w :
  arq_wf a -> a_lock a = 0 ->
  (in_flight (entry_at a (send_next a)) <> 0 -> Q (-1, a) w) ->
  (in_flight (entry_at a (send_next a)) = 0 -> forall t a',
     arq_wf a' -> a_lock a' = 0 -> retains a a' -> send_base a' = send_base a ->
     send_next a' = u32 (send_next a + 1) -> entry_at a' (send_next a) = ArqEntry p (Some m) t 0 seg 1 ->
     Q (0, a') (log_event (EvRdtsc t) w)) ->
  wp (arq_send_pkt a (Some m) p seg) Q w.
Proof.
  intros Ha Hl Hfull Hfree. unfold arq_send_pkt. rewrite Hl. wp_auto. rewrite lock_release.
  destruct (Z.eqb_spec (in_flight (entry_at a (send_next a))) 0) as [Hz|Hz]; cbn [negb]; wp_auto.
  - destruct (Ha) as (Hlen & Hok & Hub & Hun). apply Hfree; [exact Hz|..]; try done.
    + split; cbn; [by rewrite length_insert|]. split; [apply Forall_insert; [done|right; cbn; eauto]|].
      split; [done|apply u32_range].
    + intros k Hk. eapply entry_at_insert_ne; [reflexivity|]. intros Hs. apply Hk.
      unfold entry_at in *. by rewrite Hs.
    + by eapply entry_at_insert_same.
  - replace (set_a_lock 0 a) with a; [by apply Hfull|]. destruct a. cbn in *. by subst.
Qed.

(** Nothing an acknowledgement could reach. *)
Lemma wrapped_step port budget a o (Q : Z * arq_context -> world -> Prop) w :
  wrapped budget a -> 0 <= op_sends o <= budget ->
  (forall z a' w', wrapped (budget - op_sends o) a' -> retains a a' -> io_log (w_trace w') = io_log (w_trace w) ->
     Q (z, a') w') ->
  wp (arq_step port a o) Q w.
Proof.
  intros [Ha Hl [Hz Hn]] Hb HQ.
  assert (Hsame : forall z, Q (z, a) w) by (intros z; apply HQ; [split; [done|done|lia]|by intros k _|done]).
  assert (Hid : set_a_lock 0 (set_a_lock 1 a) = a) by (destruct a; cbn in *; by subst).
  destruct o as [m p seg|p|p]; cbn [arq_step op_sends] in *.
  - apply arq_send_retains; [done|done|intros _; apply Hsame|].
    intros _ t a' Ha' Hl' Hr Hbase Hnext _. apply HQ; [|done|done]. split; [done|done|].
    destruct Ha as (_ & _ & Hub & _). unfold is_u32 in Hub.
    rewrite Hnext, Hbase, u32_small by (unfold is_u32; lia). lia.
  - unfold arq_handle_ack. rewrite Hl. wp_auto. replace (Z.to_nat (send_next a - send_base a)) with O by lia.
    cbn [ack_loop]. wp_auto. rewrite lock_release.
    rewrite Hid. apply Hsame.
  - unfold arq_handle_nack. rewrite Hl. wp_auto. replace (Z.to_nat (send_next a - send_base a)) with O by lia.
    cbn [nack_scan]. wp_auto. cbn [foldM]. wp_auto. rewrite lock_release, Hid. apply Hsame.
Qed.

Lemma wrapped_run port ops budget a (Q : list Z * arq_context -> world -> Prop) w :
  wrapped budget a -> sumZ op_sends ops <= budget ->
  (forall zs a' w', wrapped 0 a' -> retains a a' -> io_log (w_trace w') = io_log (w_trace w) -> Q (zs, a') w') ->
  wp (arq_run port ops a) Q w.
Proof.
  revert budget a Q w. induction ops as [|o ops IH]; intros budget a Q w Hw Hb HQ; cbn [arq_run].
  - apply wp_ret, HQ; [|by intros k _|done]. destruct Hw as [Ha Hl Hn]. cbn [sumZ] in Hb. split; [done|done|lia].
  - cbn [sumZ] in Hb. assert (0 <= op_sends o) by by destruct o.
    assert (0 <= sumZ op_sends ops) by (apply sumZ_nonneg; intros []; cbn; lia).
    apply wp_bind. eapply wrapped_step; [exact Hw|lia|]. intros z a1 w1 Hw1 Hr1 Hio1. apply wp_bind.
    eapply IH; [exact Hw1|lia|]. intros zs a2 w2 Hw2 Hr2 Hio2. apply wp_ret, HQ; [done| |congruence].
    by eapply retains_trans.
Qed.

Lemma wrapped_timer port a (Q : arq_context -> world -> Prop) w :
  wrapped 0 a -> (forall t, Q a (log_event (EvRdtsc t) w)) -> wp (arq_check_timeouts a port) Q w.
Proof.
  intros [Ha Hl [_ Hn]] HQ. unfold arq_check_timeouts. rewrite Hl. wp_auto.
  replace (seqZ (send_base a) (send_next a - send_base a)) with (@nil Z)
    by (unfold seqZ; by replace (Z.to_nat (send_next a - send_base a)) with O by lia).
  cbn [foldM]. wp_auto. rewrite lock_release.
  replace (set_a_lock 0 (set_a_lock 1 a)) with a by (destruct a; cbn in *; by subst). apply HQ.
Qed.

End Wrap.

(** C38 When a send takes [send_next] past 2^32, to 0, the loop tests
    [send_base < send_next] and [i < send_next] fail: whatever was in flight,
    the packet just sent included, stays in the window under any sequence of
    acknowledgements, negative acknowledgements and further sends (up to
    [send_base] of them) and a look of the timer; nothing is released and
    nothing is resent. *)
Theorem sequence_wrap_stops_acks `{DpdkSpec} port a m p seg ops w :
  arq_wf a -> a_lock a = 0 -> send_next a = 2 ^ 32 - 1 -> in_flight (entry_at a (2 ^ 32 - 1)) = 0 ->
  sumZ op_sends ops <= send_base a ->
  wp ('(_, a) ← arq_send_pkt a (Some m) p seg;
      '(_, a) ← arq_run port ops a;
      arq_check_timeouts a port) (fun a' w' =>
    (exists t, entry_at a' (2 ^ 32 - 1) = ArqEntry p (Some m) t 0 seg 1) /\ retains a a' /\
    io_log (w_trace w') = io_log (w_trace w)) w.
Proof.
  intros Ha Hl Hn Hf Hb. apply wp_bind, arq_send_retains; [done|done|by rewrite Hn|].
  intros _ t a1 Ha1 Hl1 Hr1 Hbase Hnext Hnew. rewrite Hn in Hnext, Hnew. change (u32 (2 ^ 32 - 1 + 1)) with 0 in Hnext.
  apply wp_bind. eapply (wrapped_run port ops (send_base a)); [split; [done|done|rewrite Hnext, Hbase; lia]|exact Hb|].
  intros zs a2 w2 Hw2 Hr2 Hio. apply wrapped_timer; [done|]. intros t2. split; [|split; [by eapply retains_trans|exact Hio]].
  exists t. rewrite <- Hnew. apply Hr2. by rewrite Hnew.
Qed.

(** Two packets in flight when a third takes the counter past 2^32; then all
    three are acknowledged twice, and one more is sent. *)
Definition wrapping_context : arq_context :=
  ArqContext 17 (<[253%nat := ArqEntry 5 (Some 1%nat) 1000 0 1 1]> (<[254%nat := ArqEntry 6 (Some 2%nat) 1000 0 2 1]>
    (send_window zero_context))) (2 ^ 32 - 3) (2 ^ 32 - 1) 2 0 2 0 0 0 0.

Lemma sequence_wrap_stops_acks_witness :
  wp ('(_, a) ← @arq_send_pkt (sim false) wrapping_context (Some 3%nat) 7 2;
      '(_, a) ← @arq_run (sim false) 1 [OpAck 7; OpSend 1 8 3; OpNack 5; OpAck 8] a;
      @arq_check_timeouts (sim false) a 1)
     (fun a' w' => e_mbuf (entry_at a' (2 ^ 32 - 3)) = Some 1%nat /\ e_mbuf (entry_at a' (2 ^ 32 - 2)) = Some 2%nat /\
        e_mbuf (entry_at a' (2 ^ 32 - 1)) = Some 3%nat /\ io_log (w_trace w') = []) (sim_world [[]; []; []]).
Proof.
  eapply wp_mono.
  - apply (@sequence_wrap_stops_acks (sim false) (sim_spec false) 1 wrapping_context 3 7 2 [OpAck 7; OpSend 1 8 3; OpNack 5; OpAck 8]);
      [|done|done|by vm_compute|by vm_compute].
    split; [by vm_compute|]. split; [|cbn; unfold is_u32; lia].
    apply Forall_insert; [apply Forall_insert; [apply Forall_replicate, zero_entry_ok|]|]; right; cbn; eauto.
  - intros a' w' ([t He] & Hr & Hio). rewrite He, (Hr (2 ^ 32 - 3)), (Hr (2 ^ 32 - 2)), Hio by by vm_compute. by vm_compute.
Defined.

(** C29 The loops of [arq_handle_ack] and
    [arq_handle_nack] end: with the [send_next - send_base] rounds the model
    gives them they return, and any further rounds change nothing. *)
Theorem arq_loops_have_enough_fuel `{Dpdk} n p a w :
  arq_wf a -> (Z.to_nat (send_next a - send_base a) <= n)%nat ->
  let rounds := Z.to_nat (send_next a - send_base a) in
  ack_loop n p a w = ack_loop rounds p a w /\ (exists a' w', ack_loop rounds p a w = Ret a' w') /\
  nack_scan n (send_base a) p [] a w = nack_scan rounds (send_base a) p [] a w /\
  (exists r w', nack_scan rounds (send_base a) p [] a w = Ret r w').
Proof.
  intros Ha Hn. cbv zeta. replace n with (Z.to_nat (send_next a - send_base a) + (n - Z.to_nat (send_next a - send_base a)))%nat by lia.
  destruct (ack_loop_fuel (Z.to_nat (send_next a - send_base a)) (n - Z.to_nat (send_next a - send_base a)) p a w Ha) as [H1 H2]; [lia|].
  destruct (nack_scan_fuel (Z.to_nat (send_next a - send_base a)) (n - Z.to_nat (send_next a - send_base a))
              (send_base a) p [] a w) as [H3 H4]; [lia|]. done.
Qed.

(** Two packets in flight, the first of them acknowledged: one round is used,
    two are enough, a thousand give the same. *)
Definition two_in_flight : arq_context :=
  ArqContext 17 (<[0%nat := ArqEntry 5 (Some 1%nat) 1000 0 1 1]> (<[1%nat := ArqEntry 6 (Some 2%nat) 1000 0 2 1]>
    (send_window zero_context))) 0 2 2 0 2 0 0 0 0.

Lemma arq_loops_have_enough_fuel_witness :
  ack_loop 1000 5 two_in_flight (sim_world [[]; []]) = ack_loop 2 5 two_in_flight (sim_world [[]; []]) /\
  @nack_scan (sim false) 1000 0 6 [] two_in_flight (sim_world [[]; []]) =
  @nack_scan (sim false) 2 0 6 [] two_in_flight (sim_world [[]; []]) /\
  match ack_loop 2 5 two_in_flight (sim_world [[]; []]) with
  | Ret a w => arq_queue a = [(6, Some 2%nat)] /\ io_log (w_trace w) = [Released 1]
  | _ => False
  end.
Proof.
  assert (Ha : arq_wf two_in_flight).
  { split; [by vm_compute|]. split; [|cbn; unfold is_u32; lia].
    apply Forall_insert; [apply Forall_insert; [apply Forall_replicate, zero_entry_ok|]|]; right; cbn; eauto. }
  assert (Hn : (Z.to_nat (send_next two_in_flight - send_base two_in_flight) <= 1000)%nat) by (cbn [two_in_flight send_next send_base]; lia).
  split; [apply (@arq_loops_have_enough_fuel (sim false) 1000 5 two_in_flight (sim_world [[]; []]) Ha Hn)|].
  split; [apply (@arq_loops_have_enough_fuel (sim false) 1000 6 two_in_flight (sim_world [[]; []]) Ha Hn)|].
  by vm_compute.
Defined.
