(* ===== verification/ArqManager.v ===== *)
(** * The ARQ manager as a table of bounded queues

    arq.c's manager is an array of 1024 contexts in which a context is found
    by scanning for its QPN, and QPN 0 marks a free slot.  Its contract is a
    finite map from QPNs to bounded queues: [flows] reads the map off the
    array, [flows_step] is the contract of one call, and a sequence of calls
    on any mix of flows behaves as the map does. *)

From S2P Require Import Prelude Crc32 PeerManager Env Sim RoceDefs Arq ArqWindow.

(** ** The table *)

(** The queues of the contexts in use, by QPN. *)
Definition flow_list (mgr : arq_manager) : list (Z * queue) :=
  (fun c => (a_qpn c, arq_queue c)) <$> filter (fun c => a_qpn c <> 0) (contexts mgr).
Definition flows (mgr : arq_manager) : gmap Z queue := list_to_map (flow_list mgr).

(** A send opens the queue of its QPN, if there is room for one more; an
    acknowledgement of either kind only works on a queue that exists. *)
Definition flow_target (σ : gmap Z queue) (qpn : Z) (o : op) : option queue :=
  match σ !! qpn, o with
  | Some q, _ => Some q
  | None, OpSend _ _ _ => if MAX_QP_CTX <=? Z.of_nat (size σ) then None else Some []
  | None, _ => None
  end.

Definition flows_step (port : Z) (σ : gmap Z queue) (x : Z * op) : option Z * gmap Z queue * list io :=
  match flow_target σ (fst x) (snd x) with
  | Some q => let '(z, q, es) := q_step port q (snd x) in (Some z, <[fst x := q]> σ, es)
  | None => (None, σ, [])
  end.

Fixpoint flows_run (port : Z) (xs : list (Z * op)) (σ : gmap Z queue) : list (option Z) * gmap Z queue * list io :=
  match xs with
  | [] => ([], σ, [])
  | x :: xs =>
      let '(z, σ, e) := flows_step port σ x in
      let '(zs, σ, es) := flows_run port xs σ in (z :: zs, σ, e ++ es)
  end.

(** ** The program *)

(** One use of the manager: [arq_get_or_create] and [arq_send_pkt], or
    [arq_lookup] and a handler; [None] when there is no context. *)
Definition mgr_step `{Dpdk} (port : Z) (mgr : arq_manager) (x : Z * op) : M (option Z * arq_manager) :=
  '(r, mgr) ← match snd x with
              | OpSend _ _ _ => arq_get_or_create mgr (fst x)
              | _ => arq_lookup mgr (fst x)
              end;
  match r with
  | None => mret (None, mgr)
  | Some i =>
      '(z, c) ← arq_step port (nth i (contexts mgr) zero_context) (snd x);
      mret (Some z, ArqManager (<[i := c]> (contexts mgr)) (a_global_lock mgr))
  end.

Fixpoint mgr_run `{Dpdk} (port : Z) (xs : list (Z * op)) (mgr : arq_manager) : M (list (option Z) * arq_manager) :=
  match xs with
  | [] => mret ([], mgr)
  | x :: xs =>
      '(z, mgr) ← mgr_step port mgr x;
      '(zs, mgr) ← mgr_run port xs mgr;
      mret (z :: zs, mgr)
  end.

(** The unacknowledged packets of a QPN. *)
Definition flow_queue (mgr : arq_manager) (qpn : Z) : queue :=
  match arq_find mgr qpn with
  | Some i => arq_queue (nth i (contexts mgr) zero_context)
  | None => []
  end.

(** The operations of one flow. *)
Definition ops_of (qpn : Z) (xs : list (Z * op)) : list op :=
  omap (fun x => if fst x =? qpn then Some (snd x) else None) xs.

(** ** Reading the table off the array *)

Lemma flow_list_keys mgr : (flow_list mgr).*1 = a_qpn <$> filter (fun c => a_qpn c <> 0) (contexts mgr).
Proof. unfold flow_list. by rewrite <- list_fmap_compose. Qed.

Lemma filter_keys_NoDup (cs : list arq_context) :
  (forall i j c d, cs !! i = Some c -> cs !! j = Some d -> a_qpn c = a_qpn d -> a_qpn c <> 0 -> i = j) ->
  base.NoDup (a_qpn <$> filter (fun c => a_qpn c <> 0) cs).
Proof.
  induction cs as [|c cs IH]; intros Hu; [apply base.NoDup_nil_2|].
  rewrite filter_cons. destruct (decide _) as [Hc|Hc].
  - rewrite fmap_cons. apply base.NoDup_cons_2.
    + rewrite list_elem_of_fmap. intros (d & Heq & [Hd Hin]%list_elem_of_filter).
      apply list_elem_of_lookup in Hin as [j Hj].
      by specialize (Hu 0%nat (S j) c d eq_refl Hj Heq Hc).
    + apply IH. intros i j d e Hd He Hde Hd0. by specialize (Hu (S i) (S j) d e Hd He Hde Hd0) as [= ->].
  - apply IH. intros i j d e Hd He Hde Hd0. by specialize (Hu (S i) (S j) d e Hd He Hde Hd0) as [= ->].
Qed.

Lemma flow_list_NoDup mgr : mgr_wf mgr -> base.NoDup (flow_list mgr).*1.
Proof. intros Hm. rewrite flow_list_keys. apply filter_keys_NoDup, Hm. Qed.

Lemma flows_lookup mgr q qu :
  mgr_wf mgr ->
  flows mgr !! q = Some qu <-> q <> 0 /\ exists i c, contexts mgr !! i = Some c /\ a_qpn c = q /\ arq_queue c = qu.
Proof.
  intros Hm. unfold flows. rewrite <- (elem_of_list_to_map (M:=gmap Z)) by by apply flow_list_NoDup.
  unfold flow_list. rewrite list_elem_of_fmap. split.
  - intros (c & [= -> ->] & [Hc Hin]%list_elem_of_filter). apply list_elem_of_lookup in Hin as [i Hi]. split; [exact Hc|]. by exists i, c.
  - intros (Hq & i & c & Hi & <- & <-). exists c. split; [done|]. apply list_elem_of_filter.
    split; [done|]. by eapply list_elem_of_lookup_2.
Qed.

(** A QPN has an entry exactly when the scan finds its context. *)
Lemma flows_find mgr q :
  mgr_wf mgr -> q <> 0 ->
  flows mgr !! q = (fun i => arq_queue (nth i (contexts mgr) zero_context)) <$> arq_find mgr q.
Proof.
  intros Hm Hq. destruct (arq_find mgr q) as [i|] eqn:Hf; cbn.
  - apply arq_find_Some in Hf as [(c & Hc & Hcq) _]. apply flows_lookup; [done|]. split; [done|].
    exists i, c. by rewrite nth_lookup, Hc.
  - destruct (flows mgr !! q) as [qu|] eqn:E; [|done]. apply flows_lookup in E as (_ & i & c & Hc & Hcq & _); [|done].
    rewrite arq_find_None in Hf. by destruct (Hf i c Hc).
Qed.

Lemma filter_all (cs : list arq_context) :
  (forall c, c ∈ cs -> a_qpn c <> 0) -> filter (fun c => a_qpn c <> 0) cs = cs.
Proof.
  induction cs as [|c cs IH]; intros Hall; [done|].
  rewrite filter_cons_True by (apply Hall; by left). f_equal. apply IH. intros d Hd. apply Hall. by right.
Qed.

(** The array is full exactly when the table has 1024 entries. *)
Lemma flows_full mgr :
  mgr_wf mgr -> (MAX_QP_CTX <=? Z.of_nat (size (flows mgr))) = true <-> arq_find mgr 0 = None.
Proof.
  intros Hm. unfold flows. rewrite (map_size_list_to_map (M:=gmap Z)) by by apply flow_list_NoDup.
  unfold flow_list. rewrite length_fmap, Z.leb_le, arq_find_None.
  pose proof (mgr_length mgr Hm) as Hl. unfold MAX_QP_CTX in *.
  pose proof (length_filter (fun c => a_qpn c <> 0) (contexts mgr)) as Hle. split.
  - intros Hge i c Hc H0.
    pose proof (length_filter_lt (fun c => a_qpn c <> 0) (contexts mgr) c
                  (list_elem_of_lookup_2 _ _ _ Hc) (fun Hn => Hn H0)). lia.
  - intros Hall. rewrite filter_all; [lia|].
    intros c [i Hc]%list_elem_of_lookup. by eapply Hall.
Qed.

(** Writing back the context of a flow updates its entry. *)
Lemma flows_put mgr i c c' :
  mgr_wf mgr -> contexts mgr !! i = Some c -> a_qpn c <> 0 -> a_qpn c' = a_qpn c -> arq_wf c' -> a_lock c' = 0 ->
  let mgr' := ArqManager (<[i := c']> (contexts mgr)) (a_global_lock mgr) in
  mgr_wf mgr' /\ flows mgr' = <[a_qpn c := arq_queue c']> (flows mgr).
Proof.
  intros Hm Hc Hq Hq' Hwf Hl mgr'.
  assert (Hm' : mgr_wf mgr') by by eapply mgr_put_wf.
  assert (Hc' : contexts mgr' !! i = Some c') by (apply list_lookup_insert_eq; by eapply lookup_lt_Some).
  split; [done|]. apply map_eq. intros q. apply option_eq. intros qu.
  rewrite lookup_insert_Some, !flows_lookup by done. split.
  - intros (Hq0 & j & d & Hd & Hdq & Hqu). apply list_lookup_insert_Some in Hd as [(-> & <- & _)|[Hne Hd]].
    + left. split; [congruence|done].
    + right. split; [|split; [done|by exists j, d]]. intros Heq. apply Hne.
      eapply (mgr_unique mgr Hm); eauto; congruence.
  - intros [[<- <-]|(Hne & Hq0 & j & d & Hd & Hdq & Hqu)].
    + split; [done|]. by exists i, c'.
    + split; [done|]. exists j, d. split; [|done]. cbn [contexts mgr']. rewrite list_lookup_insert_ne; [done|].
      intros ->. congruence.
Qed.

(** Opening a context adds an empty queue. *)
Lemma flows_open mgr qpn i :
  mgr_wf mgr -> qpn <> 0 -> arq_find mgr qpn = None -> arq_find mgr 0 = Some i ->
  let mgr' := ArqManager (<[i := fresh_context qpn]> (contexts mgr)) (a_global_lock mgr) in
  mgr_wf mgr' /\ flows mgr' = <[qpn := []]> (flows mgr).
Proof.
  intros Hm Hq Hn Hf mgr'. pose proof (goc_created mgr qpn i Hn Hf) as Hr.
  destruct (get_or_create_wf _ _ _ _ Hm Hq Hr) as (Hm' & _ & _ & _). split; [done|].
  apply arq_find_Some in Hf as [(c & Hc & Hc0) _]. rewrite arq_find_None in Hn.
  assert (Hc' : contexts mgr' !! i = Some (fresh_context qpn)) by (apply list_lookup_insert_eq; by eapply lookup_lt_Some).
  apply map_eq. intros q. apply option_eq. intros qu. rewrite lookup_insert_Some, !flows_lookup by done. split.
  - intros (Hq0 & j & d & Hd & Hdq & Hqu). apply list_lookup_insert_Some in Hd as [(-> & <- & _)|[Hne Hd]].
    + left. split; [exact Hdq|exact Hqu].
    + right. split; [|split; [done|by exists j, d]]. intros <-. by eapply Hn.
  - intros [[<- <-]|(Hne & Hq0 & j & d & Hd & Hdq & Hqu)].
    + split; [done|]. exists i, (fresh_context qpn). split; [exact Hc'|]. done.
    + split; [done|]. exists j, d. split; [|done]. cbn [contexts mgr']. rewrite list_lookup_insert_ne; [done|].
      intros ->. congruence.
Qed.

(** ** Simulation *)

(** A manager the calls may run on: every flow's window is tight and its
    mbufs are live; [n] bounds the packets sent so far. *)
Record mgr_ready (n : Z) (mgr : arq_manager) (w : world) : Prop := MgrReady {
  mr_wf : mgr_wf mgr;
  mr_mem : mgr_in_mem (contexts mgr) (w_mem w);
  mr_tight i c : contexts mgr !! i = Some c -> a_qpn c <> 0 -> tight c /\ send_next c <= n }.

Lemma zero_manager_ready w : mgr_ready 0 zero_manager w.
Proof.
  split; [apply zero_manager_wf| |]; intros i c [-> _]%lookup_replicate; [by apply Forall_replicate|done].
Qed.

Lemma zero_manager_flows : flows zero_manager = ∅.
Proof. by vm_compute. Qed.

Section Simulation.
Context `{DpdkSpec} (port : Z).

(** An operation on the context found for a flow. *)
Lemma flow_step_refines n mgr i c o w :
  mgr_ready n mgr w -> contexts mgr !! i = Some c -> a_qpn c <> 0 -> 0 <= op_sends o -> n + op_sends o < 2 ^ 32 ->
  (forall m, op_mbuf o = Some m -> is_Some (w_mem w !! m)) ->
  wp ('(z, c') ← arq_step port (nth i (contexts mgr) zero_context) o;
      mret (Some z, ArqManager (<[i := c']> (contexts mgr)) (a_global_lock mgr))) (fun r w' =>
    let '(z, q, es) := q_step port (arq_queue c) o in
    fst r = Some z /\ flows (snd r) = <[a_qpn c := q]> (flows mgr) /\ mgr_ready (n + op_sends o) (snd r) w' /\
    same_store w w' /\ io_log (w_trace w') = rev es ++ io_log (w_trace w)) w.
Proof.
  intros [Hm Hmem Ht] Hc Hq Hpos Hn Ho. destruct (Ht i c Hc Hq) as [Htc Hnc]. destruct (mgr_ctx mgr Hm i c Hc) as [_ Hl].
  rewrite nth_lookup, Hc. cbn [default]. apply wp_bind.
  eapply wp_mono; [apply (arq_step_refines port c o w); [split; [done|done|by eapply Hmem]|lia|done]|].
  intros [z c'] w'. destruct (q_step port (arq_queue c) o) as [[z' q] es]. cbn [fst snd].
  intros (-> & <- & [Htc' Hl' Hmem'] & Hq' & Hn' & Hs & Hio). apply wp_ret. cbn [fst snd].
  destruct (flows_put mgr i c c' Hm Hc Hq Hq' (tight_wf _ Htc') Hl') as [Hm1 Hf1].
  split; [done|]. split; [done|]. split; [|done]. split; [done| |]; intros j d; cbn [contexts].
  - rewrite list_lookup_insert_Some. intros [(_ & <- & _)|[_ Hd]]; [done|]. destruct Hs as [_ ->]. by eapply Hmem.
  - rewrite list_lookup_insert_Some. intros [(_ & <- & _)|[_ Hd]]; [intros _; split; [done|lia]|].
    intros Hdq. destruct (Ht j d Hd Hdq). split; [done|lia].
Qed.

Lemma mgr_ready_open n mgr qpn i w :
  mgr_ready n mgr w -> 0 <= n -> qpn <> 0 -> arq_find mgr qpn = None -> arq_find mgr 0 = Some i ->
  mgr_ready n (ArqManager (<[i := fresh_context qpn]> (contexts mgr)) (a_global_lock mgr)) w.
Proof.
  intros [Hm Hmem Ht] Hpos Hq Hn Hf. destruct (flows_open mgr qpn i Hm Hq Hn Hf) as [Hm' _].
  split; [done| |]; intros j d; cbn [contexts]; rewrite list_lookup_insert_Some.
  - intros [(_ & <- & _)|[_ Hd]]; [by apply Forall_replicate|by eapply Hmem].
  - intros [(_ & <- & _)|[_ Hd]] Hdq; [split; [apply tight_fresh|done]|by eapply Ht].
Qed.

(** The context of a QPN that the scan finds. *)
Lemma flow_at mgr qpn i :
  mgr_wf mgr -> qpn <> 0 -> arq_find mgr qpn = Some i ->
  exists c, contexts mgr !! i = Some c /\ a_qpn c = qpn /\ flows mgr !! qpn = Some (arq_queue c).
Proof.
  intros Hm Hq Hf. pose proof (proj1 (arq_find_Some _ _ _) Hf) as [(c & Hc & Hcq) _].
  exists c. split; [done|]. split; [done|]. rewrite flows_find, Hf by done. cbn. by rewrite nth_lookup, Hc.
Qed.

Lemma flow_absent mgr qpn : mgr_wf mgr -> qpn <> 0 -> arq_find mgr qpn = None -> flows mgr !! qpn = None.
Proof. intros Hm Hq Hf. by rewrite flows_find, Hf. Qed.

(** What one use of the manager promises. *)
Definition mgr_step_ok (n : Z) (mgr : arq_manager) (x : Z * op) (w : world)
    (r : option Z * arq_manager) (w' : world) : Prop :=
  let '(z, σ, es) := flows_step port (flows mgr) x in
  fst r = z /\ flows (snd r) = σ /\ mgr_ready (n + op_sends (snd x)) (snd r) w' /\
  same_store w w' /\ io_log (w_trace w') = rev es ++ io_log (w_trace w).

(** Once the context is at hand, whether found or just opened. *)
Lemma mgr_step_found n mgr mgr1 i q qpn o w :
  mgr_ready n mgr1 w -> qpn <> 0 -> 0 <= op_sends o -> n + op_sends o < 2 ^ 32 ->
  (forall m, op_mbuf o = Some m -> is_Some (w_mem w !! m)) ->
  flow_target (flows mgr) qpn o = Some q -> arq_find mgr1 qpn = Some i ->
  flows mgr1 = <[qpn := q]> (flows mgr) ->
  wp ('(z, c) ← arq_step port (nth i (contexts mgr1) zero_context) o;
      mret (Some z, ArqManager (<[i := c]> (contexts mgr1)) (a_global_lock mgr1)))
     (mgr_step_ok n mgr (qpn, o) w) w.
Proof.
  intros Hr Hq Hpos Hn Ho Htarget Hf Hflows.
  destruct (flow_at mgr1 qpn i (mr_wf _ _ _ Hr) Hq Hf) as (c & Hc & Hcq & Hqueue).
  rewrite Hflows, lookup_insert_eq in Hqueue. injection Hqueue as ->.
  eapply wp_mono; [eapply flow_step_refines; [exact Hr|exact Hc|congruence|done..]|].
  intros r w'. unfold mgr_step_ok, flows_step. cbn [fst snd]. rewrite Htarget.
  destruct (q_step port (arq_queue c) o) as [[z q'] es]. rewrite Hflows, Hcq, insert_insert_eq. done.
Qed.

(** And when there is none. *)
Lemma mgr_step_missing n mgr qpn o w :
  mgr_ready n mgr w -> 0 <= op_sends o -> flow_target (flows mgr) qpn o = None ->
  mgr_step_ok n mgr (qpn, o) w (None, mgr) w.
Proof.
  intros [Hm Hmem Ht] Hpos Htarget. unfold mgr_step_ok, flows_step. cbn [fst snd]. rewrite Htarget.
  do 2 (split; [done|]). split; [|done]. split; [done|done|]. intros i c Hc Hq.
  destruct (Ht i c Hc Hq). split; [done|lia].
Qed.

Lemma op_sends_nonneg o : 0 <= op_sends o.
Proof. by destruct o. Qed.

Lemma mgr_step_refines n mgr qpn o w :
  mgr_ready n mgr w -> 0 <= n -> qpn <> 0 -> n + op_sends o < 2 ^ 32 ->
  (forall m, op_mbuf o = Some m -> is_Some (w_mem w !! m)) ->
  wp (mgr_step port mgr (qpn, o)) (mgr_step_ok n mgr (qpn, o) w) w.
Proof.
  intros Hr Hpos Hq Hn Ho. pose proof (op_sends_nonneg o) as Hsends. pose proof (mr_wf _ _ _ Hr) as Hm.
  assert (Hfound : forall i, arq_find mgr qpn = Some i -> exists q,
            flow_target (flows mgr) qpn o = Some q /\ flows mgr = <[qpn := q]> (flows mgr)).
  { intros i Hf. destruct (flow_at mgr qpn i Hm Hq Hf) as (c & _ & _ & Hqueue). exists (arq_queue c).
    unfold flow_target. rewrite Hqueue. split; [done|]. by rewrite insert_id. }
  unfold mgr_step. apply wp_bind. cbn [fst snd].
  assert (Hlookup : op_sends o = 0 -> (forall m p seg, o <> OpSend m p seg) ->
            wp (arq_lookup mgr qpn) (fun r w' => wp (match r with (Some i, mgr1) =>
              '(z, c) ← arq_step port (nth i (contexts mgr1) zero_context) o;
              mret (Some z, ArqManager (<[i := c]> (contexts mgr1)) (a_global_lock mgr1))
            | (None, mgr1) => mret (None, mgr1) end) (mgr_step_ok n mgr (qpn, o) w) w') w).
  { intros _ Hno. apply arq_lookup_rule; [done|]. destruct (arq_find mgr qpn) as [i|] eqn:Hf.
    - destruct (Hfound i eq_refl) as (q & Ht & Hfl). by eapply mgr_step_found.
    - apply wp_ret, mgr_step_missing; [done|done|]. unfold flow_target. rewrite flow_absent by done.
      destruct o; [by edestruct Hno|done|done]. }
  destruct o as [m p seg|p|p]; [|apply Hlookup; done..].
  eapply wp_mono; [apply arq_get_or_create_spec, (mgr_lock _ Hm)|]. intros [r mgr1] w1 [-> Hgoc]. cbn [fst snd] in Hgoc.
  destruct Hgoc as [i Hf|i Hf Hz|Hf Hz].
  - destruct (Hfound i Hf) as (q & Ht & Hfl). by eapply mgr_step_found.
  - destruct (flows_open mgr qpn i Hm Hq Hf Hz) as [Hm1 Hfl]. eapply mgr_step_found; [by apply mgr_ready_open|done..| | |exact Hfl].
    + unfold flow_target. rewrite flow_absent by done. destruct (_ <=? _) eqn:E; [|done].
      apply flows_full in E; [congruence|done].
    + eapply arq_find_unique; [done|done|apply list_lookup_insert_eq|done].
      apply arq_find_Some in Hz as [(c & Hc & _) _]. by eapply lookup_lt_Some.
  - apply wp_ret, mgr_step_missing; [done|done|]. unfold flow_target. rewrite flow_absent by done.
    by rewrite (proj2 (flows_full mgr Hm) Hz).
Qed.

Definition live_op (w : world) (x : Z * op) : Prop :=
  fst x <> 0 /\ forall m, op_mbuf (snd x) = Some m -> is_Some (w_mem w !! m).

Lemma mgr_run_refines xs n mgr w :
  mgr_ready n mgr w -> 0 <= n -> n + sumZ (fun x => op_sends (snd x)) xs < 2 ^ 32 -> Forall (live_op w) xs ->
  wp (mgr_run port xs mgr) (fun r w' =>
    let '(zs, σ, es) := flows_run port xs (flows mgr) in
    fst r = zs /\ flows (snd r) = σ /\ mgr_wf (snd r) /\ same_store w w' /\
    io_log (w_trace w') = rev es ++ io_log (w_trace w)) w.
Proof.
  revert n mgr w. induction xs as [|[q o] xs IH]; intros n mgr w Hr Hpos Hn Hxs; cbn [mgr_run flows_run].
  - apply wp_ret. do 2 (split; [done|]). split; [apply Hr|done].
  - apply Forall_cons_1 in Hxs as [[Hq Ho] Hxs]. cbn [sumZ fst snd] in *. pose proof (op_sends_nonneg o) as Hs0.
    assert (0 <= sumZ (fun x : Z * op => op_sends (snd x)) xs) by (apply sumZ_nonneg; intros; apply op_sends_nonneg).
    apply wp_bind. eapply wp_mono; [apply (mgr_step_refines n); [done..|lia|done]|].
    intros [z mgr1] w1. unfold mgr_step_ok. destruct (flows_step port (flows mgr) (q, o)) as [[z' σ] e1].
    cbn [fst snd]. intros (-> & <- & Hr1 & Hs1 & Hio1). apply wp_bind.
    eapply wp_mono; [apply (IH (n + op_sends o)); [done|lia|lia|]|].
    { unfold live_op. destruct Hs1 as [_ ->]. exact Hxs. }
    intros [zs mgr2] w2. destruct (flows_run port xs (flows mgr1)) as [[zs' σ'] e2]. cbn [fst snd].
    intros (-> & <- & Hm2 & Hs2 & Hio2). apply wp_ret. cbn [fst snd]. do 2 (split; [done|]). split; [done|].
    split; [by transitivity w1|]. by rewrite Hio2, Hio1, rev_app_distr, app_assoc.
Qed.

Lemma arq_mgr_init_zero mgr : arq_mgr_init mgr = zero_manager.
Proof. unfold arq_mgr_init. by rewrite lock_init. Qed.

End Simulation.

(** ** One flow of the table *)

Definition queue_of (σ : gmap Z queue) (q : Z) : queue :=
  match σ !! q with Some qu => qu | None => [] end.

Lemma queue_of_insert σ p q' : queue_of (<[p := q']> σ) p = q'.
Proof. unfold queue_of. by rewrite lookup_insert_eq. Qed.

Lemma queue_of_insert_ne σ p q q' : p <> q -> queue_of (<[p := q']> σ) q = queue_of σ q.
Proof. intros Hne. unfold queue_of. by rewrite lookup_insert_ne. Qed.

Lemma flow_queue_flows mgr q : mgr_wf mgr -> q <> 0 -> flow_queue mgr q = queue_of (flows mgr) q.
Proof. intros Hm Hq. unfold flow_queue, queue_of. rewrite flows_find by done. by destruct (arq_find mgr q). Qed.

(** A step changes the queue of its own flow only, as the queue operation
    says, where the table has room for the flow. *)
Lemma flows_step_queue port (σ : gmap Z queue) x q :
  is_Some (σ !! fst x) \/ Z.of_nat (size σ) < MAX_QP_CTX ->
  let σ' := snd (fst (flows_step port σ x)) in
  queue_of σ' q = (if fst x =? q then snd (fst (q_step port (queue_of σ q) (snd x)))
                          else queue_of σ q) /\
  dom σ' ⊆ {[fst x]} ∪ dom σ.
Proof.
  destruct x as [p o]. unfold flows_step, flow_target. cbn [fst snd]. intros Hroom.
  assert (Hput : forall qu, queue_of σ p = qu ->
            let '(z, q', es) := q_step port qu o in
            queue_of (<[p := q']> σ) q = (if p =? q then snd (fst (q_step port (queue_of σ q) o))
                                            else queue_of σ q) /\
            dom (<[p := q']> σ) ⊆ {[p]} ∪ dom σ).
  { intros qu Hqu. destruct (q_step port qu o) as [[z q'] es] eqn:E. rewrite dom_insert_L. split; [|done].
    destruct (Z.eqb_spec p q) as [<-|Hne]; [by rewrite queue_of_insert, Hqu, E|by rewrite queue_of_insert_ne]. }
  destruct (σ !! p) as [qu|] eqn:Ep.
  - assert (Hp : queue_of σ p = qu) by (unfold queue_of; by rewrite Ep). specialize (Hput qu Hp). by destruct (q_step port qu o) as [[z q'] es].
  - destruct Hroom as [[? [=]]|Hroom]. assert (Hp : queue_of σ p = []) by (unfold queue_of; by rewrite Ep). specialize (Hput [] Hp).
    assert (Hsame : queue_of σ q = (if p =? q then [] else queue_of σ q)).
    { destruct (Z.eqb_spec p q) as [<-|]; [done|done]. }
    assert (Hidle : queue_of σ q = (if p =? q then [] else queue_of σ q) /\ dom σ ⊆ {[p]} ∪ dom σ).
    { split; [done|]. apply union_subseteq_r. }
    destruct o as [m s seg|s|s]; cbn [fst snd].
    + rewrite (proj2 (Z.leb_gt _ _)) by done. by destruct (q_step port [] _) as [[z q'] es].
    + destruct (p =? q) eqn:E; [|exact Hidle]. apply Z.eqb_eq in E as <-. rewrite Hp. apply (conj eq_refl), Hidle.
    + destruct (p =? q) eqn:E; [|exact Hidle]. apply Z.eqb_eq in E as <-. rewrite Hp. apply (conj eq_refl), Hidle.
Qed.

Lemma flows_run_queue port q xs σ (S : gset Z) :
  dom σ ⊆ S -> Forall (fun x => fst x ∈ S) xs -> Z.of_nat (size S) <= MAX_QP_CTX ->
  queue_of (snd (fst (flows_run port xs σ))) q =
  snd (fst (q_run port (ops_of q xs) (queue_of σ q))).
Proof.
  intros Hdom Hxs Hsize. revert σ Hdom. induction xs as [|x xs IH]; intros σ Hdom; [done|].
  apply Forall_cons_1 in Hxs as [Hx Hxs]. cbn [flows_run].
  assert (Hroom : is_Some (σ !! fst x) \/ Z.of_nat (size σ) < MAX_QP_CTX).
  { destruct (decide (fst x ∈ dom σ)) as [Hin|Hout]; [left; by apply elem_of_dom|right].
    rewrite <- size_dom. pose proof (subset_size (dom σ) S) as Hlt.
    assert (dom σ ⊂ S) as Hsub by set_solver. specialize (Hlt Hsub). lia. }
  destruct (flows_step_queue port σ x q Hroom) as [Hstep Hd]. revert Hstep Hd.
  destruct (flows_step port σ x) as [[z σ1] e1]. cbn [fst snd]. intros Hstep Hd.
  assert (Hdom1 : dom σ1 ⊆ S) by (etrans; [exact Hd|]; apply union_least; [by apply singleton_subseteq_l|done]).
  specialize (IH Hxs σ1 Hdom1). destruct (flows_run port xs σ1) as [[zs σ2] es]. cbn [fst snd] in *.
  rewrite IH, Hstep. unfold ops_of. cbn [omap list_omap]. destruct (fst x =? q); [|done]. cbn [q_run].
  destruct (q_step port (queue_of σ q) (snd x)) as [[z' q1] e']. cbn [fst snd].
  destruct (q_run port _ q1) as [[? ?] ?]. done.
Qed.

(** ** Properties *)

(** C4 The ARQ manager is a table of at most 1024 bounded queues: any
    sequence of sends, ACKs and NACKs for any mix of nonzero QPNs, from
    [arq_mgr_init] on, gives the results, the queues, the releases and the
    retransmissions that the table gives.  A call answers that there is no
    context exactly when the table has no queue of the QPN and, for a send,
    no room for another. *)
Theorem arq_manager_refines_table `{DpdkSpec} port xs mgr w :
  sumZ (fun x => op_sends (snd x)) xs < 2 ^ 32 -> Forall (live_op w) xs ->
  wp (mgr_run port xs (arq_mgr_init mgr)) (fun r w' =>
    let '(zs, σ, es) := flows_run port xs ∅ in
    fst r = zs /\ flows (snd r) = σ /\ mgr_wf (snd r) /\ same_store w w' /\
    io_log (w_trace w') = rev es ++ io_log (w_trace w)) w.
Proof.
  intros Hn Hxs. rewrite arq_mgr_init_zero, <- zero_manager_flows.
  apply (mgr_run_refines port xs 0); [apply zero_manager_ready|done|exact Hn|exact Hxs].
Qed.

(** Two flows in turn, and an acknowledgement for a third that has none. *)
Definition two_flows : list (Z * op) :=
  [(17, OpSend 1 5 1); (34, OpSend 2 5 1); (17, OpSend 3 6 2); (51, OpAck 9); (34, OpNack 5); (17, OpAck 5)].

Lemma two_flows_live : Forall (live_op (sim_world [[]; []; []])) two_flows.
Proof.
  unfold two_flows. repeat (apply Forall_cons_2; [split; [done|intros m [= <-] || intros m [=]; by eexists]|]).
  by apply Forall_nil_2.
Qed.

Lemma arq_manager_refines_table_witness :
  wp (@mgr_run (sim false) 1 two_flows (@arq_mgr_init (sim false) zero_manager)) (fun r w' =>
    fst r = [Some 0; Some 0; Some 0; None; Some 1; Some 0] /\
    flows (snd r) !! 17 = Some [(6, Some 3%nat)] /\ flows (snd r) !! 34 = Some [(5, Some 2%nat)] /\
    io_log (w_trace w') = [Released 1; Sent 1 2]) (sim_world [[]; []; []]).
Proof.
  eapply wp_mono.
  - apply (@arq_manager_refines_table (sim false) (sim_spec false) 1 two_flows zero_manager); [by vm_compute|].
    apply two_flows_live.
  - assert (flows_run 1 two_flows ∅ = ([Some 0; Some 0; Some 0; None; Some 1; Some 0],
              <[17 := [(6, Some 3%nat)]]> {[34 := [(5, Some 2%nat)]]}, [Sent 1 2; Released 1])) as ->
      by by vm_compute.
    intros r w' (Hz & Hf & _ & _ & Hio). rewrite Hf, Hio. done.
Defined.

(** C18 Flows do not interfere: while at most 1024 QPNs are in use, the
    window of each holds exactly what its own operations, run alone on one
    bounded queue, would leave, however the operations of the other flows are
    interleaved with them. *)
Theorem arq_flows_do_not_interfere `{DpdkSpec} port xs mgr q w :
  sumZ (fun x => op_sends (snd x)) xs < 2 ^ 32 -> Forall (live_op w) xs ->
  Z.of_nat (size (list_to_set (fst <$> xs) : gset Z)) <= MAX_QP_CTX -> q <> 0 ->
  wp (mgr_run port xs (arq_mgr_init mgr)) (fun r _ =>
    flow_queue (snd r) q = snd (fst (q_run port (ops_of q xs) []))) w.
Proof.
  intros Hn Hxs Hsize Hq. rewrite arq_mgr_init_zero.
  eapply wp_mono; [apply (mgr_run_refines port xs 0); [apply zero_manager_ready|done|exact Hn|exact Hxs]|].
  intros r w'. pose proof (flows_run_queue port q xs (flows zero_manager) (list_to_set (fst <$> xs))) as Hrun.
  destruct (flows_run port xs (flows zero_manager)) as [[zs σ] es]. cbn [fst snd] in Hrun.
  intros (_ & Hf & Hm & _). rewrite flow_queue_flows, Hf, Hrun; [|done| |exact Hsize|done|done].
  - by rewrite zero_manager_flows.
  - apply list.Forall_forall. intros x Hx. apply elem_of_list_to_set, list_elem_of_fmap. by exists x.
Qed.

Lemma arq_flows_do_not_interfere_witness :
  wp (@mgr_run (sim false) 1 two_flows (@arq_mgr_init (sim false) zero_manager)) (fun r _ =>
    flow_queue (snd r) 17 = [(6, Some 3%nat)]) (sim_world [[]; []; []]).
Proof.
  eapply wp_mono.
  - apply (@arq_flows_do_not_interfere (sim false) (sim_spec false) 1 two_flows zero_manager 17);
      [by vm_compute|apply two_flows_live|by vm_compute|done].
  - intros r w' Hr. rewrite Hr. by vm_compute.
Defined.
