(* ===== verification/ArqTimeout.v ===== *)
(** * The ARQ timer

    What [arq_check_timeouts] does to every packet of a window, and what it
    does to the window's bookkeeping: a dropped entry frees its slot without
    moving [send_base]. *)

From S2P Require Import Prelude Crc32 PeerManager Env Sim RoceDefs Arq ArqWindow.

(** ** Specification *)

Definition overdue (now cycles : Z) (e : arq_send_entry) : bool :=
  negb (in_flight e =? 0) && (cycles <? u64 (now - send_time e)).

(** An overdue packet is resent at most [MAX_RETRY_COUNT] times, then given up. *)
Definition expire (now cycles : Z) (e : arq_send_entry) : arq_send_entry :=
  if overdue now cycles e then
    if retry_count e <? MAX_RETRY_COUNT
    then ArqEntry (psn e) (e_mbuf e) now (u8 (retry_count e + 1)) (segment_type e) (in_flight e)
    else ArqEntry (psn e) None (send_time e) (retry_count e) (segment_type e) 0
  else e.

Definition expire_io (port now cycles : Z) (e : arq_send_entry) : list io :=
  if overdue now cycles e then
    match e_mbuf e with
    | Some m => [if retry_count e <? MAX_RETRY_COUNT then Sent port m else Released m]
    | None => []
    end
  else [].

Lemma expire_ok now cycles e : entry_ok e -> entry_ok (expire now cycles e).
Proof.
  intros He. unfold expire. destruct (overdue _ _ _); [|done]. destruct (_ <? _); [|by left].
  destruct He as [[Hf Hm]|[Hf Hm]]; [by left|by right].
Qed.

(** ** Refinement *)

Section Timer.
Context `{DpdkSpec}.

Lemma timeout_entry_exact port now cycles a i w :
  arq_wf a -> win_in_mem (send_window a) (w_mem w) ->
  wp (timeout_entry port now cycles a i) (fun a' w' =>
    send_window a' = <[slot i := expire now cycles (entry_at a i)]> (send_window a) /\
    send_base a' = send_base a /\ send_next a' = send_next a /\ a_lock a' = a_lock a /\ same_store w w' /\
    io_log (w_trace w') = rev (expire_io port now cycles (entry_at a i)) ++ io_log (w_trace w)) w.
Proof.
  intros Ha Hw. unfold timeout_entry, expire, expire_io, overdue.
  assert (Hid : <[slot i := entry_at a i]> (send_window a) = send_window a)
    by (apply list_insert_id; by apply entry_at_lookup).
  destruct (Z.eqb_spec (in_flight (entry_at a i)) 0) as [Hz|Hz]; cbn [negb andb]; [by wp_auto; rewrite Hid|].
  destruct (cycles <? _); [|by wp_auto; rewrite Hid].
  destruct (entry_at_ok a i Ha) as [[? _]|[_ [m Hm]]]; [done|].
  destruct (retry_count _ <? _); wp_auto; rewrite Hm.
  - pose proof (win_in_mem_at a i (w_mem w) m Ha Hw Hm) as [b Hb]. unfold resend. wp_auto.
    eapply wp_tx; [exact Hb|]. intros sent _. by destruct sent; cbn [Z.eqb]; wp_auto.
  - wp_auto. done.
Qed.

(** The loop, over at most one turn of the window. *)
Lemma timeout_loop port now cycles l a w :
  arq_wf a -> win_in_mem (send_window a) (w_mem w) -> NoDup (slot <$> l) ->
  wp (foldM (timeout_entry port now cycles) l a) (fun a' w' =>
    send_base a' = send_base a /\ send_next a' = send_next a /\ a_lock a' = a_lock a /\ same_store w w' /\
    (forall k, k ∈ l -> entry_at a' k = expire now cycles (entry_at a k)) /\
    (forall k, slot k ∉ slot <$> l -> entry_at a' k = entry_at a k) /\
    io_log (w_trace w') = rev (mjoin ((fun k => expire_io port now cycles (entry_at a k)) <$> l))
                          ++ io_log (w_trace w)) w.
Proof.
  revert a w. induction l as [|i l IH]; intros a w Ha Hw Hnd; cbn [foldM].
  { apply wp_ret. do 4 (split; [done|]). split; [by intros k ?%elem_of_nil|]. done. }
  rewrite fmap_cons in Hnd. apply list.NoDup_cons in Hnd as [Hi Hnd]. apply wp_bind.
  eapply wp_mono; [apply wp_conj; [by apply timeout_entry_exact|by apply timeout_entry_safe]|].
  intros a1 w1 [(Hwin & Hb & Hn & Hl & Hs & Hio) (Ha1 & Hw1 & _)].
  assert (Hne : forall k, slot k <> slot i -> entry_at a1 k = entry_at a k)
    by (intros k Hk; by eapply entry_at_insert_ne).
  assert (Hlk : forall k, k ∈ l -> slot k <> slot i).
  { intros k Hk He. apply Hi. rewrite <- He. by apply list_elem_of_fmap_2. }
  eapply wp_mono; [by apply IH|]. intros a2 w2 (Hb2 & Hn2 & Hl2 & Hs2 & Hin2 & Hout2 & Hio2).
  split; [congruence|]. split; [congruence|]. split; [congruence|]. split; [by transitivity w1|].
  split; [|split].
  - intros k Hk. apply elem_of_cons in Hk as [->|Hk].
    + rewrite Hout2 by done. exact (entry_at_insert_same a a1 i _ Ha Hwin).
    + rewrite Hin2 by done. by rewrite Hne by auto.
  - intros k Hk. rewrite fmap_cons, not_elem_of_cons in Hk. destruct Hk as [Hki Hk].
    rewrite Hout2 by done. by apply Hne.
  - rewrite Hio2, Hio, app_assoc. f_equal. cbn [fmap list_fmap mjoin list_join]. rewrite rev_app_distr. f_equal.
    do 2 f_equal. apply list_fmap_ext. intros j k Hk. rewrite Hne; [done|].
    apply Hlk. by eapply list_elem_of_lookup_2.
Qed.

Lemma slots_nodup b n : n <= WINDOW_SIZE -> NoDup (slot <$> seqZ b n).
Proof.
  intros Hn. apply NoDup_fmap_2_strong; [|apply NoDup_seqZ].
  intros x y Hx Hy He. rewrite elem_of_seqZ in Hx, Hy. apply (slot_inj b); [lia|lia|done].
Qed.

(** The window after a tick at [now]. *)
Record ticked (now cycles : Z) (a a' : arq_context) : Prop := Ticked {
  tk_base : send_base a' = send_base a;
  tk_next : send_next a' = send_next a;
  tk_in k : send_base a <= k < send_next a -> entry_at a' k = expire now cycles (entry_at a k);
  tk_out k : send_next a <= k < send_base a + WINDOW_SIZE -> entry_at a' k = entry_at a k }.

Definition timeout_cycles : Z := u64 (rte_get_timer_hz * RETRY_TIMEOUT_MS) / 1000.

(** What leaves the core during the tick, oldest packet first. *)
Definition tick_io (port now cycles : Z) (a : arq_context) : list io :=
  mjoin ((fun k => expire_io port now cycles (entry_at a k)) <$>
           seqZ (send_base a) (send_next a - send_base a)).

Lemma check_timeouts_spec a port w :
  tight a -> a_lock a = 0 -> win_in_mem (send_window a) (w_mem w) ->
  wp (arq_check_timeouts a port) (fun a' w' =>
    a_lock a' = 0 /\ ticked (env_rdtsc (w_trace w)) timeout_cycles a a' /\
    io_log (w_trace w') =
      rev (tick_io port (env_rdtsc (w_trace w)) timeout_cycles a) ++ io_log (w_trace w)) w.
Proof.
  intros Ht Hl Hm. destruct (Ht) as [Hwf Hr _ _].
  unfold arq_check_timeouts. rewrite Hl. wp_auto. subst t.
  eapply wp_mono; [by apply (timeout_loop _ _ _ _ (set_a_lock 1 a)); [..|apply slots_nodup; lia]|].
  intros a1 w1 (Hb1 & Hn1 & Hl1 & Hs1 & Hin & Hout & Hio). wp_auto. rewrite Hl1. cbn [a_lock set_a_lock].
  rewrite lock_release. split; [done|]. split; [|exact Hio]. split; [exact Hb1|exact Hn1| |].
  - intros k Hk. apply (Hin k). apply elem_of_seqZ. lia.
  - intros k Hk. apply (Hout k). intros Hin'. apply list_elem_of_fmap in Hin' as (i & He & Hi).
    apply elem_of_seqZ in Hi. assert (k = i); [|lia]. apply (slot_inj (send_base a)); [lia|lia|done].
Qed.

End Timer.

(** ** Properties *)

(** C9 A timer tick resends every overdue packet
    that was sent fewer than [MAX_RETRY_COUNT] (3) times before, in window
    order, restarting its timer; it releases the overdue packets whose
    retries are exhausted; it leaves the others alone.  The window bounds do
    not move, the lock is released and the references match the window. *)
Theorem arq_timer_retries_then_drops `{DpdkSpec} a port w :
  ready a w ->
  wp (arq_check_timeouts a port) (fun a' w' =>
    (a_lock a' = 0 /\ ticked (env_rdtsc (w_trace w)) timeout_cycles a a' /\
     io_log (w_trace w') =
       rev (tick_io port (env_rdtsc (w_trace w)) timeout_cycles a) ++ io_log (w_trace w)) /\
    arq_safe (fun _ => 0) a w a' w') w.
Proof.
  intros [Ht Hl Hm]. apply wp_conj; [by apply check_timeouts_spec|].
  apply arq_check_timeouts_safe; [apply Ht|done|done].
Qed.

(** A window filled with copies of one entry. *)
Definition full_window (e : arq_send_entry) : arq_context :=
  ArqContext 17 (replicate 256 e) 0 256 256 0 256 0 0 0 0.

Lemma full_window_tight m t r : tight (full_window (ArqEntry 5 (Some m) t r 1 1)).
Proof.
  assert (Hat : forall k, entry_at (full_window (ArqEntry 5 (Some m) t r 1 1)) k = ArqEntry 5 (Some m) t r 1 1).
  { intros k. unfold entry_at. cbn [send_window full_window]. rewrite nth_lookup, lookup_replicate_2; [done|].
    unfold slot, WINDOW_SIZE. pose proof (Z.mod_pos_bound k 256). lia. }
  split.
  - split; [apply length_replicate|]. split; [apply Forall_replicate; right; cbn; eauto|].
    cbn. unfold is_u32. lia.
  - cbn. unfold WINDOW_SIZE. lia.
  - intros k _. by rewrite Hat.
  - cbn. unfold WINDOW_SIZE. lia.
Qed.

Lemma full_window_ready m t r w :
  is_Some (w_mem w !! m) -> ready (full_window (ArqEntry 5 (Some m) t r 1 1)) w.
Proof.
  intros Hm. split; [apply full_window_tight|done|]. apply Forall_replicate. intros j [= <-]. done.
Qed.

Lemma arq_timer_retries_then_drops_witness :
  wp (@arq_check_timeouts (sim false) (full_window (ArqEntry 5 (Some 1%nat) 5000 3 1 1)) 1)
     (fun a' w' => e_mbuf (entry_at a' 0) = None /\ io_log (w_trace w') = replicate 256 (Released 1))
     (sim_world [[]]).
Proof.
  eapply wp_mono; [apply (@arq_timer_retries_then_drops (sim false) (sim_spec false))|].
  - apply full_window_ready. by eexists.
  - intros a' w' [(_ & Hk & Hio) _]. rewrite (tk_in _ _ _ _ Hk 0) by (cbn; lia). rewrite Hio.
    split; by vm_compute.
Defined.

(** C37 When the oldest packet of a full window has
    exhausted its retries, the tick drops it without moving [send_base], and
    the next send is accepted: 257 sequence numbers are outstanding, one more
    than [WINDOW_SIZE], and two of them share a slot. *)
Theorem timeout_overruns_window `{DpdkSpec} a port m p seg w :
  ready a w -> send_next a = send_base a + WINDOW_SIZE -> send_next a + 1 < 2 ^ 32 ->
  overdue (env_rdtsc (w_trace w)) timeout_cycles (entry_at a (send_base a)) = true ->
  MAX_RETRY_COUNT <= retry_count (entry_at a (send_base a)) ->
  wp (a ← arq_check_timeouts a port; arq_send_pkt a (Some m) p seg) (fun r _ =>
    fst r = 0 /\ send_next (snd r) - send_base (snd r) = WINDOW_SIZE + 1 /\
    slot (send_base (snd r)) = slot (send_next (snd r) - 1)) w.
Proof.
  intros [Ht Hl Hm] Hfull Hn Hover Hretry. apply wp_bind.
  eapply wp_mono; [by apply check_timeouts_spec|]. intros a1 w1 (Hl1 & Hk & _).
  unfold arq_send_pkt. rewrite Hl1. wp_auto.
  assert (Hslot : slot (send_next a1) = slot (send_base a)).
  { rewrite (tk_next _ _ _ _ Hk), Hfull. apply slot_wrap. }
  assert (Hfree : entry_at a1 (send_next a1) = expire (env_rdtsc (w_trace w)) timeout_cycles (entry_at a (send_base a))).
  { unfold entry_at at 1. rewrite Hslot. apply (tk_in _ _ _ _ Hk). unfold WINDOW_SIZE in *. lia. }
  rewrite Hfree. unfold expire. rewrite Hover. destruct (Z.ltb_spec (retry_count (entry_at a (send_base a))) MAX_RETRY_COUNT); [lia|].
  cbn [in_flight Z.eqb negb]. wp_auto. cbn [fst snd send_next send_base].
  destruct (tight_wf a Ht) as (_ & _ & Hub & Hun). unfold is_u32 in *.
  rewrite (tk_next _ _ _ _ Hk), (tk_base _ _ _ _ Hk), u32_small by (unfold is_u32; lia).
  split; [done|]. split; [lia|].
  replace (send_next a + 1 - 1) with (send_base a + WINDOW_SIZE) by lia. by rewrite slot_wrap.
Qed.

Lemma timeout_overruns_window_witness :
  wp (a ← @arq_check_timeouts (sim false) (full_window (ArqEntry 5 (Some 1%nat) 5000 3 1 1)) 1;
      @arq_send_pkt (sim false) a (Some 2%nat) 9 1)
     (fun r _ => fst r = 0 /\ send_next (snd r) - send_base (snd r) = 257) (sim_world [[]; []]).
Proof.
  eapply wp_mono; [apply (@timeout_overruns_window (sim false) (sim_spec false))|].
  - apply full_window_ready. by eexists.
  - done.
  - by vm_compute.
  - by vm_compute.
  - by vm_compute.
  - intros r w' (Hz & Hd & _). done.
Defined.
