(* ===== verification/QpCtx.v ===== *)
(** * qp_ctx.c: the table of RoCE flows

    [qp_mgr_init] and [qp_get_or_create].  A context pointer is an index into
    the array.  [MAX_QP_CTX] is shared with the ARQ manager. *)

From S2P Require Import Prelude Crc32 PeerManager Env Sim RoceDefs Arq.

(** ** State *)

Record qp_context := QpContext {
  q_qpn : Z;
  q_lock : Z;
  active : Z;
  last_cnp_tsc : Z;
  notify_ip : Z;
  pkey : Z;
  notify_mac : list Z;
  gw_mac : list Z }.

Record qp_manager := QpManager {
  qps : list qp_context;
  q_global_lock : Z;
  active_qp_count : Z }.

Definition zero_qp : qp_context := QpContext 0 0 0 0 0 0 zero_mac zero_mac.
Definition zero_qp_manager : qp_manager := QpManager (replicate (Z.to_nat MAX_QP_CTX) zero_qp) 0 0.

Section Operations.
Context `{Dpdk}.

Definition qp_mgr_init (_ : qp_manager) : qp_manager :=
  QpManager (qps zero_qp_manager) spin_init 0.

(** The two loops of [qp_get_or_create]. *)
Definition qp_find (mgr : qp_manager) (qpn : Z) : option nat :=
  fst <$> list_find (fun q => active q <> 0 /\ q_qpn q = qpn) (qps mgr).

Definition qp_find_free (mgr : qp_manager) : option nat :=
  fst <$> list_find (fun q => active q = 0) (qps mgr).

(** The context a new flow starts with. *)
Definition fresh_qp (qpn : Z) : qp_context := QpContext qpn spin_init 1 0 0 0 zero_mac zero_mac.

Definition qp_get_or_create (mgr : qp_manager) (qpn : Z) : M (option nat * qp_manager) :=
  l ← rte_spinlock_lock (q_global_lock mgr);
  match qp_find mgr qpn with
  | Some i => mret (Some i, QpManager (qps mgr) (spin_unlock l) (active_qp_count mgr))
  | None =>
      match qp_find_free mgr with
      | Some i =>
          mret (Some i, QpManager (<[i := fresh_qp qpn]> (qps mgr)) (spin_unlock l)
                          (u32 (active_qp_count mgr + 1)))
      | None => mret (None, QpManager (qps mgr) (spin_unlock l) (active_qp_count mgr))
      end
  end.

End Operations.

(** ** Invariant *)

Definition qp_ok (q : qp_context) : Prop :=
  is_u32 (q_qpn q) /\ bytes_ok (notify_mac q) /\ bytes_ok (gw_mac q).

Record qp_wf (mgr : qp_manager) : Prop := QpWf {
  qp_length : length (qps mgr) = Z.to_nat MAX_QP_CTX;
  qp_each : Forall qp_ok (qps mgr);
  qp_unique i j c d :
    qps mgr !! i = Some c -> qps mgr !! j = Some d ->
    active c <> 0 -> active d <> 0 -> q_qpn c = q_qpn d -> i = j;
  qp_counted :
    active_qp_count mgr = Z.of_nat (length (filter (fun q => active q <> 0) (qps mgr)));
  qp_unlocked : q_global_lock mgr = 0 }.

Lemma zero_mac_ok : bytes_ok zero_mac.
Proof. by apply (Forall_replicate _ 6 0). Qed.

Lemma zero_qp_manager_wf : qp_wf zero_qp_manager.
Proof.
  split.
  - apply length_replicate.
  - apply Forall_replicate. split; [unfold is_u32; cbn; lia|]. split; apply zero_mac_ok.
  - intros i j c d Hc _ Ha. apply lookup_replicate in Hc as [-> _]. by destruct Ha.
  - by vm_compute.
  - done.
Qed.

Lemma qp_find_Some mgr qpn i :
  qp_find mgr qpn = Some i ->
  exists q, qps mgr !! i = Some q /\ active q <> 0 /\ q_qpn q = qpn.
Proof.
  unfold qp_find. rewrite fmap_Some. intros ([i' q] & Hf & ->).
  apply list_find_Some in Hf as (Hq & [Ha Hn] & _). by exists q.
Qed.

Lemma qp_find_None mgr qpn i q :
  qp_find mgr qpn = None -> qps mgr !! i = Some q -> active q <> 0 -> q_qpn q <> qpn.
Proof.
  unfold qp_find. rewrite fmap_None, list_find_None, Forall_lookup. intros Hf Hq Ha He.
  by apply (Hf i q).
Qed.

Lemma qp_find_free_Some mgr i :
  qp_find_free mgr = Some i -> exists q, qps mgr !! i = Some q /\ active q = 0.
Proof.
  unfold qp_find_free. rewrite fmap_Some. intros ([i' q] & Hf & ->).
  apply list_find_Some in Hf as (Hq & Ha & _). by exists q.
Qed.

Lemma qp_find_free_None mgr i q : qp_find_free mgr = None -> qps mgr !! i = Some q -> active q <> 0.
Proof.
  unfold qp_find_free. rewrite fmap_None, list_find_None, Forall_lookup. intros Hf Hq. by apply (Hf i q).
Qed.

(** A lookup finds the one active context of the flow. *)
Lemma qp_find_unique mgr qpn i q :
  qp_wf mgr -> qps mgr !! i = Some q -> active q <> 0 -> q_qpn q = qpn -> qp_find mgr qpn = Some i.
Proof.
  intros Hm Hq Ha He. destruct (qp_find mgr qpn) as [j|] eqn:E.
  - apply qp_find_Some in E as (d & Hd & Had & Hde). f_equal.
    eapply (qp_unique mgr Hm); eauto. congruence.
  - by destruct (qp_find_None mgr qpn i q E Hq Ha).
Qed.

(** Writing back a context that keeps its flow. *)
Lemma qp_put_wf mgr i q q' :
  qp_wf mgr -> qps mgr !! i = Some q -> q_qpn q' = q_qpn q -> active q' = active q -> qp_ok q' ->
  qp_wf (QpManager (<[i := q']> (qps mgr)) (q_global_lock mgr) (active_qp_count mgr)).
Proof.
  intros Hm Hq Hn Ha Hok.
  assert (Hlt : (i < length (qps mgr))%nat) by by eapply lookup_lt_Some.
  assert (Hback : forall j d, <[i := q']> (qps mgr) !! j = Some d ->
            exists d', qps mgr !! j = Some d' /\ q_qpn d = q_qpn d' /\ active d = active d').
  { intros j d. rewrite list_lookup_insert_Some. intros [(<- & <- & _)|[_ Hd]]; eauto. }
  split; cbn [qps q_global_lock active_qp_count].
  - rewrite length_insert. apply Hm.
  - apply Forall_insert; [apply Hm|done].
  - intros j k c d (c' & Hc & Hcn & Hca)%Hback (d' & Hd & Hdn & Hda)%Hback H1 H2 H3.
    eapply (qp_unique mgr Hm); eauto; congruence.
  - rewrite (qp_counted mgr Hm). f_equal. symmetry.
    eapply filter_length_insert; [exact Hq|]. by rewrite Ha.
  - apply Hm.
Qed.

Section Table.
Context `{DpdkSpec}.

(** What [qp_get_or_create] promises: it returns, releases the lock, and
    finds the flow, or opens the first inactive context for it, or reports
    that all 1024 contexts are taken by other flows. *)
Inductive qp_result (mgr : qp_manager) (qpn : Z) : option nat -> qp_manager -> Prop :=
  | qp_found i : qp_find mgr qpn = Some i -> qp_result mgr qpn (Some i) mgr
  | qp_created i : qp_find mgr qpn = None -> qp_find_free mgr = Some i ->
      qp_result mgr qpn (Some i)
        (QpManager (<[i := QpContext qpn 0 1 0 0 0 zero_mac zero_mac]> (qps mgr)) (q_global_lock mgr)
           (u32 (active_qp_count mgr + 1)))
  | qp_full : qp_find mgr qpn = None -> qp_find_free mgr = None -> qp_result mgr qpn None mgr.

Lemma qp_get_or_create_result mgr qpn (Q : option nat * qp_manager -> world -> Prop) w :
  q_global_lock mgr = 0 ->
  (forall r mgr', qp_result mgr qpn r mgr' -> Q (r, mgr') w) ->
  wp (qp_get_or_create mgr qpn) Q w.
Proof.
  intros Hl HQ. unfold qp_get_or_create, fresh_qp. destruct mgr as [cs l n]. cbn in Hl. subst l.
  cbn [q_global_lock qps active_qp_count]. wp_auto. rewrite lock_release, lock_init.
  destruct (qp_find _ qpn) as [i|] eqn:Ef; [wp_auto; by apply HQ, qp_found|].
  destruct (qp_find_free _) as [i|] eqn:Ez; wp_auto; apply HQ.
  - by apply (qp_created (QpManager cs 0 n)).
  - by apply (qp_full (QpManager cs 0 n)).
Qed.

Lemma qp_created_wf mgr qpn i q :
  qp_wf mgr -> is_u32 qpn -> qp_find mgr qpn = None -> qps mgr !! i = Some q -> active q = 0 ->
  qp_wf (QpManager (<[i := QpContext qpn 0 1 0 0 0 zero_mac zero_mac]> (qps mgr)) (q_global_lock mgr)
           (u32 (active_qp_count mgr + 1))).
Proof.
  intros Hm Hqpn Hn Hq Ha. split; cbn [qps q_global_lock active_qp_count].
  - rewrite length_insert. apply Hm.
  - apply Forall_insert; [apply Hm|]. split; [exact Hqpn|split; apply zero_mac_ok].
  - intros j k c d. rewrite !list_lookup_insert_Some.
    intros [(-> & <- & _)|[_ Hc]] [(-> & <- & _)|[_ Hd]] H1 H2 H3; try done.
    + by destruct (qp_find_None mgr qpn k d Hn Hd H2).
    + by destruct (qp_find_None mgr qpn j c Hn Hc H1).
    + eapply (qp_unique mgr Hm); eauto.
  - pose proof (filter_length_insert_gen (fun q => active q <> 0) (qps mgr) i q
                  (QpContext qpn 0 1 0 0 0 zero_mac zero_mac) Hq) as Hl.
    rewrite decide_False, decide_True in Hl by (cbn; lia).
    pose proof (length_filter (fun q => active q <> 0) (qps mgr)) as Hle.
    rewrite (qp_length mgr Hm) in Hle. rewrite (qp_counted mgr Hm), u32_small; [lia|].
    unfold is_u32, MAX_QP_CTX in *. lia.
  - apply Hm.
Qed.

Lemma qp_result_wf mgr qpn r mgr' :
  qp_wf mgr -> is_u32 qpn -> qp_result mgr qpn r mgr' ->
  qp_wf mgr' /\
  (forall i, r = Some i -> exists q, qps mgr' !! i = Some q /\ active q <> 0 /\ q_qpn q = qpn) /\
  (forall j q, qps mgr !! j = Some q -> active q <> 0 -> qps mgr' !! j = Some q).
Proof.
  intros Hm Hqpn Hr. destruct Hr as [i Hf|i Hn Hf|Hn Hf]; [| |done].
  { split; [done|]. split; [|done]. intros i' [= <-]. by apply qp_find_Some. }
  apply qp_find_free_Some in Hf as (q & Hq & Ha).
  split; [by eapply qp_created_wf|]. split; cbn [qps].
  - intros i' [= <-]. exists (QpContext qpn 0 1 0 0 0 zero_mac zero_mac).
    rewrite list_lookup_insert_eq by by eapply lookup_lt_Some. done.
  - intros j d Hd Had. rewrite list_lookup_insert_ne; [done|]. intros ->. congruence.
Qed.

End Table.

(** ** Properties *)

(** C19 Looking a flow up returns, keeps the table
    well formed (one active context per QPN, the count right, the lock free)
    and the contexts of the other flows as they were; the index returned
    holds an active context of this QPN, which a second lookup finds again;
    only when all 1024 contexts belong to other flows is there none. *)
Theorem qp_get_or_create_correct `{DpdkSpec} mgr qpn w :
  qp_wf mgr -> is_u32 qpn ->
  wp (qp_get_or_create mgr qpn) (fun r w' =>
    w' = w /\ qp_wf (snd r) /\
    (forall j q, qps mgr !! j = Some q -> active q <> 0 -> qps (snd r) !! j = Some q) /\
    match fst r with
    | Some i =>
        (exists q, qps (snd r) !! i = Some q /\ active q <> 0 /\ q_qpn q = qpn) /\
        wp (qp_get_or_create (snd r) qpn) (fun r2 _ => r2 = r) w
    | None => snd r = mgr /\ forall j q, qps mgr !! j = Some q -> active q <> 0 /\ q_qpn q <> qpn
    end) w.
Proof.
  intros Hm Hq. apply qp_get_or_create_result; [apply Hm|]. intros r mgr' Hr. cbn [fst snd].
  destruct (qp_result_wf _ _ _ _ Hm Hq Hr) as (Hm' & Hsome & Hkeep).
  split; [done|]. split; [done|]. split; [done|]. destruct r as [i|].
  - destruct (Hsome i eq_refl) as (q & Hi & Ha & Hn). split; [by exists q|].
    apply qp_get_or_create_result; [apply Hm'|]. intros r2 mgr2 Hr2.
    pose proof (qp_find_unique _ _ _ _ Hm' Hi Ha Hn) as Hf.
    inversion Hr2 as [i2 Hf2| |]; simplify_eq; congruence.
  - inversion Hr as [| |Hn Hf]; subst. split; [done|]. intros j q Hj.
    pose proof (qp_find_free_None _ _ _ Hf Hj) as Ha. split; [done|]. by eapply qp_find_None.
Qed.

Lemma qp_get_or_create_correct_witness :
  wp (@qp_get_or_create (sim false) zero_qp_manager 17) (fun r _ => qp_wf (snd r)) sim_boot.
Proof.
  eapply wp_mono; [apply (@qp_get_or_create_correct (sim false) (sim_spec false) zero_qp_manager 17)|].
  - apply zero_qp_manager_wf.
  - unfold is_u32. lia.
  - intros r w' (_ & Hm & _). exact Hm.
Defined.
