(* ===== verification/WanTunnel.v ===== *)
(** * wan_tunnel.c: ARP cache, WAN forwarding, IPv4/UDP headers and the ICRC

    The state is in [Env.globals]: the ARP cache and its lock, the static
    [last_arp_time] of [resolve_next_hop], the CRC tables.  Logging is left
    out. *)

From S2P Require Import Prelude Crc32 PeerManager Env RoceDefs.

Definition WAN_UDP_PORT : Z := 4791.
Definition ARQ_CTRL_PORT : Z := 4792.
Definition DEFAULT_GW_MAC : list Z := [0x02; 0x1a; 0xc5; 0x4b; 0x7e; 0x90].

(** A write through a pointer [off] bytes into the data room. *)
Definition at_off (off : nat) (f : list Z -> list Z) (b : list Z) : list Z :=
  take off b ++ f (drop off b).

Definition set_arp_cache (c : list arp_entry) (l : Z) (g : globals) : globals :=
  Globals (wan_tunnel_src_ip g) (g_peer_manager g) c l (last_arp_time g) (crc_tables g).
Definition set_last_arp (t : Z) (g : globals) : globals :=
  Globals (wan_tunnel_src_ip g) (g_peer_manager g) (arp_cache g) (arp_cache_lock g) t (crc_tables g).
Definition set_crc (s : crc_statics) (g : globals) : globals :=
  Globals (wan_tunnel_src_ip g) (g_peer_manager g) (arp_cache g) (arp_cache_lock g)
    (last_arp_time g) s.

Definition zero_arp : arp_entry := ArpEntry 0 (replicate 6 0) 0 0.
Definition arp_slot (ip : Z) : nat := Z.to_nat (ip mod ARP_CACHE_SIZE).

(** ** Headers above Ethernet *)

(** [build_ipv4_udp(ip, udp, ...)] with [ip] and [udp] at their fixed
    offsets; addresses and ports arrive in network order, lengths in host
    order. *)
Definition build_ipv4_udp `{Dpdk} (src_be dst_be sport_be dport_be ip_total_len udp_len : Z)
    (b : list Z) : list Z :=
  let b := st 1 14 0x45 b in
  let b := st 1 15 0 b in
  let b := st 2 16 (rte_cpu_to_be_16 ip_total_len) b in
  let b := st 2 18 0 b in
  let b := st 2 20 0 b in
  let b := st 1 22 64 b in
  let b := st 1 23 IPPROTO_UDP b in
  let b := st 4 26 src_be b in
  let b := st 4 30 dst_be b in
  let b := st 2 24 0 b in
  let b := st 2 34 sport_be b in
  let b := st 2 36 dport_be b in
  let b := st 2 38 (rte_cpu_to_be_16 udp_len) b in
  st 2 40 0 b.

(** [roce_icrc]: the fields a router may change are overwritten with ones,
    the CRC is taken over IP, UDP, BTH and payload, and the fields are put
    back.  Result: the value, the buffer afterwards, the CRC statics. *)
Definition icrc_mask (b : list Z) : list Z :=
  st 1 46 0xff (set_udp_cksum 0xffff (set_ip_cksum 0xffff (set_ip_ttl 0xff (set_ip_tos 0xff b)))).

Definition roce_icrc_buf (s : crc_statics) (bth_payload_len : nat) (b : list Z)
    : Z * list Z * crc_statics :=
  let tos := ip_tos b in
  let ttl := ip_ttl b in
  let b4 := ld 1 46 b in
  let ipck := ip_cksum b in
  let udpck := udp_cksum b in
  let b := icrc_mask b in
  let '(crc, s) := crc32_le_slice8 s 0xdebb20e3
                     (slice IP_OFF (IPV4_LEN + UDP_LEN + bth_payload_len) b) in
  let b := set_ip_tos tos b in
  let b := set_ip_ttl ttl b in
  let b := set_ip_cksum ipck b in
  let b := set_udp_cksum udpck b in
  let b := st 1 46 b4 b in
  (u32 (Z.lnot crc), b, s).

Section Operations.
Context `{Dpdk}.

(** The call as the packet builders make it, on the frame at [off]. *)
Definition roce_icrc (m : nat) (off bth_payload_len : nat) : M Z :=
  b ← mtod m;
  g ← get_glob;
  let '(crc, b', s) := roce_icrc_buf (crc_tables g) bth_payload_len (drop off b) in
  mstore m (at_off off (fun _ => b'));;
  put_glob (set_crc s g);;
  mret crc.

(** ** ARP cache *)

Definition arp_cache_init : M unit :=
  g ← get_glob;
  put_glob (set_arp_cache (replicate (Z.to_nat ARP_CACHE_SIZE) zero_arp) spin_init g).

Definition arp_cache_add (ip : Z) (mac : list Z) : M Z :=
  g ← get_glob;
  l ← rte_spinlock_lock (arp_cache_lock g);
  t ← rte_rdtsc;
  put_glob (set_arp_cache
    (<[arp_slot ip := ArpEntry ip (rte_ether_addr_copy mac) t 1]> (arp_cache g))
    (spin_unlock l) g);;
  mret 0.

(** Returns the MAC written through the out parameter, [None] for -1. *)
Definition arp_cache_lookup (ip : Z) : M (option (list Z)) :=
  g ← get_glob;
  l ← rte_spinlock_lock (arp_cache_lock g);
  put_glob (set_arp_cache (arp_cache g) (spin_unlock l) g);;
  let e := nth (arp_slot ip) (arp_cache g) zero_arp in
  if negb (valid e =? 0) && (ip_addr e =? ip)
  then mret (Some (rte_ether_addr_copy (mac_addr e)))
  else mret None.

(** The 42 bytes of the ARP request. *)
Definition arp_request_frame (src_mac : list Z) (src_ip target_ip : Z) (b : list Z) : list Z :=
  let b := set_eth_d_addr (replicate 6 0xFF) b in
  let b := set_eth_s_addr (rte_ether_addr_copy src_mac) b in
  let b := set_ether_type (rte_cpu_to_be_16 RTE_ETHER_TYPE_ARP) b in
  let b := st 2 14 (rte_cpu_to_be_16 1) b in
  let b := st 2 16 (rte_cpu_to_be_16 RTE_ETHER_TYPE_IPV4) b in
  let b := st 1 18 6 b in
  let b := st 1 19 4 b in
  let b := st 2 20 (rte_cpu_to_be_16 1) b in
  let b := splice 22 (rte_ether_addr_copy src_mac) b in
  let b := st 4 28 (rte_cpu_to_be_32 src_ip) b in
  let b := splice 32 (replicate 6 0) b in
  st 4 38 (rte_cpu_to_be_32 target_ip) b.

Definition send_arp_request (target_ip port pool : Z) : M Z :=
  r ← rte_pktmbuf_alloc pool;
  match r with
  | None => mret (-1)
  | Some m =>
      d ← rte_pktmbuf_append m 42;
      match d with
      | None => rte_pktmbuf_free (Some m);; mret (-1)
      | Some off =>
          g ← get_glob;
          mstore m (at_off off
            (arp_request_frame (rte_eth_macaddr_get port) (wan_tunnel_src_ip g) target_ip));;
          n ← rte_eth_tx_burst port 0 (Some m);
          if n =? 0 then rte_pktmbuf_free (Some m);; mret (-1) else mret 0
      end
  end.

(** The return value says whether an ARP request is due. *)
Definition resolve_next_hop (dst_ip_be out_port : Z) : M (Z * list Z) :=
  let dst_ip := rte_be_to_cpu_32 dst_ip_be in
  r ← arp_cache_lookup dst_ip;
  match r with
  | Some mac => mret (0, mac)
  | None =>
      let mac := rte_ether_addr_copy DEFAULT_GW_MAC in
      now ← rte_rdtsc;
      g ← get_glob;
      if u64 (rte_get_timer_hz * 5) <? u64 (now - last_arp_time g) then
        put_glob (set_last_arp now g);; mret (1, mac)
      else mret (0, mac)
  end.

(** The common part of the two forwarders: next hop MAC, ARP request when
    due, source MAC. *)
Definition forward_l2 (m : nat) (dst_ip_be out_port : Z) : M unit :=
  '(need_arp, mac) ← resolve_next_hop dst_ip_be out_port;
  mstore m (set_eth_d_addr (rte_ether_addr_copy mac));;
  (if need_arp =? 0 then mret 0
   else send_arp_request (rte_be_to_cpu_32 dst_ip_be) out_port (rte_mbuf_from_lib_mp m));;
  mstore m (set_eth_s_addr (rte_ether_addr_copy (rte_eth_macaddr_get out_port))).

Definition wan_fwd_roce (m : nat) (out_port : Z) : M nat :=
  b ← mtod m;
  g ← get_glob;
  let original_dst_ip := ip_dst b in
  mstore m (fun b => set_ip_cksum 0 (set_ip_src (rte_cpu_to_be_32 (wan_tunnel_src_ip g)) b));;
  forward_l2 m original_dst_ip out_port;;
  mret m.

Definition wan_fwd_passthrough (m : nat) (out_port : Z) : M Z :=
  b ← mtod m;
  forward_l2 m (ip_dst b) out_port;;
  n ← rte_eth_tx_burst out_port 0 (Some m);
  if n =? 0 then rte_pktmbuf_free (Some m);; mret (-1) else mret 0.

Definition wan_prepare_for_lan (m : nat) : M Z :=
  g ← get_glob;
  mstore m (fun b => set_ip_cksum 0 (set_ip_src (rte_cpu_to_be_32 (wan_tunnel_src_ip g)) b));;
  mret 0.

Definition wan_get_peer_ip (dst_ip : Z) : M Z :=
  g ← get_glob;
  mret (pm_lookup (g_peer_manager g) dst_ip).

End Operations.

(** ** Buffer transformers that stay inside the data room *)

Definition keeps (f : list Z -> list Z) : Prop :=
  forall b, bytes_ok b -> length (f b) = length b /\ bytes_ok (f b).

Lemma keeps_id : keeps (fun b => b).
Proof. done. Qed.

Lemma keeps_st n off v f : keeps f -> keeps (fun b => st n off v (f b)).
Proof. intros Hf b Hb. destruct (Hf b Hb). rewrite length_st. auto using st_ok. Qed.

Lemma keeps_splice off bs f : bytes_ok bs -> keeps f -> keeps (fun b => splice off bs (f b)).
Proof. intros Hbs Hf b Hb. destruct (Hf b Hb). rewrite length_splice. auto using splice_ok. Qed.

Lemma keeps_at_off off f : keeps f -> keeps (at_off off f).
Proof.
  intros Hf b Hb. unfold at_off. destruct (Hf (drop off b)) as [Hl Hok]; [by apply Forall_drop|].
  split; [|apply Forall_app_2; [by apply Forall_take|done]].
  rewrite length_app, Hl, length_take, length_drop. lia.
Qed.

Lemma keeps_room f b : keeps f -> mbuf_wf b -> length (f (room b)) = length (room b) /\ bytes_ok (f (room b)).
Proof. intros Hf [_ Hb]. by apply Hf. Qed.

#[export] Hint Resolve keeps_id keeps_st keeps_splice keeps_at_off : gw.

Section Frames.
Context `{DpdkSpec}.

Lemma keeps_build_ipv4_udp s d sp dp tl ul f :
  keeps f -> keeps (fun b => build_ipv4_udp s d sp dp tl ul (f b)).
Proof. intros Hf. unfold build_ipv4_udp. cbv zeta. auto 20 with gw. Qed.

Lemma keeps_arp_request src ip t : bytes_ok src -> keeps (arp_request_frame src ip t).
Proof.
  intros Hs. unfold arp_request_frame, set_eth_d_addr, set_eth_s_addr, set_ether_type. cbv zeta.
  rewrite !ether_copy.
  assert (bytes_ok (replicate 6 0xFF)) by (apply Forall_replicate; done).
  assert (bytes_ok (replicate 6 0)) by (apply Forall_replicate; done).
  auto 20 with gw.
Qed.

Lemma keeps_set_mac_d a : bytes_ok a -> keeps (set_eth_d_addr a).
Proof. intros Ha. apply (keeps_splice 0 a (fun b => b)); auto with gw. Qed.

Lemma keeps_set_mac_s a : bytes_ok a -> keeps (set_eth_s_addr a).
Proof. intros Ha. apply (keeps_splice 6 a (fun b => b)); auto with gw. Qed.

Lemma keeps_src_rewrite v : keeps (fun b => set_ip_cksum 0 (set_ip_src v b)).
Proof. unfold set_ip_cksum, set_ip_src. auto with gw. Qed.

(** ** The operations keep the world well formed and balance the ledger *)

Lemma glob_ok_arp_lock g : glob_ok g -> set_arp_cache (arp_cache g) 0 g = g.
Proof. intros (_ & _ & Hl & _). unfold set_arp_cache. rewrite <- Hl. by destruct g. Qed.

Lemma set_glob_id w : set_glob (w_glob w) w = w.
Proof. by destruct w. Qed.

(** The cache answers from the slot of the address, and leaves no trace. *)
Lemma arp_cache_lookup_spec ip (Q : option (list Z) -> world -> Prop) w :
  world_ok w ->
  (let e := nth (arp_slot ip) (arp_cache (w_glob w)) zero_arp in
   Q (if negb (valid e =? 0) && (ip_addr e =? ip) then Some (mac_addr e) else None) w) ->
  wp (arp_cache_lookup ip) Q w.
Proof.
  intros [Hg Hm] HQ. unfold arp_cache_lookup. wp_auto.
  destruct (Hg) as (_ & _ & Hl & _). rewrite Hl. wp_auto. rewrite lock_release, ether_copy.
  rewrite glob_ok_arp_lock by done. rewrite set_glob_id.
  cbv zeta in HQ. by destruct (negb _ && _); wp_auto.
Qed.

Lemma arp_mac_ok ip w :
  world_ok w -> let e := nth (arp_slot ip) (arp_cache (w_glob w)) zero_arp in
  length (mac_addr e) = 6%nat /\ bytes_ok (mac_addr e).
Proof.
  intros [(Hl & Hf & _) _]. cbv zeta. rewrite nth_lookup.
  destruct (arp_cache (w_glob w) !! arp_slot ip) as [e|] eqn:E; cbn.
  - rewrite Forall_lookup in Hf. by apply (Hf _ _ E).
  - split; [done|]. apply (Forall_replicate _ 6 0). done.
Qed.

(** The mbufs the program holds are left as they are. *)
Definition kept (w w' : world) : Prop := forall j, 1 <= held w j -> w_mem w' !! j = w_mem w !! j.

Lemma kept_refl w : kept w w.
Proof. done. Qed.

(** The same for all of them but [m]. *)
Definition kept_but (m : nat) (w w' : world) : Prop :=
  forall j, j <> m -> 1 <= held w j -> w_mem w' !! j = w_mem w !! j.

Lemma kept_but_refl m w : kept_but m w w.
Proof. done. Qed.

Lemma kept_trans w1 w2 w3 :
  kept w1 w2 -> kept w2 w3 -> (forall j, 1 <= held w1 j -> 1 <= held w2 j) -> kept w1 w3.
Proof. intros H1 H2 Hh j Hw. rewrite (H2 j) by auto. by apply H1. Qed.

Lemma one_ne m j : j <> m -> one m j = 0.
Proof. intros Hne. unfold one. by rewrite decide_False by congruence. Qed.

Lemma kept_kept_but m w w' : kept w w' -> kept_but m w w'.
Proof. intros Hk j _. apply Hk. Qed.

Lemma kept_but_mem m w w' : w_mem w' = w_mem w -> kept_but m w w'.
Proof. intros Hm j _ _. by rewrite Hm. Qed.

Lemma kept_but_insert m b w w' : w_mem w' = <[m := b]> (w_mem w) -> kept_but m w w'.
Proof. intros Hm j Hj _. by rewrite Hm, lookup_insert_ne. Qed.

Lemma kept_but_trans m w1 w2 w3 :
  kept_but m w1 w2 -> kept_but m w2 w3 -> (forall j, j <> m -> 1 <= held w1 j -> 1 <= held w2 j) ->
  kept_but m w1 w3.
Proof. intros H1 H2 Hh j Hj Hw. rewrite (H2 j Hj) by auto. by apply H1. Qed.

(** The way every frame is started: allocate, append [len] bytes, each with
    its failure path.  On success the new mbuf is held once, is none the
    program held before, has [len] bytes of data and the frame starts at
    offset 0. *)
Lemma ev_new_frame {A} pool len (kn : M A) (kf : nat -> M A) (ks : nat -> nat -> M A) Q d w0 w :
  evolves d w0 w ->
  (forall w', evolves d w0 w' -> mem_le w w' -> w_mem w' = w_mem w -> wp kn Q w') ->
  (forall i w', evolves (fun j => d j + one i j) w0 w' -> is_Some (w_mem w' !! i) -> mem_le w w' ->
     held w i <= 0 -> (forall j, j <> i -> w_mem w' !! j = w_mem w !! j) -> wp (kf i) Q w') ->
  (forall i b w', evolves (fun j => d j + one i j) w0 w' -> w_mem w' !! i = Some b ->
     data_len b = len -> held w i <= 0 -> (forall j, j <> i -> w_mem w' !! j = w_mem w !! j) ->
     mem_le w w' -> wp (ks i O) Q w') ->
  wp (r ← rte_pktmbuf_alloc pool;
      match r with
      | None => kn
      | Some m =>
          o ← rte_pktmbuf_append m len;
          match o with None => kf m | Some off => ks m off end
      end) Q w.
Proof.
  intros He HQn HQf HQs. apply wp_bind, ev_alloc; [ev_ok_tac| |].
  - intros i b _ w1 Hw1 He1 Hi Hb Hlen Hheld. apply wp_bind. eapply wp_append; [exact Hi| |].
    + intros off b' Happ. destruct (append_spec _ _ _ _ _ Happ) as (Hoff & Hdl & Hroom & _).
      assert (Hb' : mbuf_wf b') by (unfold mbuf_wf; by rewrite Hroom).
      replace off with O by lia.
      assert (Hs : evolves (fun _ => 0) w1 (log_event (EvAppend i len true) (set_mem (<[i:=b']> (w_mem w1)) w1))).
      { eapply evolves_seq; [by apply (evolves_store w1 i b'); [apply He1|]|apply evolves_log|];
          [|intros j; reflexivity|intros j; cbn; lia]. split; [apply He1|].
        apply map_Forall_insert_2; [done|apply He1]. }
      apply HQs with b'.
      * eapply evolves_seq; [exact He|eapply evolves_trans; [exact He1|exact Hs]|]. intros j. cbn. lia.
      * cbn. by rewrite lookup_insert_eq.
      * lia.
      * done.
      * intros j Hj. subst w1. cbn. by rewrite !lookup_insert_ne by done.
      * intros j Hj. by apply Hs, He1.
    + assert (Hs : evolves (fun _ => 0) w1 (log_event (EvAppend i len false) w1))
        by (apply evolves_log; [apply He1|done]).
      apply HQf.
      * eapply evolves_seq; [exact He|eapply evolves_trans; [exact He1|exact Hs]|]. intros j. cbn. lia.
      * apply Hs. eauto.
      * intros j Hj. by apply Hs, He1.
      * done.
      * intros j Hj. subst w1. cbn. by rewrite lookup_insert_ne by done.
  - intros w1 Hs Hm1. apply HQn; [|exact (ev_mem _ _ _ Hs)|exact Hm1]. eapply evolves_seq; [exact He|exact Hs|]. intros j. cbn. lia.
Qed.

Lemma ev_mstore_cum m f (Q : unit -> world -> Prop) d w0 w :
  evolves d w0 w -> is_Some (w_mem w !! m) -> keeps f ->
  (forall w', evolves d w0 w' -> mem_le w w' -> Q tt w') ->
  wp (mstore m f) Q w.
Proof.
  intros He Hm Hf HQ. apply ev_mstore; [ev_ok_tac|done|intros b Hb; by apply keeps_room|].
  intros w' Hs. apply HQ; [|exact (ev_mem _ _ _ Hs)]. eapply evolves_seq; [exact He|exact Hs|]. intros j. cbn. lia.
Qed.

(** The same, keeping track of the contents of the memory. *)
Lemma ev_mstore_exact m f b (Q : unit -> world -> Prop) d w0 w :
  evolves d w0 w -> w_mem w !! m = Some b -> keeps f ->
  (forall w', evolves d w0 w' ->
     w_mem w' = <[m := Mbuf (f (room b)) (data_len b) (pkt_len b)]> (w_mem w) ->
     w_trace w' = w_trace w -> Q tt w') ->
  wp (mstore m f) Q w.
Proof.
  intros He Hm Hf HQ. eapply wp_mstore; [exact Hm|].
  pose proof (world_ok_mbuf w m b (ev_ok _ _ _ He) Hm) as Hwf.
  destruct (keeps_room f b Hf Hwf) as [Hl Hok]. destruct Hwf as [Hlen _].
  apply HQ; [|done|done].
  eapply evolves_seq; [exact He|apply evolves_store; [ev_ok_tac|split; cbn; [congruence|done]]|].
  intros j. cbn. lia.
Qed.

Lemma ev_set_lens m n b (Q : unit -> world -> Prop) d w0 w :
  evolves d w0 w -> w_mem w !! m = Some b ->
  (forall w', evolves d w0 w' -> w_mem w' = <[m := Mbuf (room b) n n]> (w_mem w) ->
     w_trace w' = w_trace w -> Q tt w') ->
  wp (set_lens m n) Q w.
Proof.
  intros He Hm HQ. eapply wp_set_lens; [exact Hm|].
  pose proof (world_ok_mbuf w m b (ev_ok _ _ _ He) Hm) as Hwf.
  apply HQ; [|done|done].
  eapply evolves_seq; [exact He|apply evolves_store; [ev_ok_tac|exact Hwf]|].
  intros j. cbn. lia.
Qed.

Lemma mem_le_insert m b w w' : w_mem w' = <[m := b]> (w_mem w) -> mem_le w w'.
Proof. intros He j Hj. rewrite He, lookup_insert_is_Some'. by right. Qed.

Lemma at_off_0 f b : at_off 0 f b = f b.
Proof. done. Qed.

Lemma kept_trans_mem w1 w2 w3 : kept w1 w2 -> w_mem w3 = w_mem w2 -> kept w1 w3.
Proof. intros Hk Hm j Hj. rewrite Hm. by apply Hk. Qed.

Lemma kept_fresh w w' i : held w i <= 0 -> (forall j, j <> i -> w_mem w' !! j = w_mem w !! j) -> kept w w'.
Proof. intros Hi Ho j Hj. apply Ho. intros ->. lia. Qed.

Lemma send_arp_request_ev target port pool (Q : Z -> world -> Prop) d w0 w :
  evolves d w0 w ->
  (forall r w', evolves d w0 w' -> mem_le w w' -> kept w w' -> Q r w') ->
  wp (send_arp_request target port pool) Q w.
Proof.
  intros He HQ. unfold send_arp_request. eapply ev_new_frame; [exact He| | |]; clear He.
  - intros w' He Hle Hm. ev_auto. apply HQ; [done|done|]. intros j _. by rewrite Hm.
  - intros i w' He Hi Hle Hf Ho. apply wp_bind. eapply ev_free_exact; [exact He|]. clear He. intros w1 He Hm1 _.
    ev_auto. apply HQ; [ev_done|intros j Hj; rewrite Hm1; by apply Hle|].
    eapply kept_trans_mem; [by eapply kept_fresh|done].
  - intros i b w' He Hb _ Hf Ho Hle. ev_auto. eapply ev_mstore_exact; [exact He|exact Hb| |].
    { apply keeps_at_off, keeps_arp_request, macaddr_bytes. }
    clear He. intros w2 He Hm2 _. apply wp_bind.
    assert (Hle2 : mem_le w w2) by (eapply mem_le_trans; [exact Hle|by eapply mem_le_insert]).
    assert (Hk2 : kept w w2).
    { eapply kept_fresh; [exact Hf|]. intros j Hj. rewrite Hm2, lookup_insert_ne by done. by apply Ho. }
    assert (Hlast : forall r w', evolves d w0 w' -> w_mem w' = w_mem w2 -> Q r w').
    { intros r w3 He3 Hm3. apply HQ; [done|intros j Hj; rewrite Hm3; by apply Hle2|by eapply kept_trans_mem]. }
    eapply ev_tx_exact; [exact He|rewrite Hm2; apply lookup_insert_eq| |].
    + clear He. intros w3 He Hm3 _. ev_auto. apply Hlast; [ev_done|done].
    + clear He. intros w3 He Hm3 _. change (0 =? 0) with true. cbv iota. apply wp_bind.
      eapply ev_free_exact; [exact He|]. clear He. intros w4 He Hm4 _. ev_auto. apply Hlast; [ev_done|congruence].
Qed.

(** Writing back globals that agree on everything the packet path reads. *)
Lemma ev_put_glob g (Q : unit -> world -> Prop) d w0 w :
  evolves d w0 w -> glob_ok g ->
  g_peer_manager g = g_peer_manager (w_glob w) -> wan_tunnel_src_ip g = wan_tunnel_src_ip (w_glob w) ->
  arp_cache g = arp_cache (w_glob w) ->
  (forall w', evolves d w0 w' -> w_mem w' = w_mem w -> Q tt w') ->
  wp (put_glob g) Q w.
Proof.
  intros He Hg Hpm Hip Harp HQ. apply wp_put_glob, HQ; [|done].
  destruct He as [[_ Hmem] Hle Hpm0 Hip0 Harp0 Hheld]. split; cbn; try done; congruence.
Qed.

Lemma default_mac_ok : bytes_ok DEFAULT_GW_MAC.
Proof. by_dec. Qed.

Lemma resolve_next_hop_ev dst port (Q : Z * list Z -> world -> Prop) d w0 w :
  evolves d w0 w ->
  (forall r mac w', evolves d w0 w' -> w_mem w' = w_mem w -> bytes_ok mac -> length mac = 6%nat -> Q (r, mac) w') ->
  wp (resolve_next_hop dst port) Q w.
Proof.
  intros He HQ. unfold resolve_next_hop. ev_auto. apply arp_cache_lookup_spec; [ev_ok_tac|].
  cbv zeta. pose proof (arp_mac_ok (rte_be_to_cpu_32 dst) w (ev_ok _ _ _ He)) as [Hml Hmac].
  destruct (_ && _); [ev_auto; by apply HQ|].
  rewrite ether_copy. apply wp_bind, wp_bind. eapply ev_rdtsc_exact; [exact He|]. intros t w1 He1 Hm1 Hg1. ev_auto.
  destruct (_ <? _); ev_auto.
  - eapply ev_put_glob; [exact He1|exact (proj1 (ev_ok _ _ _ He1))| | | |]; try done.
    intros w2 He2 Hm2. ev_auto. apply HQ; [ev_done|congruence|apply default_mac_ok|done].
  - apply HQ; [ev_done|done|apply default_mac_ok|done].
Qed.

(** The packet forwarded: only its MAC addresses change. *)
Definition l2_rewritten (src_mac : list Z) (b b' : mbuf) : Prop :=
  exists mac, length mac = 6%nat /\
    b' = Mbuf (set_eth_s_addr src_mac (set_eth_d_addr mac (room b))) (data_len b) (pkt_len b).

Lemma forward_l2_ev m b dst port (Q : unit -> world -> Prop) d w0 w :
  evolves d w0 w -> w_mem w !! m = Some b ->
  (forall b' w', evolves d w0 w' -> mem_le w w' -> kept_but m w w' -> w_mem w' !! m = Some b' ->
     (1 <= held w m -> l2_rewritten (rte_eth_macaddr_get port) b b') -> Q tt w') ->
  wp (forward_l2 m dst port) Q w.
Proof.
  intros He Hm HQ. unfold forward_l2. ev_auto.
  eapply resolve_next_hop_ev; [exact He|]. intros r mac w1 He1 Hm1 Hmac Hml. ev_auto.
  rewrite !ether_copy.
  eapply ev_mstore_exact; [exact He1|rewrite Hm1; exact Hm|by apply keeps_set_mac_d|].
  intros w2 He2 Hm2 Ht2. rewrite Hm1 in Hm2. ev_auto.
  set (b2 := Mbuf (set_eth_d_addr mac (room b)) (data_len b) (pkt_len b)) in *.
  assert (Hle2 : mem_le w w2) by by eapply mem_le_insert.
  assert (Hk2 : kept_but m w w2) by by eapply kept_but_insert.
  assert (Hlast : forall b3 w3, evolves d w0 w3 -> mem_le w w3 -> kept_but m w w3 -> w_mem w3 !! m = Some b3 ->
     (1 <= held w m -> b3 = b2) -> wp (mstore m (set_eth_s_addr (rte_eth_macaddr_get port))) Q w3).
  { intros b3 w3 He3 Hle3 Hk3 Hm3 Hb3.
    eapply ev_mstore_exact; [exact He3|exact Hm3|apply keeps_set_mac_s, macaddr_bytes|].
    intros w4 He4 Hm4 _. eapply HQ; [done| | |rewrite Hm4; apply lookup_insert_eq|].
    - eapply mem_le_trans; [exact Hle3|by eapply mem_le_insert].
    - eapply kept_but_trans; [exact Hk3|by eapply kept_but_insert|].
      intros j _. by rewrite (evolves_held_eq _ _ _ _ _ He3 He).
    - intros Hh. rewrite (Hb3 Hh). by exists mac. }
  destruct (r =? 0); ev_auto.
  - eapply Hlast; [done|done|done|rewrite Hm2; apply lookup_insert_eq|done].
  - eapply send_arp_request_ev; [exact He2|]. intros _ w3 He3 Hle3 Hk3.
    destruct (Hle3 m) as [b3 Hb3]; [rewrite Hm2, lookup_insert_eq; by eexists|].
    eapply Hlast; [done|by eapply mem_le_trans| |exact Hb3|].
    + eapply kept_but_trans; [exact Hk2|by apply kept_kept_but|].
      intros j _. by rewrite (evolves_held_eq _ _ _ _ _ He2 He).
    + intros Hh. assert (Hh2 : 1 <= held w2 m) by by rewrite (evolves_held_eq _ _ _ _ _ He2 He).
      specialize (Hk3 m Hh2). rewrite Hb3, Hm2, lookup_insert_eq in Hk3. by simplify_eq.
Qed.

Definition src_rewritten `{Dpdk} (ip : Z) (b : mbuf) : mbuf :=
  Mbuf (set_ip_cksum 0 (set_ip_src (rte_cpu_to_be_32 ip) (room b))) (data_len b) (pkt_len b).

Lemma wan_fwd_roce_ev m b port (Q : nat -> world -> Prop) d w0 w :
  evolves d w0 w -> w_mem w !! m = Some b ->
  (forall b' w', evolves d w0 w' -> mem_le w w' -> kept_but m w w' -> w_mem w' !! m = Some b' ->
     (1 <= held w m ->
      l2_rewritten (rte_eth_macaddr_get port) (src_rewritten (wan_tunnel_src_ip (w_glob w)) b) b') -> Q m w') ->
  wp (wan_fwd_roce m port) Q w.
Proof.
  intros He Hb HQ. unfold wan_fwd_roce. ev_auto.
  eapply wp_mtod; [exact Hb|]. ev_auto.
  eapply ev_mstore_exact; [exact He|exact Hb|apply keeps_src_rewrite|]. intros w1 He1 Hm1 _.
  ev_auto. eapply forward_l2_ev; [exact He1|rewrite Hm1; apply lookup_insert_eq|].
  intros b' w2 He2 Hle2 Hk2 Hm2 Hl2. ev_auto.
  apply (HQ b'); [done|eapply mem_le_trans; [by eapply mem_le_insert|exact Hle2]| |done|].
  - eapply kept_but_trans; [by eapply kept_but_insert|exact Hk2|].
    intros j _. by rewrite (evolves_held_eq _ _ _ _ _ He1 He).
  - intros Hh. apply Hl2. by rewrite (evolves_held_eq _ _ _ _ _ He1 He).
Qed.

(** Passing a packet through gives up the reference the program held. *)
Lemma wan_fwd_passthrough_ev m port (Q : Z -> world -> Prop) d w0 w :
  evolves d w0 w -> is_Some (w_mem w !! m) ->
  (forall r w', evolves (fun j => d j - one m j) w0 w' -> mem_le w w' -> kept_but m w w' -> Q r w') ->
  wp (wan_fwd_passthrough m port) Q w.
Proof.
  intros He [b Hb] HQ. unfold wan_fwd_passthrough. ev_auto.
  eapply wp_mtod; [exact Hb|]. ev_auto. eapply forward_l2_ev; [exact He|exact Hb|]. clear He.
  intros b1 w1 He Hle Hk Hb1 _. apply wp_bind.
  assert (Hlast : forall r w', evolves (fun j => d j - one m j) w0 w' -> w_mem w' = w_mem w1 -> Q r w').
  { intros r w' He' Hm'. apply HQ; [done|intros j; rewrite Hm'; apply Hle|].
    intros j Hj Hh. rewrite Hm'. by apply Hk. }
  eapply ev_tx_exact; [exact He|exact Hb1| |]; intros w2 He2 Hm2 _.
  - by apply wp_ret, Hlast.
  - change (0 =? 0) with true. cbv iota. apply wp_bind. eapply ev_free_exact; [exact He2|].
    intros w3 He3 Hm3 _. apply wp_ret, Hlast; [done|congruence].
Qed.

Lemma wan_prepare_for_lan_ev m (Q : Z -> world -> Prop) d w0 w :
  evolves d w0 w -> is_Some (w_mem w !! m) ->
  (forall w', evolves d w0 w' -> mem_le w w' -> Q 0 w') ->
  wp (wan_prepare_for_lan m) Q w.
Proof.
  intros He Hm HQ. unfold wan_prepare_for_lan. ev_auto.
  eapply ev_mstore_cum; [exact He|done|apply keeps_src_rewrite|]. intros w1 He1 Hle. ev_auto.
  by apply HQ.
Qed.

End Frames.
