(* ===== verification/ArpCache.v ===== *)
(** * The ARP cache as a map

    [arp_cache_add] and [arp_cache_lookup] of wan_tunnel.c: 128 slots indexed
    by the address modulo 128, a later address evicting an earlier one of the
    same slot. *)

From S2P Require Import Prelude Crc32 PeerManager Env Sim RoceDefs WanTunnel.

(** What the cache knows about an address. *)
Definition arp_known (g : globals) (ip : Z) : option (list Z) :=
  let e := nth (arp_slot ip) (arp_cache g) zero_arp in
  if negb (valid e =? 0) && (ip_addr e =? ip) then Some (mac_addr e) else None.

Lemma arp_slot_lt ip g : glob_ok g -> (arp_slot ip < length (arp_cache g))%nat.
Proof.
  intros [Hl _]. rewrite Hl. unfold arp_slot, ARP_CACHE_SIZE. pose proof (Z.mod_pos_bound ip 128). lia.
Qed.

(** After [arp_cache_add], [arp_cache_lookup]
    finds the MAC just added, has forgotten any other address of the same
    slot, and answers for the other slots as before. *)
Theorem arp_cache_is_direct_mapped `{DpdkSpec} ip mac ip' w :
  world_ok w -> length mac = 6%nat -> bytes_ok mac ->
  wp (arp_cache_add ip mac;; arp_cache_lookup ip') (fun r w' =>
    world_ok w' /\ w_mem w' = w_mem w /\
    r = if decide (ip' = ip) then Some mac
        else if decide (arp_slot ip' = arp_slot ip) then None else arp_known (w_glob w) ip') w.
Proof.
  intros [Hg Hm] Hl Hok. pose proof (arp_slot_lt ip _ Hg) as Hlt. apply wp_bind. unfold arp_cache_add. wp_auto.
  destruct (Hg) as (Hlen & Hf & Hlk & Hcrc & Hpm). rewrite Hlk. wp_auto. rewrite lock_release, ether_copy.
  apply arp_cache_lookup_spec.
  { split; [|exact Hm]. split; cbn; [by rewrite length_insert|]. split; [|done].
    apply Forall_insert; [done|]. done. }
  cbv zeta. split.
  { split; [|exact Hm]. split; cbn; [by rewrite length_insert|]. split; [|done].
    apply Forall_insert; [done|]. done. }
  split; [done|]. cbn [w_glob set_glob arp_cache set_arp_cache log_event].
  rewrite nth_lookup. destruct (decide (ip' = ip)) as [->|Hne].
  - rewrite list_lookup_insert_eq by done. cbn. by rewrite Z.eqb_refl.
  - destruct (decide (arp_slot ip' = arp_slot ip)) as [->|Hs].
    + rewrite list_lookup_insert_eq by done. cbn. by rewrite (proj2 (Z.eqb_neq ip ip')) by congruence.
    + rewrite list_lookup_insert_ne by congruence. unfold arp_known. by rewrite nth_lookup.
Qed.

Lemma arp_cache_is_direct_mapped_witness :
  wp (@arp_cache_add (sim false) 0x0A000205 [2; 0; 0; 0; 0; 9];; @arp_cache_lookup (sim false) 0x0A000205)
     (fun r _ => r = Some [2; 0; 0; 0; 0; 9]) sim_boot.
Proof.
  eapply wp_mono.
  - apply (@arp_cache_is_direct_mapped (sim false) (sim_spec false) 0x0A000205 [2; 0; 0; 0; 0; 9] 0x0A000205 sim_boot);
      [apply sim_boot_ok|done|by_dec].
  - intros r w' (_ & _ & ->). done.
Defined.
