(* ===== verification/Icrc.v ===== *)
(** * The invariant CRC of RoCEv2 frames

    What [roce_icrc] of wan_tunnel.c computes, against the definition of the
    ICRC: a CRC-32 over eight bytes of ones (standing for the absent LRH) and
    the packet from the IP header on, in which the fields a router may change
    count as ones.  Then what the forwarding path does to it. *)

From S2P Require Import Prelude Crc32 PeerManager Env Sim RoceDefs WanTunnel.

(** The reference, bit by bit, on a frame with [n] bytes from the BTH on. *)
Definition icrc_spec (n : nat) (b : list Z) : Z :=
  u32 (Z.lnot (crc_ref 0xFFFFFFFF
    (replicate 8 0xFF ++ slice IP_OFF (IPV4_LEN + UDP_LEN + n) (icrc_mask b)))).

(** The constant [0xdebb20e3] is the CRC state after the eight ones. *)
Lemma icrc_seed : crc_ref 0xFFFFFFFF (replicate 8 0xFF) = 0xdebb20e3.
Proof. by vm_compute. Qed.

Lemma icrc_mask_ok b : bytes_ok b -> bytes_ok (icrc_mask b).
Proof. intros Hb. unfold icrc_mask, set_udp_cksum, set_ip_cksum, set_ip_ttl, set_ip_tos. auto 10 using st_ok. Qed.

Lemma roce_icrc_buf_value s n b :
  crc_statics_ok s -> bytes_ok b -> fst (fst (roce_icrc_buf s n b)) = icrc_spec n b.
Proof.
  intros Hs Hb. unfold roce_icrc_buf, icrc_spec.
  rewrite crc_ref_app, icrc_seed.
  pose proof (crc32_le_slice8_ref s 0xdebb20e3 (slice IP_OFF (IPV4_LEN + UDP_LEN + n) (icrc_mask b)) Hs) as Hr.
  destruct (crc32_le_slice8 _ _ _) as [crc s']. cbn [fst snd] in *.
  destruct Hr as [-> _]; [unfold is_u32; lia|by apply slice_ok, icrc_mask_ok|done].
Qed.

(** The fields masked during the computation are put back. *)
Lemma roce_icrc_buf_restores s n b :
  bytes_ok b -> (BTH_OFF + BTH_LEN <= length b)%nat -> snd (fst (roce_icrc_buf s n b)) = b.
Proof.
  unfold BTH_OFF, BTH_LEN. intros Hb Hl. unfold roce_icrc_buf.
  destruct (crc32_le_slice8 _ _ _) as [crc s']. cbn [fst snd].
  unfold icrc_mask, set_udp_cksum, set_ip_cksum, set_ip_ttl, set_ip_tos,
    ip_tos, ip_ttl, ip_cksum, udp_cksum.
  rewrite (st_comm 1 15 _ 1 46), (st_comm 1 15 _ 2 40), (st_comm 1 15 _ 2 24), (st_comm 1 15 _ 1 22),
    st_st, st_ld by (bufs; done || lia).
  rewrite (st_comm 1 22 _ 1 46), (st_comm 1 22 _ 2 40), (st_comm 1 22 _ 2 24), st_st, st_ld
    by (bufs; done || lia).
  rewrite (st_comm 2 24 _ 1 46), (st_comm 2 24 _ 2 40), st_st, st_ld by (bufs; done || lia).
  rewrite (st_comm 2 40 _ 1 46), !st_st, !st_ld by (bufs; done || lia).
  done.
Qed.

(** Masking forgets the masked fields. *)
Lemma icrc_mask_tos v b : (BTH_OFF + BTH_LEN <= length b)%nat -> icrc_mask (set_ip_tos v b) = icrc_mask b.
Proof.
  unfold BTH_OFF, BTH_LEN, icrc_mask, set_ip_tos. intros Hl. rewrite st_st by lia. done.
Qed.

Lemma icrc_mask_ttl v b : (BTH_OFF + BTH_LEN <= length b)%nat -> icrc_mask (set_ip_ttl v b) = icrc_mask b.
Proof.
  unfold BTH_OFF, BTH_LEN, icrc_mask, set_ip_tos, set_ip_ttl. intros Hl.
  rewrite (st_comm 1 15 _ 1 22), st_st by (bufs; lia). done.
Qed.

Lemma icrc_mask_ip_cksum v b : (BTH_OFF + BTH_LEN <= length b)%nat -> icrc_mask (set_ip_cksum v b) = icrc_mask b.
Proof.
  unfold BTH_OFF, BTH_LEN, icrc_mask, set_ip_tos, set_ip_ttl, set_ip_cksum. intros Hl.
  rewrite (st_comm 1 15 _ 2 24), (st_comm 1 22 _ 2 24), st_st by (bufs; lia). done.
Qed.

Lemma icrc_mask_udp_cksum v b : (BTH_OFF + BTH_LEN <= length b)%nat -> icrc_mask (set_udp_cksum v b) = icrc_mask b.
Proof.
  unfold BTH_OFF, BTH_LEN, icrc_mask, set_ip_tos, set_ip_ttl, set_ip_cksum, set_udp_cksum. intros Hl.
  rewrite (st_comm 1 15 _ 2 40), (st_comm 1 22 _ 2 40), (st_comm 2 24 _ 2 40), st_st by (bufs; lia). done.
Qed.

Lemma icrc_mask_fecn v b : (BTH_OFF + BTH_LEN <= length b)%nat -> icrc_mask (set_bth_fecn v b) = icrc_mask b.
Proof.
  unfold BTH_OFF, BTH_LEN, icrc_mask, set_ip_tos, set_ip_ttl, set_ip_cksum, set_udp_cksum, set_bth_fecn.
  intros Hl.
  rewrite (st_comm 1 15 _ 1 46), (st_comm 1 22 _ 1 46), (st_comm 2 24 _ 1 46), (st_comm 2 40 _ 1 46), st_st
    by (bufs; lia). done.
Qed.

(** A rewritten source address is seen through the mask. *)
Lemma icrc_mask_src v b :
  (BTH_OFF + BTH_LEN <= length b)%nat -> icrc_mask (set_ip_src v b) = set_ip_src v (icrc_mask b).
Proof.
  unfold BTH_OFF, BTH_LEN, icrc_mask, set_ip_tos, set_ip_ttl, set_ip_cksum, set_udp_cksum, set_ip_src.
  intros Hl.
  rewrite (st_comm 1 15 _ 4 26), (st_comm 1 22 _ 4 26), (st_comm 2 24 _ 4 26), (st_comm 2 40 _ 4 26),
    (st_comm 1 46 _ 4 26) by (bufs; lia). done.
Qed.

(** Bytes after the covered part, the ICRC itself among them, do not count. *)
Lemma icrc_spec_trailer n k off v b :
  (42 + n <= off)%nat -> (12 <= n)%nat -> (off + k <= length b)%nat ->
  icrc_spec n (st k off v b) = icrc_spec n b.
Proof.
  intros Hn Hn' Hl. unfold icrc_spec. do 4 f_equal.
  assert (icrc_mask (st k off v b) = st k off v (icrc_mask b)) as ->.
  { unfold icrc_mask, set_ip_tos, set_ip_ttl, set_ip_cksum, set_udp_cksum.
    rewrite (st_comm 1 15 _ k off), (st_comm 1 22 _ k off), (st_comm 2 24 _ k off),
      (st_comm 2 40 _ k off), (st_comm 1 46 _ k off) by (bufs; lia). done. }
  apply slice_st_ne. unfold IP_OFF, IPV4_LEN, UDP_LEN. lia.
Qed.

(** Nor does the Ethernet header. *)
Lemma icrc_spec_eth n off bs b :
  (off + length bs <= 14)%nat -> (BTH_OFF + BTH_LEN <= length b)%nat ->
  icrc_spec n (splice off bs b) = icrc_spec n b.
Proof.
  unfold BTH_OFF, BTH_LEN. intros Ho Hl. unfold icrc_spec. do 4 f_equal.
  assert (icrc_mask (splice off bs b) = splice off bs (icrc_mask b)) as ->.
  { unfold icrc_mask, set_ip_tos, set_ip_ttl, set_ip_cksum, set_udp_cksum, st.
    rewrite (splice_comm 15 _ off), (splice_comm 22 _ off), (splice_comm 24 _ off),
      (splice_comm 40 _ off), (splice_comm 46 _ off) by (bufs; rewrite ?length_le_bytes; lia). done. }
  apply slice_splice_ne. unfold IP_OFF. lia.
Qed.

(** The CRC input around the source address. *)
Lemma icrc_input_split n b :
  slice IP_OFF (IPV4_LEN + UDP_LEN + n) b = slice 14 12 b ++ slice 26 4 b ++ slice 30 (n + 12) b.
Proof.
  unfold IP_OFF, IPV4_LEN, UDP_LEN. replace (20 + 8 + n)%nat with (12 + (4 + (n + 12)))%nat by lia.
  by rewrite !slice_add.
Qed.

Lemma lnot_u32_inj x y : is_u32 x -> is_u32 y -> u32 (Z.lnot x) = u32 (Z.lnot y) -> x = y.
Proof. unfold is_u32, u32, Z.lnot. intros Hx Hy He. zdiv. Qed.

Lemma icrc_spec_src n v b :
  bytes_ok b -> (BTH_OFF + BTH_LEN <= length b)%nat ->
  icrc_spec n (set_ip_src v b) = icrc_spec n b -> le_bytes 4 v = slice 26 4 b.
Proof.
  intros Hb Hl He. pose proof Hl as Hl2. unfold BTH_OFF, BTH_LEN in Hl2.
  pose proof (icrc_mask_ok b Hb) as Hm.
  assert (Hlm : (54 <= length (icrc_mask b))%nat).
  { unfold icrc_mask, set_ip_tos, set_ip_ttl, set_ip_cksum, set_udp_cksum. bufs. lia. }
  assert (Hs : slice 26 4 (icrc_mask b) = slice 26 4 b).
  { unfold icrc_mask, set_ip_tos, set_ip_ttl, set_ip_cksum, set_udp_cksum. by bufs. }
  rewrite <- Hs. unfold icrc_spec in He. rewrite icrc_mask_src in He by done.
  rewrite !icrc_input_split in He. revert He. unfold set_ip_src.
  rewrite (slice_st_ne 14 12 4 26), (slice_st_ne 30 (n + 12) 4 26), slice_st_same by lia.
  intros He.
  assert (Hok : forall off k, bytes_ok (slice off k (icrc_mask b))) by (intros; by apply slice_ok).
  pose proof (le_bytes_ok 4 v) as Hv.
  assert (Hones : bytes_ok (replicate 8 0xFF)) by (by apply Forall_replicate).
  assert (H32 : is_u32 0xFFFFFFFF) by (unfold is_u32; lia).
  apply lnot_u32_inj in He; [|apply crc_ref_u32; [done|];
    repeat (apply Forall_app_2; [done|]); done..].
  rewrite !(app_assoc (replicate 8 0xFF)) in He.
  apply crc_ref_burst in He; [done|done|by apply Forall_app_2|done|done|done| |].
  - by rewrite length_le_bytes, length_slice by lia.
  - rewrite length_le_bytes. lia.
Qed.

(** ** The call *)

Section Call.
Context `{DpdkSpec}.

(** On a packet of the data room [roce_icrc] returns the reference value and
    changes nothing but the CRC tables. *)
Lemma roce_icrc_ev m b n (Q : Z -> world -> Prop) d w0 w :
  evolves d w0 w -> w_mem w !! m = Some b ->
  (forall w', evolves d w0 w' -> w_mem w' = w_mem w -> w_trace w' = w_trace w ->
     Q (icrc_spec n (room b)) w') ->
  wp (roce_icrc m O n) Q w.
Proof.
  intros He Hb HQ. unfold roce_icrc. ev_auto. eapply wp_mtod; [exact Hb|]. ev_auto.
  pose proof (world_ok_mbuf w m b (ev_ok _ _ _ He) Hb) as [Hl Hok].
  destruct (ev_ok _ _ _ He) as [(Ha & Hma & Hlk & Hcrc & Hpm) _].
  pose proof (roce_icrc_buf_value (crc_tables (w_glob w)) n (room b) Hcrc Hok) as Hv.
  assert (Hr : snd (fst (roce_icrc_buf (crc_tables (w_glob w)) n (room b))) = room b).
  { apply roce_icrc_buf_restores; [done|]. rewrite Hl. unfold BTH_OFF, BTH_LEN, DATAROOM. lia. }
  assert (Hs : crc_statics_ok (snd (roce_icrc_buf (crc_tables (w_glob w)) n (room b)))).
  { unfold roce_icrc_buf, crc32_le_slice8. cbn [snd].
    by destruct (crc32_slice_ready _); [|apply init_crc32_slice_ok]. }
  change (drop 0 (room b)) with (room b).
  destruct (roce_icrc_buf _ _ _) as [[crc b'] s]. cbn [fst snd] in *. subst crc b'. ev_auto.
  eapply wp_mstore; [exact Hb|].
  change (at_off 0 (fun _ => room b) (room b)) with (room b). replace (Mbuf (room b) (data_len b) (pkt_len b)) with b by by destruct b.
  rewrite insert_id by done. replace (set_mem (w_mem w) w) with w by by destruct w.
  ev_auto. apply wp_put_glob. ev_auto. apply HQ; [|done|done].
  destruct He as [[_ Hmem] Hle Hpm0 Hip Harp Hheld]. split; done.
Qed.

End Call.

(** ** Properties *)

(** C10 On any packet in an mbuf, [roce_icrc] returns the
    ICRC of the definition (CRC-32 over eight bytes of ones and the packet
    with the variant fields as ones) and puts every masked field back: memory
    and trace are as before the call. *)
Theorem roce_icrc_correct `{DpdkSpec} m b n w :
  world_ok w -> w_mem w !! m = Some b ->
  wp (roce_icrc m 0 n) (fun crc w' =>
    crc = icrc_spec n (room b) /\ w_mem w' = w_mem w /\ w_trace w' = w_trace w /\ world_ok w') w.
Proof.
  intros Hw Hb. eapply roce_icrc_ev; [by apply evolves_refl|exact Hb|].
  intros w' He Hm Ht. split; [done|]. split; [done|]. split; [done|apply He].
Qed.

Lemma roce_icrc_correct_witness :
  wp (roce_icrc 1 0 28)
    (fun crc w' => crc = 2880721905 /\ w_mem w' = w_mem (sim_world [sim_packet 0x0A 17 5]))
    (sim_world [sim_packet 0x0A 17 5]).
Proof.
  eapply wp_mono; [apply (@roce_icrc_correct (sim false) (sim_spec false) 1 (sim_mbuf (sim_packet 0x0A 17 5)) 28)|].
  - apply sim_world_ok. apply Forall_cons_2; [|by apply Forall_nil_2].
    apply sim_packet_ok. unfold byte_ok. lia.
  - by vm_compute.
  - intros crc w' (-> & Hm & _). split; [by vm_compute|done].
Defined.

(** The fields routers rewrite (TOS, TTL, the
    two checksums, the congestion byte of the BTH) do not enter the ICRC. *)
Theorem icrc_ignores_variant_fields n tos ttl ck uck fecn b :
  (BTH_OFF + BTH_LEN <= length b)%nat ->
  icrc_spec n (set_ip_tos tos (set_ip_ttl ttl (set_ip_cksum ck (set_udp_cksum uck (set_bth_fecn fecn b)))))
  = icrc_spec n b.
Proof.
  intros Hl. unfold icrc_spec.
  rewrite icrc_mask_tos, icrc_mask_ttl, icrc_mask_ip_cksum, icrc_mask_udp_cksum, icrc_mask_fecn
    by (unfold set_ip_tos, set_ip_ttl, set_ip_cksum, set_udp_cksum, set_bth_fecn; bufs; exact Hl).
  done.
Qed.

Lemma icrc_ignores_variant_fields_witness :
  icrc_spec 28 (set_ip_tos 3 (set_ip_ttl 9 (set_ip_cksum 77 (set_udp_cksum 88 (set_bth_fecn 0x40 (sim_packet 0x0A 17 5))))))
  = icrc_spec 28 (sim_packet 0x0A 17 5).
Proof. apply icrc_ignores_variant_fields. vm_compute. lia. Defined.

(** C40 Towards the WAN the gateway replaces the
    source address and leaves the ICRC at the end of the packet as it was
    ([n] covered bytes from the BTH on): when the address changes, the ICRC
    the packet carries is no longer its own. *)
Theorem forwarding_invalidates_icrc `{DpdkSpec} m b port n w :
  world_ok w -> w_mem w !! m = Some b -> 1 <= held w m -> (12 <= n)%nat ->
  slice 26 4 (room b) <> be_bytes 4 (wan_tunnel_src_ip (w_glob w)) ->
  wp (wan_fwd_roce m port) (fun _ w' => exists b', w_mem w' !! m = Some b' /\
    slice (BTH_OFF + n) 4 (room b') = slice (BTH_OFF + n) 4 (room b) /\
    icrc_spec n (room b') <> icrc_spec n (room b)) w.
Proof.
  intros Hw Hb Hh Hn Hne. eapply wan_fwd_roce_ev; [by apply evolves_refl|exact Hb|].
  intros b' w' He Hle _ Hb' Hl2. exists b'. split; [done|]. destruct (Hl2 Hh) as (mac & Hmac & ->).
  destruct (world_ok_mbuf w m b Hw Hb) as [Hlen Hok]. unfold DATAROOM in Hlen.
  cbn [room src_rewritten]. pose proof (macaddr_length port) as Hml.
  assert (Hout : forall off k, (14 <= off)%nat -> forall r,
            slice off k (set_eth_s_addr (rte_eth_macaddr_get port) (set_eth_d_addr mac r)) = slice off k r).
  { intros off k Ho r. unfold set_eth_s_addr, set_eth_d_addr. rewrite !slice_splice_ne by lia. done. }
  split.
  - rewrite Hout by (unfold BTH_OFF; lia). unfold set_ip_cksum, set_ip_src, BTH_OFF.
    by rewrite !slice_st_ne by lia.
  - intros Hicrc.
    unfold set_eth_s_addr, set_eth_d_addr, set_ip_cksum, set_ip_src in Hicrc.
    rewrite !icrc_spec_eth in Hicrc by (unfold BTH_OFF, BTH_LEN; bufs; lia).
    unfold icrc_spec in Hicrc at 1. fold (set_ip_cksum 0 (set_ip_src (rte_cpu_to_be_32 (wan_tunnel_src_ip (w_glob w))) (room b))) in Hicrc.
    rewrite icrc_mask_ip_cksum in Hicrc by (unfold set_ip_src, BTH_OFF, BTH_LEN; bufs; lia).
    apply icrc_spec_src in Hicrc; [|done|unfold BTH_OFF, BTH_LEN; lia].
    apply Hne. rewrite <- Hicrc. apply be_32_out.
Qed.

Lemma forwarding_invalidates_icrc_witness :
  wp (@wan_fwd_roce (sim false) 1 1) (fun _ w' => exists b', w_mem w' !! 1%nat = Some b' /\
    icrc_spec 24 (room b') <> icrc_spec 24 (room (sim_mbuf (sim_packet 0x0A 17 5))))
    (sim_world [sim_packet 0x0A 17 5]).
Proof.
  eapply wp_mono; [apply (@forwarding_invalidates_icrc (sim false) (sim_spec false) 1 (sim_mbuf (sim_packet 0x0A 17 5)) 1 24)|].
  - apply sim_world_ok. apply Forall_cons_2; [|by apply Forall_nil_2].
    apply sim_packet_ok. unfold byte_ok. lia.
  - by vm_compute.
  - by vm_compute.
  - lia.
  - vm_compute. discriminate.
  - intros r w' (b' & Hb' & _ & Hne). by exists b'.
Defined.
