(* ===== verification/Congestion.v ===== *)
(** * congestion.c: buffer watermarks and congestion notification packets

    [cc_init], [cc_check_buffer], [cc_cnp_due] and [cc_build_cnp].  The code
    names the field [cc->congestion_detected]; the only field of that name is
    in [cnp_ctx], and that is the one modelled. *)

From S2P Require Import Prelude Crc32 PeerManager Env Sim RoceDefs WanTunnel Icrc.

Definition BUFFER_HIGH_WATER : Z := 80.
Definition BUFFER_LOW_WATER : Z := 60.
Definition CNP_TIMER_US : Z := 50.

(** ** State *)

Record cnp_context := CnpContext {
  total_cnp_sent : Z;
  congestion_detected : Z }.

Record congestion_control := CongestionControl {
  buffer_usage_percent : Z;
  high_water_mark : Z;
  low_water_mark : Z;
  last_rate_reduce_time : Z;
  current_tx_rate : Z;
  cnp_src_ip : Z;
  cnp_timer_cycles : Z;
  cnp_ctx : cnp_context;
  queue_overflow_count : Z }.

Definition zero_cc : congestion_control := CongestionControl 0 0 0 0 0 0 0 (CnpContext 0 0) 0.

Definition set_usage (p d : Z) (cc : congestion_control) : congestion_control :=
  CongestionControl p (high_water_mark cc) (low_water_mark cc) (last_rate_reduce_time cc)
    (current_tx_rate cc) (cnp_src_ip cc) (cnp_timer_cycles cc)
    (CnpContext (total_cnp_sent (cnp_ctx cc)) d) (queue_overflow_count cc).

Definition set_cnp_sent (n : Z) (cc : congestion_control) : congestion_control :=
  CongestionControl (buffer_usage_percent cc) (high_water_mark cc) (low_water_mark cc)
    (last_rate_reduce_time cc) (current_tx_rate cc) (cnp_src_ip cc) (cnp_timer_cycles cc)
    (CnpContext n (congestion_detected (cnp_ctx cc))) (queue_overflow_count cc).

(** ** Watermarks and pacing *)

(** The third argument is the global [wan_tunnel_src_ip]. *)
Definition cc_init `{Dpdk} (high_watermark low_watermark src_ip : Z) : congestion_control :=
  CongestionControl 0
    (if 0 <? high_watermark then high_watermark else BUFFER_HIGH_WATER)
    (if 0 <? low_watermark then low_watermark else BUFFER_LOW_WATER)
    0 100 src_ip (u64 (rte_get_timer_hz * CNP_TIMER_US) / 1000000) (CnpContext 0 0) 0.

Definition cc_check_buffer (cc : congestion_control) (used_buffers total_buffers : Z)
    : Z * congestion_control :=
  if total_buffers =? 0 then (0, cc)
  else
    let percent := u32 (used_buffers * 100) / total_buffers in
    if high_water_mark cc <=? percent then (1, set_usage percent 1 cc)
    else
      let d := if percent <=? low_water_mark cc then 0 else congestion_detected (cnp_ctx cc) in
      (d, set_usage percent d cc).

Definition cc_cnp_due (cc : congestion_control) (last_cnp_tsc now : Z) : bool :=
  cnp_timer_cycles cc <=? u64 (now - last_cnp_tsc).

(** ** The CNP *)

Definition CNP_SIZE : Z := 74.

Section Frame.
Context `{Dpdk}.

(** The stores before the ICRC. *)
Definition cnp_frame (src_ip qpn dst_ip pkey : Z) (b : list Z) : list Z :=
  let b := splice 0 (replicate (Z.to_nat CNP_SIZE) 0) b in
  let b := set_ether_type (rte_cpu_to_be_16 RTE_ETHER_TYPE_IPV4) b in
  let b := build_ipv4_udp src_ip dst_ip (rte_cpu_to_be_16 4791) (rte_cpu_to_be_16 4791) 60 40 b in
  let b := set_bth_opcode ROCE_OPCODE_CNP b in
  let b := set_bth_pkey pkey b in
  bth_set_qpn (Z.land qpn 0x00FFFFFF) b.

Definition cc_build_cnp (cc : congestion_control) (qpn dst_ip pkey pool : Z)
    : M (option nat * congestion_control) :=
  r ← rte_pktmbuf_alloc pool;
  match r with
  | None => mret (None, cc)
  | Some m =>
      d ← rte_pktmbuf_append m CNP_SIZE;
      match d with
      | None => rte_pktmbuf_free (Some m);; mret (None, cc)
      | Some off =>
          mstore m (at_off off (cnp_frame (cnp_src_ip cc) qpn dst_ip pkey));;
          crc ← roce_icrc m off 28;
          mstore m (at_off off (st 4 70 (rte_cpu_to_be_32 crc)));;
          set_lens m CNP_SIZE;;
          mret (Some m, set_cnp_sent (u64 (total_cnp_sent (cnp_ctx cc) + 1)) cc)
      end
  end.

End Frame.

(** ** Specifications *)

(** The detector as a specification: a threshold pair with memory. *)
Inductive hysteresis (high low percent : Z) : Z -> Z -> Prop :=
  | hyst_on d : high <= percent -> hysteresis high low percent d 1
  | hyst_off d : percent < high -> percent <= low -> hysteresis high low percent d 0
  | hyst_keep d : percent < high -> low < percent -> hysteresis high low percent d d.

Section Cnp.
Context `{DpdkSpec}.

Lemma keeps_cnp_frame src qpn dst pkey : keeps (cnp_frame src qpn dst pkey).
Proof.
  unfold cnp_frame, set_ether_type, set_bth_opcode, set_bth_pkey, bth_set_qpn. cbv zeta.
  assert (bytes_ok (replicate (Z.to_nat CNP_SIZE) 0)) by (by apply Forall_replicate).
  auto 20 using keeps_build_ipv4_udp with gw.
Qed.

(** The bytes of a finished CNP, whatever the mbuf held before. *)
Definition cnp_bytes (src_ip qpn dst_ip pkey : Z) (b0 : list Z) : list Z :=
  let b := cnp_frame src_ip qpn dst_ip pkey b0 in st 4 70 (rte_cpu_to_be_32 (icrc_spec 28 b)) b.

Lemma cc_build_cnp_ev cc qpn dst pkey pool (Q : option nat * congestion_control -> world -> Prop) d w0 w :
  evolves d w0 w ->
  (forall w', evolves d w0 w' -> mem_le w w' -> kept w w' -> Q (None, cc) w') ->
  (forall i b0 b w', evolves (fun j => d j + one i j) w0 w' -> held w i <= 0 -> mem_le w w' ->
     (forall j, j <> i -> w_mem w' !! j = w_mem w !! j) -> length b0 = DATAROOM -> bytes_ok b0 ->
     w_mem w' !! i = Some b -> room b = cnp_bytes (cnp_src_ip cc) qpn dst pkey b0 ->
     data_len b = CNP_SIZE ->
     Q (Some i, set_cnp_sent (u64 (total_cnp_sent (cnp_ctx cc) + 1)) cc) w') ->
  wp (cc_build_cnp cc qpn dst pkey pool) Q w.
Proof.
  intros He HQn HQs. unfold cc_build_cnp. eapply ev_new_frame; [exact He| | |]; clear He.
  - intros w' He Hle Hm. ev_auto. apply HQn; [done|done|]. intros j _. by rewrite Hm.
  - intros i w' He Hi Hle Hf Ho. apply wp_bind. eapply ev_free_exact; [exact He|]. clear He.
    intros w1 He Hm1 _. ev_auto. apply HQn; [ev_done|intros j Hj; rewrite Hm1; by apply Hle|].
    eapply kept_trans_mem; [by eapply kept_fresh|done].
  - intros i b w' He Hb Hlen Hheld Hother Hle. ev_auto.
    eapply ev_mstore_exact; [exact He|exact Hb|apply keeps_at_off, keeps_cnp_frame|].
    intros w1 He1 Hm1 _. rewrite at_off_0 in Hm1. ev_auto.
    eapply roce_icrc_ev; [exact He1|rewrite Hm1; apply lookup_insert_eq|].
    intros w2 He2 Hm2 _. rewrite Hm1 in Hm2. ev_auto. cbn [room].
    eapply ev_mstore_exact; [exact He2|rewrite Hm2; apply lookup_insert_eq| |].
    { apply keeps_at_off. apply (keeps_st 4 70 _ (fun b => b)), keeps_id. }
    intros w3 He3 Hm3 _. rewrite Hm2, insert_insert_eq, at_off_0 in Hm3. cbn [room] in Hm3. ev_auto.
    eapply ev_set_lens; [exact He3|rewrite Hm3; apply lookup_insert_eq|].
    intros w4 He4 Hm4 _. rewrite Hm3, insert_insert_eq in Hm4. ev_auto.
    apply (HQs i (room b) (Mbuf (cnp_bytes (cnp_src_ip cc) qpn dst pkey (room b)) CNP_SIZE CNP_SIZE));
      try done.
    + eapply mem_le_trans; [exact Hle|]. by eapply mem_le_insert.
    + intros j Hj. rewrite Hm4, lookup_insert_ne by done. by apply Hother.
    + by apply (world_ok_mbuf w' i b (ev_ok _ _ _ He) Hb).
    + by apply (world_ok_mbuf w' i b (ev_ok _ _ _ He) Hb).
    + rewrite Hm4. apply lookup_insert_eq.
Qed.

(** What the bytes say. *)
Lemma cnp_bytes_fields src qpn dst pkey b0 :
  length b0 = DATAROOM -> bytes_ok b0 -> is_u32 src -> is_u32 dst -> 0 <= pkey < 2 ^ 16 ->
  0 <= qpn < MAX_PSN ->
  let b := cnp_bytes src qpn dst pkey b0 in
  ip_src b = src /\ ip_dst b = dst /\ bth_opcode b = ROCE_OPCODE_CNP /\ bth_pkey b = pkey /\
  bth_get_qpn b = qpn /\ bth_get_psn b = 0 /\ slice 36 2 b = be_bytes 2 4791 /\
  slice 70 4 b = be_bytes 4 (icrc_spec 28 b).
Proof.
  intros Hl Hok Hsrc Hdst Hpk Hq. unfold DATAROOM in Hl.
  assert (Hok' : bytes_ok (cnp_frame src qpn dst pkey b0)) by (by apply keeps_cnp_frame).
  cbv zeta. unfold cnp_bytes.
  rewrite bth_get_qpn_bytes, bth_get_psn_bytes by (by apply st_ok).
  assert (Hlf : length (cnp_frame src qpn dst pkey b0) = 2048%nat) by (rewrite (proj1 (keeps_cnp_frame _ _ _ _ _ Hok)); done).
  rewrite icrc_spec_trailer by (rewrite ?Hlf; lia).
  unfold ip_src, ip_dst, bth_opcode, bth_pkey.
  rewrite !(ld_st_ne _ _ 4 70), !(slice_st_ne _ _ 4 70) by lia.
  rewrite slice_st_same by (rewrite Hlf; lia). rewrite be_32_out.
  unfold cnp_frame at 1 2 3 4 5 6 7 8 9 10 11. cbv zeta. unfold build_ipv4_udp. cbv zeta.
  unfold set_ether_type, set_bth_opcode, set_bth_pkey, bth_set_qpn.
  bufs. rewrite !ld_memset by (unfold CNP_SIZE; lia).
  split; [by apply Z.mod_small|]. split; [by apply Z.mod_small|]. split; [done|].
  split; [by apply Z.mod_small|]. 
  split; [|split; [done|split; [|done]]].
  - rewrite split24, psn_mask_mod. rewrite Z.mod_mod by done. by apply Z.mod_small.
  - apply be_16_out.
Qed.

End Cnp.

(** ** Properties *)

(** C21 As long as [used * 100] fits in 32 bits,
    [cc_check_buffer] is a two-threshold detector: congestion is raised at the
    high mark, cleared at the low mark, and kept in between; it returns the
    flag it stores, the percentage is exact and the marks do not change. *)
Theorem cc_check_buffer_hysteresis cc used total :
  0 < total -> 0 <= used -> used * 100 < 2 ^ 32 ->
  let '(r, cc') := cc_check_buffer cc used total in
  r = congestion_detected (cnp_ctx cc') /\ buffer_usage_percent cc' = used * 100 / total /\
  hysteresis (high_water_mark cc) (low_water_mark cc) (used * 100 / total)
    (congestion_detected (cnp_ctx cc)) (congestion_detected (cnp_ctx cc')) /\
  high_water_mark cc' = high_water_mark cc /\ low_water_mark cc' = low_water_mark cc.
Proof.
  intros Ht Hu Hov. unfold cc_check_buffer. destruct (Z.eqb_spec total 0); [lia|].
  rewrite u32_small by (unfold is_u32; lia).
  destruct (Z.leb_spec (high_water_mark cc) (used * 100 / total));
    [|destruct (Z.leb_spec (used * 100 / total) (low_water_mark cc))];
    (do 2 (split; [done|]); split; [by constructor|done]).
Qed.

(** Up through 80%, then down to 70%: still congested. *)
Lemma cc_check_buffer_hysteresis_witness :
  let cc1 := snd (cc_check_buffer (@cc_init (sim false) 0 0 0xC0000201) 80 100) in
  hysteresis 80 60 70 1 (fst (cc_check_buffer cc1 70 100)).
Proof.
  intros cc1. pose proof (cc_check_buffer_hysteresis cc1 70 100 ltac:(lia) ltac:(lia) ltac:(lia)) as Hh.
  destruct (cc_check_buffer cc1 70 100) as [r cc2] eqn:E. destruct Hh as (-> & _ & Hh & _). exact Hh.
Defined.

(** C16 [cc_build_cnp] either returns NULL with nothing
    changed (and the mbuf, if any, given back), or a 74-byte congestion
    notification held once: from the gateway's address to the notified host,
    UDP port 4791, opcode CNP, the flow's QPN and partition key, PSN 0, and
    a matching ICRC in its last four bytes; the sent counter is advanced. *)
Theorem cnp_frame_correct `{DpdkSpec} cc qpn dst pkey pool w :
  world_ok w -> is_u32 (cnp_src_ip cc) -> is_u32 dst -> 0 <= pkey < 2 ^ 16 -> 0 <= qpn < MAX_PSN ->
  wp (cc_build_cnp cc qpn dst pkey pool) (fun r w' =>
    match fst r with
    | None => snd r = cc /\ forall j, held w' j = held w j
    | Some i =>
        total_cnp_sent (cnp_ctx (snd r)) = u64 (total_cnp_sent (cnp_ctx cc) + 1) /\
        (forall j, held w' j = held w j + one i j) /\
        exists m, w_mem w' !! i = Some m /\ data_len m = 74 /\
          let b := room m in
          ip_src b = cnp_src_ip cc /\ ip_dst b = dst /\ bth_opcode b = ROCE_OPCODE_CNP /\ bth_pkey b = pkey /\
          bth_get_qpn b = qpn /\ bth_get_psn b = 0 /\ slice 36 2 b = be_bytes 2 4791 /\
          slice 70 4 b = be_bytes 4 (icrc_spec 28 b)
    end) w.
Proof.
  intros Hw Hsrc Hdst Hpk Hq. eapply cc_build_cnp_ev; [by apply evolves_refl| |].
  - intros w' He _ _. split; [done|]. intros j. rewrite (ev_held _ _ _ He j). lia.
  - intros i b0 b w' He _ _ _ Hl Hok Hb Hroom Hlen. split; [done|].
    split; [intros j; rewrite (ev_held _ _ _ He j); lia|].
    exists b. split; [done|]. split; [done|]. cbv zeta. rewrite Hroom. by apply cnp_bytes_fields.
Qed.

Lemma cnp_frame_correct_witness :
  wp (@cc_build_cnp (sim false) (@cc_init (sim false) 0 0 0x010200C0) 17 0x0701000A 0xFFFF 7)
     (fun r _ => fst r = None \/ total_cnp_sent (cnp_ctx (snd r)) = 1) sim_boot.
Proof.
  eapply wp_mono.
  - apply (@cnp_frame_correct (sim false) (sim_spec false) (@cc_init (sim false) 0 0 0x010200C0) 17 0x0701000A 0xFFFF 7);
      [apply sim_boot_ok|unfold is_u32; cbn; lia|unfold is_u32; lia|lia|unfold MAX_PSN; lia].
  - intros [[i|] cc] w' Hr; [right; destruct Hr as [Ht _]; exact Ht|by left].
Defined.
