(* ===== verification/ArqMsg.v ===== *)
(** * arq.c: the ARQ control messages

    [arq_build_ctrl_msg] and [arq_parse_ctrl_msg].  [arq_control_msg_t] is
    not packed: on x86-64 three bytes of padding follow [type]. *)

From S2P Require Import Prelude Crc32 PeerManager Env Sim RoceDefs Arq WanTunnel.

Definition ARQ_MAGIC : Z := 0x41525130.
Definition ARQ_MSG_ACK : Z := 1.
Definition ARQ_MSG_NACK : Z := 2.

(** [msg_psn_list] holds the entries that are written. *)
Record arq_control_msg := ArqMsg {
  magic : Z;
  msg_type : Z;
  msg_qpn : Z;
  msg_psn : Z;
  msg_count : Z;
  msg_psn_list : list Z }.

(** Field offsets from the start of the frame, and [sizeof]. *)
Definition MSG_MAGIC : nat := 42.
Definition MSG_TYPE : nat := 46.
Definition MSG_QPN : nat := 50.
Definition MSG_PSN : nat := 54.
Definition MSG_COUNT : nat := 58.
Definition MSG_LIST : nat := 62.
Definition ARQ_MSG_SIZE : Z := 318.

Section Operations.
Context `{Dpdk}.

(** [msg->psn_list[i] = ...] from [off] on. *)
Fixpoint st_words (off : nat) (ws b : list Z) : list Z :=
  match ws with
  | [] => b
  | w :: ws => st_words (off + 4) ws (st 4 off (rte_cpu_to_be_32 w) b)
  end.

Fixpoint ld_words (off n : nat) (b : list Z) : list Z :=
  match n with
  | O => []
  | S n => rte_be_to_cpu_32 (ld 4 off b) :: ld_words (off + 4) n b
  end.

(** [i < count && i < MAX_RETX_BURST] *)
Definition list_rounds (count : Z) : nat := Z.to_nat (Z.min count MAX_RETX_BURST).

Definition ctrl_frame (mac : list Z) (src_ip qpn type p dst_ip : Z) (psn_list : option (list Z))
    (count : Z) (b : list Z) : list Z :=
  let b := set_eth_d_addr (rte_ether_addr_copy mac) b in
  let b := set_ether_type (rte_cpu_to_be_16 RTE_ETHER_TYPE_IPV4) b in
  let b := build_ipv4_udp src_ip dst_ip (rte_cpu_to_be_16 ARQ_CTRL_PORT)
             (rte_cpu_to_be_16 ARQ_CTRL_PORT) 304 284 b in
  let b := st 4 MSG_MAGIC (rte_cpu_to_be_32 ARQ_MAGIC) b in
  let b := st 1 MSG_TYPE type b in
  let b := st 4 MSG_QPN (rte_cpu_to_be_32 qpn) b in
  let b := st 4 MSG_PSN (rte_cpu_to_be_32 p) b in
  let b := st 4 MSG_COUNT (rte_cpu_to_be_32 count) b in
  match psn_list with
  | Some l =>
      if 0 <? count
      then st_words MSG_LIST ((fun i => nth i l 0) <$> seq 0 (list_rounds count)) b
      else b
  | None => b
  end.

Definition arq_build_ctrl_msg (qpn type p dst_ip : Z) (psn_list : option (list Z)) (count pool : Z)
    : M (option nat) :=
  r ← rte_pktmbuf_alloc pool;
  match r with
  | None => mret None
  | Some m =>
      d ← rte_pktmbuf_append m ARQ_MSG_SIZE;
      match d with
      | None => rte_pktmbuf_free (Some m);; mret None
      | Some off =>
          a ← arp_cache_lookup dst_ip;
          let mac := match a with Some mac => mac | None => replicate 6 0xFF end in
          g ← get_glob;
          mstore m (at_off off
            (ctrl_frame mac (wan_tunnel_src_ip g) qpn type p dst_ip psn_list count));;
          set_lens m ARQ_MSG_SIZE;;
          mret (Some m)
      end
  end.

(** [None] is the return value -1. *)
Definition parse_ctrl (b : list Z) : option arq_control_msg :=
  if rte_be_to_cpu_32 (ld 4 MSG_MAGIC b) =? ARQ_MAGIC then
    let count := rte_be_to_cpu_32 (ld 4 MSG_COUNT b) in
    Some (ArqMsg (rte_be_to_cpu_32 (ld 4 MSG_MAGIC b)) (ld 1 MSG_TYPE b)
            (rte_be_to_cpu_32 (ld 4 MSG_QPN b)) (rte_be_to_cpu_32 (ld 4 MSG_PSN b)) count
            (ld_words MSG_LIST (list_rounds count) b))
  else None.

Definition arq_parse_ctrl_msg (m : nat) : M (option arq_control_msg) :=
  b ← mtod m; mret (parse_ctrl b).

End Operations.

(** ** Round trip *)

Section Messages.
Context `{DpdkSpec}.

Lemma be_32_roundtrip v : rte_be_to_cpu_32 (rte_cpu_to_be_32 v mod 2 ^ 32) = u32 v.
Proof.
  rewrite be_32_in. change (2 ^ 32) with (2 ^ (8 * Z.of_nat 4)). rewrite le_bytes_mod, be_32_out.
  apply be_val_be_bytes.
Qed.

Lemma length_st_words off ws b : length (st_words off ws b) = length b.
Proof. revert off b. induction ws as [|v ws IH]; intros off b; [done|]. cbn [st_words]. by rewrite IH, length_st. Qed.

Lemma ld_st_words_ne n off' off ws b :
  (off' + n <= off)%nat -> ld n off' (st_words off ws b) = ld n off' b.
Proof.
  revert off b. induction ws as [|v ws IH]; intros off b Ho; [done|]. cbn [st_words].
  rewrite IH by lia. apply ld_st_ne. lia.
Qed.

Lemma ld_words_st_words off ws b :
  (off + 4 * length ws <= length b)%nat -> ld_words off (length ws) (st_words off ws b) = u32 <$> ws.
Proof.
  revert off b. induction ws as [|v ws IH]; intros off b Hl; [done|]. cbn [length] in Hl.
  cbn [st_words ld_words length]. rewrite fmap_cons.
  rewrite IH by (rewrite length_st; lia). f_equal.
  rewrite ld_st_words_ne, ld_st_same by lia. apply be_32_roundtrip.
Qed.

Lemma keeps_st_words off ws f : keeps f -> keeps (fun b => st_words off ws (f b)).
Proof.
  revert off f. induction ws as [|v ws IH]; intros off f Hf; [done|]. cbn [st_words].
  apply (IH (off + 4)%nat (fun b => st 4 off (rte_cpu_to_be_32 v) (f b))). by apply keeps_st.
Qed.

Lemma keeps_ctrl_frame mac src qpn type p dst l count :
  bytes_ok mac -> keeps (ctrl_frame mac src qpn type p dst l count).
Proof.
  intros Hm. unfold ctrl_frame, set_eth_d_addr, set_ether_type. cbv zeta. rewrite ether_copy.
  destruct l as [l|]; [destruct (0 <? count); [apply keeps_st_words|]|];
    auto 20 using keeps_build_ipv4_udp with gw.
Qed.

Lemma nth_seq_take (l : list Z) n : (n <= length l)%nat -> (fun i => nth i l 0) <$> seq 0 n = take n l.
Proof.
  intros Hn. apply list_eq. intros i. rewrite list_lookup_fmap, lookup_take. case_decide.
  - rewrite lookup_seq_lt by lia. cbn. rewrite nth_lookup.
    destruct (lookup_lt_is_Some_2 l i) as [x ->]; [lia|done].
  - by rewrite lookup_seq_ge by lia.
Qed.

(** What the receiver reads of a frame the sender wrote. *)
Lemma parse_ctrl_frame mac src qpn type p dst l count b :
  length b = DATAROOM -> length mac = 6%nat -> 0 <= type < 256 ->
  is_u32 qpn -> is_u32 p -> Z.of_nat (length l) = count -> is_u32 count -> Forall is_u32 l ->
  parse_ctrl (ctrl_frame mac src qpn type p dst (Some l) count b) =
  Some (ArqMsg ARQ_MAGIC type qpn p count (take 64 l)).
Proof.
  intros Hl Hmac Ht Hq Hp Hc Hcount Hf. unfold DATAROOM in Hl.
  assert (Hr : list_rounds count = length (take 64 l)).
  { unfold list_rounds, MAX_RETX_BURST. rewrite length_take. lia. }
  assert (Hsrc : (fun i => nth i l 0) <$> seq 0 (list_rounds count) = take 64 l).
  { rewrite nth_seq_take, Hr by (rewrite Hr, length_take; lia). rewrite length_take.
    destruct (Nat.min_spec 64 (length l)) as [[? ->]|[? ->]]; [done|]. rewrite !take_ge by lia. done. }
  unfold ctrl_frame. cbv zeta. unfold parse_ctrl. rewrite Hsrc.
  unfold MSG_MAGIC, MSG_TYPE, MSG_QPN, MSG_PSN, MSG_COUNT, MSG_LIST, build_ipv4_udp, set_eth_d_addr,
    set_ether_type. cbv zeta.
  assert (Hwords : forall b', length b' = 2048%nat ->
            ld_words 62 (list_rounds count) (if 0 <? count then st_words 62 (take 64 l) b' else b') = take 64 l).
  { intros b' Hb'. destruct (Z.ltb_spec 0 count) as [Hpos|Hneg].
    - rewrite Hr, ld_words_st_words by (rewrite length_take; lia).
      etransitivity; [|apply list_fmap_id]. apply list_fmap_ext. intros i x Hx. apply u32_small.
      apply lookup_take_Some in Hx as [Hx _]. by apply (Forall_lookup_1 _ _ _ _ Hf Hx).
    - destruct l; [by rewrite Hr|]. cbn in Hc. lia. }
  rewrite (ether_copy mac).
  assert (Hhead : forall n off b', (off + n <= 62)%nat ->
            ld n off (if 0 <? count then st_words 62 (take 64 l) b' else b') = ld n off b').
  { intros n off b' Ho. destruct (0 <? count); [by apply ld_st_words_ne|done]. }
  rewrite !Hhead by lia. bufs. rewrite !be_32_roundtrip.
  rewrite (u32_small qpn), (u32_small p), (u32_small count) by done.
  rewrite Hwords by (bufs; done). change (u32 ARQ_MAGIC =? ARQ_MAGIC) with true.
  cbn [Z.of_nat]. change (u32 ARQ_MAGIC) with ARQ_MAGIC. do 2 f_equal. by apply Z.mod_small.
Qed.

(** The empty list the gateway itself sends. *)
Lemma parse_ctrl_frame_none mac src qpn type p dst b :
  length b = DATAROOM -> length mac = 6%nat -> 0 <= type < 256 -> is_u32 qpn -> is_u32 p ->
  parse_ctrl (ctrl_frame mac src qpn type p dst None 0 b) = Some (ArqMsg ARQ_MAGIC type qpn p 0 []).
Proof.
  intros Hl Hmac Ht Hq Hp.
  apply (parse_ctrl_frame mac src qpn type p dst [] 0 b); try done.
Qed.

(** The call, on every path. *)
Lemma arq_build_ctrl_msg_ev qpn type p dst l count pool (Q : option nat -> world -> Prop) d w0 w :
  evolves d w0 w ->
  (forall w', evolves d w0 w' -> mem_le w w' -> Q None w') ->
  (forall i b0 mac b w', evolves (fun j => d j + one i j) w0 w' -> held w i <= 0 -> mem_le w w' ->
     (forall j, j <> i -> w_mem w' !! j = w_mem w !! j) -> length b0 = DATAROOM -> length mac = 6%nat ->
     w_mem w' !! i = Some b -> data_len b = ARQ_MSG_SIZE ->
     room b = ctrl_frame mac (wan_tunnel_src_ip (w_glob w)) qpn type p dst l count b0 ->
     Q (Some i) w') ->
  wp (arq_build_ctrl_msg qpn type p dst l count pool) Q w.
Proof.
  intros He HQn HQs. unfold arq_build_ctrl_msg.
  eapply ev_new_frame; [exact He| | |].
  - intros w' He' Hle Hm. ev_auto. by apply HQn.
  - intros i w' He' Hi Hle Hf Ho. clear He. ev_auto. apply HQn; [ev_done|ev_le].
  - intros i b w' He' Hb Hlen Hheld Hother Hle.
    assert (Hip : wan_tunnel_src_ip (w_glob w') = wan_tunnel_src_ip (w_glob w)).
    { by rewrite (ev_ip _ _ _ He'), (ev_ip _ _ _ He). }
    clear He. ev_auto. apply arp_cache_lookup_spec; [ev_ok_tac|]. cbv zeta.
    pose proof (arp_mac_ok dst w' (ev_ok _ _ _ He')) as Ha. cbv zeta in Ha.
    match goal with |- context [match ?r with Some m => m | None => ?x end] =>
      set (mac := match r with Some m => m | None => x end) end.
    assert (Hmac : length mac = 6%nat /\ bytes_ok mac).
    { subst mac. destruct (_ && _); [exact Ha|]. split; [done|by apply (Forall_replicate _ 6 0xFF)]. }
    clearbody mac. destruct Hmac as [Hml Hmok]. ev_auto.
    eapply ev_mstore_exact; [exact He'|exact Hb|by apply keeps_at_off, keeps_ctrl_frame|].
    intros w1 He1 Hm1 _. rewrite at_off_0 in Hm1. ev_auto.
    eapply ev_set_lens; [exact He1|rewrite Hm1; apply lookup_insert_eq|].
    intros w2 He2 Hm2 _. rewrite Hm1, insert_insert_eq in Hm2. cbn [room] in Hm2. ev_auto.
    eapply (HQs i (room b) mac (Mbuf (ctrl_frame mac (wan_tunnel_src_ip (w_glob w')) qpn type p dst l count (room b))
              ARQ_MSG_SIZE ARQ_MSG_SIZE)); try done.
    + eapply mem_le_trans; [exact Hle|]. by eapply mem_le_insert.
    + intros j Hj. rewrite Hm2, lookup_insert_ne by done. by apply Hother.
    + by apply (world_ok_mbuf w' i b (ev_ok _ _ _ He') Hb).
    + rewrite Hm2. apply lookup_insert_eq.
    + cbn [room]. by rewrite Hip.
Qed.

End Messages.

(** ** Properties *)

(** C13 A control message built by
    [arq_build_ctrl_msg] (when buffers are available) is one that
    [arq_parse_ctrl_msg] accepts, and the receiver reads the type, QPN, PSN
    and count that were given and the first 64 entries of the PSN list. *)
Theorem ctrl_message_roundtrip `{DpdkSpec} qpn type p dst l pool w :
  world_ok w -> 0 <= type < 256 -> is_u32 qpn -> is_u32 p -> Forall is_u32 l ->
  is_u32 (Z.of_nat (length l)) ->
  wp (r ← arq_build_ctrl_msg qpn type p dst (Some l) (Z.of_nat (length l)) pool;
      match r with Some m => arq_parse_ctrl_msg m | None => mret None end)
     (fun r w' => (r = None /\ forall j, held w' j = held w j) \/
        r = Some (ArqMsg ARQ_MAGIC type qpn p (Z.of_nat (length l)) (take 64 l))) w.
Proof.
  intros Hw Ht Hq Hp Hf Hl. apply wp_bind. eapply arq_build_ctrl_msg_ev; [by apply evolves_refl| |].
  - intros w' He _. apply wp_ret. left. split; [done|]. intros j. rewrite (ev_held _ _ _ He j). lia.
  - intros i b0 mac b w' He _ _ _ Hl0 Hmac Hb _ Hroom. unfold arq_parse_ctrl_msg.
    apply wp_bind. eapply wp_mtod; [exact Hb|]. apply wp_ret. right. rewrite Hroom.
    by apply parse_ctrl_frame.
Qed.

Lemma ctrl_message_roundtrip_witness :
  wp (r ← @arq_build_ctrl_msg (sim false) 17 2 5 0x090200C0 (Some [5; 7; 9]) 3 7;
      match r with Some m => @arq_parse_ctrl_msg (sim false) m | None => mret None end)
     (fun r _ => r = None \/ r = Some (ArqMsg ARQ_MAGIC 2 17 5 3 [5; 7; 9])) sim_boot.
Proof.
  eapply wp_mono.
  - apply (@ctrl_message_roundtrip (sim false) (sim_spec false) 17 2 5 0x090200C0 [5; 7; 9] 7);
      [apply sim_boot_ok|lia|by_dec..].
  - intros r w' [[-> _]| ->]; [by left|by right].
Defined.
