(* ===== verification/JitterBuffer.v ===== *)
(** * jitter_buffer.c: reassembly of WRITE messages on the WAN side

    All of jitter_buffer.c: a context per QPN holds up to 256 segments, the
    slot being the distance of the PSN from the first one.  A context
    pointer is an index into [writes]. *)

From S2P Require Import Prelude Crc32 PeerManager Env RoceDefs.

Definition JB_MAX_SEGMENTS : Z := 256.
Definition JB_MAX_PENDING_WRITES : Z := 64.

(** ** State *)

Inductive jb_segment_state := JB_SEGMENT_FREE | JB_SEGMENT_RECEIVED | JB_SEGMENT_WAITING.

#[export] Instance jb_segment_state_eq_dec : EqDecision jb_segment_state.
Proof. solve_decision. Defined.

Record jb_segment := JbSegment {
  s_psn : Z;
  s_mbuf : option nat;
  s_state : jb_segment_state;
  s_type : Z;
  recv_time : Z }.

Record jb_write_context := JbWrite {
  j_qpn : Z;
  expected_psn : Z;
  segments : list jb_segment;
  first_psn : Z;
  segment_count : Z;
  write_complete : Z;
  j_lock : Z }.

Record jitter_buffer := JitterBuffer {
  writes : list jb_write_context;
  j_global_lock : Z;
  active_write_count : Z }.

Definition zero_segment : jb_segment := JbSegment 0 None JB_SEGMENT_FREE 0 0.
Definition zero_write : jb_write_context :=
  JbWrite 0 0 (replicate (Z.to_nat JB_MAX_SEGMENTS) zero_segment) 0 0 0 0.

Definition set_j_lock (l : Z) (jb : jitter_buffer) : jitter_buffer :=
  JitterBuffer (writes jb) l (active_write_count jb).
Definition set_write (i : nat) (c : jb_write_context) (jb : jitter_buffer) : jitter_buffer :=
  JitterBuffer (<[i := c]> (writes jb)) (j_global_lock jb) (active_write_count jb).
Definition set_w_lock (l : Z) (c : jb_write_context) : jb_write_context :=
  JbWrite (j_qpn c) (expected_psn c) (segments c) (first_psn c) (segment_count c) (write_complete c) l.

(** [psn_forward_dist(first_psn, psn) % JB_MAX_SEGMENTS] *)
Definition seg_index (c : jb_write_context) (p : Z) : nat :=
  Z.to_nat (psn_forward_dist (first_psn c) p mod JB_MAX_SEGMENTS).
Definition seg_at (c : jb_write_context) (i : nat) : jb_segment := nth i (segments c) zero_segment.
Definition write_at (jb : jitter_buffer) (i : nat) : jb_write_context := nth i (writes jb) zero_write.

Definition is_last (type : Z) : bool := (type =? WRITE_SEG_LAST) || (type =? WRITE_SEG_ONLY).

(** A gap before the packet just received: FREE slots become WAITING. *)
Definition mark_waiting (c : jb_write_context) (segs : list jb_segment) (i : Z) : list jb_segment :=
  let k := seg_index c (Z.land (u32 (expected_psn c + i)) 0x00FFFFFF) in
  let s := nth k segs zero_segment in
  match s_state s with
  | JB_SEGMENT_FREE => <[k := JbSegment (s_psn s) (s_mbuf s) JB_SEGMENT_WAITING (s_type s) (recv_time s)]> segs
  | _ => segs
  end.

(** The stores of [jb_add_seg] for a segment that is not a duplicate. *)
Definition jb_place (c : jb_write_context) (p type : Z) (m : nat) (t : Z) : jb_write_context :=
  let segs := <[seg_index c p := JbSegment p (Some m) JB_SEGMENT_RECEIVED type t]> (segments c) in
  let dist := psn_forward_dist (expected_psn c) p in
  let expected := if dist =? 0 then Z.land (u32 (expected_psn c + 1)) 0x00FFFFFF else expected_psn c in
  let segs := if dist =? 0 then segs
              else if dist <? JB_MAX_SEGMENTS then fold_left (mark_waiting c) (seqZ 0 dist) segs
              else segs in
  JbWrite (j_qpn c) expected segs (first_psn c) (u32 (segment_count c + 1))
    (if is_last type then 1 else write_complete c) (j_lock c).

(** The gathering loop of [jb_get_ordered_segs]; [None] when a segment is
    missing. *)
Fixpoint collect (segs : list jb_segment) : option (list nat) :=
  match segs with
  | [] => Some []
  | s :: segs =>
      match s_state s with
      | JB_SEGMENT_RECEIVED =>
          let out := match s_mbuf s with Some m => [m] | None => [] end in
          if is_last (s_type s) then Some out else app out <$> collect segs
      | _ => None
      end
  end.

Section Operations.
Context `{Dpdk}.

Definition jb_init (_ : jitter_buffer) : jitter_buffer :=
  JitterBuffer (replicate (Z.to_nat JB_MAX_PENDING_WRITES) zero_write) spin_init 0.

Definition jb_find (jb : jitter_buffer) (qpn : Z) : option nat :=
  fst <$> list_find (fun c => j_qpn c = qpn) (writes jb).

Definition jb_get_or_create_write (jb : jitter_buffer) (qpn first : Z) : M (option nat * jitter_buffer) :=
  l ← rte_spinlock_lock (j_global_lock jb);
  match list_find (fun c => j_qpn c = qpn /\ 0 < segment_count c) (writes jb) with
  | Some (i, _) => mret (Some i, set_j_lock (spin_unlock l) jb)
  | None =>
      match list_find (fun c => segment_count c = 0 /\ j_qpn c = 0) (writes jb) with
      | Some (i, _) =>
          let c := JbWrite qpn first (segments zero_write) first 0 0 spin_init in
          mret (Some i, JitterBuffer (<[i := c]> (writes jb)) (spin_unlock l)
                          (u32 (active_write_count jb + 1)))
      | None => mret (None, set_j_lock (spin_unlock l) jb)
      end
  end.

Definition jb_add_seg (jb : jitter_buffer) (qpn p type : Z) (m : nat) : M (Z * jitter_buffer) :=
  l ← rte_spinlock_lock (j_global_lock jb);
  let jb := set_j_lock l jb in
  '(r, jb) ← match jb_find jb qpn with
             | Some i => mret (Some i, jb)
             | None => jb_get_or_create_write jb qpn p
             end;
  match r with
  | None => mret (-1, set_j_lock (spin_unlock (j_global_lock jb)) jb)
  | Some i =>
      let c := write_at jb i in
      lc ← rte_spinlock_lock (j_lock c);
      let c := set_w_lock lc c in
      match s_state (seg_at c (seg_index c p)) with
      | JB_SEGMENT_RECEIVED =>
          let jb := set_write i (set_w_lock (spin_unlock lc) c) jb in
          let jb := set_j_lock (spin_unlock (j_global_lock jb)) jb in
          rte_pktmbuf_free (Some m);;
          mret (0, jb)
      | _ =>
          t ← rte_rdtsc;
          let jb := set_write i (set_w_lock (spin_unlock lc) (jb_place c p type m t)) jb in
          mret (1, set_j_lock (spin_unlock (j_global_lock jb)) jb)
      end
  end.

Definition jb_is_write_complete (jb : jitter_buffer) (qpn : Z) : M (Z * jitter_buffer) :=
  l ← rte_spinlock_lock (j_global_lock jb);
  let complete := match jb_find jb qpn with Some i => write_complete (write_at jb i) | None => 0 end in
  mret (complete, set_j_lock (spin_unlock l) jb).

(** The segments returned through [out] and [count]; [None] is -1. *)
Definition jb_get_ordered_segs (jb : jitter_buffer) (qpn : Z) : M (option (list nat) * jitter_buffer) :=
  l ← rte_spinlock_lock (j_global_lock jb);
  match jb_find jb qpn with
  | None => mret (None, set_j_lock (spin_unlock l) jb)
  | Some i =>
      let c := write_at jb i in
      lc ← rte_spinlock_lock (j_lock c);
      mret (collect (take (Z.to_nat JB_MAX_SEGMENTS) (segments c)),
            set_j_lock (spin_unlock l) (set_write i (set_w_lock (spin_unlock lc) c) jb))
  end.

Definition jb_remove_write (jb : jitter_buffer) (qpn : Z) : M jitter_buffer :=
  l ← rte_spinlock_lock (j_global_lock jb);
  match jb_find jb qpn with
  | None => mret (set_j_lock (spin_unlock l) jb)
  | Some i =>
      foldM (fun _ s => rte_pktmbuf_free (s_mbuf s)) (segments (write_at jb i)) tt;;
      mret (JitterBuffer (<[i := zero_write]> (writes jb)) (spin_unlock l) (u32 (active_write_count jb - 1)))
  end.

(** 0 when nothing is missing. *)
Definition jb_check_missing (jb : jitter_buffer) (qpn : Z) : M (Z * jitter_buffer) :=
  l ← rte_spinlock_lock (j_global_lock jb);
  match jb_find jb qpn with
  | None => mret (0, set_j_lock (spin_unlock l) jb)
  | Some i =>
      let c := write_at jb i in
      lc ← rte_spinlock_lock (j_lock c);
      let missing := match s_state (seg_at c (seg_index c (expected_psn c))) with
                     | JB_SEGMENT_RECEIVED => 0
                     | _ => expected_psn c
                     end in
      mret (missing, set_j_lock (spin_unlock l) (set_write i (set_w_lock (spin_unlock lc) c) jb))
  end.

End Operations.

(** ** Well-formedness and the references the buffer owns *)

Definition seg_ok (s : jb_segment) : Prop :=
  (s_state s = JB_SEGMENT_RECEIVED /\ is_Some (s_mbuf s)) \/
  (s_state s <> JB_SEGMENT_RECEIVED /\ s_mbuf s = None).

Record write_wf (c : jb_write_context) : Prop := WriteWf {
  ww_length : length (segments c) = Z.to_nat JB_MAX_SEGMENTS;
  ww_segs : Forall seg_ok (segments c);
  ww_lock : j_lock c = 0 }.

Record jb_wf (jb : jitter_buffer) : Prop := JbWf {
  jw_length : length (writes jb) = Z.to_nat JB_MAX_PENDING_WRITES;
  jw_writes : Forall write_wf (writes jb);
  jw_lock : j_global_lock jb = 0 }.

Definition seg_own (j : nat) (s : jb_segment) : Z := if decide (s_mbuf s = Some j) then 1 else 0.
Definition write_refs (j : nat) (c : jb_write_context) : Z := sumZ (seg_own j) (segments c).
Definition jb_refs (jb : jitter_buffer) (j : nat) : Z := sumZ (write_refs j) (writes jb).

Lemma seg_own_some s m j : s_mbuf s = Some m -> seg_own j s = one m j.
Proof. unfold seg_own, one. intros ->. repeat case_decide; congruence || done. Qed.

Lemma seg_own_none s j : s_mbuf s = None -> seg_own j s = 0.
Proof. unfold seg_own. intros ->. by rewrite decide_False. Qed.

Lemma zero_write_wf : write_wf zero_write.
Proof. split; [apply length_replicate| |done]. apply Forall_replicate. by right. Qed.

Lemma zero_write_refs j : write_refs j zero_write = 0.
Proof. apply sumZ_zero, Forall_replicate. done. Qed.

Lemma seg_index_lt c p : write_wf c -> (seg_index c p < length (segments c))%nat.
Proof.
  intros Hc. rewrite (ww_length c Hc). unfold seg_index, JB_MAX_SEGMENTS.
  pose proof (Z.mod_pos_bound (psn_forward_dist (first_psn c) p) 256). lia.
Qed.

Lemma seg_at_lookup c i : (i < length (segments c))%nat -> segments c !! i = Some (seg_at c i).
Proof. apply nth_lookup_lt. Qed.

Lemma jb_find_Some jb qpn i :
  jb_find jb qpn = Some i -> (i < length (writes jb))%nat /\ j_qpn (write_at jb i) = qpn.
Proof.
  unfold jb_find. rewrite fmap_Some. intros ([i' c] & Hf & ->).
  apply list_find_Some in Hf as (Hc & Hq & _). cbn.
  split; [by eapply lookup_lt_Some|]. unfold write_at. by rewrite nth_lookup, Hc.
Qed.

Lemma write_at_wf jb i : jb_wf jb -> (i < length (writes jb))%nat -> write_wf (write_at jb i).
Proof. intros Hj Hi. eapply Forall_lookup_1; [apply (jw_writes jb Hj)|]. by apply nth_lookup_lt. Qed.

(** A context that keeps its QPN is found where it was. *)
Lemma jb_find_set_write jb qpn i c :
  j_qpn c = j_qpn (write_at jb i) -> jb_find (set_write i c jb) qpn = jb_find jb qpn.
Proof.
  intros Hq. unfold jb_find.
  assert (Hl : forall l : list jb_write_context,
    fst <$> list_find (fun c => j_qpn c = qpn) l = fst <$> list_find (fun q => q = qpn) (j_qpn <$> l)).
  { intros l. rewrite list_find_fmap. by destruct (list_find _ l) as [[]|]. }
  rewrite !Hl. do 2 f_equal. cbn [writes set_write]. rewrite list_fmap_insert.
  apply list_insert_id'. intros Hi. rewrite length_fmap in Hi.
  rewrite list_lookup_fmap, (nth_lookup_lt _ i zero_write Hi). cbn. by rewrite Hq.
Qed.

Lemma set_write_wf jb i c :
  jb_wf jb -> write_wf c -> jb_wf (set_write i c jb).
Proof.
  intros Hj Hc. split; cbn; [by rewrite length_insert; apply Hj|apply Forall_insert; [apply Hj|done]|apply Hj].
Qed.

Lemma jb_refs_set_write jb i c j :
  (i < length (writes jb))%nat ->
  jb_refs (set_write i c jb) j = jb_refs jb j - write_refs j (write_at jb i) + write_refs j c.
Proof. intros Hi. unfold jb_refs. cbn. apply sumZ_insert. by apply nth_lookup_lt. Qed.

Lemma set_j_lock_id jb : jb_wf jb -> set_j_lock 0 jb = jb.
Proof. intros Hj. destruct jb. unfold set_j_lock. pose proof (jw_lock _ Hj) as Hl. cbn in *. by subst. Qed.

Lemma set_w_lock_id c : write_wf c -> set_w_lock 0 c = c.
Proof. intros Hc. destruct c. unfold set_w_lock. pose proof (ww_lock _ Hc) as Hl. cbn in *. by subst. Qed.

Lemma set_write_id jb i : (i < length (writes jb))%nat -> set_write i (write_at jb i) jb = jb.
Proof.
  intros Hi. unfold set_write. rewrite list_insert_id; [by destruct jb|]. by apply nth_lookup_lt.
Qed.

(** ** What arrived: the abstract view of a context *)

(** Offset from the first PSN to the mbuf and the segment type. *)
Abbreviation arrived := (gmap nat (nat * Z)).

(** [segs'] differs from [segs] in FREE slots that became WAITING, only. *)
Definition marked (segs segs' : list jb_segment) : Prop :=
  length segs' = length segs /\
  forall k, nth k segs' zero_segment = nth k segs zero_segment \/
    let s := nth k segs zero_segment in
    s_state s = JB_SEGMENT_FREE /\
    nth k segs' zero_segment = JbSegment (s_psn s) (s_mbuf s) JB_SEGMENT_WAITING (s_type s) (recv_time s).

Lemma marked_refl segs : marked segs segs.
Proof. split; [done|]. by left. Qed.

Lemma mark_waiting_marked c segs i : marked segs (mark_waiting c segs i).
Proof.
  unfold mark_waiting. set (k := seg_index _ _). destruct (s_state _) eqn:E; [|apply marked_refl..].
  split; [apply length_insert|]. intros k'.
  destruct (decide (k < length segs)%nat) as [Hlt|Hge]; [|left; by rewrite list_insert_ge by lia].
  rewrite nth_insert by done. case_decide as He; [|by left]. subst k'. by right.
Qed.

Lemma marked_trans s1 s2 s3 : marked s1 s2 -> marked s2 s3 -> marked s1 s3.
Proof.
  intros [Hl1 H1] [Hl2 H2]. split; [congruence|]. intros k.
  destruct (H2 k) as [->|[Hf He]]; [apply H1|].
  destruct (H1 k) as [He1|[Hf1 He1]]; [right; cbv zeta; rewrite <- He1; by split|].
  cbv zeta in *. rewrite He1 in Hf. done.
Qed.

Lemma mark_all_marked c l segs : marked segs (fold_left (mark_waiting c) l segs).
Proof.
  revert segs. induction l as [|i l IH]; intros segs; [apply marked_refl|]. cbn [fold_left].
  eapply marked_trans; [apply mark_waiting_marked|apply IH].
Qed.

(** The slots after [jb_place]: the packet in its own, marks elsewhere. *)
Lemma jb_place_segs c p type m t :
  marked (<[seg_index c p := JbSegment p (Some m) JB_SEGMENT_RECEIVED type t]> (segments c))
         (segments (jb_place c p type m t)).
Proof.
  unfold jb_place. cbn [segments]. destruct (_ =? 0); [apply marked_refl|].
  destruct (_ <? _); [apply mark_all_marked|apply marked_refl].
Qed.

Record holds (c : jb_write_context) (R : arrived) : Prop := Holds {
  h_wf : write_wf c;
  h_in k m t : R !! k = Some (m, t) ->
    (k < Z.to_nat JB_MAX_SEGMENTS)%nat /\ s_state (seg_at c k) = JB_SEGMENT_RECEIVED /\
    s_mbuf (seg_at c k) = Some m /\ s_type (seg_at c k) = t;
  h_out k : R !! k = None -> s_state (seg_at c k) <> JB_SEGMENT_RECEIVED;
  h_complete : write_complete c = 1 <-> exists k m t, R !! k = Some (m, t) /\ is_last t = true;
  h_incomplete : write_complete c = 0 \/ write_complete c = 1 }.

Lemma marked_wf segs segs' : marked segs segs' -> Forall seg_ok segs -> Forall seg_ok segs'.
Proof.
  intros [Hl Hm] Hf. apply Forall_lookup_2. intros k s Hs.
  assert (Hk : (k < length segs')%nat) by by eapply lookup_lt_Some.
  assert (Hn : nth k segs' zero_segment = s) by by rewrite nth_lookup, Hs.
  pose proof (nth_lookup_lt segs k zero_segment ltac:(lia)) as Hk'.
  pose proof (Forall_lookup_1 _ _ _ _ Hf Hk') as Hok.
  destruct (Hm k) as [He|[Hst He]]; rewrite Hn in He; rewrite He; [done|].
  destruct Hok as [[Hr _]|[_ Hnone]]; [cbv zeta in Hst; congruence|]. by right.
Qed.

Lemma marked_refs segs segs' j : marked segs segs' -> sumZ (seg_own j) segs' = sumZ (seg_own j) segs.
Proof.
  revert segs'. induction segs as [|s segs IH]; intros [|s' segs'] [Hl Hm]; try done. cbn [sumZ].
  f_equal.
  - destruct (Hm O) as [He|[_ He]]; cbn in He; by subst s'.
  - apply IH. split; [by injection Hl|]. intros k. apply (Hm (S k)).
Qed.

Lemma jb_place_wf c p type m t : write_wf c -> write_wf (jb_place c p type m t).
Proof.
  intros Hc. pose proof (jb_place_segs c p type m t) as Hm. split; [| |apply Hc].
  - rewrite (proj1 Hm), length_insert. apply Hc.
  - eapply marked_wf; [exact Hm|]. apply Forall_insert; [apply Hc|]. left. by eauto.
Qed.

Lemma jb_place_refs c p type m t j :
  write_wf c -> s_state (seg_at c (seg_index c p)) <> JB_SEGMENT_RECEIVED ->
  write_refs j (jb_place c p type m t) = write_refs j c + one m j.
Proof.
  intros Hc Hst. unfold write_refs. rewrite (marked_refs _ _ j (jb_place_segs c p type m t)).
  pose proof (seg_at_lookup c _ (seg_index_lt c p Hc)) as Hs. rewrite (sumZ_insert _ _ _ _ _ Hs).
  destruct (Forall_lookup_1 _ _ _ _ (ww_segs c Hc) Hs) as [[? _]|[_ Hn]]; [done|].
  unfold seg_own, one. rewrite Hn. cbn [s_mbuf]. repeat case_decide; simplify_eq; lia.
Qed.

(** Storing a new packet extends what arrived by it. *)
Lemma jb_place_holds c R p type m t :
  holds c R -> R !! seg_index c p = None ->
  holds (jb_place c p type m t) (<[seg_index c p := (m, type)]> R).
Proof.
  intros Hh Hnew. pose proof (h_wf _ _ Hh) as Hc. pose proof (seg_index_lt c p Hc) as Hlt.
  destruct (jb_place_segs c p type m t) as [Hlen Hm].
  assert (Hat : forall k, seg_at (jb_place c p type m t) k =
            if decide (seg_index c p = k) then JbSegment p (Some m) JB_SEGMENT_RECEIVED type t
            else seg_at (jb_place c p type m t) k).
  { intros k. case_decide as He; [|done]. subst k. unfold seg_at.
    destruct (Hm (seg_index c p)) as [->|[Hf _]]; [|cbv zeta in Hf];
      rewrite nth_insert, decide_True in * by done; done. }
  assert (Hne : forall k, seg_index c p <> k ->
            seg_at (jb_place c p type m t) k = seg_at c k \/
            s_state (seg_at c k) = JB_SEGMENT_FREE /\
            s_state (seg_at (jb_place c p type m t) k) = JB_SEGMENT_WAITING).
  { intros k Hk. unfold seg_at. destruct (Hm k) as [->|[Hf ->]]; cbv zeta in *;
      rewrite nth_insert, decide_False in * by done; [by left|by right]. }
  split.
  - by apply jb_place_wf.
  - intros k m' t'. rewrite lookup_insert_Some. intros [[<- [= <- <-]]|[Hk HR]].
    + rewrite Hat, decide_True by done. rewrite (ww_length c Hc) in Hlt. done.
    + destruct (h_in _ _ Hh k m' t' HR) as (Hk' & Hst & Hmb & Hty). split; [done|].
      destruct (Hne k Hk) as [->|[Hf _]]; [done|congruence].
  - intros k. rewrite lookup_insert_None. intros [HR Hk]. pose proof (h_out _ _ Hh k HR).
    destruct (Hne k Hk) as [->|[_ ->]]; done.
  - unfold jb_place. cbn [write_complete]. destruct (is_last type) eqn:El.
    + split; [|done]. intros _. exists (seg_index c p), m, type. by rewrite lookup_insert_eq.
    + rewrite (h_complete _ _ Hh). split; intros (k & m' & t' & HR & Hl); exists k, m', t'; (split; [|done]).
      * rewrite lookup_insert_ne; [done|]. intros <-. congruence.
      * rewrite lookup_insert_Some in HR. destruct HR as [[_ [= <- <-]]|[_ HR]]; [congruence|done].
  - unfold jb_place. cbn [write_complete]. destruct (is_last type); [by right|apply (h_incomplete _ _ Hh)].
Qed.

(** ** Gathering *)

(** The contiguous run of packets from offset [k] on, up to the first LAST
    or ONLY; [None] when one of them is missing. *)
Fixpoint deliver (R : arrived) (k n : nat) : option (list nat) :=
  match n with
  | O => Some []
  | S n =>
      match R !! k with
      | None => None
      | Some (m, t) => if is_last t then Some [m] else cons m <$> deliver R (S k) n
      end
  end.

Lemma collect_deliver c R :
  holds c R -> collect (take (Z.to_nat JB_MAX_SEGMENTS) (segments c)) = deliver R 0 (Z.to_nat JB_MAX_SEGMENTS).
Proof.
  intros Hh. pose proof (ww_length c (h_wf _ _ Hh)) as Hl. rewrite take_ge by lia.
  assert (Hg : forall n k, (k + n = length (segments c))%nat ->
            collect (drop k (segments c)) = deliver R k n); [|by apply (Hg _ O); lia].
  induction n as [|n IH]; intros k Hk.
  - by rewrite drop_ge by lia.
  - rewrite (drop_S _ _ _ (seg_at_lookup c k ltac:(lia))). cbn [collect deliver].
    destruct (R !! k) as [[m t]|] eqn:E.
    + destruct (h_in _ _ Hh k m t E) as (_ & -> & -> & ->). destruct (is_last t); [done|].
      rewrite (IH (S k)) by lia. by destruct (deliver R (S k) n).
    + pose proof (h_out _ _ Hh k E). by destruct (s_state _).
Qed.

(** ** The operations *)

Section Calls.
Context `{DpdkSpec}.

Lemma jb_add_seg_rule jb qpn p type m i (Q : Z * jitter_buffer -> world -> Prop) w :
  jb_wf jb -> jb_find jb qpn = Some i ->
  (s_state (seg_at (write_at jb i) (seg_index (write_at jb i) p)) = JB_SEGMENT_RECEIVED ->
   Q (0, jb) (log_event (EvFree m) w)) ->
  (s_state (seg_at (write_at jb i) (seg_index (write_at jb i) p)) <> JB_SEGMENT_RECEIVED ->
   forall t, Q (1, set_write i (jb_place (write_at jb i) p type m t) jb) (log_event (EvRdtsc t) w)) ->
  wp (jb_add_seg jb qpn p type m) Q w.
Proof.
  intros Hj Hf Hdup Hnew. destruct (jb_find_Some jb qpn i Hf) as [Hi Hq].
  pose proof (write_at_wf jb i Hj Hi) as Hc.
  unfold jb_add_seg. rewrite (jw_lock jb Hj). wp_auto.
  change (jb_find (set_j_lock 1 jb) qpn) with (jb_find jb qpn). rewrite Hf. wp_auto.
  change (write_at (set_j_lock 1 jb) i) with (write_at jb i). rewrite (ww_lock _ Hc). wp_auto.
  change (seg_index (set_w_lock 1 (write_at jb i)) p) with (seg_index (write_at jb i) p).
  change (seg_at (set_w_lock 1 (write_at jb i)) ?k) with (seg_at (write_at jb i) k).
  assert (Hsame : forall c, set_j_lock (spin_unlock (j_global_lock (set_write i c (set_j_lock 1 jb))))
                    (set_write i c (set_j_lock 1 jb)) = set_write i c jb).
  { intros c. cbn. rewrite lock_release. unfold set_j_lock, set_write. cbn. by rewrite (jw_lock jb Hj). }
  assert (Hplace : forall t, set_w_lock 0 (jb_place (set_w_lock 1 (write_at jb i)) p type m t) =
                    jb_place (write_at jb i) p type m t).
  { intros t. rewrite <- (set_w_lock_id (jb_place (write_at jb i) p type m t)); [done|].
    by apply jb_place_wf. }
  destruct (s_state _) eqn:E; wp_auto; rewrite Hsame, !lock_release, ?Hplace.
  - by apply Hnew.
  - change (set_w_lock 0 (set_w_lock 1 (write_at jb i))) with (set_w_lock 0 (write_at jb i)).
    rewrite set_w_lock_id, set_write_id by done. by apply Hdup.
  - by apply Hnew.
Qed.

Lemma jb_is_write_complete_rule jb qpn (Q : Z * jitter_buffer -> world -> Prop) w :
  jb_wf jb ->
  Q (match jb_find jb qpn with Some i => write_complete (write_at jb i) | None => 0 end, jb) w ->
  wp (jb_is_write_complete jb qpn) Q w.
Proof.
  intros Hj HQ. unfold jb_is_write_complete. rewrite (jw_lock jb Hj). wp_auto.
  by rewrite lock_release, set_j_lock_id.
Qed.

Lemma jb_get_ordered_segs_rule jb qpn i (Q : option (list nat) * jitter_buffer -> world -> Prop) w :
  jb_wf jb -> jb_find jb qpn = Some i ->
  Q (collect (take (Z.to_nat JB_MAX_SEGMENTS) (segments (write_at jb i))), jb) w ->
  wp (jb_get_ordered_segs jb qpn) Q w.
Proof.
  intros Hj Hf HQ. destruct (jb_find_Some jb qpn i Hf) as [Hi Hq].
  pose proof (write_at_wf jb i Hj Hi) as Hc.
  unfold jb_get_ordered_segs. rewrite (jw_lock jb Hj). wp_auto. rewrite Hf, (ww_lock _ Hc). wp_auto.
  by rewrite !lock_release, set_w_lock_id, set_write_id, set_j_lock_id.
Qed.

Lemma jb_check_missing_rule jb qpn i (Q : Z * jitter_buffer -> world -> Prop) w :
  jb_wf jb -> jb_find jb qpn = Some i ->
  (let c := write_at jb i in
   Q (match s_state (seg_at c (seg_index c (expected_psn c))) with
      | JB_SEGMENT_RECEIVED => 0
      | _ => expected_psn c
      end, jb) w) ->
  wp (jb_check_missing jb qpn) Q w.
Proof.
  intros Hj Hf HQ. destruct (jb_find_Some jb qpn i Hf) as [Hi Hq].
  pose proof (write_at_wf jb i Hj Hi) as Hc.
  unfold jb_check_missing. rewrite (jw_lock jb Hj). wp_auto. rewrite Hf, (ww_lock _ Hc). wp_auto.
  by rewrite !lock_release, set_w_lock_id, set_write_id, set_j_lock_id.
Qed.

Lemma free_segs_rule segs (Q : unit -> world -> Prop) w :
  (forall w', same_store w w' -> held_by (fun j => - sumZ (seg_own j) segs) w w' -> Q tt w') ->
  wp (foldM (fun _ s => rte_pktmbuf_free (s_mbuf s)) segs tt) Q w.
Proof.
  revert w. induction segs as [|s segs IH]; intros w HQ; cbn [foldM].
  - wp_auto. apply HQ; [done|]. intros j. cbn. lia.
  - apply wp_bind. destruct (s_mbuf s) as [m|] eqn:E; wp_auto; apply IH; intros w' Hs Hh; apply HQ.
    + done.
    + intros j. rewrite (Hh j), held_log. cbn [sumZ ref_delta]. rewrite (seg_own_some s m j E).
      unfold one. destruct (decide (m = j)); lia.
    + done.
    + intros j. rewrite (Hh j). cbn [sumZ]. rewrite (seg_own_none s j E). lia.
Qed.

Lemma jb_remove_write_rule jb qpn i (Q : jitter_buffer -> world -> Prop) w :
  jb_wf jb -> jb_find jb qpn = Some i ->
  (forall w', same_store w w' -> held_by (fun j => - write_refs j (write_at jb i)) w w' ->
     Q (JitterBuffer (<[i := zero_write]> (writes jb)) 0 (u32 (active_write_count jb - 1))) w') ->
  wp (jb_remove_write jb qpn) Q w.
Proof.
  intros Hj Hf HQ. unfold jb_remove_write. rewrite (jw_lock jb Hj). wp_auto. rewrite Hf. wp_auto.
  apply free_segs_rule. intros w' Hs Hh. wp_auto. rewrite lock_release. by apply HQ.
Qed.

(** [jb_add_seg] takes [global_lock] and, when the QPN has no context, calls
    [jb_get_or_create_write], which takes it again. *)
Lemma jb_add_seg_deadlock jb qpn p type m w :
  jb_wf jb -> jb_find jb qpn = None -> jb_add_seg jb qpn p type m w = Hang.
Proof.
  intros Hj Hf. unfold jb_add_seg. rewrite (jw_lock jb Hj), bind_lock_free.
  cbv zeta. change (jb_find (set_j_lock 1 jb) qpn) with (jb_find jb qpn). rewrite Hf.
  unfold jb_get_or_create_write. cbn [j_global_lock set_j_lock].
  apply bind_hang, bind_hang, lock_held_hangs.
Qed.

End Calls.
