(* ===== verification/Reassembly.v ===== *)
(** * Reassembly of a WRITE message

    What [jitter_buffer.c] does to a whole sequence of arrivals: the buffer
    refines the set of packets that arrived first at each offset, and hands a
    message over exactly when it is complete, in PSN order. *)

From S2P Require Import Prelude Crc32 PeerManager Env Sim RoceDefs JitterBuffer.

(** ** Specification *)

(** An arrival: offset from the first PSN, mbuf, segment type. *)
Definition accept (R : arrived) (x : nat * (nat * Z)) : arrived :=
  match R !! fst x with Some _ => R | None => <[fst x := snd x]> R end.

Definition first_arrivals (arr : list (nat * (nat * Z))) (R : arrived) : arrived := fold_left accept arr R.

(** The references the program gives up: those of the duplicates. *)
Fixpoint dup_refs (arr : list (nat * (nat * Z))) (R : arrived) (j : nat) : Z :=
  match arr with
  | [] => 0
  | x :: arr => (match R !! fst x with Some _ => one (fst (snd x)) j | None => 0 end) + dup_refs arr (accept R x) j
  end.

(** A message: its packets in PSN order, the last one and only it ending the
    WRITE. *)
Definition message (msg : list (nat * Z)) : Prop :=
  (0 < length msg <= Z.to_nat JB_MAX_SEGMENTS)%nat /\
  forall k m t, msg !! k = Some (m, t) -> is_last t = bool_decide (S k = length msg).

Lemma deliver_run (R : arrived) msg k n :
  (length msg <= n)%nat -> (0 < length msg)%nat ->
  (forall i x, msg !! i = Some x -> R !! (k + i)%nat = Some x /\ is_last (snd x) = bool_decide (S i = length msg)) ->
  deliver R k n = Some (fst <$> msg).
Proof.
  revert k n. induction msg as [|[m t] msg IH]; intros k n Hn Hpos HR; [cbn in Hpos; lia|].
  destruct n as [|n]; [cbn in Hn; lia|]. cbn [deliver].
  destruct (HR O (m, t) eq_refl) as [H0 Hl]. rewrite Nat.add_0_r in H0. rewrite H0. cbn [snd] in Hl. rewrite Hl.
  destruct msg as [|y msg].
  - rewrite bool_decide_true by done. done.
  - rewrite bool_decide_false by (cbn; lia).
    rewrite (IH (S k) n); [done|cbn in *; lia|cbn; lia|].
    intros i x Hi. destruct (HR (S i) x Hi) as [H1 H2]. split.
    + by replace (S k + i)%nat with (k + S i)%nat by lia.
    + rewrite H2. apply bool_decide_ext. cbn. lia.
Qed.

(** A gap before the end holds everything back. *)
Lemma deliver_gap (R : arrived) k0 k n :
  (k <= k0 < k + n)%nat -> R !! k0 = None ->
  (forall i m t, (k <= i < k0)%nat -> R !! i = Some (m, t) -> is_last t = false) ->
  deliver R k n = None.
Proof.
  revert k. induction n as [|n IH]; intros k Hk H0 Hl; [lia|]. cbn [deliver].
  destruct (decide (k = k0)) as [->|Hne]; [by rewrite H0|].
  destruct (R !! k) as [[m t]|] eqn:E; [|done]. rewrite (Hl k m t) by (lia || done).
  rewrite (IH (S k)); [done|lia|done|]. intros i m' t' Hi. apply Hl. lia.
Qed.

(** Arrivals at distinct offsets: their order does not matter. *)
Lemma first_arrivals_list arr R :
  NoDup (fst <$> arr) -> (forall k, k ∈ fst <$> arr -> R !! k = None) ->
  first_arrivals arr R = list_to_map arr ∪ R.
Proof.
  revert R. induction arr as [|[k x] arr IH]; intros R Hnd HR; [change (R = (∅ : arrived) ∪ R); by rewrite (left_id_L ∅ (∪))|].
  rewrite fmap_cons in Hnd. apply list.NoDup_cons in Hnd as [Hk Hnd]. cbn [fst] in Hk.
  unfold first_arrivals. cbn [fold_left]. fold (first_arrivals arr (accept R (k, x))).
  assert (accept R (k, x) = <[k := x]> R) as ->.
  { unfold accept. cbn. rewrite HR; [done|]. by left. }
  rewrite IH; [|done|].
  - cbn [list_to_map foldr fst snd]. apply map_eq. intros j. rewrite !lookup_union.
    destruct (decide (j = k)) as [->|Hj].
    + cbn. rewrite !lookup_insert_eq, not_elem_of_list_to_map_1 by done. by destruct (R !! k).
    + cbn. by rewrite !lookup_insert_ne by done.
  - intros j Hj. rewrite lookup_insert_ne; [|by intros ->]. apply HR. by right.
Qed.

Lemma dup_refs_none arr R j :
  NoDup (fst <$> arr) -> (forall k, k ∈ fst <$> arr -> R !! k = None) -> dup_refs arr R j = 0.
Proof.
  revert R. induction arr as [|[k x] arr IH]; intros R Hnd HR; [done|].
  rewrite fmap_cons in Hnd. apply list.NoDup_cons in Hnd as [Hk Hnd]. cbn [fst] in Hk.
  cbn [dup_refs fst]. rewrite HR by (by left). rewrite IH; [done|done|].
  intros i Hi. unfold accept. cbn [fst snd]. rewrite HR by (by left).
  rewrite lookup_insert_ne; [|by intros ->]. apply HR. by right.
Qed.

(** ** The buffer refines it *)

Section Runs.
Context `{DpdkSpec}.

(** A sequence of calls of [jb_add_seg], the packet at offset [k] carrying
    PSN [first + k]. *)
Definition jb_add_all (qpn first : Z) (arr : list (nat * (nat * Z))) (jb : jitter_buffer) : M jitter_buffer :=
  foldM (fun jb '(k, (m, t)) =>
    '(_, jb) ← jb_add_seg jb qpn ((first + Z.of_nat k) mod MAX_PSN) t m; mret jb) arr jb.

(** The slot of offset [k], counted from [first], in a context opened at the
    PSN [base]. *)
Definition slot_of (base first : Z) (k : nat) : nat :=
  Z.to_nat (psn_forward_dist base ((first + Z.of_nat k) mod MAX_PSN) mod JB_MAX_SEGMENTS).

Definition relocate (base first : Z) (arr : list (nat * (nat * Z))) : list (nat * (nat * Z)) :=
  (fun x => (slot_of base first (fst x), snd x)) <$> arr.

(** A context opened at offset [k0]: the offsets before it wrap around. *)
Lemma slot_of_from first k0 k :
  slot_of ((first + Z.of_nat k0) mod MAX_PSN) first k = Z.to_nat ((Z.of_nat k - Z.of_nat k0) mod JB_MAX_SEGMENTS).
Proof.
  unfold slot_of. rewrite psn_forward_dist_mod, Zminus_mod_idemp_l, Zminus_mod_idemp_r.
  replace (first + Z.of_nat k - (first + Z.of_nat k0)) with (Z.of_nat k - Z.of_nat k0) by lia.
  unfold MAX_PSN, JB_MAX_SEGMENTS. zdiv.
Qed.

Lemma slot_of_offset first k : (k < Z.to_nat JB_MAX_SEGMENTS)%nat -> slot_of first first k = k.
Proof.
  intros Hk. unfold slot_of. rewrite psn_forward_dist_step. unfold JB_MAX_SEGMENTS, MAX_PSN in *.
  rewrite (Z.mod_small (Z.of_nat k)), Z.mod_small by lia. lia.
Qed.

Lemma relocate_id first arr :
  Forall (fun x => (fst x < Z.to_nat JB_MAX_SEGMENTS)%nat) arr -> relocate first first arr = arr.
Proof.
  induction 1 as [|[k x] arr Hk _ IH]; [done|]. unfold relocate in *. cbn [fmap list_fmap fst snd].
  cbn [fst] in Hk. by rewrite slot_of_offset, IH.
Qed.

Lemma seg_index_offset c first k :
  first_psn c = first -> (k < Z.to_nat JB_MAX_SEGMENTS)%nat ->
  seg_index c ((first + Z.of_nat k) mod MAX_PSN) = k.
Proof. intros <- Hk. by apply slot_of_offset. Qed.

(** One arrival. *)
Lemma jb_add_seg_accept jb qpn p i R k m t (Q : Z * jitter_buffer -> world -> Prop) w :
  jb_wf jb -> jb_find jb qpn = Some i -> holds (write_at jb i) R -> seg_index (write_at jb i) p = k ->
  (forall jb' w', jb_wf jb' -> jb_find jb' qpn = Some i -> first_psn (write_at jb' i) = first_psn (write_at jb i) ->
     holds (write_at jb' i) (accept R (k, (m, t))) -> same_store w w' ->
     held_by (fun j => match R !! k with Some _ => - one m j | None => 0 end) w w' ->
     Q (match R !! k with Some _ => 0 | None => 1 end, jb') w') ->
  wp (jb_add_seg jb qpn p t m) Q w.
Proof.
  intros Hj Hf Hh Hidx HQ. destruct (jb_find_Some jb qpn i Hf) as [Hi _].
  eapply jb_add_seg_rule; [done|exact Hf| |]; rewrite Hidx; unfold accept in HQ; cbn [fst snd] in HQ.
  - intros Hst. destruct (R !! k) as [[m' t']|] eqn:E; [|by destruct (h_out _ _ Hh k E)].
    apply HQ; try done. intros j. rewrite held_log. cbn. unfold one. destruct (decide (m = j)); lia.
  - intros Hst t0. destruct (R !! k) as [[m' t']|] eqn:E; [by destruct (h_in _ _ Hh k m' t' E) as (_ & ? & _)|].
    assert (Hat : write_at (set_write i (jb_place (write_at jb i) p t m t0) jb) i = jb_place (write_at jb i) p t m t0).
    { unfold write_at. cbn [writes set_write]. rewrite nth_insert by done. by rewrite decide_True. }
    apply HQ.
    + apply set_write_wf; [done|]. apply jb_place_wf. apply (h_wf _ _ Hh).
    + rewrite jb_find_set_write; done.
    + by rewrite Hat.
    + rewrite Hat. rewrite <- Hidx at 1. apply jb_place_holds; [done|]. by rewrite Hidx.
    + done.
    + intros j. rewrite held_log. cbn. lia.
Qed.

(** Any sequence of arrivals, at a context opened at any PSN. *)
Lemma jb_add_all_from arr jb qpn first base i R w :
  jb_wf jb -> jb_find jb qpn = Some i -> first_psn (write_at jb i) = base -> holds (write_at jb i) R ->
  wp (jb_add_all qpn first arr jb) (fun jb' w' =>
    jb_wf jb' /\ jb_find jb' qpn = Some i /\
    holds (write_at jb' i) (first_arrivals (relocate base first arr) R) /\
    same_store w w' /\ held_by (fun j => - dup_refs (relocate base first arr) R j) w w') w.
Proof.
  revert jb R w. induction arr as [|[k [m t]] arr IH]; intros jb R w Hj Hf Hfirst Hh.
  - apply wp_ret. repeat (split; [done|]). intros j. cbn. lia.
  - unfold jb_add_all. cbn [foldM]. apply wp_bind, wp_bind.
    eapply (jb_add_seg_accept _ _ _ _ _ (slot_of base first k)); [done|exact Hf|exact Hh|by rewrite <- Hfirst|].
    intros jb1 w1 Hj1 Hf1 Hfirst1 Hh1 Hs1 Hd1. wp_auto.
    eapply wp_mono; [apply IH; [done..|congruence|exact Hh1]|]. intros jb2 w2 (Hj2 & Hf2 & Hh2 & Hs2 & Hd2).
    do 3 (split; [done|]). split; [by transitivity w1|].
    intros j. rewrite (Hd2 j), (Hd1 j). unfold relocate. cbn [fmap list_fmap dup_refs fst snd].
    destruct (R !! slot_of base first k); lia.
Qed.

Lemma jb_add_all_refines arr jb qpn first i R w :
  jb_wf jb -> jb_find jb qpn = Some i -> first_psn (write_at jb i) = first ->
  holds (write_at jb i) R -> Forall (fun x => (fst x < Z.to_nat JB_MAX_SEGMENTS)%nat) arr ->
  wp (jb_add_all qpn first arr jb) (fun jb' w' =>
    jb_wf jb' /\ jb_find jb' qpn = Some i /\ holds (write_at jb' i) (first_arrivals arr R)) w.
Proof.
  intros Hj Hf Hfirst Hh Hall. eapply wp_mono; [by apply (jb_add_all_from arr jb qpn first first i R w)|].
  intros jb' w' (Hj' & Hf' & Hh' & _). by rewrite relocate_id in Hh'.
Qed.

End Runs.

(** ** Properties *)

(** A buffer whose context [0] collects QPN [qpn] from PSN [first] on. *)
Definition opened (qpn first : Z) : jitter_buffer :=
  JitterBuffer (JbWrite qpn first (segments zero_write) first 0 0 0 :: replicate 63 zero_write) 0 1.

Lemma opened_wf qpn first : jb_wf (opened qpn first).
Proof.
  split; [done| |done]. apply Forall_cons_2; [|apply Forall_replicate, zero_write_wf].
  split; [done| |done]. apply Forall_replicate. by right.
Qed.

Lemma fresh_holds c :
  segments c = segments zero_write -> write_complete c = 0 -> j_lock c = 0 -> holds c ∅.
Proof.
  intros Hs Hc Hl. assert (Hat : forall k, seg_at c k = zero_segment).
  { intros k. unfold seg_at. rewrite Hs. cbn [segments zero_write]. rewrite nth_lookup.
    destruct (replicate _ _ !! k) as [s|] eqn:E; [|done]. by apply lookup_replicate in E as [-> _]. }
  split.
  - split; [by rewrite Hs|rewrite Hs; apply Forall_replicate; by right|done].
  - intros k m t Hk. by rewrite lookup_empty in Hk.
  - intros k _. by rewrite Hat.
  - rewrite Hc. split; [done|]. intros (k & m & t & Hk & _). by rewrite lookup_empty in Hk.
  - by left.
Qed.

(** [jb_get_or_create_write], called for a flow without a
    context, opens an empty one at the given PSN, which later calls find, in
    ready for its packets; the contexts in use
    are untouched.  It fails only when no context is free. *)
Theorem jb_open_correct `{DpdkSpec} jb qpn first w :
  jb_wf jb -> jb_find jb qpn = None -> qpn <> 0 ->
  wp (jb_get_or_create_write jb qpn first) (fun r w' => w' = w /\ jb_wf (snd r) /\
    match fst r with
    | Some i =>
        jb_find (snd r) qpn = Some i /\ holds (write_at (snd r) i) ∅ /\
        first_psn (write_at (snd r) i) = first /\ expected_psn (write_at (snd r) i) = first /\
        forall j c, writes jb !! j = Some c -> j_qpn c <> 0 -> writes (snd r) !! j = Some c
    | None => snd r = jb /\ forall j c, writes jb !! j = Some c -> ~ (segment_count c = 0 /\ j_qpn c = 0)
    end) w.
Proof.
  intros Hj Hf Hq. unfold jb_get_or_create_write. rewrite (jw_lock jb Hj). wp_auto. rewrite lock_release, lock_init.
  unfold jb_find in Hf. apply fmap_None, list_find_None in Hf as Hnone. rewrite list.Forall_lookup in Hnone.
  rewrite (proj2 (list_find_None _ _)).
  2: { apply list.Forall_lookup_2. intros j c Hc [Hqc _]. by apply (Hnone j c). }
  destruct (list_find (fun c => segment_count c = 0 /\ j_qpn c = 0) (writes jb)) as [[i c0]|] eqn:E; wp_auto; (split; [done|]); cbn [fst snd].
  - apply list_find_Some in E as (Hi & [_ Hz] & _). pose proof (lookup_lt_Some _ _ _ Hi) as Hlt.
    set (c := JbWrite qpn first (segments zero_write) first 0 0 0).
    assert (Hc : holds c ∅) by by apply fresh_holds.
    assert (Hat : write_at (JitterBuffer (<[i:=c]> (writes jb)) 0 (u32 (active_write_count jb + 1))) i = c).
    { unfold write_at. cbn [writes]. by rewrite nth_lookup, list_lookup_insert_eq. }
    rewrite Hat. split; [|split; [|split; [done|split; [done|split; [done|]]]]].
    + split; cbn; [by rewrite length_insert; apply Hj|apply Forall_insert; [apply Hj|apply Hc]|done].
    + unfold jb_find. cbn [writes]. assert (list_find (fun d => j_qpn d = qpn) (<[i:=c]> (writes jb)) = Some (i, c)) as ->; [|done].
      apply list_find_Some. split; [by apply list_lookup_insert_eq|]. split; [done|].
      intros k d Hd Hk. rewrite list_lookup_insert_ne in Hd by lia. by apply (Hnone k d).
    + intros k d Hd Hdq. cbn [writes]. rewrite list_lookup_insert_ne; [done|]. intros ->. simplify_eq.
  - assert (Hid : set_j_lock 0 jb = jb) by (pose proof (jw_lock jb Hj) as Hl; destruct jb; cbn in Hl; by subst).
    rewrite Hid. split; [done|]. split; [done|]. apply list_find_None in E. rewrite list.Forall_lookup in E. done.
Qed.

Lemma jb_open_correct_witness :
  wp (@jb_get_or_create_write (sim false) (@jb_init (sim false) (JitterBuffer [] 0 0)) 17 10)
     (fun r _ => fst r = None \/ jb_find (snd r) 17 = fst r) sim_boot.
Proof.
  eapply wp_mono.
  - apply (@jb_open_correct (sim false) (sim_spec false) (@jb_init (sim false) (JitterBuffer [] 0 0)) 17 10 sim_boot).
    + split; [done|apply Forall_replicate, zero_write_wf|done].
    + by vm_compute.
    + lia.
  - intros [[i|] jb] w' (_ & _ & Hr); [|by left]. right. exact (proj1 Hr).
Defined.

(** What has arrived of a message, at a context opened by packet [k0]. *)
Lemma relocated_lookup base first k0 msg arr :
  base = (first + Z.of_nat k0) mod MAX_PSN -> message msg -> NoDup (fst <$> arr) ->
  Forall (fun x => msg !! fst x = Some (snd x)) arr -> (k0 < length msg)%nat ->
  NoDup (fst <$> relocate base first arr) /\
  forall k, (k0 <= k < length msg)%nat ->
    (list_to_map (relocate base first arr) : arrived) !! (k - k0)%nat =
    if decide (k ∈ fst <$> arr) then msg !! k else None.
Proof.
  intros -> [Hlen _] Hnd Hmsg Hk0.
  assert (Hin : forall k x, (k, x) ∈ arr -> (k < length msg)%nat /\ msg !! k = Some x).
  { intros k x Hx. rewrite list.Forall_forall in Hmsg. specialize (Hmsg _ Hx). cbn in Hmsg.
    split; [by eapply lookup_lt_Some|done]. }
  assert (Hinj : forall k k', (k < length msg)%nat -> (k' < length msg)%nat ->
            slot_of ((first + Z.of_nat k0) mod MAX_PSN) first k = slot_of ((first + Z.of_nat k0) mod MAX_PSN) first k' -> k = k').
  { intros k k' Hk Hk'. rewrite !slot_of_from. unfold JB_MAX_SEGMENTS in *. zdiv. }
  assert (Hnd' : NoDup (fst <$> relocate ((first + Z.of_nat k0) mod MAX_PSN) first arr)).
  { unfold relocate. rewrite <- list_fmap_compose.
    change (fst ∘ (fun x => (slot_of ((first + Z.of_nat k0) mod MAX_PSN) first (fst x), snd x)))
      with (fun x : nat * (nat * Z) => slot_of ((first + Z.of_nat k0) mod MAX_PSN) first (fst x)).
    apply list.NoDup_alt. intros i j y Hi Hj. apply list_lookup_fmap_Some in Hi as ([k x] & -> & Hi), Hj as ([k' x'] & Heq & Hj).
    cbn [fst] in Heq. assert (k = k') as <-.
    { apply Hinj; [|by eapply Hin, list_elem_of_lookup_2..|exact Heq]. by eapply Hin, list_elem_of_lookup_2. }
    rewrite list.NoDup_alt in Hnd. apply (Hnd i j k); rewrite list_lookup_fmap; by rewrite ?Hi, ?Hj. }
  split; [done|]. intros k Hk.
  assert (Hslot : slot_of ((first + Z.of_nat k0) mod MAX_PSN) first k = (k - k0)%nat).
  { rewrite slot_of_from. unfold JB_MAX_SEGMENTS in *. rewrite Z.mod_small; lia. }
  case_decide as Harr.
  - apply list_elem_of_fmap in Harr as ([k' x] & -> & Hx). cbn [fst] in *. destruct (Hin _ _ Hx) as [_ ->].
    apply elem_of_list_to_map_1; [done|]. rewrite <- Hslot.
    by apply (list_elem_of_fmap_2 (fun x : nat * (nat * Z) => (slot_of ((first + Z.of_nat k0) mod MAX_PSN) first (fst x), snd x)) arr (k', x)).
  - apply not_elem_of_list_to_map_1. intros (y & Hy & Hyin)%list_elem_of_fmap.
    apply list_elem_of_fmap in Hyin as ([k' x] & -> & Hx). cbn [fst snd] in Hy. apply Harr.
    destruct (Hin _ _ Hx) as [Hk' _]. rewrite <- Hslot in Hy. apply Hinj in Hy; [|lia|lia].
    subst k'. by apply (list_elem_of_fmap_2 fst arr (k, x)).
Qed.

(** What is handed over, and whether the message counts as complete. *)
Lemma relocated_deliver base first k0 msg arr :
  base = (first + Z.of_nat k0) mod MAX_PSN -> message msg -> NoDup (fst <$> arr) ->
  Forall (fun x => msg !! fst x = Some (snd x)) arr -> (k0 < length msg)%nat ->
  deliver (list_to_map (relocate base first arr)) 0 (Z.to_nat JB_MAX_SEGMENTS) =
  if decide (Forall (fun k => k ∈ fst <$> arr) (seq k0 (length msg - k0))) then Some (fst <$> drop k0 msg) else None.
Proof.
  intros Hbase Hm Hnd Hmsg Hk0. destruct (relocated_lookup _ _ _ _ _ Hbase Hm Hnd Hmsg Hk0) as [_ Hat].
  destruct Hm as [Hlen Hlast]. set (R := list_to_map _) in *.
  assert (Htype : forall k m t, (k0 <= k < length msg)%nat -> R !! (k - k0)%nat = Some (m, t) ->
            is_last t = bool_decide (S k = length msg)).
  { intros k m t Hk Hx. rewrite Hat in Hx by done. case_decide; [by eapply Hlast|done]. }
  case_decide as Hall.
  - apply deliver_run; rewrite ?length_drop; [lia|lia|]. intros i [m t] Hi. rewrite lookup_drop in Hi.
    pose proof (lookup_lt_Some _ _ _ Hi) as Hlt. cbn [Nat.add snd].
    assert (Hi' : R !! i = Some (m, t)).
    { specialize (Hat (k0 + i)%nat ltac:(lia)). replace (k0 + i - k0)%nat with i in Hat by lia.
      rewrite Hat, decide_True; [exact Hi|]. rewrite list.Forall_forall in Hall. apply Hall, elem_of_seq. lia. }
    split; [exact Hi'|]. rewrite (Hlast _ _ _ Hi). apply bool_decide_ext. lia.
  - apply not_Forall_Exists in Hall; [|intros k; apply _]. apply list.Exists_exists in Hall as (k1 & Hk1 & Hno).
    apply elem_of_seq in Hk1. cbn beta in Hno. apply (deliver_gap _ (k1 - k0)); [lia| |].
    + rewrite Hat by lia. by rewrite decide_False.
    + intros i m t Hi Hx. specialize (Htype (k0 + i)%nat m t ltac:(lia)).
      replace (k0 + i - k0)%nat with i in Htype by lia. rewrite (Htype Hx). apply bool_decide_false. lia.
Qed.

Lemma relocated_complete base first k0 msg arr c :
  base = (first + Z.of_nat k0) mod MAX_PSN -> message msg -> NoDup (fst <$> arr) ->
  Forall (fun x => msg !! fst x = Some (snd x)) arr -> (k0 < length msg)%nat ->
  holds c (list_to_map (relocate base first arr)) ->
  write_complete c = if decide ((length msg - 1)%nat ∈ fst <$> arr) then 1 else 0.
Proof.
  intros Hbase Hm Hnd Hmsg Hk0 Hh. destruct (relocated_lookup _ _ _ _ _ Hbase Hm Hnd Hmsg Hk0) as [_ Hat].
  pose proof Hm as [Hlen Hlast]. case_decide as Hin.
  - apply (h_complete _ _ Hh). destruct (lookup_lt_is_Some_2 msg (length msg - 1)) as [[m t] Hx]; [lia|].
    exists (length msg - 1 - k0)%nat, m, t. rewrite Hat, decide_True by (done || lia). split; [exact Hx|].
    rewrite (Hlast _ _ _ Hx). apply bool_decide_true. lia.
  - destruct (h_incomplete _ _ Hh) as [|Hc]; [done|exfalso]. apply Hin.
    apply (h_complete _ _ Hh) in Hc as (i & m & t & Hx & Hl). apply elem_of_list_to_map_2 in Hx.
    apply list_elem_of_fmap in Hx as ([k [m' t']] & [= -> -> ->] & Hx). rewrite list.Forall_forall in Hmsg.
    pose proof (Hmsg _ Hx) as Hk. cbn [fst snd] in Hk. rewrite (Hlast _ _ _ Hk), bool_decide_eq_true in Hl.
    replace (length msg - 1)%nat with k by lia. by apply (list_elem_of_fmap_2 fst arr (k, (m', t'))).
Qed.

(** C7 The packets of one WRITE message (at most 256, with any PSNs across
    the wrap) arrive in any order, none of them twice, some perhaps not at
    all, and the context is opened, as [jb_add_seg] asks for it, at the PSN
    of the packet that arrives first, the packet at offset [k0]
    ([jb_get_or_create_write] is called with its lock free here:
    [jb_add_seg] itself hangs at this point).  Then the message counts as
    complete once its last packet has arrived, and segments are handed over
    exactly when all packets from offset [k0] on have arrived: those
    packets, in PSN order.  So a message is delivered whole when its first
    packet arrives first, and without the packets before [k0] otherwise.  No
    mbuf is touched or released on the way. *)
Theorem reassembly_starts_at_first_arrival `{DpdkSpec} jb qpn first msg k0 x0 arr w :
  jb_wf jb -> jb_find jb qpn = None -> qpn <> 0 ->
  Exists (fun c => segment_count c = 0 /\ j_qpn c = 0) (writes jb) ->
  message msg -> NoDup (fst <$> (k0, x0) :: arr) -> Forall (fun x => msg !! fst x = Some (snd x)) ((k0, x0) :: arr) ->
  let offsets := fst <$> (k0, x0) :: arr in
  wp ('(_, jb) ← jb_get_or_create_write jb qpn ((first + Z.of_nat k0) mod MAX_PSN);
      jb ← jb_add_all qpn first ((k0, x0) :: arr) jb;
      '(complete, jb) ← jb_is_write_complete jb qpn;
      '(out, jb) ← jb_get_ordered_segs jb qpn;
      mret (complete, out)) (fun r w' =>
    fst r = (if decide ((length msg - 1)%nat ∈ offsets) then 1 else 0) /\
    snd r = (if decide (Forall (fun k => k ∈ offsets) (seq k0 (length msg - k0)))
             then Some (fst <$> drop k0 msg) else None) /\
    same_store w w' /\ forall j, held w' j = held w j) w.
Proof.
  intros Hj Hf Hq Hfree Hm Hnd Hmsg. cbv zeta. pose proof (Forall_cons_1 _ _ _ Hmsg) as [Hk0%lookup_lt_Some _].
  cbn [fst] in Hk0. apply wp_bind. eapply wp_mono; [by apply jb_open_correct|].
  intros [r jb1] w1 (-> & Hj1 & Hr). cbn [fst snd] in *. destruct r as [i|].
  2: { destruct Hr as [_ Hr]. apply list.Exists_exists in Hfree as (c & [j Hc]%list_elem_of_lookup & Hz). by destruct (Hr j c Hc). }
  destruct Hr as (Hf1 & Hh1 & Hfirst & _). apply wp_bind.
  eapply wp_mono; [by apply (jb_add_all_from ((k0, x0) :: arr) jb1 qpn first ((first + Z.of_nat k0) mod MAX_PSN) i ∅ w)|].
  intros jb2 w2 (Hj2 & Hf2 & Hh2 & Hs2 & Hheld). apply wp_bind, jb_is_write_complete_rule; [done|].
  rewrite Hf2. apply wp_bind. eapply jb_get_ordered_segs_rule; [done|exact Hf2|]. apply wp_ret. cbn [fst snd].
  destruct (relocated_lookup _ first k0 msg _ eq_refl Hm Hnd Hmsg Hk0) as [Hnd' _].
  rewrite (first_arrivals_list _ ∅ Hnd' (fun k _ => lookup_empty k)), (right_id_L ∅ (∪)) in Hh2.
  rewrite (collect_deliver _ _ Hh2). split; [exact (relocated_complete _ first k0 msg _ _ eq_refl Hm Hnd Hmsg Hk0 Hh2)|].
  split; [exact (relocated_deliver _ first k0 msg _ eq_refl Hm Hnd Hmsg Hk0)|].
  split; [done|]. intros j. rewrite (Hheld j), dup_refs_none; [lia|done|]. intros k _. apply lookup_empty.
Qed.

(** Three packets across the wrap of the PSN.  In the order first, last,
    middle the message is handed over whole once all are there; when the
    middle packet comes first, it and the last one are handed over. *)
Lemma reassembly_starts_at_first_arrival_witness :
  let run k0 x0 arr :=
    '(_, jb) ← @jb_get_or_create_write (sim false) (@jb_init (sim false) (JitterBuffer [] 0 0)) 17 ((0xFFFFFF + Z.of_nat k0) mod MAX_PSN);
    jb ← @jb_add_all (sim false) 17 0xFFFFFF ((k0, x0) :: arr) jb;
    '(complete, jb) ← @jb_is_write_complete (sim false) jb 17;
    '(out, jb) ← @jb_get_ordered_segs (sim false) jb 17;
    mret (complete, out) in
  wp (run 0%nat (1%nat, 1) [(2%nat, (3%nat, 3)); (1%nat, (2%nat, 2))]) (fun r _ => r = (1, Some [1%nat; 2%nat; 3%nat])) sim_boot /\
  wp (run 0%nat (1%nat, 1) [(2%nat, (3%nat, 3))]) (fun r _ => r = (1, None)) sim_boot /\
  wp (run 1%nat (2%nat, 2) [(0%nat, (1%nat, 1)); (2%nat, (3%nat, 3))]) (fun r _ => r = (1, Some [2%nat; 3%nat])) sim_boot.
Proof.
  assert (Hj : jb_wf (@jb_init (sim false) (JitterBuffer [] 0 0)))
    by (split; [done|apply Forall_replicate, zero_write_wf|done]).
  assert (Hm : message [(1%nat, 1); (2%nat, 2); (3%nat, 3)]).
  { split; [unfold JB_MAX_SEGMENTS; cbn [length]; lia|]. intros [|[|[|]]] m t [= <- <-]; done. }
  assert (Hfree : Exists (fun c => segment_count c = 0 /\ j_qpn c = 0) (writes (@jb_init (sim false) (JitterBuffer [] 0 0))))
    by by left.
  cbv zeta. split; [|split]; (eapply wp_mono;
    [apply (@reassembly_starts_at_first_arrival (sim false) (sim_spec false) _ 17 0xFFFFFF
              [(1%nat, 1); (2%nat, 2); (3%nat, 3)] _ _ _ sim_boot Hj);
       [by vm_compute|done|exact Hfree|exact Hm|by_dec|by_dec]|]);
    intros [c o] w' (Hc & Ho & _); cbn [fst snd] in Hc, Ho; rewrite Hc, Ho; by vm_compute.
Defined.

(** C8 A context in which some offset before the
    end of the message has not arrived hands nothing over, whatever else has
    arrived, the LAST packet included. *)
Theorem reassembly_waits_for_gaps `{DpdkSpec} jb qpn first i arr k0 w :
  jb_wf jb -> jb_find jb qpn = Some i -> first_psn (write_at jb i) = first ->
  holds (write_at jb i) ∅ -> Forall (fun x => (fst x < Z.to_nat JB_MAX_SEGMENTS)%nat) arr ->
  (k0 < Z.to_nat JB_MAX_SEGMENTS)%nat -> k0 ∉ fst <$> arr ->
  (forall k m t, (k, (m, t)) ∈ arr -> (k < k0)%nat -> is_last t = false) ->
  wp (jb ← jb_add_all qpn first arr jb;
      '(out, jb) ← jb_get_ordered_segs jb qpn;
      mret out) (fun r _ => r = None) w.
Proof.
  intros Hj Hf Hfirst Hh Hall Hk0 Hno Hlast.
  apply wp_bind. eapply wp_mono; [by apply (jb_add_all_refines arr jb qpn first i ∅ w)|].
  intros jb1 w1 (Hj1 & Hf1 & Hh1). apply wp_bind.
  eapply jb_get_ordered_segs_rule; [done|exact Hf1|]. apply wp_ret.
  assert (Hin : forall l R k x, first_arrivals l R !! k = Some x -> R !! k = Some x \/ (k, x) ∈ l).
  { clear. induction l as [|[k' y] l IH]; intros R k x Hx; [by left|].
    unfold first_arrivals in Hx. cbn [fold_left] in Hx. apply IH in Hx as [Hx|Hx]; [|right; by right].
    unfold accept in Hx. cbn [fst snd] in Hx. destruct (R !! k') eqn:E; [by left|].
    apply lookup_insert_Some in Hx as [[-> ->]|[_ Hx]]; [right; by left|by left]. }
  rewrite (collect_deliver _ _ Hh1). apply (deliver_gap _ k0); [lia| |].
  - destruct (first_arrivals arr ∅ !! k0) as [x|] eqn:E; [|done]. apply Hin in E as [E|E].
    + by rewrite lookup_empty in E.
    + exfalso. apply Hno. by apply (list_elem_of_fmap_2 fst arr (k0, x)).
  - intros k m t Hk Hx. apply Hin in Hx as [Hx|Hx]; [by rewrite lookup_empty in Hx|].
    eapply Hlast; [exact Hx|lia].
Qed.

Lemma reassembly_waits_for_gaps_witness :
  wp (jb ← @jb_add_all (sim false) 17 10 [(2%nat, (3%nat, 3)); (0%nat, (1%nat, 1))] (opened 17 10);
      '(out, jb) ← @jb_get_ordered_segs (sim false) jb 17; mret out) (fun r _ => r = None) sim_boot.
Proof.
  apply (@reassembly_waits_for_gaps (sim false) (sim_spec false) (opened 17 10) 17 10 0 _ 1).
  - apply opened_wf.
  - done.
  - done.
  - by apply fresh_holds.
  - by_dec.
  - unfold JB_MAX_SEGMENTS; lia.
  - by_dec.
  - intros k m t Hk Hlt. assert (k = 0%nat) as -> by lia.
    rewrite !elem_of_cons in Hk. destruct Hk as [[=]|[[= -> ->]|[]%elem_of_nil]]. done.
Defined.

(** [jb_check_missing] looks at the
    next expected packet only, and reports it whenever it has not arrived
    yet: right after a packet that arrived in order, it names the following
    PSN, although nothing has been skipped (the WAN path then sends a NACK
    for it). *)
Theorem in_order_packet_reports_next_as_missing `{DpdkSpec} jb qpn first i R k m t w :
  jb_wf jb -> jb_find jb qpn = Some i -> first_psn (write_at jb i) = first ->
  holds (write_at jb i) R -> expected_psn (write_at jb i) = (first + Z.of_nat k) mod MAX_PSN ->
  (S k < Z.to_nat JB_MAX_SEGMENTS)%nat -> R !! k = None -> R !! S k = None ->
  wp ('(_, jb) ← jb_add_seg jb qpn ((first + Z.of_nat k) mod MAX_PSN) t m; jb_check_missing jb qpn)
     (fun r _ => fst r = (first + Z.of_nat (S k)) mod MAX_PSN) w.
Proof.
  intros Hj Hf Hfirst Hh Hexp Hk HR HR'. destruct (jb_find_Some jb qpn i Hf) as [Hi _].
  set (c := write_at jb i) in *. set (pn := (first + Z.of_nat k) mod MAX_PSN) in *.
  assert (Hidx : seg_index c pn = k) by (apply seg_index_offset; [done|lia]).
  apply wp_bind. eapply jb_add_seg_rule; [done|exact Hf| |]; fold c; rewrite Hidx.
  { intros Hst. by destruct (h_out _ _ Hh k HR). }
  intros _ t0.
  assert (Hh' : holds (jb_place c pn t m t0) (<[k := (m, t)]> R)).
  { rewrite <- Hidx. apply jb_place_holds; [done|]. by rewrite Hidx. }
  assert (Hexp' : expected_psn (jb_place c pn t m t0) = (first + Z.of_nat (S k)) mod MAX_PSN).
  { unfold jb_place. cbn [expected_psn]. rewrite psn_forward_dist_mod, Hexp, Z.sub_diag. cbn [Z.eqb Z.modulo].
    change (0 mod MAX_PSN =? 0) with true. cbv iota. rewrite (psn_mask_mod : forall x, Z.land x 0x00FFFFFF = _).
    unfold pn, u32. pose proof (Z.mod_pos_bound (first + Z.of_nat k) MAX_PSN). unfold MAX_PSN in *.
    rewrite (Z.mod_small (_ + 1)) by lia. rewrite Zplus_mod_idemp_l. f_equal. lia. }
  eapply jb_check_missing_rule.
  - apply set_write_wf; [done|]. apply (h_wf _ _ Hh').
  - by rewrite jb_find_set_write.
  - cbv zeta. assert (Hat : write_at (set_write i (jb_place c pn t m t0) jb) i = jb_place c pn t m t0).
    { unfold write_at. cbn [writes set_write]. rewrite nth_insert by done. by rewrite decide_True. }
    rewrite Hat, Hexp'.
    assert (Hidx' : seg_index (jb_place c pn t m t0) ((first + Z.of_nat (S k)) mod MAX_PSN) = S k)
      by (apply seg_index_offset; [exact Hfirst|lia]).
    rewrite Hidx'. pose proof (h_out _ _ Hh' (S k)) as Hn. rewrite lookup_insert_ne in Hn by lia.
    specialize (Hn HR'). by destruct (s_state _).
Qed.

Lemma in_order_packet_reports_next_as_missing_witness :
  wp ('(_, jb) ← @jb_add_seg (sim false) (opened 17 10) 17 10 1 1; @jb_check_missing (sim false) jb 17)
     (fun r _ => fst r = 11) sim_boot.
Proof.
  apply (@in_order_packet_reports_next_as_missing (sim false) (sim_spec false) (opened 17 10) 17 10 0 ∅ 0 1 1).
  - apply opened_wf.
  - done.
  - done.
  - by apply fresh_holds.
  - done.
  - unfold JB_MAX_SEGMENTS. lia.
  - done.
  - done.
Defined.

(** Once a packet filled a gap out of
    order the expected PSN stays behind, and later gaps are never reported:
    PSNs 10, 12, 11 arrive, 13 is lost, 14 arrives, and [jb_check_missing]
    answers 0 (nothing missing). *)
Theorem gap_after_reordering_is_not_reported :
  wp (jb ← @jb_add_all (sim false) 17 10
             [(0%nat, (1%nat, 1)); (2%nat, (2%nat, 2)); (1%nat, (3%nat, 2)); (4%nat, (4%nat, 2))] (opened 17 10);
      '(missing, jb) ← @jb_check_missing (sim false) jb 17;
      mret (missing, s_state (seg_at (write_at jb 0) 3)))
     (fun r _ => r = (0, JB_SEGMENT_WAITING)) sim_boot.
Proof. by vm_compute. Qed.

(** C27 Removing a message releases every mbuf its
    context holds exactly once, leaves the context as [memset] does, and
    touches no other: on its own [jb_remove_write] is balanced. *)
Theorem jb_remove_releases_once `{DpdkSpec} jb qpn i w :
  jb_wf jb -> jb_find jb qpn = Some i ->
  wp (jb_remove_write jb qpn) (fun jb' w' =>
    jb_wf jb' /\ writes jb' = <[i := zero_write]> (writes jb) /\ same_store w w' /\
    forall j, held w' j - jb_refs jb' j = held w j - jb_refs jb j) w.
Proof.
  intros Hj Hf. destruct (jb_find_Some jb qpn i Hf) as [Hi _].
  eapply jb_remove_write_rule; [done|exact Hf|]. intros w' Hs Hh. cbn [writes].
  split; [split; cbn; [by rewrite length_insert; apply Hj|apply Forall_insert; [apply Hj|apply zero_write_wf]|done]|].
  split; [done|]. split; [done|]. intros j. rewrite (Hh j).
  unfold jb_refs at 1. cbn [writes]. rewrite (sumZ_insert _ _ i (write_at jb i)) by (by apply nth_lookup_lt).
  rewrite zero_write_refs. unfold jb_refs. lia.
Qed.

(** QPN 17 holds the mbufs 1 and 2, each referenced once; then neither is. *)
Definition two_segments : jitter_buffer :=
  JitterBuffer (JbWrite 17 10 (<[0%nat := JbSegment 10 (Some 1%nat) JB_SEGMENT_RECEIVED 1 0]>
    (<[2%nat := JbSegment 12 (Some 2%nat) JB_SEGMENT_RECEIVED 3 0]> (segments zero_write))) 10 2 1 0
    :: replicate 63 zero_write) 0 1.

Lemma jb_remove_releases_once_witness :
  held (sim_world [[]; []]) 1%nat = 1 /\ held (sim_world [[]; []]) 2%nat = 1 /\
  wp (@jb_remove_write (sim false) two_segments 17) (fun jb' w' =>
    jb_find jb' 17 = None /\ held w' 1%nat = 0 /\ held w' 2%nat = 0) (sim_world [[]; []]).
Proof.
  split; [by vm_compute|]. split; [by vm_compute|]. eapply wp_mono.
  - apply (@jb_remove_releases_once (sim false) (sim_spec false) two_segments 17 0); [|by vm_compute].
    split; [done| |done]. apply Forall_cons_2; [|apply Forall_replicate, zero_write_wf].
    split; [done| |done]. apply Forall_insert; [apply Forall_insert; [apply Forall_replicate; by right|]|]; left; cbn; eauto.
  - intros jb' w' (_ & Hw & _ & Hh).
    assert (Hj : forall j, jb_refs jb' j = sumZ (write_refs j) (<[0%nat := zero_write]> (writes two_segments)))
      by (intros j; unfold jb_refs; by rewrite Hw).
    pose proof (Hh 1%nat) as H1. pose proof (Hh 2%nat) as H2. rewrite Hj in H1, H2. unfold jb_find. rewrite Hw.
    split; [by vm_compute|]. revert H1 H2.
    change (held (sim_world [[]; []]) 1%nat) with 1. change (held (sim_world [[]; []]) 2%nat) with 1.
    replace (jb_refs two_segments 1) with 1 by by vm_compute. replace (jb_refs two_segments 2) with 1 by by vm_compute.
    replace (sumZ (write_refs 1) _) with 0 by by vm_compute. replace (sumZ (write_refs 2) _) with 0 by by vm_compute. lia.
Defined.
