(* ===== verification/Processor.v ===== *)
(** * processor.c: the per-core packet processor

    [forge_and_send_ack], [cnp_emit], [check_congestion], the LAN and WAN
    receive paths and the timer.  A processor is the record of its
    components; a context pointer is an index.  Logging is left out. *)

From S2P Require Import Prelude Crc32 PeerManager Stats Env RoceDefs Arq.
From S2P Require Import QpCtx WanTunnel Icrc Congestion ArqMsg JitterBuffer.

Definition CONGESTION_CHECK_INTERVAL : Z := 5.

(** [lcore_args_t]: what [main] hands to the loop of one lcore; [la_proc] is
    the index in [g_processors]. *)
Record lcore_args := LcoreArgs {
  la_proc : Z;
  la_lan_port : Z;
  la_wan_port : Z;
  la_queue_id : Z;
  la_mbuf_pool : Z;
  la_is_lan_core : Z }.

(** ** State *)

Record processor_context := Processor {
  qp_mgr : qp_manager;
  arq_mgr : arq_manager;
  p_jb : jitter_buffer;
  congestion_ctrl : congestion_control;
  p_stats : gateway_stats;
  lcore_id : Z;
  is_lan_core : Z;
  packet_counter : Z;
  last_stats_dump : Z }.

Definition set_qp_mgr (x : qp_manager) (p : processor_context) : processor_context :=
  Processor x (arq_mgr p) (p_jb p) (congestion_ctrl p) (p_stats p) (lcore_id p) (is_lan_core p)
    (packet_counter p) (last_stats_dump p).
Definition set_arq_mgr (x : arq_manager) (p : processor_context) : processor_context :=
  Processor (qp_mgr p) x (p_jb p) (congestion_ctrl p) (p_stats p) (lcore_id p) (is_lan_core p)
    (packet_counter p) (last_stats_dump p).
Definition set_p_jb (x : jitter_buffer) (p : processor_context) : processor_context :=
  Processor (qp_mgr p) (arq_mgr p) x (congestion_ctrl p) (p_stats p) (lcore_id p) (is_lan_core p)
    (packet_counter p) (last_stats_dump p).
Definition set_cc (x : congestion_control) (p : processor_context) : processor_context :=
  Processor (qp_mgr p) (arq_mgr p) (p_jb p) x (p_stats p) (lcore_id p) (is_lan_core p)
    (packet_counter p) (last_stats_dump p).
Definition set_counter (n : Z) (p : processor_context) : processor_context :=
  Processor (qp_mgr p) (arq_mgr p) (p_jb p) (congestion_ctrl p) (p_stats p) (lcore_id p)
    (is_lan_core p) n (last_stats_dump p).
Definition set_last_dump (t : Z) (p : processor_context) : processor_context :=
  Processor (qp_mgr p) (arq_mgr p) (p_jb p) (congestion_ctrl p) (p_stats p) (lcore_id p)
    (is_lan_core p) (packet_counter p) t.

(** [stat_inc(&proc->stats, c)] *)
Definition count (c : stat_counter) (p : processor_context) : processor_context :=
  Processor (qp_mgr p) (arq_mgr p) (p_jb p) (congestion_ctrl p) (stat_inc (p_stats p) c) (lcore_id p)
    (is_lan_core p) (packet_counter p) (last_stats_dump p).

(** The contexts behind an index. *)
Definition qp_at (p : processor_context) (i : nat) : qp_context := nth i (qps (qp_mgr p)) zero_qp.
Definition put_qp (i : nat) (q : qp_context) (p : processor_context) : processor_context :=
  set_qp_mgr (QpManager (<[i := q]> (qps (qp_mgr p))) (q_global_lock (qp_mgr p))
                (active_qp_count (qp_mgr p))) p.
Definition arq_at (p : processor_context) (i : nat) : arq_context := nth i (contexts (arq_mgr p)) zero_context.
Definition put_arq (i : nat) (a : arq_context) (p : processor_context) : processor_context :=
  set_arq_mgr (ArqManager (<[i := a]> (contexts (arq_mgr p))) (a_global_lock (arq_mgr p))) p.

Section Operations.
Context `{Dpdk}.

Definition proc_init (lcore is_lan src_ip : Z) : processor_context :=
  Processor (qp_mgr_init zero_qp_manager) (arq_mgr_init zero_manager)
    (jb_init (JitterBuffer [] 0 0)) (cc_init BUFFER_HIGH_WATER BUFFER_LOW_WATER src_ip)
    (stat_init (GatewayStats [])) lcore is_lan 0 0.

(** ** The spoofed ACK *)

Definition ACK_SIZE : Z := 62.

(** The stores before the ICRC; [ob] is the packet acknowledged. *)
Definition ack_frame (ob b : list Z) : list Z :=
  let b := set_eth_d_addr (rte_ether_addr_copy (eth_s_addr ob)) b in
  let b := set_eth_s_addr (rte_ether_addr_copy (eth_d_addr ob)) b in
  let b := set_ether_type (ether_type ob) b in
  let b := build_ipv4_udp (ip_dst ob) (ip_src ob) (udp_dport ob) (udp_sport ob) 48 28 b in
  let b := set_bth_opcode ROCE_OPCODE_ACK b in
  let b := set_bth_flags (bth_flags ob) b in
  let b := set_bth_pkey (bth_pkey ob) b in
  let b := set_bth_fecn 0 b in
  let b := set_bth_ack_res 0 b in
  let b := bth_set_qpn (bth_get_qpn ob) b in
  let b := bth_set_psn (bth_get_psn ob) b in
  let b := st 1 54 0 b in
  let b := st 1 55 0 b in
  st 2 56 (rte_cpu_to_be_16 0xFFFF) b.

Definition forge_and_send_ack (orig_m : nat) (pool lan_port : Z) : M Z :=
  r ← rte_pktmbuf_alloc pool;
  match r with
  | None => mret (-1)
  | Some m =>
      d ← rte_pktmbuf_append m ACK_SIZE;
      match d with
      | None => rte_pktmbuf_free (Some m);; mret (-1)
      | Some off =>
          ob ← mtod orig_m;
          mstore m (at_off off (ack_frame ob));;
          crc ← roce_icrc m off 16;
          mstore m (at_off off (st 4 58 (rte_cpu_to_be_32 crc)));;
          n ← rte_eth_tx_burst lan_port 0 (Some m);
          if n =? 0 then rte_pktmbuf_free (Some m);; mret (-1) else mret 0
      end
  end.

(** ** Flows to cores *)

Definition flow_hash (b : list Z) (qpn : Z) : Z :=
  let hash := rte_hash_crc_32b (slice 26 4 b) 0 in
  let hash := rte_hash_crc_32b (slice 30 4 b) hash in
  let hash := rte_hash_crc_32b (slice 34 2 b) hash in
  rte_hash_crc_32b (le_bytes 4 qpn) hash.

Definition proc_flow_to_lan_lcore (lan_cores : Z) (b : list Z) (qpn : Z) : Z :=
  flow_hash b qpn mod lan_cores.

Definition proc_flow_to_wan_lcore (lan_cores wan_cores : Z) (b : list Z) (qpn : Z) : Z :=
  u32 (lan_cores + flow_hash b qpn mod wan_cores).

(** ** Congestion *)

Definition calculate_arq_window_usage (p : processor_context) : Z :=
  fold_left (fun used c => if a_qpn c =? 0 then used else u32 (used + u32 (send_next c - send_base c)))
    (contexts (arq_mgr p)) 0.

Definition cnp_emit (p : processor_context) (i : nat) (port pool now : Z) : M processor_context :=
  let qp := qp_at p i in
  if notify_ip qp =? 0 then mret p
  else if negb (cc_cnp_due (congestion_ctrl p) (last_cnp_tsc qp) now) then mret p
  else
    '(r, cc) ← cc_build_cnp (congestion_ctrl p) (q_qpn qp) (notify_ip qp) (pkey qp) pool;
    let p := set_cc cc p in
    match r with
    | None => mret p
    | Some cnp =>
        mstore cnp (set_eth_d_addr (rte_ether_addr_copy (notify_mac qp)));;
        mstore cnp (set_eth_s_addr (rte_ether_addr_copy (gw_mac qp)));;
        n ← rte_eth_tx_burst port 0 (Some cnp);
        if n =? 0 then rte_pktmbuf_free (Some cnp);; mret p
        else
          mret (count STAT_CNP_SENT
            (put_qp i (QpContext (q_qpn qp) (q_lock qp) (active qp) now (notify_ip qp) (pkey qp)
                         (notify_mac qp) (gw_mac qp)) p))
    end.

Definition check_congestion (p : processor_context) (lan_port pool : Z) : M processor_context :=
  let used := calculate_arq_window_usage p in
  let total := MAX_QP_CTX * WINDOW_SIZE in
  let '(_, cc) := cc_check_buffer (congestion_ctrl p) used total in
  let p := set_cc cc p in
  if congestion_detected (cnp_ctx cc) =? 0 then mret p
  else
    now ← rte_rdtsc;
    foldM (fun p i => if active (qp_at p i) =? 0 then mret p else cnp_emit p i lan_port pool now)
      (seq 0 (Z.to_nat MAX_QP_CTX)) p.

(** ** LAN receive path *)

(** The tail of [proc_process_lan_rx]: transmit towards the WAN, [in_window]
    saying whether the ARQ window took the packet. *)
Definition lan_transmit (p : processor_context) (in_window : bool) (wan_m : nat) (wan_port : Z)
    : M processor_context :=
  if in_window then
    rte_pktmbuf_refcnt_update (Some wan_m) 1;;
    n ← rte_eth_tx_burst wan_port 0 (Some wan_m);
    if n =? 0 then
      rte_pktmbuf_refcnt_update (Some wan_m) (-1);;
      mret (count STAT_PKTS_DROPPED p)
    else mret p
  else
    n ← rte_eth_tx_burst wan_port 0 (Some wan_m);
    if n =? 0 then
      rte_pktmbuf_free (Some wan_m);;
      mret (count STAT_PKTS_DROPPED p)
    else mret p.

(** The ARQ part: find or open the window of the flow and put the packet in. *)
Definition lan_arq (p : processor_context) (qpn psn seg peer_ip : Z) (wan_m : nat)
    : M (bool * processor_context) :=
  '(r, mgr) ← arq_get_or_create (arq_mgr p) qpn;
  let p := set_arq_mgr mgr p in
  match r with
  | None => mret (false, p)
  | Some i =>
      '(rc, a) ← arq_send_pkt (arq_at p i) (Some wan_m) psn seg;
      a ← arq_set_peer_ip a peer_ip;
      mret (rc =? 0, put_arq i a p)
  end.

(** The notification fields of the flow, from the packet. *)
Definition note_flow (ob : list Z) (q : qp_context) : qp_context :=
  QpContext (q_qpn q) (q_lock q) (active q) (last_cnp_tsc q) (ip_src ob) (bth_pkey ob)
    (rte_ether_addr_copy (eth_s_addr ob)) (rte_ether_addr_copy (eth_d_addr ob)).

(** From [qp_get_or_create] on: the packet is a WRITE segment to a peer. *)
Definition lan_write (p : processor_context) (m : nat) (ob : list Z) (peer_ip lan_port wan_port pool : Z)
    : M processor_context :=
  let qpn := bth_get_qpn ob in
  let psn := bth_get_psn ob in
  let seg := get_segment_type (bth_opcode ob) in
  '(r, mgr) ← qp_get_or_create (qp_mgr p) qpn;
  let p := set_qp_mgr mgr p in
  match r with
  | None => rte_pktmbuf_free (Some m);; mret (count STAT_PKTS_DROPPED p)
  | Some i =>
      let p := put_qp i (note_flow ob (qp_at p i)) p in
      p ← (if Z.land (ip_tos ob) 0x3 =? 0x3
           then now ← rte_rdtsc; cnp_emit p i lan_port pool now
           else mret p);
      let p := count STAT_PKTS_LAN_TO_WAN (count STAT_WRITE_PKTS_PROCESSED p) in
      forge_and_send_ack m pool lan_port;;
      let p := count STAT_ACK_SPOOFED_SENT p in
      wan_m ← wan_fwd_roce m wan_port;
      '(in_window, p) ← lan_arq p qpn psn seg peer_ip wan_m;
      p ← lan_transmit p in_window wan_m wan_port;
      let p := set_counter (u32 (packet_counter p + 1)) p in
      if packet_counter p mod CONGESTION_CHECK_INTERVAL =? 0
      then check_congestion p lan_port pool else mret p
  end.

Definition lan_passthrough (p : processor_context) (m : nat) (wan_port : Z) : M processor_context :=
  wan_fwd_passthrough m wan_port;; mret (count STAT_PKTS_PASSTHROUGH p).

Definition proc_process_lan_rx (p : processor_context) (m : nat) (lan_port wan_port pool : Z)
    : M processor_context :=
  ob ← mtod m;
  if negb (rte_be_to_cpu_16 (ether_type ob) =? RTE_ETHER_TYPE_IPV4) then
    rte_pktmbuf_free (Some m);; mret (count STAT_PKTS_DROPPED p)
  else
    peer_ip ← wan_get_peer_ip (rte_be_to_cpu_32 (ip_dst ob));
    if peer_ip =? 0 then lan_passthrough p m wan_port
    else if negb (ip_proto ob =? IPPROTO_UDP) then lan_passthrough p m wan_port
    else if negb (rte_be_to_cpu_16 (udp_dport ob) =? WAN_UDP_PORT) then lan_passthrough p m wan_port
    else if negb (is_write_opcode (bth_opcode ob)) then lan_passthrough p m wan_port
    else lan_write p m ob peer_ip lan_port wan_port pool.

(** ** WAN receive path *)

(** [arq_build_ctrl_msg] with an empty list, transmit, and the counter. *)
Definition send_ctrl (p : processor_context) (qpn type psn peer_ip wan_port pool : Z) (c : stat_counter)
    : M processor_context :=
  r ← arq_build_ctrl_msg qpn type psn peer_ip None 0 pool;
  match r with
  | None => mret p
  | Some msg =>
      n ← rte_eth_tx_burst wan_port 0 (Some msg);
      if n =? 0 then rte_pktmbuf_free (Some msg);; mret p else mret (count c p)
  end.

Definition wan_ctrl (p : processor_context) (m : nat) (wan_port : Z) : M processor_context :=
  msg ← arq_parse_ctrl_msg m;
  p ← match msg with
      | None => mret p
      | Some msg =>
          '(r, mgr) ← arq_lookup (arq_mgr p) (msg_qpn msg);
          let p := set_arq_mgr mgr p in
          match r with
          | None => mret p
          | Some i =>
              if msg_type msg =? ARQ_MSG_ACK then
                '(_, a) ← arq_handle_ack (arq_at p i) (msg_psn msg);
                mret (count STAT_ARQ_ACK_RECEIVED (put_arq i a p))
              else if msg_type msg =? ARQ_MSG_NACK then
                '(_, a) ← arq_handle_nack (arq_at p i) (msg_psn msg) wan_port;
                mret (count STAT_ARQ_NACK_RECEIVED (put_arq i a p))
              else mret p
          end
      end;
  rte_pktmbuf_free (Some m);;
  mret p.

(** The delivery loop: rewrite, transmit to the LAN, free on failure. *)
Definition deliver_seg (lan_port : Z) (_ : unit) (lan_m : nat) : M unit :=
  wan_prepare_for_lan lan_m;;
  n ← rte_eth_tx_burst lan_port 0 (Some lan_m);
  if n =? 0 then rte_pktmbuf_free (Some lan_m) else mret tt.

(** The destination address is read through [ip_hdr] at each use. *)
Definition wan_deliver (p : processor_context) (m : nat) (qpn psn lan_port wan_port pool : Z)
    : M processor_context :=
  '(complete, jb) ← jb_is_write_complete (p_jb p) qpn;
  let p := set_p_jb jb p in
  if complete =? 0 then mret p
  else
    '(out, jb) ← jb_get_ordered_segs (p_jb p) qpn;
    let p := set_p_jb jb p in
    match out with
    | None | Some [] => mret p
    | Some segs =>
        foldM (deliver_seg lan_port) segs tt;;
        jb ← jb_remove_write (p_jb p) qpn;
        let p := set_p_jb jb p in
        ob ← mtod m;
        peer_ip ← wan_get_peer_ip (rte_be_to_cpu_32 (ip_dst ob));
        send_ctrl p qpn ARQ_MSG_ACK psn peer_ip wan_port pool STAT_ARQ_ACK_SENT
    end.

Definition wan_write (p : processor_context) (m : nat) (ob : list Z) (lan_port wan_port pool : Z)
    : M processor_context :=
  let qpn := bth_get_qpn ob in
  let psn := bth_get_psn ob in
  let seg := get_segment_type (bth_opcode ob) in
  let p := count STAT_PKTS_WAN_TO_LAN p in
  '(added, jb) ← jb_add_seg (p_jb p) qpn psn seg m;
  let p := set_p_jb jb p in
  if added <? 0 then rte_pktmbuf_free (Some m);; mret (count STAT_PKTS_DROPPED p)
  else
    p ← (if added =? 1 then
           '(missing, jb) ← jb_check_missing (p_jb p) qpn;
           let p := set_p_jb jb p in
           if missing =? 0 then mret p
           else
             ob ← mtod m;
             peer_ip ← wan_get_peer_ip (rte_be_to_cpu_32 (ip_dst ob));
             send_ctrl p qpn ARQ_MSG_NACK missing peer_ip wan_port pool STAT_NACK_SENT
         else mret p);
    wan_deliver p m qpn psn lan_port wan_port pool.

Definition wan_drop (p : processor_context) (m : nat) : M processor_context :=
  rte_pktmbuf_free (Some m);; mret (count STAT_PKTS_DROPPED p).

Definition proc_process_wan_rx (p : processor_context) (m : nat) (lan_port wan_port pool : Z)
    : M processor_context :=
  ob ← mtod m;
  if negb (rte_be_to_cpu_16 (ether_type ob) =? RTE_ETHER_TYPE_IPV4) then wan_drop p m
  else if negb (ip_proto ob =? IPPROTO_UDP) then wan_drop p m
  else if rte_be_to_cpu_16 (udp_dport ob) =? ARQ_CTRL_PORT then wan_ctrl p m wan_port
  else if negb (rte_be_to_cpu_16 (udp_dport ob) =? WAN_UDP_PORT) then wan_drop p m
  else if negb (is_write_opcode (bth_opcode ob)) then wan_drop p m
  else wan_write p m ob lan_port wan_port pool.

(** ** The timer *)

Definition timer_context (wan_port : Z) (p : processor_context) (i : nat) : M processor_context :=
  if a_qpn (arq_at p i) =? 0 then mret p
  else a ← arq_check_timeouts (arq_at p i) wan_port; mret (put_arq i a p).

Definition proc_timer_callback (p : processor_context) (wan_port : Z) : M processor_context :=
  p ← foldM (timer_context wan_port) (seq 0 (Z.to_nat MAX_QP_CTX)) p;
  now ← rte_rdtsc;
  if u64 (rte_get_timer_hz * 10) <? u64 (now - last_stats_dump p)
  then mret (set_last_dump now p) else mret p.

End Operations.
