(* ===== verification/LanPath.v ===== *)
(** * The LAN path: totality, memory safety and reference ownership

    For every behaviour of DPDK allowed by [DpdkSpec] the LAN receive path
    returns, never dereferences an mbuf it does not know, keeps the tables
    well formed, and accounts for every packet reference: what the program
    holds afterwards is what the retransmission windows hold. *)

From S2P Require Import Prelude Crc32 PeerManager Stats Env RoceDefs Arq.
From S2P Require Import QpCtx WanTunnel Icrc Congestion ArqMsg JitterBuffer Processor.

(** ** Invariant of a processor *)

Record proc_ok (p : processor_context) : Prop := ProcOk {
  po_qp : qp_wf (qp_mgr p);
  po_arq : mgr_wf (arq_mgr p);
  po_jb : jb_wf (p_jb p);
  po_stats : stats_wf (p_stats p) }.

(** [p'] differs from [p] outside the ARQ windows and the jitter buffer. *)
Record same_queues (p p' : processor_context) : Prop := SameQueues {
  sq_ok : proc_ok p';
  sq_arq : arq_mgr p' = arq_mgr p;
  sq_jb : p_jb p' = p_jb p }.

(** The references the windows of a processor own. *)
Definition win_own (p : processor_context) (j : nat) : Z := mgr_refs (contexts (arq_mgr p)) j.

Definition queued (p : processor_context) (w : world) : Prop := mgr_in_mem (contexts (arq_mgr p)) (w_mem w).

Lemma queued_le p w w' : queued p w -> mem_le w w' -> queued p w'.
Proof. intros Hq Hle i c Hc. specialize (Hq i c Hc). unfold win_in_mem in *.
  eapply list.Forall_impl; [exact Hq|]. intros e He j Hj. by apply Hle, He. Qed.

Lemma same_queues_refl p : proc_ok p -> same_queues p p.
Proof. by split. Qed.

Lemma same_queues_trans p1 p2 p3 : same_queues p1 p2 -> same_queues p2 p3 -> same_queues p1 p3.
Proof. intros [] []. split; congruence || done. Qed.

Lemma same_queues_own p p' j : same_queues p p' -> win_own p' j = win_own p j.
Proof. unfold win_own. by intros [_ -> _]. Qed.

Lemma queued_same p p' w : same_queues p p' -> queued p w -> queued p' w.
Proof. unfold queued. by intros [_ -> _]. Qed.

Lemma count_queues c p p' : same_queues p p' -> same_queues p (count c p').
Proof. intros [[] ? ?]. split; try done. split; try done. by apply stat_inc_wf. Qed.

Lemma set_cc_queues cc p p' : same_queues p p' -> same_queues p (set_cc cc p').
Proof. intros [[] ? ?]. by split. Qed.

Lemma set_counter_queues n p p' : same_queues p p' -> same_queues p (set_counter n p').
Proof. intros [[] ? ?]. by split. Qed.

Lemma put_qp_queues i q p p' :
  same_queues p p' -> (i < length (qps (qp_mgr p')))%nat ->
  q_qpn q = q_qpn (qp_at p' i) -> active q = active (qp_at p' i) -> qp_ok q ->
  same_queues p (put_qp i q p').
Proof.
  intros [[] ? ?] Hi Hn Ha Hok. split; try done. split; try done.
  apply qp_put_wf with (qp_at p' i); try done. by apply nth_lookup_lt.
Qed.

Lemma qp_at_ok p i : proc_ok p -> qp_ok (qp_at p i).
Proof.
  intros Hp. unfold qp_at. rewrite nth_lookup. destruct (_ !! i) as [q|] eqn:E; cbn.
  - eapply Forall_lookup_1; [apply (qp_each _ (po_qp p Hp))|exact E].
  - split; [unfold is_u32; cbn; lia|]. split; apply zero_mac_ok.
Qed.

#[export] Hint Resolve same_queues_refl count_queues set_cc_queues set_counter_queues : gw.

Section Lan.
Context `{DpdkSpec}.

(** ** The spoofed ACK *)

Lemma keeps_ack_frame ob : bytes_ok ob -> keeps (ack_frame ob).
Proof.
  intros Hob. unfold ack_frame, set_eth_d_addr, set_eth_s_addr, set_ether_type, set_bth_opcode,
    set_bth_flags, set_bth_pkey, set_bth_fecn, set_bth_ack_res, bth_set_qpn, bth_set_psn. cbv zeta.
  rewrite !ether_copy.
  assert (bytes_ok (eth_s_addr ob)) by by apply slice_ok.
  assert (bytes_ok (eth_d_addr ob)) by by apply slice_ok.
  auto 40 using keeps_build_ipv4_udp with gw.
Qed.

(** The bytes of a finished ACK. *)
Definition ack_bytes (ob b0 : list Z) : list Z :=
  let b := ack_frame ob b0 in st 4 58 (rte_cpu_to_be_32 (icrc_spec 16 b)) b.

(** The call, on every path; [ob] is the packet answered, the original one
    when the program holds it. *)
Lemma forge_and_send_ack_ev orig pool port (Q : Z -> world -> Prop) d w0 w :
  evolves d w0 w -> is_Some (w_mem w !! orig) ->
  (forall w', evolves d w0 w' -> mem_le w w' -> kept w w' ->
     Q (-1) w') ->
  (forall i b0 ob w', evolves d w0 w' -> mem_le w w' -> kept w w' -> length b0 = DATAROOM -> bytes_ok b0 ->
     mbuf_wf ob -> (1 <= held w orig -> w_mem w !! orig = Some ob) ->
     (exists tr, w_trace w' = EvTx port 0 i (take 62 (ack_bytes (room ob) b0)) true :: tr) ->
     Q 0 w') ->
  wp (forge_and_send_ack orig pool port) Q w.
Proof.
  intros He Hmem HQf HQs. unfold forge_and_send_ack.
  eapply ev_new_frame; [exact He| | |]; clear He.
  - intros w' He Hle Hm. ev_auto. apply HQf; [done|done|]. intros j _. by rewrite Hm.
  - intros i w' He Hi Hle Hfr Ho. apply wp_bind. eapply ev_free_exact; [exact He|]. clear He.
    intros w1 He Hm1 _. ev_auto. apply HQf; [ev_done| |].
    + intros j Hj. rewrite Hm1. by apply Hle.
    + intros j Hj. rewrite Hm1. apply Ho. intros ->. lia.
  - intros i b w' He Hb Hlen Hfresh Hother Hle. ev_auto.
    pose proof (world_ok_mbuf w' i b (ev_ok _ _ _ He) Hb) as Hwf.
    destruct (Hle orig Hmem) as [ob Horig].
    pose proof (world_ok_mbuf w' orig ob (ev_ok _ _ _ He) Horig) as Hobwf.
    assert (Hobs : 1 <= held w orig -> w_mem w !! orig = Some ob).
    { intros Hh. rewrite <- Hother; [done|]. intros ->. lia. }
    eapply wp_mtod; [exact Horig|]. ev_auto.
    eapply ev_mstore_exact; [exact He|exact Hb|apply keeps_at_off, keeps_ack_frame, Hobwf|].
    intros w1 He1 Hm1 _. rewrite at_off_0 in Hm1. ev_auto.
    eapply roce_icrc_ev; [exact He1|rewrite Hm1; apply lookup_insert_eq|].
    intros w2 He2 Hm2 _. rewrite Hm1 in Hm2. ev_auto. cbn [room].
    eapply ev_mstore_exact; [exact He2|rewrite Hm2; apply lookup_insert_eq| |].
    { apply keeps_at_off. apply (keeps_st 4 58 _ (fun b => b)), keeps_id. }
    intros w3 He3 Hm3 _. rewrite Hm2, insert_insert_eq, at_off_0 in Hm3. cbn [room data_len] in Hm3. ev_auto.
    assert (Hle3 : mem_le w w3).
    { eapply mem_le_trans; [exact Hle|]. by eapply mem_le_insert. }
    assert (Hk3 : kept w w3).
    { intros j Hj. rewrite Hm3, lookup_insert_ne by (intros ->; lia). apply Hother. intros ->. lia. }
    clear He He1 He2. eapply ev_tx_exact; [exact He3|rewrite Hm3; apply lookup_insert_eq| |].
    + intros w4 He4 Hm4 Ht4. ev_auto. apply (HQs i (room b) ob); [| | | | |exact Hobwf|exact Hobs|].
      * eapply evolves_ext; [|exact He4]. intros j. cbn. lia.
      * intros j Hj. rewrite Hm4. by apply Hle3.
      * intros j Hj. rewrite Hm4. by apply Hk3.
      * apply Hwf.
      * apply Hwf.
      * exists (w_trace w3). rewrite Ht4. cbn [data_len room]. by rewrite Hlen.
    + intros w4 He4 Hm4 _. change (0 =? 0) with true. cbv iota. apply wp_bind.
      eapply ev_free_exact; [exact He4|]. intros w5 He5 Hm5 _. ev_auto. apply HQf.
      * eapply evolves_ext; [|exact He5]. intros j. cbn. lia.
      * intros j Hj. rewrite Hm5, Hm4. by apply Hle3.
      * intros j Hj. rewrite Hm5, Hm4. by apply Hk3.
Qed.

(** The ACK answers the packet: addresses, ports, QPN and PSN; the frame is
    the first 62 bytes of [fr]. *)
Record acknowledges (ob fr : list Z) : Prop := Acknowledges {
  ack_eth_d : eth_d_addr fr = eth_s_addr ob;
  ack_eth_s : eth_s_addr fr = eth_d_addr ob;
  ack_ip_src : ip_src fr = ip_dst ob;
  ack_ip_dst : ip_dst fr = ip_src ob;
  ack_sport : udp_sport fr = udp_dport ob;
  ack_dport : udp_dport fr = udp_sport ob;
  ack_opcode : bth_opcode fr = ROCE_OPCODE_ACK;
  ack_qpn : bth_get_qpn fr = bth_get_qpn ob;
  ack_psn : bth_get_psn fr = bth_get_psn ob;
  ack_syndrome : ld 1 54 fr = 0;
  ack_icrc : slice 58 4 fr = be_bytes 4 (icrc_spec 16 fr) }.

Lemma ld_mod_slice n off b :
  bytes_ok b -> (off + n <= length b)%nat -> ld n off b mod 2 ^ (8 * Z.of_nat n) = ld n off b.
Proof. intros Hb Hl. apply Z.mod_small. by apply ld_range. Qed.

Lemma length_ack_frame ob b0 : bytes_ok ob -> bytes_ok b0 -> length (ack_frame ob b0) = length b0.
Proof. intros Hob Hb. apply (keeps_ack_frame ob Hob b0 Hb). Qed.

Lemma ack_bytes_fields ob b0 :
  length b0 = DATAROOM -> bytes_ok b0 -> length ob = DATAROOM -> bytes_ok ob ->
  acknowledges ob (ack_bytes ob b0).
Proof.
  intros Hl0 Hok0 Hlo Ho. unfold DATAROOM in *.
  pose proof (length_ack_frame ob b0 Ho Hok0) as Hlf.
  pose proof (proj2 (keeps_ack_frame ob Ho b0 Hok0)) as Hof.
  assert (Hs : length (eth_s_addr ob) = 6%nat) by (apply length_slice; lia).
  assert (Hd : length (eth_d_addr ob) = 6%nat) by (apply length_slice; lia).
  pose proof (bth_get_qpn_range ob Ho) as Hq. pose proof (bth_get_psn_range ob Ho) as Hp.
  assert (Hrd : forall n off, (off + n <= 58)%nat -> ld n off (ack_bytes ob b0) = ld n off (ack_frame ob b0))
    by (intros n off Hn; apply ld_st_ne; lia).
  assert (Hm4 : forall off, (off + 4 <= 2048)%nat -> ld 4 off ob mod 2 ^ (8 * Z.of_nat 4) = ld 4 off ob)
    by (intros off Hn; apply ld_mod_slice; [done|lia]).
  assert (Hm2 : forall off, (off + 2 <= 2048)%nat -> ld 2 off ob mod 2 ^ (8 * Z.of_nat 2) = ld 2 off ob)
    by (intros off Hn; apply ld_mod_slice; [done|lia]).
  split.
  3-10: unfold ip_src, ip_dst, udp_sport, udp_dport, bth_opcode;
    rewrite ?bth_get_qpn_bytes, ?bth_get_psn_bytes by (apply st_ok, Hof); rewrite ?Hrd by lia.
  3-10: unfold ack_frame; cbv zeta; rewrite !ether_copy;
    set (es := eth_s_addr ob) in *; set (ed := eth_d_addr ob) in *;
    unfold ip_src, ip_dst, udp_sport, udp_dport, set_eth_d_addr, set_eth_s_addr, build_ipv4_udp, set_ether_type,
      set_bth_opcode, set_bth_flags, set_bth_pkey, set_bth_fecn, set_bth_ack_res, bth_set_qpn, bth_set_psn;
    cbv zeta.
  3-10: bufs.
  3-4: apply Hm4; lia.
  3-4: apply Hm2; lia.
  3: done.
  3-4: rewrite split24; by apply Z.mod_small.
  3: done.
  3: unfold ack_bytes; rewrite icrc_spec_trailer, slice_st_same by lia; apply be_32_out.
  all: unfold ack_bytes, eth_d_addr at 1, eth_s_addr at 1; rewrite slice_st_ne by lia; unfold ack_frame; cbv zeta;
    rewrite !ether_copy;
    unfold set_eth_d_addr, set_eth_s_addr, build_ipv4_udp, set_ether_type,
      set_bth_opcode, set_bth_flags, set_bth_pkey, set_bth_fecn, set_bth_ack_res, bth_set_qpn, bth_set_psn;
    cbv zeta; bufs.
  all: done.
Qed.

(** ** CNPs *)

Lemma grows_roce_icrc m off n : grows (roce_icrc m off n).
Proof. unfold roce_icrc. grow. Qed.

Lemma grows_cc_build_cnp cc qpn dst key pool : grows (cc_build_cnp cc qpn dst key pool).
Proof. unfold cc_build_cnp. repeat first [progress grow | apply grows_roce_icrc]. Qed.

Lemma grows_cnp_emit p i port pool now : grows (cnp_emit p i port pool now).
Proof. unfold cnp_emit. repeat first [progress grow | apply grows_cc_build_cnp]. Qed.

Lemma grows_check_congestion p port pool : grows (check_congestion p port pool).
Proof.
  unfold check_congestion. repeat first [progress grow | apply grows_cnp_emit].
Qed.

Lemma cnp_emit_ev p i port pool now (Q : processor_context -> world -> Prop) d w0 w :
  evolves d w0 w -> proc_ok p -> (i < length (qps (qp_mgr p)))%nat ->
  (forall p' w', evolves d w0 w' -> mem_le w w' -> kept w w' -> same_queues p p' ->
     length (qps (qp_mgr p')) = length (qps (qp_mgr p)) -> Q p' w') ->
  wp (cnp_emit p i port pool now) Q w.
Proof.
  intros He Hp Hi HQ. unfold cnp_emit. pose proof (qp_at_ok p i Hp) as (Hq1 & Hq2 & Hq3).
  assert (Hid : wp (mret p) Q w) by (apply wp_ret, HQ; [done|apply mem_le_refl|apply kept_refl|auto with gw|done]).
  destruct (_ =? 0); [exact Hid|]. destruct (negb _); [exact Hid|]. clear Hid.
  ev_auto. eapply cc_build_cnp_ev; [exact He| |]; clear He.
  - intros w' He Hle Hk. ev_auto. apply HQ; auto with gw.
  - intros m b0 b w' He Hfr Hle Ho _ _ Hb _ _. ev_auto. rewrite !ether_copy.
    eapply ev_mstore_exact; [exact He|exact Hb|by apply keeps_set_mac_d|]. clear He.
    intros w1 He Hm1 _. ev_auto.
    eapply ev_mstore_exact; [exact He|rewrite Hm1; apply lookup_insert_eq|by apply keeps_set_mac_s|]. clear He.
    intros w2 He Hm2 _. rewrite Hm1, insert_insert_eq in Hm2.
    assert (Hle2 : mem_le w w2) by (eapply mem_le_trans; [exact Hle|by eapply mem_le_insert]).
    assert (Hk2 : kept w w2).
    { eapply kept_fresh; [exact Hfr|]. intros j Hj. rewrite Hm2, lookup_insert_ne by done. by apply Ho. }
    apply wp_bind. eapply ev_tx_exact; [exact He|rewrite Hm2; apply lookup_insert_eq| |]; clear He.
    + intros w3 He Hm3 _. apply wp_ret, HQ; [ev_done|intros j; rewrite Hm3; apply Hle2| | |].
      * by eapply kept_trans_mem.
      * apply count_queues, put_qp_queues; try done. auto with gw.
      * cbn. by rewrite length_insert.
    + intros w3 He Hm3 _. change (0 =? 0) with true. cbv iota. apply wp_bind.
      eapply ev_free_exact; [exact He|]. clear He. intros w4 He Hm4 _. rewrite Hm3 in Hm4.
      apply wp_ret, HQ; [ev_done|intros j; rewrite Hm4; apply Hle2|by eapply kept_trans_mem|auto with gw|done].
Qed.

Lemma check_congestion_ev p port pool (Q : processor_context -> world -> Prop) d w0 w :
  evolves d w0 w -> proc_ok p ->
  (forall p' w', evolves d w0 w' -> mem_le w w' -> kept w w' -> same_queues p p' ->
     w_trace w `suffix_of` w_trace w' -> Q p' w') ->
  wp (check_congestion p port pool) Q w.
Proof.
  intros He Hp HQ. pose proof (grows_check_congestion p port pool w) as Hgrow. revert Hgrow.
  unfold check_congestion. destruct (cc_check_buffer _ _ _) as [r cc]. intros Hgrow.
  eapply wp_mono; [apply wp_run with
    (Q := fun p' w' => evolves d w0 w' /\ mem_le w w' /\ kept w w' /\ same_queues p p')|].
  2: { intros p' w' [(He' & Hle' & Hk' & Hp') Hr]. apply HQ; try done. by eapply Hgrow. }
  clear Hgrow HQ. destruct (_ =? 0).
  { ev_auto. split; [done|]. split; [apply mem_le_refl|]. split; [apply kept_refl|auto with gw]. }
  apply wp_bind. eapply ev_rdtsc_exact; [exact He|]. intros t wt Het Hmt _.
  eapply wp_mono; [apply (wp_foldM _ _ _ (fun _ p' w' => evolves d w0 w' /\ mem_le w w' /\ kept w w' /\ same_queues p p'))|].
  - split; [done|]. split; [intros j; by rewrite Hmt|]. split; [intros j _; by rewrite Hmt|auto with gw].
  - intros done' i p1 w1 [rest Hrest] (He1 & Hle1 & Hk1 & Hp1).
    assert (Hi : (i < length (qps (qp_mgr p1)))%nat).
    { rewrite (qp_length _ (po_qp p1 (sq_ok _ _ Hp1))). apply (f_equal (fun l => l !! length done')) in Hrest.
      rewrite lookup_app_r, Nat.sub_diag in Hrest by lia. cbn in Hrest. apply lookup_seq in Hrest as [-> Hlt]. lia. }
    destruct (active _ =? 0); [by apply wp_ret|].
    eapply cnp_emit_ev; [exact He1|apply Hp1|exact Hi|]. intros p2 w2 He2 Hle2 Hk2 Hp2 _.
    split; [done|]. split; [by eapply mem_le_trans|]. split; [|by eapply same_queues_trans].
    eapply kept_trans; [exact Hk1|exact Hk2|]. intros j. by rewrite (evolves_held_eq _ _ _ _ _ He1 He).
  - done.
Qed.

(** ** The ARQ window *)

Lemma arq_safe_evolves extra a w a' w' :
  world_ok w -> arq_safe extra a w a' w' ->
  evolves (fun j => win_refs (send_window a') j - win_refs (send_window a) j - extra j) w w'.
Proof. intros Hw (_ & _ & Hs & _ & _ & Hh). by apply evolves_same_store. Qed.

(** Writing a context back, in terms of the whole processor. *)
Lemma put_arq_ok p i a a' w' :
  proc_ok p -> contexts (arq_mgr p) !! i = Some a -> a_qpn a <> 0 -> a_qpn a' = a_qpn a ->
  arq_wf a' -> a_lock a' = 0 ->
  (forall j c, contexts (arq_mgr p) !! j = Some c -> win_in_mem (send_window c) (w_mem w')) ->
  win_in_mem (send_window a') (w_mem w') ->
  proc_ok (put_arq i a' p) /\ queued (put_arq i a' p) w' /\
  forall j, win_own (put_arq i a' p) j = win_own p j - win_refs (send_window a) j + win_refs (send_window a') j.
Proof.
  intros Hp Ha Hq Hqa Hwf Hl Hmem Hmem'. split; [|split].
  - destruct Hp. split; try done. by apply mgr_put_wf with a.
  - intros j c. cbn. rewrite list_lookup_insert_Some. intros [(_ & <- & _)|[_ Hc]]; [done|by eapply Hmem].
  - intros j. unfold win_own. cbn. by apply mgr_refs_insert.
Qed.

Lemma arq_set_peer_ip_rule a ip (Q : arq_context -> world -> Prop) w :
  a_lock a = 0 -> Q (set_a_peer_ip ip a) w -> wp (arq_set_peer_ip a ip) Q w.
Proof.
  intros Hl HQ. unfold arq_set_peer_ip. rewrite Hl. wp_auto. rewrite lock_release.
  replace (set_a_lock 0 (set_a_peer_ip ip a)) with (set_a_peer_ip ip a); [done|].
  destruct a. cbn in Hl. by subst.
Qed.

(** What the ARQ part of the path did to the windows: the context of the flow
    was found or opened ([r]), and the packet went through [arq_send_pkt];
    [b] says whether the window took it. *)
Definition lan_tracked (mgr : arq_manager) (qpn pn seg ip : Z) (m : nat) (b : bool) (mgr' : arq_manager) : Prop :=
  exists r mgr1, get_or_create_result mgr qpn r mgr1 /\
  match r with
  | None => b = false /\ mgr' = mgr1
  | Some i => exists c rc a w1 w2,
      contexts mgr1 !! i = Some c /\ a_lock c = 0 /\ arq_send_pkt c (Some m) pn seg w1 = Ret (rc, a) w2 /\
      b = (rc =? 0) /\
      mgr' = ArqManager (<[i := set_a_peer_ip ip a]> (contexts mgr1)) (a_global_lock mgr1)
  end.

Lemma arq_send_pkt_held c m pn seg w :
  a_lock c = 0 -> wp (arq_send_pkt c m pn seg) (fun _ w' => forall j, held w' j = held w j) w.
Proof.
  intros Hl. unfold arq_send_pkt. rewrite Hl. wp_auto. destruct (negb _); wp_auto; [done|].
  intros j. rewrite held_log. cbn [ref_delta]. lia.
Qed.

Lemma lan_arq_ev p qpn pn seg ip m (Q : bool * processor_context -> world -> Prop) d w0 w :
  evolves d w0 w -> proc_ok p -> queued p w -> is_Some (w_mem w !! m) -> qpn <> 0 ->
  (forall b p' w',
     evolves (fun j => d j + (win_own p' j - win_own p j - if (b : bool) then one m j else 0)) w0 w' ->
     proc_ok p' -> queued p' w' -> w_mem w' = w_mem w -> (forall j, held w' j = held w j) ->
     lan_tracked (arq_mgr p) qpn pn seg ip m b (arq_mgr p') -> Q (b, p') w') ->
  wp (lan_arq p qpn pn seg ip m) Q w.
Proof.
  intros He Hp Hqd Hm Hq HQ. unfold lan_arq. apply wp_bind.
  eapply wp_mono; [apply arq_get_or_create_spec, (mgr_lock _ (po_arq p Hp))|].
  intros [r mgr] w' [-> Hr]. cbn [fst snd] in Hr.
  destruct (get_or_create_wf _ _ _ _ (po_arq p Hp) Hq Hr) as (Hmgr & Hrefs & Hin & Hsome).
  set (p1 := set_arq_mgr mgr p).
  assert (Hp1 : proc_ok p1) by (destruct Hp; by split).
  assert (Hq1 : queued p1 w) by by apply Hin.
  destruct r as [i|].
  - destruct (Hsome i eq_refl) as (c & Hc & Hcq).
    assert (Hat : arq_at p1 i = c) by (unfold arq_at, p1; cbn; by rewrite nth_lookup, Hc).
    rewrite Hat. destruct (mgr_ctx _ Hmgr i c Hc) as [Hcwf Hcl]. apply wp_bind.
    eapply wp_mono; [apply wp_conj; [apply (arq_send_pkt_held _ _ _ _ _ Hcl)|
      apply wp_run, arq_send_pkt_safe; [exact Hcwf|exact Hcl|by apply (Hq1 i)|exact Hm]]|].
    intros [rc a] w1 [Hheld [[Hrc Hsafe] Hrun]]. apply wp_bind.
    pose proof (arq_safe_evolves _ _ _ _ _ (ev_ok _ _ _ He) Hsafe) as He1.
    destruct Hsafe as (Hawf & Hamem & [Hg1 Hm1] & Haq & Hal & _).
    apply arq_set_peer_ip_rule; [congruence|]. apply wp_ret.
    destruct (put_arq_ok p1 i c (set_a_peer_ip ip a) w1 Hp1 Hc) as (Hp2 & Hq2 & Hr2); try done.
    { congruence. } { cbn. congruence. } { intros j c' Hc'. rewrite Hm1. by apply (Hq1 j). }
    apply HQ; [|done|done|done|exact Hheld|].
    + eapply evolves_seq; [exact He|exact He1|]. intros j. cbv beta. rewrite Hr2. cbn [send_window set_a_peer_ip].
      assert (win_own p1 j = win_own p j) as -> by apply Hrefs.
      destruct Hrc as [->| ->]; cbn [Z.eqb]; case_decide; lia.
    + exists (Some i), mgr. split; [done|]. exists c, rc, a, w, w1. by rewrite <- Hcl.
  - apply wp_ret, HQ; [|done|done|done|done|by exists None, mgr].
    eapply evolves_ext; [|exact He]. intros j. cbn. assert (win_own p1 j = win_own p j) as -> by apply Hrefs. lia.
Qed.

(** ** The whole path *)

(** The packet [m] went out on the WAN port with contents [b] but for the
    source address, the IP checksum and the MAC addresses. *)
Definition forwarded (wan ip : Z) (m : nat) (b : mbuf) (tr : list event) : Prop :=
  exists b' sent, l2_rewritten (rte_eth_macaddr_get wan) (src_rewritten ip b) b' /\
    EvTx wan 0 m (take (Z.to_nat (data_len b')) (room b')) sent ∈ tr.

Lemma lan_transmit_ev p b m bb port (Q : processor_context -> world -> Prop) d w0 w :
  evolves d w0 w -> proc_ok p -> w_mem w !! m = Some bb ->
  (forall p' w' sent, evolves (fun j => d j - if (b : bool) then 0 else one m j) w0 w' -> w_mem w' = w_mem w ->
     same_queues p p' -> EvTx port 0 m (take (Z.to_nat (data_len bb)) (room bb)) sent ∈ w_trace w' -> Q p' w') ->
  wp (lan_transmit p b m port) Q w.
Proof.
  intros He Hp Hm HQ. unfold lan_transmit.
  assert (Hlast : forall c sent w', evolves (fun j => d j - if b then 0 else one m j) w0 w' -> w_mem w' = w_mem w ->
            EvTx port 0 m (take (Z.to_nat (data_len bb)) (room bb)) sent ∈ w_trace w' ->
            Q p w' /\ Q (count c p) w').
  { intros c sent w' He' Hm' Hin. split; (eapply HQ; [exact He'|exact Hm'|auto with gw|exact Hin]). }
  destruct b; apply wp_bind.
  - eapply ev_refcnt_exact; [exact He|]. clear He. intros w1 He Hm1. rewrite <- Hm1 in Hm. apply wp_bind.
    eapply ev_tx_exact; [exact He|exact Hm| |]; intros w2 He2 Hm2 Ht2.
    + apply wp_ret. eapply (Hlast STAT_PKTS_DROPPED); [ev_done|congruence|rewrite Ht2; by left].
    + change (0 =? 0) with true. cbv iota. apply wp_bind, wp_refcnt, wp_ret.
      assert (He3 : evolves (fun j => - one m j) w2 (log_event (EvRefcnt m (-1)) w2)).
      { apply evolves_log; [apply He2|]. intros j. cbn. unfold one. destruct (decide (m = j)); lia. }
      eapply (Hlast STAT_PKTS_DROPPED); [eapply evolves_seq; [exact He2|exact He3|]| |].
      * intros j. cbv beta. lia.
      * cbn. congruence.
      * cbn. rewrite Ht2. right. by left.
  - eapply ev_tx_exact; [exact He|exact Hm| |]; intros w2 He2 Hm2 Ht2.
    + apply wp_ret. eapply (Hlast STAT_PKTS_DROPPED); [ev_done|congruence|rewrite Ht2; by left].
    + change (0 =? 0) with true. cbv iota. apply wp_bind.
      eapply ev_free_exact; [exact He2|]. intros w3 He3 Hm3 Ht3. apply wp_ret.
      eapply (Hlast STAT_PKTS_DROPPED); [ev_done|congruence|rewrite Ht3, Ht2; right; by left].
Qed.

(** The rest of the path, once the ACK has been dealt with. *)
Lemma lan_write_tail p p3 m qpn pn seg ip lan wan pool (Q : processor_context -> world -> Prop) d w0 w1 w :
  evolves d w0 w -> same_queues p p3 -> queued p w1 -> mem_le w1 w -> is_Some (w_mem w !! m) -> qpn <> 0 ->
  (forall p' w', evolves (fun j => d j + (win_own p' j - win_own p j - one m j)) w0 w' ->
     proc_ok p' -> queued p' w' -> kept_but m w w' -> (exists b, lan_tracked (arq_mgr p) qpn pn seg ip m b (arq_mgr p')) ->
     (forall b, 1 <= held w m -> w_mem w !! m = Some b ->
        forwarded wan (wan_tunnel_src_ip (w_glob w0)) m b (w_trace w')) -> Q p' w') ->
  wp (wan_m ← wan_fwd_roce m wan;
      '(in_window, p) ← lan_arq p3 qpn pn seg ip wan_m;
      p ← lan_transmit p in_window wan_m wan;
      let p := set_counter (u32 (packet_counter p + 1)) p in
      if packet_counter p mod CONGESTION_CHECK_INTERVAL =? 0
      then check_congestion p lan pool else mret p) Q w.
Proof.
  intros He Hp Hqd Hle Hm Hqpn HQ. apply wp_bind.
  destruct (Hm) as [b1 Hb1]. pose proof (ev_ip _ _ _ He) as Hip. pose proof He as Hstart.
  eapply wan_fwd_roce_ev; [exact He|exact Hb1|]. clear He. intros b2 w2 He Hle2 Hk2 Hb2 Hl2. pose proof He as He2.
  assert (Hq3 : queued p3 w2).
  { apply (queued_same p _ _ Hp), (queued_le p w1); [done|]. by eapply mem_le_trans. }
  apply wp_bind. eapply lan_arq_ev; [exact He|apply Hp|exact Hq3|by exists b2|exact Hqpn|]. clear He Hm.
  intros b p4 w4 He Hp4 Hq4 Hm4 Hh4 Htrk. pose proof He as He4. rewrite (sq_arq _ _ Hp) in Htrk. rewrite <- Hm4 in Hb2. apply wp_bind.
  eapply lan_transmit_ev; [exact He|exact Hp4|exact Hb2|]. clear He.
  intros p5 w5 sent He Hm5 Hp5 Hin. cbv zeta.
  assert (Hle5 : mem_le w4 w5) by (intros j; by rewrite Hm5).
  assert (Hk5 : kept_but m w w5) by (intros j Hj Hh; rewrite Hm5, Hm4; by apply Hk2).
  assert (Hh5 : forall j, j <> m -> 1 <= held w j -> 1 <= held w5 j).
  { intros j Hj. rewrite <- (evolves_held_eq _ _ _ _ _ He2 Hstart), <- Hh4.
    pose proof (ev_held _ _ _ He j). pose proof (ev_held _ _ _ He4 j). cbv beta in *.
    rewrite (one_ne m j Hj) in *. destruct b; lia. }
  assert (Hp6 : same_queues p4 (set_counter (u32 (packet_counter p5 + 1)) p5)) by by apply set_counter_queues.
  assert (Hend : forall p' w', evolves (fun j => d j + (win_own p4 j - win_own p3 j - one m j)) w0 w' ->
            mem_le w4 w' -> kept w5 w' -> same_queues p4 p' -> w_trace w5 `suffix_of` w_trace w' -> Q p' w').
  { intros p' w' He' Hle' Hk' Hp' [ev Htr]. apply HQ; [|apply Hp'| | | |].
    - eapply evolves_ext; [|exact He']. intros j. cbv beta.
      rewrite (same_queues_own _ _ j Hp'), (same_queues_own _ _ j Hp). lia.
    - by apply (queued_same p4 _ _ Hp'), (queued_le p4 w4).
    - eapply kept_but_trans; [exact Hk5|by apply kept_kept_but|exact Hh5].
    - exists b. by rewrite (sq_arq _ _ Hp').
    - intros b0 Hh Hb0. simplify_eq. exists b2, sent. split; [rewrite <- Hip; by apply Hl2|].
      rewrite Htr. by apply elem_of_app; right. }
  assert (He5 : evolves (fun j => d j + (win_own p4 j - win_own p3 j - one m j)) w0 w5).
  { eapply evolves_ext; [|exact He]. intros j. cbv beta. destruct b; lia. }
  destruct (_ =? 0); [|by apply wp_ret, Hend].
  eapply check_congestion_ev; [exact He5|apply Hp6|]. intros p7 w7 He7 Hle7 Hk7 Hp7 Htr7.
  apply Hend; [done|by eapply mem_le_trans|done|by eapply same_queues_trans|done].
Qed.

(** What the path does to the windows for a packet [ob] it received as [m]. *)
Definition lan_windows (ob : list Z) (ip : Z) (m : nat) (mgr mgr' : arq_manager) : Prop :=
  mgr' = mgr \/
  bth_get_qpn ob <> 0 /\
  exists b, lan_tracked mgr (bth_get_qpn ob) (bth_get_psn ob) (get_segment_type (bth_opcode ob)) ip m b mgr'.

(** The references added to the windows, less the packet's own. *)
Lemma lan_write_ev p m b ip lan wan pool (Q : processor_context -> world -> Prop) d w0 w :
  evolves d w0 w -> proc_ok p -> queued p w -> w_mem w !! m = Some b ->
  bth_get_qpn (room b) <> 0 ->
  (forall p' w', evolves (fun j => d j + (win_own p' j - win_own p j - one m j)) w0 w' ->
     proc_ok p' -> queued p' w' -> kept_but m w w' ->
     lan_windows (room b) ip m (arq_mgr p) (arq_mgr p') ->
     (is_Some (qp_find (qp_mgr p) (bth_get_qpn (room b))) \/ is_Some (qp_find_free (qp_mgr p)) ->
      (exists t, lan_tracked (arq_mgr p) (bth_get_qpn (room b)) (bth_get_psn (room b))
         (get_segment_type (bth_opcode (room b))) ip m t (arq_mgr p')) /\
      (1 <= held w m -> forwarded wan (wan_tunnel_src_ip (w_glob w0)) m b (w_trace w'))) -> Q p' w') ->
  wp (lan_write p m (room b) ip lan wan pool) Q w.
Proof.
  intros He Hp Hqd Hb Hqpn HQ. set (ob := room b) in *. unfold lan_write. cbv zeta. apply wp_bind.
  pose proof (world_ok_mbuf w m b (ev_ok _ _ _ He) Hb) as [_ Hob].
  assert (Hm : is_Some (w_mem w !! m)) by by exists b.
  pose proof (bth_get_qpn_range ob Hob) as Hqr.
  apply qp_get_or_create_result; [apply (qp_unlocked _ (po_qp p Hp))|]. intros r mgr Hr.
  assert (Hq32 : is_u32 (bth_get_qpn ob)) by (unfold is_u32, MAX_PSN in *; lia).
  destruct (qp_result_wf _ _ _ _ (po_qp p Hp) Hq32 Hr) as (Hmgr & Hsome & _).
  set (p1 := set_qp_mgr mgr p).
  assert (Hp1 : same_queues p p1) by (destruct Hp; split; try done; by split).
  pose proof (mem_le_refl w) as Hle.
  destruct r as [i|].
  2: { apply wp_bind. eapply ev_free_exact; [exact He|]. intros w' He' Hm' _. apply wp_ret.
       assert (Hs : same_queues p (count STAT_PKTS_DROPPED p1)) by by apply count_queues.
       apply HQ; [|apply Hs| |by apply kept_but_mem|by left|].
       - eapply evolves_ext; [|exact He']. intros j. cbv beta. rewrite (same_queues_own _ _ j Hs). lia.
       - unfold queued. rewrite Hm'. apply (queued_same p _ w Hs Hqd).
       - inversion Hr as [| |Hn1 Hn2]. rewrite Hn1, Hn2. intros [[? [=]]|[? [=]]]. }
  destruct (Hsome i eq_refl) as (q & Hq & Hqa & Hqq).
  assert (Hat : qp_at p1 i = q) by (unfold qp_at, p1; cbn; by rewrite nth_lookup, Hq).
  assert (Hlt : (i < length (qps (qp_mgr p1)))%nat) by (cbn; by eapply lookup_lt_Some).
  set (p2 := put_qp i (note_flow ob (qp_at p1 i)) p1).
  assert (Hp2 : same_queues p p2).
  { apply put_qp_queues; [done|done|by rewrite Hat..|]. rewrite Hat.
    pose proof (Forall_lookup_1 _ _ _ _ (qp_each _ Hmgr) Hq) as (Hu & _). split; [exact Hu|].
    cbn. rewrite !ether_copy. split; by apply slice_ok. }
  assert (Hlt2 : (i < length (qps (qp_mgr p2)))%nat) by (cbn; by rewrite length_insert).
  (* the rest, from any processor and state the CNP may leave behind *)
  apply wp_bind. apply (wp_mono _ (fun p3 w3 => evolves d w0 w3 /\ mem_le w w3 /\ kept w w3 /\ same_queues p p3)).
  { destruct (_ =? 0x3).
    - apply wp_bind. eapply ev_rdtsc_exact; [exact He|]. intros t w2 He2 Hm2 _.
      eapply cnp_emit_ev; [exact He2|apply Hp2|exact Hlt2|]. intros p3 w3 He3 Hle3 Hk3 Hp3 _.
      split; [ev_done|]. split; [|split; [|by eapply same_queues_trans]].
      + intros j. rewrite <- Hm2. apply Hle3.
      + intros j Hj. rewrite <- Hm2. apply Hk3. by rewrite (evolves_held_eq _ _ _ _ _ He2 He).
    - ev_auto. split; [done|]. split; [done|]. split; [apply kept_refl|done]. }
  intros p3 w3 (He3 & Hle3 & Hk3 & Hp3). apply wp_bind.
  assert (Hm3 : is_Some (w_mem w3 !! m)) by by apply Hle3.
  assert (Hp4 : same_queues p (count STAT_ACK_SPOOFED_SENT
                  (count STAT_PKTS_LAN_TO_WAN (count STAT_WRITE_PKTS_PROCESSED p3)))) by auto with gw.
  assert (Hrest : forall w4, evolves d w0 w4 -> mem_le w3 w4 -> kept w3 w4 ->
    wp (wan_m ← wan_fwd_roce m wan;
        '(in_window, p) ← lan_arq (count STAT_ACK_SPOOFED_SENT
            (count STAT_PKTS_LAN_TO_WAN (count STAT_WRITE_PKTS_PROCESSED p3)))
            (bth_get_qpn ob) (bth_get_psn ob) (get_segment_type (bth_opcode ob)) ip wan_m;
        p ← lan_transmit p in_window wan_m wan;
        let p := set_counter (u32 (packet_counter p + 1)) p in
        if packet_counter p mod CONGESTION_CHECK_INTERVAL =? 0
        then check_congestion p lan pool else mret p) Q w4).
  { intros w4 He4 Hle4 Hk4.
    eapply lan_write_tail; [exact He4|exact Hp4|exact Hqd|by eapply mem_le_trans|by apply Hle4|exact Hqpn|].
    intros p' w' He' Hp' Hq' Hk' Ht Hf. apply HQ; [done|done|done| |by right|].
    { eapply kept_but_trans; [|exact Hk'|intros j _; by rewrite (evolves_held_eq _ _ _ _ _ He4 He)].
      apply kept_kept_but. eapply kept_trans; [exact Hk3|exact Hk4|].
      intros j. by rewrite (evolves_held_eq _ _ _ _ _ He3 He). } intros _. split; [done|].
    intros Hh. apply Hf; [by rewrite (evolves_held_eq _ _ _ _ _ He4 He)|].
    rewrite Hk4 by (by rewrite (evolves_held_eq _ _ _ _ _ He3 He)). by rewrite Hk3. }
  eapply forge_and_send_ack_ev; [exact He3|exact Hm3| |]; intros; by apply Hrest.
Qed.

Lemma lan_passthrough_ev p m port (Q : processor_context -> world -> Prop) d w0 w :
  evolves d w0 w -> proc_ok p -> queued p w -> is_Some (w_mem w !! m) ->
  (forall w', evolves (fun j => d j - one m j) w0 w' -> queued p w' -> kept_but m w w' ->
     Q (count STAT_PKTS_PASSTHROUGH p) w') ->
  wp (lan_passthrough p m port) Q w.
Proof.
  intros He Hp Hqd Hm HQ. unfold lan_passthrough. apply wp_bind.
  eapply wan_fwd_passthrough_ev; [exact He|exact Hm|]. intros r w' He' Hle' Hk'. apply wp_ret, HQ; [done| |done].
  by eapply queued_le.
Qed.

(** The packets the RoCE path takes, and the peer they go to. *)
Definition lan_data (g : globals) (b : list Z) : bool :=
  (rte_be_to_cpu_16 (ether_type b) =? RTE_ETHER_TYPE_IPV4) &&
  negb (pm_lookup (g_peer_manager g) (rte_be_to_cpu_32 (ip_dst b)) =? 0) && (ip_proto b =? IPPROTO_UDP) &&
  (rte_be_to_cpu_16 (udp_dport b) =? WAN_UDP_PORT) && is_write_opcode (bth_opcode b).

(** There is room for the flow in the table of flows. *)
Definition qp_room (mgr : qp_manager) (qpn : Z) : Prop :=
  is_Some (qp_find mgr qpn) \/ is_Some (qp_find_free mgr).

Lemma proc_process_lan_rx_ev p m b lan wan pool (Q : processor_context -> world -> Prop) d w0 w :
  evolves d w0 w -> proc_ok p -> queued p w -> w_mem w !! m = Some b ->
  (is_write_opcode (bth_opcode (room b)) = true -> bth_get_qpn (room b) <> 0) ->
  (forall p' w', evolves (fun j => d j + (win_own p' j - win_own p j - one m j)) w0 w' ->
     proc_ok p' -> queued p' w' -> kept_but m w w' ->
     (let ip := pm_lookup (g_peer_manager (w_glob w0)) (rte_be_to_cpu_32 (ip_dst (room b))) in
      lan_windows (room b) ip m (arq_mgr p) (arq_mgr p') /\
      (lan_data (w_glob w0) (room b) = true -> qp_room (qp_mgr p) (bth_get_qpn (room b)) ->
       (exists t, lan_tracked (arq_mgr p) (bth_get_qpn (room b)) (bth_get_psn (room b))
          (get_segment_type (bth_opcode (room b))) ip m t (arq_mgr p')) /\
       (1 <= held w m -> forwarded wan (wan_tunnel_src_ip (w_glob w0)) m b (w_trace w')))) -> Q p' w') ->
  wp (proc_process_lan_rx p m lan wan pool) Q w.
Proof.
  intros He Hp Hqd Hb Hqpn HQ. unfold proc_process_lan_rx. apply wp_bind. eapply wp_mtod; [exact Hb|].
  assert (Hm : is_Some (w_mem w !! m)) by by exists b. unfold lan_data in HQ. rewrite <- (ev_pm _ _ _ He) in HQ.
  assert (Hpass : forall c w', lan_data (w_glob w) (room b) = false ->
            evolves (fun j => d j - one m j) w0 w' -> queued p w' -> kept_but m w w' -> Q (count c p) w').
  { intros c w' Hd He' Hq' Hk'. apply HQ; [|eapply sq_ok, count_queues, same_queues_refl, Hp|done|done|].
    - eapply evolves_ext; [|exact He']. intros j. cbv beta.
      rewrite (same_queues_own p (count c p)) by (by apply count_queues, same_queues_refl). lia.
    - split; [by left|]. unfold lan_data in Hd. rewrite (ev_pm _ _ _ He) in *. by rewrite Hd. }
  assert (Hpt : lan_data (w_glob w) (room b) = false -> wp (lan_passthrough p m wan) Q w).
  { intros Hd. eapply lan_passthrough_ev; [exact He|done|done|exact Hm|]. intros; by apply Hpass. }
  unfold lan_data in Hpass, Hpt.
  destruct (_ =? RTE_ETHER_TYPE_IPV4); cbn [negb andb] in *.
  2: { apply wp_bind. eapply ev_free_exact; [exact He|]. intros w' He' Hm' _. apply wp_ret, Hpass; [done|done| |by apply kept_but_mem].
       unfold queued. by rewrite Hm'. }
  unfold wan_get_peer_ip. apply wp_bind, wp_bind, wp_get_glob, wp_ret.
  destruct (pm_lookup _ _ =? 0); cbn [negb andb] in *; [by apply Hpt; rewrite ?andb_false_r|].
  destruct (_ =? IPPROTO_UDP); cbn [negb andb] in *; [|by apply Hpt; rewrite ?andb_false_r].
  destruct (_ =? WAN_UDP_PORT); cbn [negb andb] in *; [|by apply Hpt; rewrite ?andb_false_r].
  destruct (is_write_opcode _); cbn [negb andb] in *; [|by apply Hpt; rewrite ?andb_false_r].
  specialize (Hqpn eq_refl).
  eapply lan_write_ev; [exact He|done|done|exact Hb|exact Hqpn|]. intros p' w' He' Hp' Hq' Hk' Hw1 Hw2.
  apply HQ; [done|done|done|done|]. split; [done|]. intros _ Hr. by apply Hw2.
Qed.

(** A destination without a peer never reaches the RoCE path. *)
Lemma lan_rx_unmapped_ev p m b lan wan pool (Q : processor_context -> world -> Prop) d w0 w :
  evolves d w0 w -> w_mem w !! m = Some b ->
  pm_lookup (g_peer_manager (w_glob w)) (rte_be_to_cpu_32 (ip_dst (room b))) = 0 ->
  (forall c w', c = STAT_PKTS_DROPPED \/ c = STAT_PKTS_PASSTHROUGH ->
     evolves (fun j => d j - one m j) w0 w' -> Q (count c p) w') ->
  wp (proc_process_lan_rx p m lan wan pool) Q w.
Proof.
  intros He Hb Hpm HQ. unfold proc_process_lan_rx. apply wp_bind. eapply wp_mtod; [exact Hb|].
  destruct (negb _).
  { apply wp_bind. eapply ev_free_exact; [exact He|]. intros w' He' _ _. apply wp_ret, HQ; auto. }
  unfold wan_get_peer_ip. apply wp_bind, wp_bind, wp_get_glob, wp_ret. rewrite Hpm.
  unfold lan_passthrough. apply wp_bind. eapply wan_fwd_passthrough_ev; [exact He|by exists b|].
  intros r w' He' _ _. apply wp_ret, HQ; auto.
Qed.

End Lan.
