(* ===== verification/LanForward.v ===== *)
(** * What the LAN path does to a packet

    The functional behaviour of [proc_process_lan_rx] on each kind of packet:
    a WRITE to a peer is put into the ARQ window of its flow and sent to the
    WAN, the ACK forged for it answers it, and every other IPv4 packet passes
    through with only its MAC addresses changed. *)

From S2P Require Import Prelude Crc32 PeerManager Stats Env Sim RoceDefs Arq ArqWindow ArqManager QpCtx.
From S2P Require Import WanTunnel Icrc Congestion ArqMsg JitterBuffer Processor LanPath.

(** ** The window of a flow *)

(** The manager has, or has room for, a window of this QPN. *)
Definition arq_room (mgr : arq_manager) (qpn : Z) : Prop :=
  is_Some (arq_find mgr qpn) \/ is_Some (arq_find mgr 0).

(** The window of the flow, if there is one, is in its regular state: no
    timeout has punched a hole into it and its counters are far from 2^32. *)
Definition flow_regular (mgr : arq_manager) (qpn : Z) : Prop :=
  forall i c, contexts mgr !! i = Some c -> a_qpn c = qpn -> tight c /\ send_next c + 1 < 2 ^ 32.

Lemma set_a_peer_ip_tight ip a : tight a -> tight (set_a_peer_ip ip a).
Proof. by intros []. Qed.

Section Window.
Context `{DpdkSpec}.

Lemma arq_send_pkt_qpn c m p seg w :
  a_lock c = 0 ->
  wp (arq_send_pkt c m p seg) (fun r _ => a_qpn (snd r) = a_qpn c /\ send_base (snd r) = send_base c) w.
Proof. intros Hl. unfold arq_send_pkt. rewrite Hl. wp_auto. destruct (negb _); by wp_auto. Qed.

(** One call of [arq_send_pkt], on a regular window. *)
Lemma send_run c m p seg w1 rc a w2 :
  tight c -> a_lock c = 0 -> send_next c + 1 < 2 ^ 32 -> arq_send_pkt c (Some m) p seg w1 = Ret (rc, a) w2 ->
  tight a /\ a_qpn a = a_qpn c /\ send_base a = send_base c /\
  (rc, arq_queue a) = q_send (arq_queue c) (p, Some m).
Proof.
  intros Ht Hl Hn Hr.
  pose proof (wp_conj _ _ _ w1 (arq_send_pkt_refines c m p seg w1 Ht Hl Hn)
                               (arq_send_pkt_qpn c (Some m) p seg w1 Hl)) as Hw.
  apply (wp_eq _ _ _ _ _ Hr) in Hw as [(H1 & _ & _ & _ & H2) [H3 H4]]. done.
Qed.

Lemma fresh_context_queue qpn : arq_queue (fresh_context qpn) = [].
Proof. done. Qed.

(** The ARQ part of the path appends the packet to the window of its flow,
    as the abstract queue does. *)
Lemma tracked_queue mgr qpn pn seg ip m b mgr' :
  mgr_wf mgr -> mgr_wf mgr' -> qpn <> 0 -> arq_room mgr qpn -> flow_regular mgr qpn ->
  lan_tracked mgr qpn pn seg ip m b mgr' ->
  exists i c, arq_find mgr' qpn = Some i /\ contexts mgr' !! i = Some c /\ tight c /\ a_peer_ip c = ip /\
    flow_queue mgr' qpn = snd (q_send (flow_queue mgr qpn) (pn, Some m)).
Proof.
  intros Hm Hm' Hq Hroom Hreg (r & mgr1 & Hgoc & Hr).
  assert (Hcase : exists i c, r = Some i /\ contexts mgr1 !! i = Some c /\ a_qpn c = qpn /\ tight c /\
            send_next c + 1 < 2 ^ 32 /\ arq_queue c = flow_queue mgr qpn).
  { destruct Hgoc as [i Hf|i Hf Hz|Hf Hz].
    - destruct (proj1 (arq_find_Some _ _ _) Hf) as [(c & Hc & Hcq) _]. exists i, c.
      destruct (Hreg i c Hc Hcq) as [Ht Hn]. unfold flow_queue. rewrite Hf, nth_lookup, Hc. done.
    - apply arq_find_Some in Hz as [(c0 & Hc0 & _) _]. exists i, (fresh_context qpn). cbn [contexts].
      rewrite list_lookup_insert_eq by (by eapply lookup_lt_Some). do 3 (split; [done|]).
      split; [apply tight_fresh|]. split; [done|]. unfold flow_queue. by rewrite Hf.
    - destruct Hroom as [[? ?]|[? ?]]; congruence. }
  destruct Hcase as (i & c & -> & Hc & Hcq & Ht & Hn & Hqueue).
  destruct Hr as (c' & rc & a & w1 & w2 & Hc' & Hl & Hrun & _ & ->).
  assert (c' = c) as -> by congruence.
  destruct (send_run _ _ _ _ _ _ _ _ Ht Hl Hn Hrun) as (Hta & Haq & _ & Hsend).
  assert (Hi : (i < length (contexts mgr1))%nat) by by eapply lookup_lt_Some.
  assert (Hat : contexts (ArqManager (<[i:=set_a_peer_ip ip a]> (contexts mgr1)) (a_global_lock mgr1)) !! i
                = Some (set_a_peer_ip ip a)) by (cbn; by apply list_lookup_insert_eq).
  assert (Hf' : arq_find (ArqManager (<[i:=set_a_peer_ip ip a]> (contexts mgr1)) (a_global_lock mgr1)) qpn
                = Some i).
  { apply (arq_find_unique _ _ _ (set_a_peer_ip ip a)); [done|done|done|cbn; congruence]. }
  exists i, (set_a_peer_ip ip a). split; [done|]. split; [done|]. split; [by apply set_a_peer_ip_tight|].
  split; [done|]. rewrite <- Hqueue, <- Hsend. cbn [snd]. unfold flow_queue. by rewrite Hf', nth_lookup, Hat.
Qed.

(** ** Passing through *)

Lemma wan_fwd_passthrough_exact m b port (Q : Z -> world -> Prop) d w0 w :
  evolves d w0 w -> w_mem w !! m = Some b -> 1 <= held w m ->
  (forall r w' b' sent, evolves (fun j => d j - one m j) w0 w' -> l2_rewritten (rte_eth_macaddr_get port) b b' ->
     EvTx port 0 m (take (Z.to_nat (data_len b')) (room b')) sent ∈ w_trace w' -> Q r w') ->
  wp (wan_fwd_passthrough m port) Q w.
Proof.
  intros He Hb Hh HQ. unfold wan_fwd_passthrough. ev_auto. eapply wp_mtod; [exact Hb|]. ev_auto.
  eapply forward_l2_ev; [exact He|exact Hb|]. clear He. intros b1 w1 He _ _ Hb1 Hl2. specialize (Hl2 Hh).
  apply wp_bind. eapply ev_tx_exact; [exact He|exact Hb1| |]; intros w2 He2 Hm2 Ht2.
  - apply wp_ret. eapply HQ; [exact He2|exact Hl2|]. rewrite Ht2. by left.
  - change (0 =? 0) with true. cbv iota. apply wp_bind. eapply ev_free_exact; [exact He2|].
    intros w3 He3 _ Ht3. apply wp_ret. eapply HQ; [exact He3|exact Hl2|]. rewrite Ht3, Ht2. right. by left.
Qed.

End Window.

(** ** Properties *)

(** C5 A RoCEv2 WRITE packet for a
    configured peer, arriving on a LAN port, is transmitted to the WAN with
    its contents unchanged but for the source address, the IP checksum and
    the MAC addresses; and the window of its flow becomes what the bounded
    queue says: the packet appended, under its PSN, unless 256 are
    outstanding.  The window is labelled with the peer. *)
Theorem lan_write_is_tracked_and_forwarded `{DpdkSpec} p m b lan wan pool w :
  world_ok w -> proc_ok p -> queued p w -> w_mem w !! m = Some b -> 1 <= held w m ->
  lan_data (w_glob w) (room b) = true ->
  let qpn := bth_get_qpn (room b) in
  qpn <> 0 -> qp_room (qp_mgr p) qpn -> arq_room (arq_mgr p) qpn -> flow_regular (arq_mgr p) qpn ->
  wp (proc_process_lan_rx p m lan wan pool) (fun p' w' =>
    forwarded wan (wan_tunnel_src_ip (w_glob w)) m b (w_trace w') /\
    exists i c, arq_find (arq_mgr p') qpn = Some i /\ contexts (arq_mgr p') !! i = Some c /\ tight c /\
      a_peer_ip c = pm_lookup (g_peer_manager (w_glob w)) (rte_be_to_cpu_32 (ip_dst (room b))) /\
      flow_queue (arq_mgr p') qpn = snd (q_send (flow_queue (arq_mgr p) qpn) (bth_get_psn (room b), Some m))) w.
Proof.
  cbv zeta. intros Hw Hp Hqd Hb Hh Hd Hq Hqr Har Hreg.
  eapply proc_process_lan_rx_ev; [by apply evolves_refl|done|done|exact Hb|done|].
  intros p' w' _ Hp' _ _ [_ Hdo]. destruct (Hdo Hd Hqr) as [[t Ht] Hf]. split; [by apply Hf|].
  eapply tracked_queue; [apply Hp|apply Hp'|done|done|done|exact Ht].
Qed.

Definition sim_lan_core : processor_context := @proc_init (sim false) 0 1 0xC0000201.

Lemma sim_lan_core_ok : proc_ok sim_lan_core.
Proof.
  split; cbn.
  - apply zero_qp_manager_wf.
  - apply zero_manager_wf.
  - split; cbn; [apply length_replicate|apply Forall_replicate, zero_write_wf|done].
  - done.
Qed.

Lemma sim_lan_core_queued w : queued sim_lan_core w.
Proof. intros i c Hc. cbn in Hc. apply lookup_replicate in Hc as [-> _]. by apply Forall_replicate. Qed.

Lemma sim_lan_core_regular qpn : qpn <> 0 -> flow_regular (arq_mgr sim_lan_core) qpn.
Proof. intros Hq i c Hc <-. cbn in Hc. apply lookup_replicate in Hc as [-> _]. done. Qed.

(** A FIRST packet of QPN 17 on a fresh core: it is the window's only item. *)
Lemma lan_write_is_tracked_and_forwarded_witness :
  wp (@proc_process_lan_rx (sim false) sim_lan_core 1 0 1 7)
     (fun p' _ => flow_queue (arq_mgr p') 17 = [(5, Some 1%nat)]) (sim_world [sim_packet 0x0A 17 5]).
Proof.
  eapply wp_mono.
  - apply (@lan_write_is_tracked_and_forwarded (sim false) (sim_spec false) sim_lan_core 1
             (sim_mbuf (sim_packet 0x0A 17 5)) 0 1 7).
    + apply sim_world_ok. apply Forall_cons_2; [|by apply Forall_nil_2].
      apply sim_packet_ok. unfold byte_ok. lia.
    + apply sim_lan_core_ok.
    + apply sim_lan_core_queued.
    + reflexivity.
    + by_dec.
    + by vm_compute.
    + by vm_compute.
    + right. exists 0%nat. by vm_compute.
    + right. exists 0%nat. by vm_compute.
    + apply sim_lan_core_regular. by vm_compute.
  - intros p' w' [_ (i & c & _ & _ & _ & _ & Hq)]. exact Hq.
Defined.

(** C20 An IPv4 packet the RoCE path does not
    take (no peer for its destination, not UDP, another port, or not a WRITE)
    leaves on the WAN port with only its MAC addresses changed, the processor
    only counts it, and the program's reference to it is given up. *)
Theorem lan_other_traffic_passes_through `{DpdkSpec} p m b lan wan pool w :
  world_ok w -> w_mem w !! m = Some b -> 1 <= held w m ->
  rte_be_to_cpu_16 (ether_type (room b)) = RTE_ETHER_TYPE_IPV4 -> lan_data (w_glob w) (room b) = false ->
  wp (proc_process_lan_rx p m lan wan pool) (fun p' w' =>
    p' = count STAT_PKTS_PASSTHROUGH p /\ (forall j, held w' j = held w j - one m j) /\
    exists b' sent, l2_rewritten (rte_eth_macaddr_get wan) b b' /\
      EvTx wan 0 m (take (Z.to_nat (data_len b')) (room b')) sent ∈ w_trace w') w.
Proof.
  intros Hw Hb Hh Het Hd. unfold proc_process_lan_rx. apply wp_bind. eapply wp_mtod; [exact Hb|].
  rewrite Het. cbn [Z.eqb Pos.eqb negb]. unfold wan_get_peer_ip. apply wp_bind, wp_bind, wp_get_glob, wp_ret.
  assert (Hpass : wp (lan_passthrough p m wan) (fun p' w' =>
    p' = count STAT_PKTS_PASSTHROUGH p /\ (forall j, held w' j = held w j - one m j) /\
    exists b' sent, l2_rewritten (rte_eth_macaddr_get wan) b b' /\
      EvTx wan 0 m (take (Z.to_nat (data_len b')) (room b')) sent ∈ w_trace w') w).
  { unfold lan_passthrough. apply wp_bind. eapply wan_fwd_passthrough_exact; [by apply evolves_refl|exact Hb|done|].
    intros r w' b' sent He Hl2 Hin. apply wp_ret. split; [done|]. split; [|by exists b', sent].
    intros j. rewrite (ev_held _ _ _ He j). lia. }
  unfold lan_data in Hd. rewrite Het in Hd. cbn [Z.eqb Pos.eqb andb] in Hd.
  change (RTE_ETHER_TYPE_IPV4 =? RTE_ETHER_TYPE_IPV4) with true in Hd. cbn [andb] in Hd.
  destruct (pm_lookup _ _ =? 0); cbn [negb andb] in *; [done|].
  destruct (_ =? IPPROTO_UDP); cbn [negb andb] in *; [|done].
  destruct (_ =? WAN_UDP_PORT); cbn [negb andb] in *; [|done].
  by rewrite Hd.
Qed.

(** Opcode 0x06 is not a WRITE. *)
Lemma lan_other_traffic_passes_through_witness :
  wp (@proc_process_lan_rx (sim true) sim_lan_core 1 0 1 7)
     (fun p' w' => stat_get (p_stats p') STAT_PKTS_PASSTHROUGH = 1 /\ held w' 1%nat = 0)
     (sim_world [sim_packet 0x06 17 5]).
Proof.
  eapply wp_mono.
  - apply (@lan_other_traffic_passes_through (sim true) (sim_spec true) sim_lan_core 1
             (sim_mbuf (sim_packet 0x06 17 5)) 0 1 7).
    + apply sim_world_ok. apply Forall_cons_2; [|by apply Forall_nil_2].
      apply sim_packet_ok. unfold byte_ok. lia.
    + reflexivity.
    + by_dec.
    + by vm_compute.
    + by vm_compute.
  - intros p' w' (-> & Hh & _). split; [by vm_compute|]. rewrite Hh. by vm_compute.
Defined.

(** C12 Either [forge_and_send_ack] returns -1, or a
    62-byte frame is transmitted on the LAN port and it answers the packet:
    MAC and IP addresses and UDP ports swapped, opcode ACK, the QPN and PSN of
    the packet, syndrome 0 and a matching ICRC.  Either way no reference is
    left over and the packet itself is untouched. *)
Theorem spoofed_ack_answers_packet `{DpdkSpec} orig b pool port w :
  world_ok w -> w_mem w !! orig = Some b -> 1 <= held w orig ->
  wp (forge_and_send_ack orig pool port) (fun r w' =>
    (forall j, held w' j = held w j) /\ w_mem w' !! orig = Some b /\
    (r = -1 \/
     r = 0 /\ exists i fr tr, w_trace w' = EvTx port 0 i (take 62 fr) true :: tr /\ length fr = DATAROOM /\
       acknowledges (room b) fr)) w.
Proof.
  intros Hw Hb Hh. pose proof (world_ok_mbuf w orig b Hw Hb) as [Hlen Hok].
  eapply forge_and_send_ack_ev; [by apply evolves_refl|by exists b| |].
  - intros w' He _ Hk. split; [intros j; rewrite (ev_held _ _ _ He j); lia|].
    split; [by rewrite Hk|by left].
  - intros i b0 ob w' He _ Hk Hl0 Hok0 _ Hob [tr Htr]. split; [intros j; rewrite (ev_held _ _ _ He j); lia|].
    split; [by rewrite Hk|]. right. split; [done|].
    assert (ob = b) as -> by (specialize (Hob Hh); congruence).
    exists i, (ack_bytes (room b) b0), tr. split; [done|]. split; [|by apply ack_bytes_fields].
    unfold ack_bytes. by rewrite length_st, length_ack_frame.
Qed.

Lemma spoofed_ack_answers_packet_witness :
  wp (@forge_and_send_ack (sim false) 1 7 0)
     (fun r w' => w_mem w' !! 1%nat = Some (sim_mbuf (sim_packet 0x0A 17 5)) /\
        (r = -1 \/ exists fr, acknowledges (room (sim_mbuf (sim_packet 0x0A 17 5))) fr))
     (sim_world [sim_packet 0x0A 17 5]).
Proof.
  eapply wp_mono.
  - apply (@spoofed_ack_answers_packet (sim false) (sim_spec false) 1 (sim_mbuf (sim_packet 0x0A 17 5)) 7 0).
    + apply sim_world_ok. apply Forall_cons_2; [|by apply Forall_nil_2].
      apply sim_packet_ok. unfold byte_ok. lia.
    + reflexivity.
    + by_dec.
  - intros r w' (_ & Hm & [Hr|(_ & i & fr & tr & _ & _ & Ha)]); (split; [exact Hm|]); [by left|].
    right. exists fr. exact Ha.
Defined.
