(* ===== verification/CnpPacing.v ===== *)
(** * Pacing of congestion notifications

    DCQCN asks for a minimal gap between the CNPs of one flow.  [cnp_emit]
    sends one only when [cc_cnp_due] allows it and restarts the flow's timer
    when the frame went out; hence the rate bound proved here. *)

From Stdlib Require Import Sorted.
From S2P Require Import Prelude Crc32 PeerManager Stats Env Sim RoceDefs Arq QpCtx WanTunnel.
From S2P Require Import Congestion JitterBuffer Processor LanPath LanForward.

Section Pacing.
Context `{DpdkSpec}.

Lemma cc_build_cnp_timer cc qpn dst key pool w r cc' w' :
  cc_build_cnp cc qpn dst key pool w = Ret (r, cc') w' -> cnp_timer_cycles cc' = cnp_timer_cycles cc.
Proof.
  unfold cc_build_cnp. intros (r1 & w1 & _ & Hr)%bind_Ret. destruct r1 as [m|]; [|by injection Hr as _ <- _].
  apply bind_Ret in Hr as (r2 & w2 & _ & Hr). destruct r2 as [off|].
  - apply bind_Ret in Hr as (? & ? & _ & Hr). apply bind_Ret in Hr as (? & ? & _ & Hr).
    apply bind_Ret in Hr as (? & ? & _ & Hr). apply bind_Ret in Hr as (? & ? & _ & Hr).
    by injection Hr as _ <- _.
  - apply bind_Ret in Hr as (? & ? & _ & Hr). by injection Hr as _ <- _.
Qed.

(** A call either changes no timer and no count, or counts one CNP of a flow
    whose timer was due and restarts that timer. *)
Lemma cnp_emit_cases p i port pool now w p' w' :
  (i < length (qps (qp_mgr p)))%nat -> cnp_emit p i port pool now w = Ret p' w' ->
  cnp_timer_cycles (congestion_ctrl p') = cnp_timer_cycles (congestion_ctrl p) /\
  ((qp_mgr p' = qp_mgr p /\ p_stats p' = p_stats p) \/
   (cnp_timer_cycles (congestion_ctrl p) <= u64 (now - last_cnp_tsc (qp_at p i)) /\
    last_cnp_tsc (qp_at p' i) = now /\ p_stats p' = stat_inc (p_stats p) STAT_CNP_SENT)).
Proof.
  intros Hi. unfold cnp_emit. destruct (_ =? 0); [intros [= <- _]; auto|].
  destruct (cc_cnp_due _ _ _) eqn:Edue; cbn [negb]; [|intros [= <- _]; auto].
  apply Z.leb_le in Edue. intros ([r cc] & w1 & Hb & Hr)%bind_Ret. apply cc_build_cnp_timer in Hb.
  destruct r as [cnp|]; [|injection Hr as <- _; auto].
  apply bind_Ret in Hr as (? & ? & _ & Hr). apply bind_Ret in Hr as (? & ? & _ & Hr).
  apply bind_Ret in Hr as (n & w2 & _ & Hr). destruct (n =? 0).
  - apply bind_Ret in Hr as (? & ? & _ & Hr). injection Hr as <- _. auto.
  - injection Hr as <- _. split; [done|]. right. split; [done|]. split; [|done].
    unfold qp_at, count, put_qp, set_qp_mgr, set_cc. cbn [qp_mgr qps]. by rewrite nth_lookup, list_lookup_insert_eq.
Qed.

Definition cnp_emit_all (i : nat) (port pool : Z) (nows : list Z) (p : processor_context) : M processor_context :=
  foldM (fun p now => cnp_emit p i port pool now) nows p.

End Pacing.

Lemma sorted_before (l r : list Z) x y : StronglySorted Z.le (l ++ x :: r) -> y ∈ l -> y <= x.
Proof.
  induction l as [|z l IH]; [by intros _ ?%elem_of_nil|]. cbn [app]. intros [Hs Hf]%StronglySorted_inv [->|Hy]%elem_of_cons.
  - rewrite list.Forall_forall in Hf. apply Hf. apply elem_of_app. right. by left.
  - by apply IH.
Qed.

(** C17 However often a flow asks for congestion
    notifications, at times that do not go back, the number [k] of CNPs
    counted as sent satisfies [k * cnp_timer_cycles <= tmax - last], [tmax]
    being the time of the latest request and [last] the start of the flow's
    timer: two CNPs of one flow are at least [CNP_TIMER_US] apart. *)
Theorem cnp_rate_is_limited `{DpdkSpec} p i port pool nows tmax w :
  world_ok w -> proc_ok p -> (i < length (qps (qp_mgr p)))%nat ->
  StronglySorted Z.le nows -> 0 <= last_cnp_tsc (qp_at p i) <= tmax -> tmax < 2 ^ 64 ->
  Forall (fun t => last_cnp_tsc (qp_at p i) <= t <= tmax) nows ->
  wp (cnp_emit_all i port pool nows p) (fun p' w' =>
    exists k : nat, p_stats p' = Nat.iter k (fun s => stat_inc s STAT_CNP_SENT) (p_stats p) /\
      Z.of_nat k * cnp_timer_cycles (congestion_ctrl p) <= tmax - last_cnp_tsc (qp_at p i)) w.
Proof.
  intros Hw Hp Hi Hs Hl Htm Hr. set (last := last_cnp_tsc (qp_at p i)) in *.
  eapply wp_mono; [apply (wp_foldM _ _ _ (fun seen p' w' =>
    evolves (fun _ => 0) w w' /\ same_queues p p' /\ (i < length (qps (qp_mgr p')))%nat /\
    cnp_timer_cycles (congestion_ctrl p') = cnp_timer_cycles (congestion_ctrl p) /\
    (last_cnp_tsc (qp_at p' i) = last \/ last_cnp_tsc (qp_at p' i) ∈ seen) /\
    exists k : nat, p_stats p' = Nat.iter k (fun s => stat_inc s STAT_CNP_SENT) (p_stats p) /\
      Z.of_nat k * cnp_timer_cycles (congestion_ctrl p) <= last_cnp_tsc (qp_at p' i) - last))|].
  - split; [by apply evolves_refl|]. split; [by apply same_queues_refl|]. do 2 (split; [done|]).
    split; [by left|]. exists 0%nat. split; [done|]. unfold last. lia.
  - intros seen now p1 w1 [rest Hrest] (He & Hq & Hi1 & Hcyc & Hlast & k & Hk & Hle).
    assert (Hnow : last <= now <= tmax).
    { rewrite Hrest in Hr. apply Forall_app in Hr as [_ Hr]. by apply Forall_cons_1 in Hr as [? _]. }
    assert (Hl1 : last <= last_cnp_tsc (qp_at p1 i) <= now).
    { destruct Hlast as [->|Hin]; [lia|]. split; [|rewrite Hrest in Hs; by eapply sorted_before].
      rewrite Hrest in Hr. apply Forall_app in Hr as [Hr _]. rewrite list.Forall_forall in Hr. by apply Hr. }
    eapply wp_mono; [apply wp_run, (cnp_emit_ev p1 i port pool now
      (fun p2 w2 => evolves (fun _ => 0) w w2 /\ same_queues p p2 /\ (i < length (qps (qp_mgr p2)))%nat) _ w w1 He)|].
    + apply Hq.
    + done.
    + intros p2 w2 He2 _ _ Hq2 Hlen. split; [done|]. split; [by eapply same_queues_trans|]. by rewrite Hlen.
    + intros p2 w2 [(He2 & Hq2 & Hi2) Hrun]. apply cnp_emit_cases in Hrun as [Hc2 Hcase]; [|done].
      split; [done|]. split; [done|]. split; [done|]. split; [by rewrite Hc2|].
      destruct Hcase as [[Hqp Hst]|(Hdue & Hnew & Hst)].
      * unfold qp_at in *. rewrite Hqp, Hst. split; [|by exists k].
        destruct Hlast; [by left|right]. apply elem_of_app. by left.
      * rewrite Hnew, Hst. split; [right; apply elem_of_app; right; by left|].
        exists (S k). split; [by rewrite Hk|]. rewrite u64_small in Hdue by lia. rewrite Hcyc in Hdue. lia.
  - intros p' w' (_ & _ & _ & _ & Hlast & k & Hk & Hle). exists k. split; [done|].
    assert (last_cnp_tsc (qp_at p' i) <= tmax); [|lia].
    destruct Hlast as [->|Hin]; [lia|]. rewrite list.Forall_forall in Hr. by apply Hr.
Qed.

(** Flow 17, opened and notifying 10.0.1.7, asked at 150000, 200000 and
    260000 cycles: the 50 us gap is 100000 cycles. *)
Definition sim_flow_core : processor_context :=
  set_qp_mgr (QpManager (<[0%nat := QpContext 17 0 1 0 0 0 zero_mac zero_mac]> (qps zero_qp_manager)) 0 1) sim_lan_core.
Definition sim_cnp_core : processor_context :=
  put_qp 0 (QpContext 17 0 1 0 0x0701000A 0xFFFF zero_mac zero_mac) sim_flow_core.

Lemma sim_cnp_core_ok : proc_ok sim_cnp_core.
Proof.
  assert (Hq : qp_wf (qp_mgr sim_flow_core)).
  { apply (qp_result_wf zero_qp_manager 17 (Some 0%nat)); [apply zero_qp_manager_wf|unfold is_u32; lia|].
    apply (qp_created zero_qp_manager 17 0); by vm_compute. }
  destruct sim_lan_core_ok as [_ Ha Hj Hs].
  assert (Hf : proc_ok sim_flow_core) by by split.
  apply (put_qp_queues 0 _ sim_flow_core sim_flow_core); [by apply same_queues_refl|by_dec|done|done|].
  split; [unfold is_u32; cbn; lia|split; apply zero_mac_ok].
Qed.

Lemma cnp_rate_is_limited_witness :
  wp (@cnp_emit_all (sim false) 0 0 7 [150000; 200000; 260000] sim_cnp_core) (fun p' _ =>
    exists k : nat, p_stats p' = Nat.iter k (fun s => stat_inc s STAT_CNP_SENT) (p_stats sim_cnp_core) /\
      (k <= 2)%nat) sim_boot.
Proof.
  eapply wp_mono.
  - apply (@cnp_rate_is_limited (sim false) (sim_spec false) sim_cnp_core 0 0 7 [150000; 200000; 260000] 260000).
    + apply sim_boot_ok.
    + apply sim_cnp_core_ok.
    + by_dec.
    + repeat constructor; lia.
    + split; [by_dec|]. change (last_cnp_tsc (qp_at sim_cnp_core 0)) with 0. lia.
    + lia.
    + change (last_cnp_tsc (qp_at sim_cnp_core 0)) with 0. by_dec.
  - intros p' w' (k & Hk & Hle). exists k. split; [exact Hk|].
    change (last_cnp_tsc (qp_at sim_cnp_core 0)) with 0 in Hle.
    change (cnp_timer_cycles (congestion_ctrl sim_cnp_core)) with 100000 in Hle. lia.
Defined.
