(* ===== verification/WanPath.v ===== *)
(** * The WAN path: control messages, the timer, and the data path

    Control messages and the timer keep the tables well formed and account
    for every reference.  The data path does not: what it does to a WRITE of
    a new flow, and to the mbufs of a delivered message, is stated here. *)

From S2P Require Import Prelude Crc32 PeerManager Stats Env Sim RoceDefs Arq.
From S2P Require Import QpCtx WanTunnel Icrc Congestion ArqMsg JitterBuffer Processor LanPath.

Section Wan.
Context `{DpdkSpec}.

(** ** The ARQ contexts *)

(** An operation on the context at [i], run from a processor and written
    back: the windows' references and the ledger move together. *)
Lemma put_arq_ev p i a a' w0 w w' d :
  evolves d w0 w -> proc_ok p -> queued p w -> contexts (arq_mgr p) !! i = Some a -> a_qpn a <> 0 ->
  arq_safe (fun _ => 0) a w a' w' ->
  evolves (fun j => d j + (win_own (put_arq i a' p) j - win_own p j)) w0 w' /\
  proc_ok (put_arq i a' p) /\ queued (put_arq i a' p) w' /\ mem_le w w' /\ w_mem w' = w_mem w.
Proof.
  intros He Hp Hq Ha Hqa Hs. pose proof (arq_safe_evolves _ _ _ _ _ (ev_ok _ _ _ He) Hs) as He'.
  destruct Hs as (Hwf & Hin & [Hg Hm] & Hqn & Hl & _).
  destruct (mgr_ctx _ (po_arq p Hp) i a Ha) as [_ Hl0].
  destruct (put_arq_ok p i a a' w' Hp Ha Hqa Hqn Hwf ltac:(congruence)) as (Hp' & Hq' & Hr); [|done|].
  { intros j c Hc. rewrite Hm. by apply (Hq j). }
  split; [|split; [done|split; [done|split; [exact (ev_mem _ _ _ He')|done]]]].
  eapply evolves_seq; [exact He|exact He'|]. intros j. cbv beta. rewrite Hr. lia.
Qed.

Lemma set_arq_mgr_id p : set_arq_mgr (arq_mgr p) p = p.
Proof. by destruct p. Qed.

Lemma arq_at_lookup p i a : contexts (arq_mgr p) !! i = Some a -> arq_at p i = a.
Proof. intros Ha. unfold arq_at. by rewrite nth_lookup, Ha. Qed.

(** ** Control messages *)

Lemma wan_ctrl_ev p m port (Q : processor_context -> world -> Prop) d w0 w :
  evolves d w0 w -> proc_ok p -> queued p w -> is_Some (w_mem w !! m) ->
  (forall b msg, w_mem w !! m = Some b -> parse_ctrl (room b) = Some msg -> msg_qpn msg <> 0) ->
  (forall p' w', evolves (fun j => d j + (win_own p' j - win_own p j - one m j)) w0 w' ->
     proc_ok p' -> queued p' w' -> w_mem w' = w_mem w -> Q p' w') ->
  wp (wan_ctrl p m port) Q w.
Proof.
  intros He Hp Hqd [b Hb] Hqpn HQ. unfold wan_ctrl, arq_parse_ctrl_msg. apply wp_bind, wp_bind.
  eapply wp_mtod; [exact Hb|]. apply wp_ret. apply wp_bind.
  apply (wp_mono _ (fun p' w' => evolves (fun j => d j + (win_own p' j - win_own p j)) w0 w' /\
                                proc_ok p' /\ queued p' w' /\ w_mem w' = w_mem w)).
  2: { intros p' w' (He' & Hp' & Hq' & Hmem'). apply wp_bind. eapply ev_free_exact; [exact He'|].
       intros w2 He2 Hm2 _. apply wp_ret, HQ; [|done|unfold queued; by rewrite Hm2|congruence].
       eapply evolves_ext; [|exact He2]. intros j. cbv beta. lia. }
  assert (Hsame : forall p', p' = p -> evolves (fun j => d j + (win_own p' j - win_own p j)) w0 w /\
                                     proc_ok p' /\ queued p' w /\ w_mem w = w_mem w).
  { intros p' ->. split; [|done]. eapply evolves_ext; [|exact He]. intros j. cbv beta. lia. }
  destruct (parse_ctrl (room b)) as [msg|] eqn:Em; [|by apply wp_ret, Hsame].
  specialize (Hqpn b msg Hb Em). apply wp_bind, arq_lookup_rule; [apply Hp|]. cbv zeta.
  rewrite set_arq_mgr_id. destruct (arq_find _ _) as [i|] eqn:Ef; [|by apply wp_ret, Hsame].
  apply arq_find_Some in Ef as [(a & Ha & Haq) _]. rewrite (arq_at_lookup p i a Ha).
  destruct (mgr_ctx _ (po_arq p Hp) i a Ha) as [Hawf Hal].
  assert (Hanz : a_qpn a <> 0) by congruence.
  assert (Hdone : forall c a' w', arq_safe (fun _ => 0) a w a' w' ->
            evolves (fun j => d j + (win_own (count c (put_arq i a' p)) j - win_own p j)) w0 w' /\
            proc_ok (count c (put_arq i a' p)) /\ queued (count c (put_arq i a' p)) w' /\ w_mem w' = w_mem w).
  { intros c a' w' Hs. destruct (put_arq_ev p i a a' w0 w w' d He Hp Hqd Ha Hanz Hs) as (He' & Hp' & Hq' & _ & Hm').
    split; [exact He'|]. split; [|by split]. eapply sq_ok, count_queues, same_queues_refl, Hp'. }
  destruct (_ =? ARQ_MSG_ACK); [|destruct (_ =? ARQ_MSG_NACK); [|by apply wp_ret, Hsame]]; apply wp_bind.
  - eapply wp_mono; [by apply arq_handle_ack_safe; [..|apply (Hqd i)]|].
    intros [r a'] w' Hs. by apply wp_ret, Hdone.
  - eapply wp_mono; [by apply arq_handle_nack_safe; [..|apply (Hqd i)]|].
    intros [r a'] w' Hs. by apply wp_ret, Hdone.
Qed.

(** ** The timer *)

Lemma timer_ev p port (Q : processor_context -> world -> Prop) d w0 w :
  evolves d w0 w -> proc_ok p -> queued p w ->
  (forall p' w', evolves (fun j => d j + (win_own p' j - win_own p j)) w0 w' ->
     proc_ok p' -> queued p' w' -> w_mem w' = w_mem w -> Q p' w') ->
  wp (proc_timer_callback p port) Q w.
Proof.
  intros He Hp Hqd HQ. unfold proc_timer_callback. apply wp_bind.
  eapply wp_mono; [apply (wp_foldM _ _ _ (fun _ p' w' =>
    evolves (fun j => d j + (win_own p' j - win_own p j)) w0 w' /\ proc_ok p' /\ queued p' w' /\ w_mem w' = w_mem w))|].
  - split; [|done]. eapply evolves_ext; [|exact He]. intros j. cbv beta. lia.
  - intros done' i p1 w1 _ (He1 & Hp1 & Hq1 & Hm1). unfold timer_context.
    destruct (Z.eqb_spec (a_qpn (arq_at p1 i)) 0) as [|Hnz]; [by apply wp_ret|].
    assert (Hi : contexts (arq_mgr p1) !! i = Some (arq_at p1 i)).
    { unfold arq_at in *. rewrite nth_lookup in *. by destruct (contexts (arq_mgr p1) !! i). }
    destruct (mgr_ctx _ (po_arq p1 Hp1) i _ Hi) as [Hawf Hal]. apply wp_bind.
    eapply wp_mono; [by apply arq_check_timeouts_safe; [..|apply (Hq1 i)]|].
    intros a' w2 Hs. apply wp_ret.
    destruct (put_arq_ev p1 i _ a' w0 w1 w2 _ He1 Hp1 Hq1 Hi Hnz Hs) as (He2 & Hp2 & Hq2 & _ & Hm2).
    split; [|split; [done|split; [done|congruence]]].
    eapply evolves_ext; [|exact He2]. intros j. cbv beta. lia.
  - intros p1 w1 (He1 & Hp1 & Hq1 & Hm1). apply wp_bind. eapply ev_rdtsc_exact; [exact He1|]. intros t w2 He2 Hm2 _.
    assert (Hq2 : queued p1 w2) by (unfold queued; by rewrite Hm2).
    assert (Hm : w_mem w2 = w_mem w) by congruence.
    destruct (_ <? _); apply wp_ret; apply HQ; try done. by destruct Hp1.
Qed.

(** ** The data path *)

Lemma send_ctrl_ev p qpn type pn ip port pool c (Q : processor_context -> world -> Prop) d w0 w :
  evolves d w0 w -> proc_ok p ->
  (forall p' w', evolves d w0 w' -> mem_le w w' -> same_queues p p' -> Q p' w') ->
  wp (send_ctrl p qpn type pn ip port pool c) Q w.
Proof.
  intros He Hp HQ. unfold send_ctrl. apply wp_bind.
  eapply arq_build_ctrl_msg_ev; [exact He| |]; clear He.
  - intros w' He Hle. apply wp_ret, HQ; auto with gw.
  - intros i b0 mac b w' He _ Hle _ _ _ Hb _ _. assert (Hi : is_Some (w_mem w' !! i)) by by exists b. clear Hb.
    ev_auto; (apply HQ; [ev_done|ev_le|auto with gw]).
Qed.

Lemma deliver_segs_ev port segs (Q : unit -> world -> Prop) d w0 w :
  evolves d w0 w -> Forall (fun m => is_Some (w_mem w !! m)) segs ->
  (forall w', evolves (fun j => d j - sumZ (fun m => one m j) segs) w0 w' -> mem_le w w' -> Q tt w') ->
  wp (foldM (deliver_seg port) segs tt) Q w.
Proof.
  revert d w. induction segs as [|m segs IH]; intros d w He Hin HQ; cbn [foldM].
  - apply wp_ret, HQ; [|apply mem_le_refl]. eapply evolves_ext; [|exact He]. intros j. cbn. lia.
  - apply Forall_cons_1 in Hin as [Hm Hin]. apply wp_bind. unfold deliver_seg. apply wp_bind.
    assert (Hnext : forall w1, evolves (fun j => d j - one m j) w0 w1 -> mem_le w w1 ->
              wp (foldM (deliver_seg port) segs tt) Q w1).
    { intros w1 He1 Hle1. eapply IH; [exact He1| |].
      - eapply list.Forall_impl; [exact Hin|]. intros x Hx. by apply Hle1.
      - intros w2 He2 Hle2. apply HQ; [|by eapply mem_le_trans].
        eapply evolves_ext; [|exact He2]. intros j. cbn. lia. }
    eapply wan_prepare_for_lan_ev; [exact He|exact Hm|]. clear He. intros w1 He Hle. mem_push Hle.
    ev_auto; (apply Hnext; [ev_done|ev_le]).
Qed.

(** Delivery of a complete message gives up each delivered mbuf twice: once
    to the NIC (or by the free that follows a failed transmit), once more in
    [jb_remove_write]. *)
Lemma wan_deliver_ev p m qpn pn lan wan pool i segs (Q : processor_context -> world -> Prop) d w0 w :
  evolves d w0 w -> proc_ok p -> is_Some (w_mem w !! m) -> jb_find (p_jb p) qpn = Some i ->
  write_complete (write_at (p_jb p) i) <> 0 ->
  collect (segments (write_at (p_jb p) i)) = Some segs -> segs <> [] ->
  Forall (fun m => is_Some (w_mem w !! m)) segs ->
  (forall p' w', evolves (fun j => d j - sumZ (fun m => one m j) segs - write_refs j (write_at (p_jb p) i)) w0 w' ->
     arq_mgr p' = arq_mgr p -> writes (p_jb p') = <[i := zero_write]> (writes (p_jb p)) -> Q p' w') ->
  wp (wan_deliver p m qpn pn lan wan pool) Q w.
Proof.
  intros He Hp Hm Hf Hc Hcol Hne Hin HQ. unfold wan_deliver. apply wp_bind.
  apply jb_is_write_complete_rule; [apply Hp|]. rewrite Hf. cbv zeta.
  destruct (jb_find_Some _ _ _ Hf) as [Hi Hq].
  pose proof (write_at_wf _ _ (po_jb p Hp) Hi) as Hcwf.
  destruct (Z.eqb_spec (write_complete (write_at (p_jb p) i)) 0) as [|_]; [done|].
  replace (set_p_jb (p_jb p) p) with p by by destruct p. apply wp_bind.
  eapply jb_get_ordered_segs_rule; [apply Hp|exact Hf|].
  rewrite take_ge by (rewrite (ww_length _ Hcwf); done). rewrite Hcol.
  replace (set_p_jb (p_jb p) p) with p by by destruct p.
  destruct segs as [|x segs]; [done|]. apply wp_bind.
  eapply deliver_segs_ev; [exact He|exact Hin|]. intros w1 He1 Hle1. clear He. apply wp_bind.
  eapply jb_remove_write_rule; [apply Hp|exact Hf|]. intros w2 Hst2 Hh2.
  pose proof (evolves_same_store _ _ _ (ev_ok _ _ _ He1) Hst2 Hh2) as Hs2.
  assert (Hm2 : is_Some (w_mem w2 !! m)) by (apply (ev_mem _ _ _ Hs2), Hle1, Hm).
  pose proof (evolves_trans _ _ _ _ _ He1 Hs2) as He2. clear He1 Hs2. cbv zeta.
  destruct Hm2 as [b Hb]. apply wp_bind. eapply wp_mtod; [exact Hb|].
  apply wp_bind. unfold wan_get_peer_ip. apply wp_bind, wp_get_glob, wp_ret.
  set (p2 := set_p_jb _ p).
  assert (Hp2 : proc_ok p2).
  { destruct Hp as [? ? Hj ?]. split; try done. split; cbn.
    - rewrite length_insert. apply Hj.
    - apply Forall_insert; [apply Hj|apply zero_write_wf].
    - done. }
  eapply send_ctrl_ev; [exact He2|exact Hp2|]. intros p3 w3 He3 _ [_ Harq Hjb]. apply HQ.
  - eapply evolves_ext; [|exact He3]. intros j. cbv beta. lia.
  - by rewrite Harq.
  - by rewrite Hjb.
Qed.

(** The first segment of a new flow: [jb_add_seg] deadlocks on the global
    lock of the jitter buffer. *)
Lemma wan_write_hangs p m b lan wan pool w :
  jb_wf (p_jb p) -> w_mem w !! m = Some b ->
  rte_be_to_cpu_16 (ether_type (room b)) = RTE_ETHER_TYPE_IPV4 -> ip_proto (room b) = IPPROTO_UDP ->
  rte_be_to_cpu_16 (udp_dport (room b)) = WAN_UDP_PORT -> is_write_opcode (bth_opcode (room b)) = true ->
  jb_find (p_jb p) (bth_get_qpn (room b)) = None ->
  proc_process_wan_rx p m lan wan pool w = Hang.
Proof.
  intros Hj Hb Het Hpr Hdp Hop Hf. unfold proc_process_wan_rx, mtod, deref.
  unfold mbind at 1, M_bind. unfold mbind at 1, M_bind. rewrite Hb. unfold mret, M_ret.
  rewrite Het, Hpr, Hdp, Hop, !Z.eqb_refl. cbn [negb]. change (WAN_UDP_PORT =? ARQ_CTRL_PORT) with false. cbv iota.
  unfold wan_write. cbv zeta. apply bind_hang. by apply jb_add_seg_deadlock.
Qed.

End Wan.

(** ** Properties *)

Lemma boot_jb_find `{DpdkSpec} id lan ip qpn :
  qpn <> 0 -> jb_find (p_jb (proc_init id lan ip)) qpn = None.
Proof.
  intros Hq. unfold jb_find. rewrite (proj2 (list_find_None _ _)); [done|].
  cbn. apply Forall_replicate. cbn. congruence.
Qed.

Lemma boot_jb_wf `{DpdkSpec} id lan ip : jb_wf (p_jb (proc_init id lan ip)).
Proof.
  unfold proc_init, jb_init. cbn [p_jb]. split; cbn [writes j_global_lock].
  - apply length_replicate.
  - apply Forall_replicate, zero_write_wf.
  - apply lock_init.
Qed.

(** C35 On a freshly started WAN core the first
    RoCEv2 WRITE packet of any flow other than QPN 0 never returns:
    [jb_add_seg] holds the jitter buffer's [global_lock] when it calls
    [jb_get_or_create_write], which waits for the same lock. *)
Theorem wan_write_to_new_flow_deadlocks `{DpdkSpec} id ip m b lan wan pool w :
  w_mem w !! m = Some b ->
  rte_be_to_cpu_16 (ether_type (room b)) = RTE_ETHER_TYPE_IPV4 -> ip_proto (room b) = IPPROTO_UDP ->
  rte_be_to_cpu_16 (udp_dport (room b)) = WAN_UDP_PORT -> is_write_opcode (bth_opcode (room b)) = true ->
  bth_get_qpn (room b) <> 0 ->
  proc_process_wan_rx (proc_init id 0 ip) m lan wan pool w = Hang.
Proof.
  intros Hb Het Hpr Hdp Hop Hq. eapply wan_write_hangs; [apply boot_jb_wf|exact Hb|done..|].
  by apply boot_jb_find.
Qed.

Lemma wan_write_to_new_flow_deadlocks_witness :
  @proc_process_wan_rx (sim false) (@proc_init (sim false) 1 0 0xC0000201) 1 0 1 7
    (sim_world [sim_packet 0x0D 17 5]) = Hang.
Proof.
  apply (@wan_write_to_new_flow_deadlocks (sim false) (sim_spec false) 1 0xC0000201 1
           (sim_mbuf (sim_packet 0x0D 17 5))); by vm_compute.
Defined.

Lemma collect_owned segs out x :
  collect segs = Some out -> x ∈ out -> 1 <= sumZ (seg_own x) segs.
Proof.
  revert out. induction segs as [|s segs IH]; intros out Hc Hx; cbn [collect] in Hc.
  - injection Hc as <-. by apply elem_of_nil in Hx.
  - assert (Hpos : 0 <= sumZ (seg_own x) segs) by (apply sumZ_nonneg; intros; unfold seg_own; case_decide; lia).
    assert (Hself : 0 <= seg_own x s) by (unfold seg_own; case_decide; lia). cbn [sumZ].
    assert (Hhead : x ∈ match s_mbuf s with Some m => [m] | None => [] end -> seg_own x s = 1).
    { unfold seg_own. destruct (s_mbuf s) as [m|]; [|by intros ?%elem_of_nil].
      intros Hin%list_elem_of_singleton. by rewrite decide_True by congruence. }
    destruct (s_state s); [done| |done]. destruct (is_last _).
    + injection Hc as <-. rewrite Hhead by done. lia.
    + apply fmap_Some in Hc as (out' & Hc & ->). apply elem_of_app in Hx as [Hx|Hx].
      * rewrite Hhead by done. lia.
      * specialize (IH _ Hc Hx). lia.
Qed.

Lemma sum_one_elem (l : list nat) x : x ∈ l -> 1 <= sumZ (fun m => one m x) l.
Proof.
  induction l as [|y l IH]; [by intros ?%elem_of_nil|]. cbn [sumZ].
  assert (0 <= one y x) by (unfold one; case_decide; lia).
  assert (0 <= sumZ (fun m => one m x) l) by (apply sumZ_nonneg; intros; unfold one; case_decide; lia).
  intros [->|Hx]%elem_of_cons.
  - unfold one at 1. rewrite decide_True by done. lia.
  - specialize (IH Hx). lia.
Qed.

(** C36 When a complete message is delivered, the
    program gives up (at least) two references to each of its mbufs: one when
    the segment is handed to the LAN port (or freed because the port refused
    it), and one more when [jb_remove_write] frees the same mbufs. *)
Theorem wan_delivery_releases_twice `{DpdkSpec} p m qpn pn lan wan pool i segs w :
  world_ok w -> proc_ok p -> is_Some (w_mem w !! m) -> jb_find (p_jb p) qpn = Some i ->
  write_complete (write_at (p_jb p) i) <> 0 ->
  collect (segments (write_at (p_jb p) i)) = Some segs -> segs <> [] ->
  Forall (fun m => is_Some (w_mem w !! m)) segs ->
  wp (wan_deliver p m qpn pn lan wan pool) (fun _ w' =>
    forall x, x ∈ segs -> held w' x <= held w x - 2) w.
Proof.
  intros Hw Hp Hm Hf Hc Hcol Hne Hin. eapply wan_deliver_ev; [by apply evolves_refl|done|done|exact Hf|done|exact Hcol|done|done|].
  intros p' w' He _ _ x Hx. rewrite (ev_held _ _ _ He x).
  pose proof (collect_owned _ _ x Hcol Hx) as H1. pose proof (sum_one_elem segs x Hx) as H2.
  unfold write_refs. lia.
Qed.

(** A buffer holding the one-packet message of QPN 17. *)
Definition sim_delivery : processor_context :=
  set_p_jb (JitterBuffer
    (JbWrite 17 6 (<[0%nat := JbSegment 5 (Some 1%nat) JB_SEGMENT_RECEIVED 4 0]> (segments zero_write)) 5 1 1 0
     :: replicate 63 zero_write) 0 1) (@proc_init (sim false) 1 0 0xC0000201).

(** The mbuf was held once; afterwards it has been released once too often. *)
Lemma wan_delivery_releases_twice_witness :
  wp (@wan_deliver (sim false) sim_delivery 1 17 5 0 1 7) (fun _ w' => held w' 1%nat <= -1)
     (sim_world [sim_packet 0x0D 17 5]).
Proof.
  eapply wp_mono.
  - apply (@wan_delivery_releases_twice (sim false) (sim_spec false) sim_delivery 1 17 5 0 1 7 0%nat [1%nat]).
    + apply sim_world_ok. apply Forall_cons_2; [|by apply Forall_nil_2].
      apply sim_packet_ok. unfold byte_ok. lia.
    + split.
      * apply zero_qp_manager_wf.
      * apply zero_manager_wf.
      * split; [done| |done]. apply Forall_cons_2; [|apply Forall_replicate, zero_write_wf].
        split; [done| |done]. apply Forall_insert; [apply Forall_replicate; by right|]. left. by eauto.
      * done.
    + by eexists.
    + done.
    + done.
    + by vm_compute.
    + done.
    + apply Forall_cons_2; [by eexists|by apply Forall_nil_2].
  - intros p' w' Hh. specialize (Hh 1%nat ltac:(by left)). change (held (sim_world [sim_packet 0x0D 17 5]) 1) with 1 in Hh. lia.
Defined.
