(* ===== verification/Gateway.v ===== *)
(** * One core between two calls of its loop

    The bursts of the receive queues, and the transition system of one
    processor: polls, LAN packets, ARQ control packets, looks at the clock and
    timer ticks in any order. *)

From S2P Require Import Prelude Crc32 PeerManager Stats Env Sim RoceDefs Arq QpCtx.
From S2P Require Import WanTunnel Icrc Congestion ArqMsg JitterBuffer Processor LanPath WanPath.

(** ** One core *)

(** main.c *)
Definition BURST_SIZE : Z := 32.

(** The packets that enter the reassembly path. *)
Definition wan_data `{Dpdk} (b : list Z) : bool :=
  (rte_be_to_cpu_16 (ether_type b) =? RTE_ETHER_TYPE_IPV4) && (ip_proto b =? IPPROTO_UDP) &&
  (rte_be_to_cpu_16 (udp_dport b) =? WAN_UDP_PORT) && is_write_opcode (bth_opcode b).

(** No packet names QPN 0, the management QP: the tables use 0 for a free
    context. *)
Definition nonzero_write (b : list Z) : Prop :=
  is_write_opcode (bth_opcode b) = true -> bth_get_qpn b <> 0.
Definition nonzero_ctrl `{Dpdk} (b : list Z) : Prop :=
  forall msg, parse_ctrl b = Some msg -> msg_qpn msg <> 0.

(** ** Receiving *)

(** One reference to each mbuf of [ms]. *)
Definition ones (ms : list nat) (j : nat) : Z := sumZ (fun m => one m j) ms.

Lemma ones_nonneg ms j : 0 <= ones ms j.
Proof.
  induction ms as [|m ms IH]; [done|]. change (ones (m :: ms) j) with (one m j + ones ms j).
  unfold one. case_decide; lia.
Qed.

Lemma ones_cons m ms j : ones (m :: ms) j = one m j + ones ms j.
Proof. done. Qed.

Lemma ones_elem ms j : j ∈ ms -> 1 <= ones ms j.
Proof.
  induction 1 as [j ms|j m ms _ IH]; rewrite ones_cons; unfold one.
  - pose proof (ones_nonneg ms j). rewrite decide_True by done. lia.
  - case_decide; lia.
Qed.

Lemma received_evolves w m b : world_ok w -> mbuf_wf b -> evolves (one m) w (received m b w).
Proof.
  intros Hw Hb. eapply evolves_seq; [by apply (evolves_store w m b)|apply evolves_log|].
  - split; [apply Hw|]. apply map_Forall_insert_2; [done|apply Hw].
  - intros j. reflexivity.
  - intros j. cbn. unfold one. by destruct (decide (m = j)).
Qed.

Lemma received_all_evolves bufs w :
  world_ok w -> Forall (fun x => mbuf_wf x.2) bufs -> evolves (ones bufs.*1) w (received_all bufs w).
Proof.
  intros Hw Hb. revert w Hw. induction Hb as [|[m b] bufs Hb Hbs IH]; intros w Hw; [by apply evolves_refl|].
  pose proof (received_evolves w m b Hw Hb) as He.
  eapply evolves_seq; [exact He|apply IH, He|]. intros j. reflexivity.
Qed.

Lemma received_all_other bufs w j : j ∉ bufs.*1 -> w_mem (received_all bufs w) !! j = w_mem w !! j.
Proof.
  revert w. induction bufs as [|[m b] bufs IH]; intros w Hj; [done|].
  rewrite fmap_cons, not_elem_of_cons in Hj. destruct Hj as [Hne Hj]. cbn [received_all fold_left].
  change (w_mem (received_all bufs (received m b w)) !! j = w_mem w !! j).
  rewrite IH by done. cbn. by apply lookup_insert_ne.
Qed.

Lemma received_all_lookup bufs w :
  NoDup bufs.*1 -> Forall (fun x => w_mem (received_all bufs w) !! x.1 = Some x.2) bufs.
Proof.
  revert w. induction bufs as [|[m b] bufs IH]; intros w Hn; [done|].
  rewrite fmap_cons in Hn. apply list.NoDup_cons in Hn as [Hm Hn]. apply Forall_cons_2; [|by apply (IH (received m b w))].
  change (w_mem (received_all bufs (received m b w)) !! m = Some b).
  rewrite received_all_other by done. cbn. apply lookup_insert_eq.
Qed.

Lemma poll_evolves `{DpdkSpec} port queue n w :
  world_ok w ->
  evolves (ones (env_rx (w_trace w) port queue n).*1) w
    (received_all (env_rx (w_trace w) port queue n) (log_event (EvPoll port queue) w)).
Proof.
  intros Hw. destruct (rx_fresh (w_trace w) port queue n) as (_ & _ & Hf). eapply evolves_seq.
  - apply (evolves_log (fun _ => 0) w (EvPoll port queue)); [done|]. intros j. reflexivity.
  - apply received_all_evolves; [done|]. eapply list.Forall_impl; [exact Hf|]. by intros x [_ Hx].
  - intros j. cbv beta. lia.
Qed.

Section Core.
Context `{DpdkSpec} (a : lcore_args).

(** A processor between two calls: [core pend p w] says that [p] and [w] are
    reachable with the mbufs of [pend], received in the current burst, still
    to be handed to a handler.  Polls, packets and timer ticks come in any
    order, from a fresh processor; no packet names QPN 0, and no WRITE comes
    back from the WAN. *)
Inductive core : list (nat * mbuf) -> processor_context -> world -> Prop :=
  | core_boot id lan ip w :
      world_ok w -> (forall j, held w j = 0) -> core [] (proc_init id lan ip) w
  | core_poll p w port queue bufs ms w' :
      core [] p w -> bufs = env_rx (w_trace w) port queue BURST_SIZE ->
      rte_eth_rx_burst port queue BURST_SIZE w = Ret ms w' -> core bufs p w'
  | core_lan m b pend p w p' w' :
      core ((m, b) :: pend) p w -> nonzero_write (room b) ->
      proc_process_lan_rx p m (la_lan_port a) (la_wan_port a) (la_mbuf_pool a) w = Ret p' w' -> core pend p' w'
  | core_wan m b pend p w p' w' :
      core ((m, b) :: pend) p w -> nonzero_ctrl (room b) -> wan_data (room b) = false ->
      proc_process_wan_rx p m (la_lan_port a) (la_wan_port a) (la_mbuf_pool a) w = Ret p' w' -> core pend p' w'
  | core_clock p w t w' :
      core [] p w -> rte_rdtsc w = Ret t w' -> core [] p w'
  | core_timer p w p' w' :
      core [] p w -> proc_timer_callback p (la_wan_port a) w = Ret p' w' -> core [] p' w'.

(** The invariant: the program holds exactly what the windows and the rest
    of the burst hold, and the rest of the burst is as it was received. *)
Record core_inv (pend : list (nat * mbuf)) (p : processor_context) (w : world) : Prop := CoreInv {
  ci_world : world_ok w;
  ci_proc : proc_ok p;
  ci_queued : queued p w;
  ci_ledger j : held w j = win_own p j + ones pend.*1 j;
  ci_distinct : NoDup pend.*1;
  ci_pending : Forall (fun x => w_mem w !! x.1 = Some x.2) pend }.

Lemma proc_init_ok id lan ip : proc_ok (proc_init id lan ip).
Proof.
  unfold proc_init, qp_mgr_init, arq_mgr_init, jb_init. rewrite lock_init. split; cbn.
  - apply zero_qp_manager_wf.
  - apply zero_manager_wf.
  - split; cbn; [apply length_replicate|apply Forall_replicate, zero_write_wf|done].
  - done.
Qed.

Lemma core_boot_inv id lan ip w :
  world_ok w -> (forall j, held w j = 0) -> core_inv [] (proc_init id lan ip) w.
Proof.
  intros Hw Hh. split; [done|apply proc_init_ok| | |apply NoDup_nil_2|done].
  - intros i c Hc. cbn in Hc. apply lookup_replicate in Hc as [-> _]. by apply Forall_replicate.
  - intros j. rewrite Hh. unfold win_own, ones. cbn. rewrite mgr_refs_zero; [done|]. apply win_refs_zero.
Qed.

(** Packets that are not WRITE data are dropped or handled as control. *)
Lemma wan_rx_ctrl_ev p m b (Q : processor_context -> world -> Prop) d w0 w lan_port wan_port pool :
  evolves d w0 w -> proc_ok p -> queued p w -> w_mem w !! m = Some b ->
  nonzero_ctrl (room b) -> wan_data (room b) = false ->
  (forall p' w', evolves (fun j => d j + (win_own p' j - win_own p j - one m j)) w0 w' ->
     proc_ok p' -> queued p' w' -> w_mem w' = w_mem w -> Q p' w') ->
  wp (proc_process_wan_rx p m lan_port wan_port pool) Q w.
Proof.
  intros He Hp Hqd Hb Hctrl Hdata HQ. unfold proc_process_wan_rx. apply wp_bind.
  eapply wp_mtod; [exact Hb|]. unfold wan_data in Hdata.
  assert (Hdrop : wp (wan_drop p m) Q w).
  { unfold wan_drop. apply wp_bind. eapply ev_free_exact; [exact He|]. intros w' He' Hm' _.
    apply wp_ret, HQ; [|eapply sq_ok, count_queues, same_queues_refl, Hp|unfold queued; by rewrite Hm'|done].
    eapply evolves_ext; [|exact He']. intros j. cbv beta.
    rewrite (same_queues_own p) by (by apply count_queues, same_queues_refl). lia. }
  destruct (_ =? RTE_ETHER_TYPE_IPV4); cbn [negb andb] in *; [|done].
  destruct (_ =? IPPROTO_UDP); cbn [negb andb] in *; [|done].
  destruct (_ =? ARQ_CTRL_PORT).
  { eapply wan_ctrl_ev; [exact He|done|done|by exists b| |exact HQ].
    intros b' msg Hb' Hmsg. simplify_eq. by apply Hctrl. }
  destruct (_ =? WAN_UDP_PORT); cbn [negb andb] in *; [|done].
  by destruct (is_write_opcode _).
Qed.

(** ** Every step, from the invariant, returns and restores it *)

Lemma poll_step p port queue w :
  core_inv [] p w ->
  wp (rte_eth_rx_burst port queue BURST_SIZE) (fun ms w' =>
    ms = (env_rx (w_trace w) port queue BURST_SIZE).*1 /\
    core_inv (env_rx (w_trace w) port queue BURST_SIZE) p w') w.
Proof.
  intros [Hw Hp Hq Hl _ _]. pose proof (poll_evolves port queue BURST_SIZE w Hw) as He.
  destruct (rx_fresh (w_trace w) port queue BURST_SIZE) as (_ & Hn & _).
  split; [done|]. split; [apply He|done|exact (queued_le _ _ _ Hq (ev_mem _ _ _ He))| |done|by apply received_all_lookup].
  intros j. rewrite (ev_held _ _ _ He j), Hl. change (ones [].*1 j) with 0. lia.
Qed.

(** What handling the first mbuf of a burst must establish. *)
Lemma handled m b pend p w p' w' :
  core_inv ((m, b) :: pend) p w ->
  evolves (fun j => 0 + (win_own p' j - win_own p j - one m j)) w w' -> proc_ok p' -> queued p' w' ->
  kept_but m w w' -> core_inv pend p' w'.
Proof.
  intros [Hw Hp Hq Hl Hn Hpend] He Hp' Hq' Hk. rewrite fmap_cons in Hn, Hl.
  apply list.NoDup_cons in Hn as [Hm Hn]. apply Forall_cons_1 in Hpend as [_ Hpend].
  split; [apply He|done|done| |done|].
  - intros j. rewrite (ev_held _ _ _ He j), Hl, ones_cons. cbn [fst]. lia.
  - rewrite list.Forall_forall in Hpend |- *. intros [j c] Hj. specialize (Hpend _ Hj). cbn [fst snd] in *. rewrite <- Hpend.
    assert (Hjm : j ∈ pend.*1) by by apply (list_elem_of_fmap_2 fst pend (j, c)).
    apply Hk; [by intros ->|]. rewrite Hl, ones_cons. pose proof (ones_elem _ _ Hjm).
    unfold win_own, one. pose proof (mgr_refs_nonneg (contexts (arq_mgr p)) j). case_decide; lia.
Qed.

Lemma lan_step m b pend p w :
  core_inv ((m, b) :: pend) p w -> nonzero_write (room b) ->
  wp (proc_process_lan_rx p m (la_lan_port a) (la_wan_port a) (la_mbuf_pool a)) (core_inv pend) w.
Proof.
  intros Hi Hf. pose proof Hi as [Hw Hp Hq _ _ Hb]. apply Forall_cons_1 in Hb as [Hb _].
  eapply proc_process_lan_rx_ev; [by apply evolves_refl|done|done|exact Hb|done|].
  intros p' w' He' Hp' Hq' Hk _. by eapply handled.
Qed.

Lemma wan_step m b pend p w :
  core_inv ((m, b) :: pend) p w -> nonzero_ctrl (room b) -> wan_data (room b) = false ->
  wp (proc_process_wan_rx p m (la_lan_port a) (la_wan_port a) (la_mbuf_pool a)) (core_inv pend) w.
Proof.
  intros Hi Hf Hd. pose proof Hi as [Hw Hp Hq _ _ Hb]. apply Forall_cons_1 in Hb as [Hb _].
  eapply wan_rx_ctrl_ev; [by apply evolves_refl|done|done|exact Hb|done|done|].
  intros p' w' He' Hp' Hq' Hm. eapply handled; [exact Hi|done..|by apply kept_but_mem].
Qed.

Lemma clock_step p w : core_inv [] p w -> wp rte_rdtsc (fun _ => core_inv [] p) w.
Proof.
  intros [Hw Hp Hq Hl _ _]. apply ev_rdtsc; [done|]. intros t w' He.
  split; [apply He|done|exact (queued_le _ _ _ Hq (ev_mem _ _ _ He))| |apply NoDup_nil_2|done].
  intros j. rewrite (ev_held _ _ _ He j), Hl. lia.
Qed.

Lemma timer_step p w : core_inv [] p w -> wp (proc_timer_callback p (la_wan_port a)) (core_inv []) w.
Proof.
  intros [Hw Hp Hq Hl _ _]. eapply timer_ev; [by apply evolves_refl|done|done|].
  intros p' w' He' Hp' Hq' _. split; [apply He'|done|done| |apply NoDup_nil_2|done]. intros j.
  rewrite (ev_held _ _ _ He' j), Hl. lia.
Qed.

Lemma core_invariant pend p w : core pend p w -> core_inv pend p w.
Proof.
  induction 1 as [id lan ip w Hw Hh|p w port queue bufs ms w' _ IH -> Hr|m b pend p w p' w' _ IH Hf Hr
    |m b pend p w p' w' _ IH Hf Hd Hr|p w t w' _ IH Hr|p w p' w' _ IH Hr].
  - by apply core_boot_inv.
  - by apply (proj1 (wp_eq _ _ _ _ _ Hr) (poll_step p port queue w IH)).
  - apply (wp_eq _ _ _ _ _ Hr). by eapply lan_step.
  - apply (wp_eq _ _ _ _ _ Hr). by eapply wan_step.
  - by apply (proj1 (wp_eq _ _ _ _ _ Hr) (clock_step p w IH)).
  - apply (wp_eq _ _ _ _ _ Hr). by apply timer_step.
Qed.

End Core.

(** ** Properties *)

(** One core, driven by bursts of LAN packets and ARQ control packets and
    by timer ticks in any order and under any behaviour of DPDK: the mbuf
    references the program holds are exactly those of the retransmission
    windows and of the rest of the burst in hand (nothing leaks, nothing is
    released twice), its tables stay well formed, and the next packet of the
    burst is handled to the end, as are the next poll and the next tick once
    the burst is done, with no deadlock and no invalid dereference. *)
Theorem gateway_ledger `{DpdkSpec} a pend p w :
  core a pend p w ->
  (forall j, held w j = win_own p j + ones pend.*1 j) /\ world_ok w /\ proc_ok p /\
  match pend with
  | (m, b) :: pend =>
      w_mem w !! m = Some b /\
      (nonzero_write (room b) -> exists p' w',
         proc_process_lan_rx p m (la_lan_port a) (la_wan_port a) (la_mbuf_pool a) w = Ret p' w' /\
         core a pend p' w') /\
      (nonzero_ctrl (room b) -> wan_data (room b) = false -> exists p' w',
         proc_process_wan_rx p m (la_lan_port a) (la_wan_port a) (la_mbuf_pool a) w = Ret p' w' /\
         core a pend p' w')
  | [] =>
      (forall port queue, exists w', let bufs := env_rx (w_trace w) port queue BURST_SIZE in
         rte_eth_rx_burst port queue BURST_SIZE w = Ret bufs.*1 w' /\ core a bufs p w') /\
      (exists p' w', proc_timer_callback p (la_wan_port a) w = Ret p' w' /\ core a [] p' w')
  end.
Proof.
  intros Hc. pose proof (core_invariant _ _ _ _ Hc) as Hi.
  split; [apply Hi|]. split; [apply Hi|]. split; [apply Hi|]. destruct pend as [|[m b] pend]; split.
  - intros port queue. cbv zeta. eexists. split; [reflexivity|]. by eapply core_poll.
  - destruct (wp_exists _ _ _ (timer_step a p w Hi)) as (p' & w' & Hr & _).
    exists p', w'. split; [done|]. by eapply core_timer.
  - by apply (Forall_cons_1 _ _ _ (ci_pending _ _ _ Hi)).
  - split.
    + intros Hf. destruct (wp_exists _ _ _ (lan_step a m b pend p w Hi Hf)) as (p' & w' & Hr & _).
      exists p', w'. split; [done|]. by eapply core_lan.
    + intros Hf Hd. destruct (wp_exists _ _ _ (wan_step a m b pend p w Hi Hf Hd)) as (p' & w' & Hr & _).
      exists p', w'. split; [done|]. by eapply core_wan.
Qed.

Definition sim_proc : processor_context := @proc_init (sim false) 1 1 0xC0000201.

(** Queue 0 of the two ports, one processor. *)
Definition sim_args : lcore_args := LcoreArgs 0 0 1 0 7 1.

(** From boot, the first burst on the LAN port: two WRITEs to QPN 17; the
    first is handled while the second is pending. *)
Lemma gateway_ledger_witness :
  exists p' w', @core (sim false) sim_args [(1001%nat, sim_mbuf (sim_packet 0x0A 17 6))] p' w' /\
    forall j, held w' j = win_own p' j + ones [1001%nat] j.
Proof.
  assert (Hc : @core (sim false) sim_args [] sim_proc sim_boot) by (apply core_boot; [apply sim_boot_ok|done]).
  destruct (@gateway_ledger (sim false) (sim_spec false) sim_args _ _ _ Hc) as (_ & _ & _ & Hpoll & _).
  destruct (Hpoll 0 0) as (w1 & _ & Hc1). cbv zeta in Hc1.
  change (env_rx _ 0 0 BURST_SIZE)
    with [(1000%nat, sim_mbuf (sim_packet 0x0A 17 5)); (1001%nat, sim_mbuf (sim_packet 0x0A 17 6))] in Hc1.
  destruct (@gateway_ledger (sim false) (sim_spec false) sim_args _ _ _ Hc1) as (_ & _ & _ & _ & Hlan & _).
  destruct Hlan as (p' & w' & _ & Hc'); [intros _; vm_compute; discriminate|].
  exists p', w'. split; [exact Hc'|].
  exact (proj1 (@gateway_ledger (sim false) (sim_spec false) sim_args _ _ _ Hc')).
Defined.

