(* ===== verification/Cores.v ===== *)
(** * LAN cores and WAN cores

    [main] gives every lcore its own [processor_context_t], and an lcore runs
    either [lan_main_loop] (which calls [proc_process_lan_rx] only) or
    [wan_main_loop] ([proc_process_wan_rx] and [proc_timer_callback] only).
    What that separation does to the ARQ: the cores that fill windows never
    see an acknowledgement or a tick, and the cores that see them have no
    window. *)

From S2P Require Import Prelude Crc32 PeerManager Stats Env Sim RoceDefs Arq ArqWindow QpCtx WanTunnel.
From S2P Require Import Congestion ArqMsg JitterBuffer Processor LanPath LanForward WanPath Gateway.

(** ** LAN cores *)

(** A window nothing was ever taken out of; a free context is untouched. *)
Definition undrained (mgr : arq_manager) : Prop :=
  forall i c, contexts mgr !! i = Some c ->
    tight c /\ send_base c = 0 /\ (a_qpn c = 0 -> c = zero_context).

(** The windows of [mgr'] extend those of [mgr]. *)
Definition extends (mgr mgr' : arq_manager) : Prop :=
  forall i c, contexts mgr !! i = Some c ->
    exists c', contexts mgr' !! i = Some c' /\ arq_queue c `prefix_of` arq_queue c'.

Lemma extends_refl mgr : extends mgr mgr.
Proof. intros i c Hc. by exists c. Qed.

Lemma undrained_next c : tight c -> send_base c = 0 -> 0 <= send_next c <= WINDOW_SIZE.
Proof. intros [_ Hr _ _] Hb. lia. Qed.

Lemma undrained_length c : tight c -> send_base c = 0 -> Z.of_nat (length (arq_queue c)) = send_next c.
Proof. intros Ht Hb. rewrite arq_queue_length by done. lia. Qed.

Lemma q_send_prefix q x : q `prefix_of` snd (q_send q x).
Proof. unfold q_send. destruct (_ <=? _); cbn [snd]; [done|]. by apply prefix_app_r. Qed.

Lemma zero_manager_undrained : undrained zero_manager.
Proof.
  intros i c Hc. apply lookup_replicate in Hc as [-> _]. split; [apply (tight_fresh 0)|]. done.
Qed.

Lemma opened_undrained mgr qpn r mgr1 :
  undrained mgr -> qpn <> 0 -> get_or_create_result mgr qpn r mgr1 -> undrained mgr1 /\ extends mgr mgr1.
Proof.
  intros Hu Hq Hr. destruct Hr as [i Hf|i Hn Hf|]; [by split; [|apply extends_refl]| |by split; [|apply extends_refl]].
  apply arq_find_Some in Hf as [(c & Hc & Hcq) _]. destruct (Hu i c Hc) as (_ & _ & Hz).
  pose proof (lookup_lt_Some _ _ _ Hc) as Hi. split.
  - intros j d. cbn [contexts]. rewrite list_lookup_insert_Some. intros [(_ & <- & _)|[_ Hd]]; [|by eapply Hu].
    split; [apply tight_fresh|]. done.
  - intros j d Hd. cbn [contexts]. destruct (decide (i = j)) as [<-|Hne].
    + exists (fresh_context qpn). rewrite list_lookup_insert_eq by done. split; [done|].
      assert (d = zero_context) as -> by (rewrite Hc in Hd; simplify_eq; by apply Hz). apply prefix_nil.
    + exists d. by rewrite list_lookup_insert_ne.
Qed.

Section Lan.
Context `{DpdkSpec} (a : lcore_args).

Lemma tracked_undrained mgr qpn pn seg ip m b mgr' :
  undrained mgr -> qpn <> 0 -> lan_tracked mgr qpn pn seg ip m b mgr' -> undrained mgr' /\ extends mgr mgr'.
Proof.
  intros Hu Hq (r & mgr1 & Hgoc & Hr). destruct (opened_undrained _ _ _ _ Hu Hq Hgoc) as [Hu1 He1].
  destruct r as [i|]; [|destruct Hr as [_ ->]; done].
  destruct Hr as (c & rc & c2 & w1 & w2 & Hc & Hl & Hrun & _ & ->).
  destruct (Hu1 i c Hc) as (Ht & Hb & Hz). pose proof (undrained_next c Ht Hb) as Hn. unfold WINDOW_SIZE in Hn.
  destruct (send_run c m pn seg w1 rc c2 w2 Ht Hl ltac:(lia) Hrun) as (Hta & Haq & Hab & Hs).
  pose proof (lookup_lt_Some _ _ _ Hc) as Hi.
  assert (Hcq : a_qpn c <> 0).
  { intros Hc0. specialize (Hz Hc0). inversion Hgoc as [i' Hf|i' Hf Hf0|]; subst; cbn [contexts] in *.
    - apply arq_find_Some in Hf as [(c' & Hc' & Hq') _]. rewrite Hc in Hc'. injection Hc' as <-. done.
    - rewrite list_lookup_insert_eq in Hc by (by rewrite length_insert in Hi). injection Hc as Hc. rewrite <- Hc in Hc0. done. }
  split.
  - intros j d. cbn [contexts]. rewrite list_lookup_insert_Some. intros [(_ & <- & _)|[_ Hd]]; [|by eapply Hu1].
    split; [by apply set_a_peer_ip_tight|]. split; [cbn; congruence|]. cbn. congruence.
  - intros j d Hd. destruct (He1 j d Hd) as (d1 & Hd1 & Hpre). cbn [contexts].
    destruct (decide (i = j)) as [<-|Hne].
    + exists (set_a_peer_ip ip c2). rewrite list_lookup_insert_eq by done. split; [done|].
      change (arq_queue (set_a_peer_ip ip c2)) with (arq_queue c2). etrans; [exact Hpre|].
      rewrite Hc in Hd1. injection Hd1 as <-. replace (arq_queue c2) with (snd (rc, arq_queue c2)) by done.
      rewrite Hs. apply q_send_prefix.
    + exists d1. by rewrite list_lookup_insert_ne.
Qed.

(** The life of a LAN core: from [proc_init], bursts of LAN packets. *)
Inductive lan_core : list (nat * mbuf) -> processor_context -> world -> Prop :=
  | lan_core_boot id ip w :
      world_ok w -> (forall j, held w j = 0) -> lan_core [] (proc_init id 1 ip) w
  | lan_core_poll p w bufs ms w' :
      lan_core [] p w -> bufs = env_rx (w_trace w) (la_lan_port a) (la_queue_id a) BURST_SIZE ->
      rte_eth_rx_burst (la_lan_port a) (la_queue_id a) BURST_SIZE w = Ret ms w' -> lan_core bufs p w'
  | lan_core_rx m b pend p w p' w' :
      lan_core ((m, b) :: pend) p w -> nonzero_write (room b) ->
      proc_process_lan_rx p m (la_lan_port a) (la_wan_port a) (la_mbuf_pool a) w = Ret p' w' -> lan_core pend p' w'.

Lemma lan_core_core pend p w : lan_core pend p w -> core a pend p w.
Proof. induction 1; [by apply core_boot|by eapply core_poll|by eapply core_lan]. Qed.

(** One packet extends the windows. *)
Lemma lan_rx_extends m b pend p w p' w' :
  core_inv ((m, b) :: pend) p w -> undrained (arq_mgr p) -> nonzero_write (room b) ->
  proc_process_lan_rx p m (la_lan_port a) (la_wan_port a) (la_mbuf_pool a) w = Ret p' w' ->
  undrained (arq_mgr p') /\ extends (arq_mgr p) (arq_mgr p').
Proof.
  intros [Hw Hp Hq _ _ Hb] Hu Hf Hr. apply Forall_cons_1 in Hb as [Hb _].
  apply (wp_eq _ (fun p' _ => undrained (arq_mgr p') /\ extends (arq_mgr p) (arq_mgr p')) _ _ _ Hr).
  eapply proc_process_lan_rx_ev; [by apply evolves_refl|done|done|exact Hb|done|].
  intros p1 w1 _ _ _ _ [Hwin _]. destruct Hwin as [->|[Hqpn [t Ht]]]; [by split; [|apply extends_refl]|].
  by eapply tracked_undrained.
Qed.

Lemma lan_core_undrained pend p w : lan_core pend p w -> undrained (arq_mgr p).
Proof.
  induction 1 as [id ip w Hw Hh|p w bufs ms w' _ IH _ _|m b pend p w p' w' Hc IH Hf Hr].
  - unfold proc_init, arq_mgr_init. rewrite lock_init. exact zero_manager_undrained.
  - done.
  - eapply lan_rx_extends; [eapply core_invariant, lan_core_core, Hc|done..].
Qed.

End Lan.

(** [calculate_arq_window_usage] adds up the lengths of the windows. *)
Definition queued_packets (mgr : arq_manager) : Z :=
  sumZ (fun c => Z.of_nat (length (arq_queue c))) (contexts mgr).

Lemma usage_fold cs acc :
  (forall c, c ∈ cs -> tight c /\ send_base c = 0 /\ (a_qpn c = 0 -> c = zero_context)) ->
  0 <= acc -> acc + WINDOW_SIZE * Z.of_nat (length cs) < 2 ^ 32 ->
  fold_left (fun used c => if a_qpn c =? 0 then used else u32 (used + u32 (send_next c - send_base c))) cs acc
  = acc + sumZ (fun c => Z.of_nat (length (arq_queue c))) cs /\
  0 <= sumZ (fun c => Z.of_nat (length (arq_queue c))) cs <= WINDOW_SIZE * Z.of_nat (length cs).
Proof.
  unfold WINDOW_SIZE. revert acc. induction cs as [|c cs IH]; intros acc Hcs Ha Hb; [cbn; lia|].
  cbn [fold_left sumZ]. cbn [length] in Hb. destruct (Hcs c) as (Ht & Hz & H0); [by left|].
  pose proof (undrained_length c Ht Hz) as Hlen. pose proof (undrained_next c Ht Hz) as Hn. unfold WINDOW_SIZE in Hn.
  assert (Hacc : (if a_qpn c =? 0 then acc else u32 (acc + u32 (send_next c - send_base c)))
                 = acc + Z.of_nat (length (arq_queue c))).
  { destruct (Z.eqb_spec (a_qpn c) 0) as [Hq|Hq]; [rewrite (H0 Hq); change (arq_queue zero_context) with (@nil (Z * option nat)); cbn; lia|].
    rewrite Hz, Hlen, (u32_small (send_next c - 0)) by (unfold is_u32; lia).
    rewrite u32_small by (unfold is_u32; lia). lia. }
  rewrite Hacc. destruct (IH (acc + Z.of_nat (length (arq_queue c)))) as [IH1 IH2]; [|lia|lia|].
  - intros d Hd. apply Hcs. by right.
  - rewrite IH1. cbn [length]. lia.
Qed.

(** ** WAN cores *)

(** The life of a WAN core, whatever arrives and whatever DPDK answers. *)
Inductive wan_core `{Dpdk} (lan_port wan_port pool : Z) : processor_context -> Prop :=
  | wan_core_boot id ip : wan_core lan_port wan_port pool (proc_init id 0 ip)
  | wan_core_rx p m w p' w' :
      wan_core lan_port wan_port pool p ->
      proc_process_wan_rx p m lan_port wan_port pool w = Ret p' w' -> wan_core lan_port wan_port pool p'
  | wan_core_tick p w p' w' :
      wan_core lan_port wan_port pool p -> proc_timer_callback p wan_port w = Ret p' w' ->
      wan_core lan_port wan_port pool p'.

Section Wan.
Context `{DpdkSpec} (lan_port wan_port pool : Z).

Lemma send_ctrl_kept p0 p qpn type pn ip port c :
  arq_mgr p = arq_mgr p0 -> leaves arq_mgr (arq_mgr p0) (send_ctrl p qpn type pn ip port pool c).
Proof. intros Hp. unfold send_ctrl. leaves_tac. Qed.

Lemma wan_deliver_kept p0 p m qpn pn :
  arq_mgr p = arq_mgr p0 -> leaves arq_mgr (arq_mgr p0) (wan_deliver p m qpn pn lan_port wan_port pool).
Proof. intros Hp. unfold wan_deliver. leaves_tac; by apply send_ctrl_kept. Qed.

Lemma wan_write_kept p m ob : leaves arq_mgr (arq_mgr p) (wan_write p m ob lan_port wan_port pool).
Proof.
  unfold wan_write. cbv zeta. apply leaves_bind. intros [added jb]. cbv beta iota.
  destruct (_ <? 0); [leaves_tac|]. apply (leaves_seq _ _ arq_mgr (arq_mgr p)).
  - leaves_tac; by apply send_ctrl_kept.
  - intros p1 Hp1. by apply wan_deliver_kept.
Qed.

(** On an empty manager a control message finds nothing to work on. *)
Lemma zero_contexts_at p i : arq_mgr p = zero_manager -> arq_at p i = zero_context.
Proof.
  intros Hp. unfold arq_at. rewrite Hp, nth_lookup. cbn [contexts zero_manager].
  destruct (_ !! i) eqn:E; [|done]. by apply lookup_replicate in E as [-> _].
Qed.

Lemma put_zero_arq p i : arq_mgr p = zero_manager -> arq_mgr (put_arq i zero_context p) = zero_manager.
Proof.
  intros Hp. cbn. rewrite Hp. unfold zero_manager at 1 2. cbn [contexts a_global_lock].
  unfold zero_manager. f_equal. apply list_eq. intros j. destruct (decide (i = j)) as [<-|Hne].
  - destruct (decide (i < length (replicate (Z.to_nat MAX_QP_CTX) zero_context))%nat) as [Hlt|Hge].
    + rewrite list_lookup_insert_eq by done. symmetry. apply lookup_replicate_2. by rewrite length_replicate in Hlt.
    + by rewrite list_insert_ge by lia.
  - by rewrite list_lookup_insert_ne.
Qed.

Lemma zero_ack pn w : arq_handle_ack zero_context pn w = Ret (0, zero_context) w.
Proof.
  unfold arq_handle_ack. rewrite bind_lock_free.
  change (Ret (0, set_a_lock (spin_unlock 1) zero_context) w = Ret (0, zero_context) w). by rewrite lock_release.
Qed.

Lemma zero_nack pn port w : arq_handle_nack zero_context pn port w = Ret (0, zero_context) w.
Proof.
  unfold arq_handle_nack. rewrite bind_lock_free.
  change (Ret (0, set_a_lock (spin_unlock 1) zero_context) w = Ret (0, zero_context) w). by rewrite lock_release.
Qed.

(** What is left of [p] when only its counters and clocks have moved. *)
Definition idled (p p' : processor_context) : Prop :=
  arq_mgr p' = zero_manager /\ (proc_ok p -> same_queues p p').

Lemma idled_refl p : arq_mgr p = zero_manager -> idled p p.
Proof. intros Hp. split; [done|apply same_queues_refl]. Qed.

Lemma idled_manager p mgr : arq_mgr p = zero_manager -> mgr = zero_manager -> idled p (set_arq_mgr mgr p).
Proof. intros Hp ->. split; [done|]. intros [H1 H2 H3 H4]. rewrite Hp in H2. split; [by split|by cbn; rewrite Hp|done]. Qed.

Lemma idled_count c p p' : idled p p' -> idled p (count c p').
Proof. intros [Hp Hq]. split; [done|]. intros Hok. by apply count_queues, Hq. Qed.

Lemma wan_ctrl_idle p m b (Q : processor_context -> world -> Prop) w :
  arq_mgr p = zero_manager -> w_mem w !! m = Some b ->
  (forall p', idled p p' -> Q p' (log_event (EvFree m) w)) ->
  wp (wan_ctrl p m wan_port) Q w.
Proof.
  intros Hp Hb HQ. unfold wan_ctrl, arq_parse_ctrl_msg. apply wp_bind, wp_bind.
  eapply wp_mtod; [exact Hb|]. apply wp_ret, wp_bind.
  apply (wp_mono _ (fun p' w' => idled p p' /\ w' = w)).
  2: { intros p' w' [Hp' ->]. apply wp_bind, wp_free, wp_ret. by apply HQ. }
  destruct (parse_ctrl (room b)) as [msg|]; [|by apply wp_ret; split; [apply idled_refl|]]. apply wp_bind.
  rewrite Hp. apply arq_lookup_rule; [apply zero_manager_wf|]. cbv zeta.
  assert (Hp1 : idled p (set_arq_mgr zero_manager p)) by by apply idled_manager.
  destruct (arq_find _ _) as [i|]; [|by apply wp_ret].
  rewrite (zero_contexts_at _ i (proj1 Hp1)).
  destruct (_ =? ARQ_MSG_ACK); [|destruct (_ =? ARQ_MSG_NACK); [|by apply wp_ret]]; apply wp_bind;
    (eapply wp_eq; [first [apply zero_ack|apply zero_nack]|]); apply wp_ret; (split; [|done]);
    apply idled_count; exact (idled_manager p _ Hp (put_zero_arq (set_arq_mgr zero_manager p) i eq_refl)).
Qed.

Lemma timer_idle p (Q : processor_context -> world -> Prop) w :
  arq_mgr p = zero_manager ->
  (forall p' t, idled p p' -> Q p' (log_event (EvRdtsc t) w)) ->
  wp (proc_timer_callback p wan_port) Q w.
Proof.
  intros Hp HQ. unfold proc_timer_callback. apply wp_bind.
  eapply wp_mono; [apply (wp_foldM _ _ _ (fun _ p' w' => p' = p /\ w' = w)); [done|]|].
  - intros seen i p1 w1 _ [-> ->]. unfold timer_context. rewrite (zero_contexts_at p i Hp). by apply wp_ret.
  - intros p1 w1 [-> ->]. apply wp_bind, wp_rdtsc. intros t _. destruct (_ <? _); apply wp_ret, HQ.
    + split; [done|]. intros Hok. destruct Hok. split; by try split.
    + by apply idled_refl.
Qed.

(** The windows of a WAN core stay empty. *)
Lemma wan_rx_kept p m w p' w' :
  arq_mgr p = zero_manager -> proc_process_wan_rx p m lan_port wan_port pool w = Ret p' w' ->
  arq_mgr p' = zero_manager.
Proof.
  intros Hp. unfold proc_process_wan_rx. intros (b & w1 & Hb & Hr)%bind_Ret. revert Hr.
  assert (Hw1 : exists b', w_mem w1 !! m = Some b').
  { unfold mtod, deref, mbind, M_bind in Hb. destruct (w_mem w !! m) as [b'|] eqn:E; [|done].
    injection Hb as _ <-. by exists b'. }
  assert (Hdrop : leaves arq_mgr (arq_mgr p) (wan_drop p m)) by (unfold wan_drop; leaves_tac).
  destruct (negb _); [intros Hr; rewrite <- Hp; by eapply Hdrop|].
  destruct (negb _); [intros Hr; rewrite <- Hp; by eapply Hdrop|].
  destruct (_ =? ARQ_CTRL_PORT).
  { destruct Hw1 as [b' Hb']. intros Hr.
    apply (wp_eq _ (fun p' _ => arq_mgr p' = zero_manager) _ _ _ Hr). eapply wan_ctrl_idle; [done|exact Hb'|]. by intros p1 []. }
  destruct (negb _); [intros Hr; rewrite <- Hp; by eapply Hdrop|].
  destruct (negb _); [intros Hr; rewrite <- Hp; by eapply Hdrop|].
  intros Hr. rewrite <- Hp. by eapply wan_write_kept.
Qed.

Lemma wan_core_empty p : wan_core lan_port wan_port pool p -> arq_mgr p = zero_manager.
Proof.
  induction 1 as [id ip|p m w p' w' _ IH Hr|p w p' w' _ IH Hr].
  - unfold proc_init, arq_mgr_init. by rewrite lock_init.
  - by eapply wan_rx_kept.
  - apply (wp_eq _ (fun p' _ => arq_mgr p' = zero_manager) _ _ _ Hr). apply timer_idle; [done|]. by intros p1 t [].
Qed.

End Wan.

(** ** Properties *)

(** On a LAN core the windows only grow: each
    packet handled leaves the unacknowledged packets of every context a
    prefix of what they are afterwards, up to the limit of 256.  Nothing is
    ever acknowledged, resent or timed out there. *)
Theorem lan_windows_never_drain `{DpdkSpec} a m b pend p w p' w' :
  lan_core a ((m, b) :: pend) p w -> nonzero_write (room b) ->
  proc_process_lan_rx p m (la_lan_port a) (la_wan_port a) (la_mbuf_pool a) w = Ret p' w' ->
  lan_core a pend p' w' /\
  forall i c, contexts (arq_mgr p) !! i = Some c ->
    exists c', contexts (arq_mgr p') !! i = Some c' /\ arq_queue c `prefix_of` arq_queue c' /\
      send_base c' = 0 /\ (length (arq_queue c') <= 256)%nat.
Proof.
  intros Hc Hf Hr. pose proof (core_invariant _ _ _ _ (lan_core_core _ _ _ _ Hc)) as Hi.
  destruct (lan_rx_extends _ _ _ _ _ _ _ _ Hi (lan_core_undrained _ _ _ _ Hc) Hf Hr) as [Hu He].
  split; [by eapply lan_core_rx|]. intros i c Hic. destruct (He i c Hic) as (c' & Hc' & Hpre).
  exists c'. split; [done|]. split; [done|]. destruct (Hu i c' Hc') as (Ht & Hz & _). split; [done|].
  pose proof (undrained_length c' Ht Hz). pose proof (undrained_next c' Ht Hz). unfold WINDOW_SIZE in *. lia.
Qed.

(** From boot, the first burst and its first packet. *)
Lemma lan_windows_never_drain_witness :
  exists p' w', @lan_core (sim false) sim_args [(1001%nat, sim_mbuf (sim_packet 0x0A 17 6))] p' w' /\
    exists c', contexts (arq_mgr p') !! 0%nat = Some c' /\ send_base c' = 0.
Proof.
  assert (Hc : @lan_core (sim false) sim_args [] sim_lan_core sim_boot) by (apply lan_core_boot; [apply sim_boot_ok|done]).
  eapply lan_core_poll in Hc; [|reflexivity..].
  change (env_rx _ _ _ BURST_SIZE)
    with [(1000%nat, sim_mbuf (sim_packet 0x0A 17 5)); (1001%nat, sim_mbuf (sim_packet 0x0A 17 6))] in Hc.
  assert (Hnz : nonzero_write (room (sim_mbuf (sim_packet 0x0A 17 5)))) by (intros _; vm_compute; discriminate).
  destruct (@wp_exists _ _ _ _ (@lan_step (sim false) (sim_spec false) sim_args _ _ _ _ _
              (@core_invariant (sim false) (sim_spec false) sim_args _ _ _ (@lan_core_core (sim false) sim_args _ _ _ Hc))
              Hnz)) as (p' & w' & Hr & _).
  destruct (@lan_windows_never_drain (sim false) (sim_spec false) sim_args _ _ _ _ _ _ _ Hc Hnz Hr) as [Hc' Hw].
  exists p', w'. split; [exact Hc'|].
  destruct (Hw 0%nat zero_context ltac:(by vm_compute)) as (c' & Hl & _ & Hb & _). exists c'. split; [exact Hl|exact Hb].
Defined.

(** C32 On a LAN core [calculate_arq_window_usage] is the
    number of unacknowledged packets, it never exceeds the capacity of
    [MAX_QP_CTX * WINDOW_SIZE], and the percentage computed from it by
    [cc_check_buffer] does not overflow: it is exact and at most 100. *)
Theorem lan_usage_is_bounded `{DpdkSpec} a pend p w cc :
  lan_core a pend p w ->
  let used := calculate_arq_window_usage p in
  used = queued_packets (arq_mgr p) /\ 0 <= used <= MAX_QP_CTX * WINDOW_SIZE /\
  buffer_usage_percent (snd (cc_check_buffer cc used (MAX_QP_CTX * WINDOW_SIZE)))
    = used * 100 / (MAX_QP_CTX * WINDOW_SIZE) /\
  used * 100 / (MAX_QP_CTX * WINDOW_SIZE) <= 100.
Proof.
  intros Hc. cbv zeta. pose proof (core_invariant _ _ _ _ (lan_core_core _ _ _ _ Hc)) as Hi.
  pose proof (mgr_length _ (po_arq _ (ci_proc _ _ _ Hi))) as Hlen.
  destruct (usage_fold (contexts (arq_mgr p)) 0) as [Hu Hb]; [|done|rewrite Hlen; unfold WINDOW_SIZE, MAX_QP_CTX; lia|].
  { intros c Hin. apply list_elem_of_lookup in Hin as [i Hci]. by eapply lan_core_undrained. }
  unfold calculate_arq_window_usage. rewrite Hu, Z.add_0_l. fold (queued_packets (arq_mgr p)) in *.
  rewrite Hlen in Hb. change (WINDOW_SIZE * Z.of_nat (Z.to_nat MAX_QP_CTX)) with (MAX_QP_CTX * WINDOW_SIZE) in Hb.
  split; [done|]. split; [done|]. unfold cc_check_buffer. change (MAX_QP_CTX * WINDOW_SIZE) with 262144 in *.
  change (262144 =? 0) with false. cbv iota zeta.
  rewrite u32_small by (unfold is_u32; lia). split; [by destruct (_ <=? _)|zdiv].
Qed.

(** After the first WRITE of a burst: one packet queued, one counted. *)
Lemma lan_usage_is_bounded_witness :
  exists p w, @lan_core (sim false) sim_args [(1001%nat, sim_mbuf (sim_packet 0x0A 17 6))] p w /\
    calculate_arq_window_usage p = 1 /\ queued_packets (arq_mgr p) = 1.
Proof.
  assert (Hc : @lan_core (sim false) sim_args [] sim_lan_core sim_boot) by (apply lan_core_boot; [apply sim_boot_ok|done]).
  eapply lan_core_poll in Hc; [|reflexivity..].
  change (env_rx _ _ _ BURST_SIZE)
    with [(1000%nat, sim_mbuf (sim_packet 0x0A 17 5)); (1001%nat, sim_mbuf (sim_packet 0x0A 17 6))] in Hc.
  set (w1 := received_all _ _) in Hc.
  destruct (outcome_Ret (@proc_process_lan_rx (sim false) sim_lan_core 1000 (la_lan_port sim_args) (la_wan_port sim_args)
              (la_mbuf_pool sim_args) w1) (fun p _ => calculate_arq_window_usage p = 1) ltac:(by vm_compute)) as (p & w & Hr & Hu).
  exists p, w. assert (Hc1 : @lan_core (sim false) sim_args [(1001%nat, sim_mbuf (sim_packet 0x0A 17 6))] p w).
  { refine (@lan_core_rx (sim false) sim_args _ _ _ _ _ _ _ Hc _ Hr). intros _. vm_compute. discriminate. }
  split; [exact Hc1|]. split; [exact Hu|]. rewrite <- Hu. symmetry.
  apply (@lan_usage_is_bounded (sim false) (sim_spec false) sim_args _ p w zero_cc Hc1).
Defined.

(** C31 A WAN core never has a window,
    whatever it received before: a control message (an ACK or NACK for any
    QPN) only costs it the mbuf it came in, nothing is released or resent,
    and a timer tick resends nothing. *)
Theorem wan_cores_ignore_acknowledgements `{DpdkSpec} lan wan pool p :
  wan_core lan wan pool p ->
  arq_mgr p = zero_manager /\
  (forall m b w, w_mem w !! m = Some b -> rte_be_to_cpu_16 (ether_type (room b)) = RTE_ETHER_TYPE_IPV4 ->
     ip_proto (room b) = IPPROTO_UDP -> rte_be_to_cpu_16 (udp_dport (room b)) = ARQ_CTRL_PORT ->
     wp (proc_process_wan_rx p m lan wan pool) (fun p' w' =>
       arq_mgr p' = zero_manager /\ io_log (w_trace w') = Released m :: io_log (w_trace w)) w) /\
  (forall w, wp (proc_timer_callback p wan) (fun p' w' =>
     arq_mgr p' = zero_manager /\ io_log (w_trace w') = io_log (w_trace w)) w).
Proof.
  intros Hc. pose proof (wan_core_empty _ _ _ _ Hc) as Hp. split; [done|]. split.
  - intros m b w Hb Het Hpr Hdp. unfold proc_process_wan_rx. apply wp_bind. eapply wp_mtod; [exact Hb|].
    rewrite Het, Hpr, Hdp, !Z.eqb_refl. cbn [negb]. cbv iota. eapply wan_ctrl_idle; [done|exact Hb|].
    intros p' [Hp' _]. by split.
  - intros w. apply timer_idle; [done|]. intros p' t [Hp' _]. by split.
Qed.

Lemma wan_cores_ignore_acknowledgements_witness :
  arq_mgr (@proc_init (sim false) 1 0 0xC0000201) = zero_manager.
Proof.
  apply (@wan_cores_ignore_acknowledgements (sim false) (sim_spec false) 0 1 7). apply wan_core_boot.
Defined.

(** Packets of one flow (addresses, UDP source
    port, QPN) map to the same LAN core and to the same WAN core, LAN cores
    being numbered from 0 and WAN cores after them; the rest of the packet
    does not matter. *)
Theorem flows_are_pinned_to_cores `{Dpdk} lan_cores wan_cores b b' qpn :
  0 < lan_cores -> 0 < wan_cores -> lan_cores + wan_cores < 2 ^ 32 ->
  ip_src b = ip_src b' -> ip_dst b = ip_dst b' -> udp_sport b = udp_sport b' ->
  bytes_ok b -> bytes_ok b' -> (BTH_OFF <= length b)%nat -> (BTH_OFF <= length b')%nat ->
  proc_flow_to_lan_lcore lan_cores b qpn = proc_flow_to_lan_lcore lan_cores b' qpn /\
  proc_flow_to_wan_lcore lan_cores wan_cores b qpn = proc_flow_to_wan_lcore lan_cores wan_cores b' qpn /\
  0 <= proc_flow_to_lan_lcore lan_cores b qpn < lan_cores /\
  lan_cores <= proc_flow_to_wan_lcore lan_cores wan_cores b qpn < lan_cores + wan_cores.
Proof.
  intros Hl Hw Hsum Hs Hd Hp Hok Hok' Hlen Hlen'. unfold BTH_OFF in *.
  assert (Hslice : forall off n, (off + n <= 42)%nat -> ld n off b = ld n off b' -> slice off n b = slice off n b').
  { intros off n Hn He. apply le_val_inj; [by apply slice_ok..| |exact He]. rewrite !length_slice by lia. done. }
  assert (Hh : flow_hash b qpn = flow_hash b' qpn).
  { unfold flow_hash. rewrite (Hslice 26%nat 4%nat), (Hslice 30%nat 4%nat), (Hslice 34%nat 2%nat); (done || lia). }
  unfold proc_flow_to_lan_lcore, proc_flow_to_wan_lcore. rewrite <- Hh.
  pose proof (Z.mod_pos_bound (flow_hash b qpn) lan_cores Hl).
  pose proof (Z.mod_pos_bound (flow_hash b qpn) wan_cores Hw).
  rewrite u32_small by (unfold is_u32; lia). lia.
Qed.

(** Two packets of one flow, different PSNs. *)
Lemma flows_are_pinned_to_cores_witness :
  let b := room (sim_mbuf (sim_packet 0x0A 17 5)) in
  let b' := room (sim_mbuf (sim_packet 0x0B 17 6)) in
  @proc_flow_to_lan_lcore (sim false) 3 b 17 = @proc_flow_to_lan_lcore (sim false) 3 b' 17.
Proof.
  cbv zeta. apply (@flows_are_pinned_to_cores (sim false) 3 2);
    [lia|lia|lia|by vm_compute..| | | |].
  - apply sim_mbuf_wf, sim_packet_ok. unfold byte_ok. lia.
  - apply sim_mbuf_wf, sim_packet_ok. unfold byte_ok. lia.
  - by_dec.
  - by_dec.
Defined.
