(* ===== verification/LanHistory.v ===== *)
(** * What a LAN core has in its windows

    The run of a LAN core with the list of packets it has handled: the table
    of flows and the ARQ manager name the same flows, and the window of each
    flow holds the first 256 WRITE packets of the flow, in order of arrival. *)

From S2P Require Import Prelude Crc32 PeerManager Stats Env Sim RoceDefs Arq ArqWindow ArqManager QpCtx.
From S2P Require Import WanTunnel Congestion ArqMsg JitterBuffer Processor LanPath LanForward WanPath Gateway Cores.

(** ** The names in the table of flows *)

(** Which contexts are active, and for which QPN. *)
Definition qp_names (mgr : qp_manager) : list (Z * Z) := (fun q => (active q, q_qpn q)) <$> qps mgr.
Definition names (p : processor_context) : list (Z * Z) := qp_names (qp_mgr p).

Lemma names_put_qp p i q :
  active q = active (qp_at p i) -> q_qpn q = q_qpn (qp_at p i) -> names (put_qp i q p) = names p.
Proof.
  intros Ha Hq. unfold names, qp_names, put_qp, qp_at in *. cbn [qp_mgr set_qp_mgr qps].
  rewrite list_fmap_insert, Ha, Hq. destruct (decide (i < length (qps (qp_mgr p)))%nat) as [Hi|Hi].
  - apply list_insert_id. rewrite list_lookup_fmap.
    destruct (lookup_lt_is_Some_2 _ _ Hi) as [c Hc]. by rewrite nth_lookup, Hc.
  - apply list_insert_ge. rewrite length_fmap. lia.
Qed.

Section Names.
Context `{Dpdk}.

Lemma cnp_emit_names p i port pool now v : names p = v -> leaves names v (cnp_emit p i port pool now).
Proof.
  intros <-. unfold cnp_emit. leaves_tac; apply leaves_ret; try done.
  etrans; [by apply (names_put_qp (set_cc c p))|done].
Qed.

Lemma check_congestion_names p port pool : leaves names (names p) (check_congestion p port pool).
Proof.
  unfold check_congestion. destruct (cc_check_buffer _ _ _) as [r cc]. leaves_tac; [by apply leaves_ret|].
  apply leaves_foldM; [done|]. intros p1 i Hp1. destruct (_ =? 0); [by apply leaves_ret|by apply cnp_emit_names].
Qed.

Lemma lan_arq_names p qpn pn seg ip m :
  leaves (fun r : bool * processor_context => names r.2) (names p) (lan_arq p qpn pn seg ip m).
Proof. unfold lan_arq. leaves_tac; by apply leaves_ret. Qed.

Lemma lan_transmit_names p b m port : leaves names (names p) (lan_transmit p b m port).
Proof. unfold lan_transmit. leaves_tac; by apply leaves_ret. Qed.

(** The path names a new flow only through [qp_get_or_create]. *)
Lemma lan_write_names p m ob ip lan wan pool w p' w' :
  lan_write p m ob ip lan wan pool w = Ret p' w' ->
  exists r mgr w1, qp_get_or_create (qp_mgr p) (bth_get_qpn ob) w = Ret (r, mgr) w1 /\ names p' = qp_names mgr.
Proof.
  unfold lan_write. cbv zeta. intros ([r mgr] & w1 & Hgoc & Hr)%bind_Ret. exists r, mgr, w1. split; [done|].
  revert Hr. destruct r as [i|].
  - intros Hr. apply bind_Ret in Hr as (p1 & w2 & H1 & Hr).
    assert (Hp1 : names p1 = qp_names mgr).
    { revert H1. set (p0 := put_qp i _ _). assert (Hp0 : names p0 = qp_names mgr) by by apply names_put_qp.
      destruct (_ =? 0x3); [intros H1|by intros [= <- _]]. apply bind_Ret in H1 as (t & w3 & _ & H1).
      by apply (cnp_emit_names p0 i lan pool t _ Hp0) in H1. }
    apply bind_Ret in Hr as (? & ? & _ & Hr). apply bind_Ret in Hr as (wm & ? & _ & Hr).
    apply bind_Ret in Hr as ([b p2] & ? & H2 & Hr). apply lan_arq_names in H2.
    apply bind_Ret in Hr as (p3 & ? & H3 & Hr). apply lan_transmit_names in H3. cbn [snd] in H2.
    assert (Hp3 : names p3 = qp_names mgr) by (etrans; [exact H3|]; etrans; [exact H2|exact Hp1]).
    revert Hr. destruct (_ =? 0); [intros Hr|by intros [= <- _]].
    apply check_congestion_names in Hr. etrans; [exact Hr|exact Hp3].
  - intros (? & ? & _ & [= <- _])%bind_Ret. done.
Qed.

End Names.

(** ** Room *)

(** The flows named by the table are among [S]. *)
Definition named (p : processor_context) (S : gset Z) : Prop :=
  forall i q, qps (qp_mgr p) !! i = Some q -> active q <> 0 -> q_qpn q ∈ S.

Lemma named_names p S : named p S <-> forall x, x ∈ names p -> x.1 <> 0 -> x.2 ∈ S.
Proof.
  unfold names, qp_names. split.
  - intros Hn x (q & -> & [i Hi]%list_elem_of_lookup)%list_elem_of_fmap. by eapply Hn.
  - intros Hn i q Hi Ha. apply (Hn (active q, q_qpn q)); [|done]. apply list_elem_of_fmap.
    exists q. split; [done|]. by eapply list_elem_of_lookup_2.
Qed.

(** While no more than 1024 flows are about there is room in both tables. *)
Lemma qp_room_within p S q :
  qp_wf (qp_mgr p) -> named p S -> q ∈ S -> Z.of_nat (size S) <= MAX_QP_CTX -> qp_room (qp_mgr p) q.
Proof.
  intros Hm Hn Hq Hs. unfold qp_room. destruct (qp_find (qp_mgr p) q) as [i|] eqn:Hf; [left; by eexists|right].
  destruct (qp_find_free (qp_mgr p)) as [i|] eqn:Hz; [by eexists|exfalso].
  assert (Hact : forall i c, qps (qp_mgr p) !! i = Some c -> active c <> 0) by (intros; by eapply qp_find_free_None).
  assert (Hd : base.NoDup (q_qpn <$> qps (qp_mgr p))).
  { apply list.NoDup_alt. intros i j x Hi Hj. apply list_lookup_fmap_Some in Hi as (c & -> & Hc), Hj as (d & Heq & Hd).
    by eapply (qp_unique _ Hm i j c d); eauto. }
  assert (Hsub : list_to_set (q_qpn <$> qps (qp_mgr p)) ⊆ S ∖ {[q]}).
  { intros x (c & -> & [i Hi]%list_elem_of_lookup)%elem_of_list_to_set%list_elem_of_fmap.
    apply elem_of_difference. split; [eapply Hn; eauto|]. rewrite elem_of_singleton.
    by eapply qp_find_None; eauto. }
  apply subseteq_size in Hsub. rewrite size_list_to_set in Hsub by done.
  rewrite length_fmap, (qp_length _ Hm), size_difference, size_singleton in Hsub
    by (by apply singleton_subseteq_l).
  assert (0 < size S)%nat by (apply Nat.neq_0_lt_0; intros H0%size_empty_inv; apply H0 in Hq; by apply elem_of_empty in Hq).
  unfold MAX_QP_CTX in *. lia.
Qed.

Lemma arq_room_within mgr (S : gset Z) q :
  mgr_wf mgr -> dom (flows mgr) ⊆ S -> q ∈ S -> q <> 0 -> Z.of_nat (size S) <= MAX_QP_CTX -> arq_room mgr q.
Proof.
  intros Hm Hd Hq Hq0 Hs. unfold arq_room. destruct (arq_find mgr q) as [i|] eqn:Hf; [left; by eexists|right].
  destruct (arq_find mgr 0) as [i|] eqn:Hz; [by eexists|exfalso].
  apply (flows_full mgr Hm) in Hz. apply Z.leb_le in Hz. rewrite <- size_dom in Hz.
  assert (Hsub : dom (flows mgr) ⊂ S).
  { split; [done|]. intros Hle. specialize (Hle q Hq). rewrite elem_of_dom, flows_find, Hf in Hle by done. by destruct Hle. }
  apply subset_size in Hsub. lia.
Qed.

(** ** One packet *)

Section Packet.
Context `{DpdkSpec}.

(** The context the packet goes to: found, or opened empty. *)
Lemma opened_flow mgr qpn r mgr1 :
  mgr_wf mgr -> undrained mgr -> qpn <> 0 -> arq_room mgr qpn -> get_or_create_result mgr qpn r mgr1 ->
  exists i c, r = Some i /\ contexts mgr1 !! i = Some c /\ a_qpn c = qpn /\ mgr_wf mgr1 /\ undrained mgr1 /\
    arq_queue c = queue_of (flows mgr) qpn /\ flows mgr1 = <[qpn := arq_queue c]> (flows mgr).
Proof.
  intros Hm Hu Hq Hroom Hgoc. pose proof (proj1 (opened_undrained _ _ _ _ Hu Hq Hgoc)) as Hu1.
  destruct Hgoc as [i Hf|i Hf Hz|Hf Hz].
  - destruct (flow_at mgr qpn i Hm Hq Hf) as (c & Hc & Hcq & Hqueue). exists i, c. do 5 (split; [done|]).
    unfold queue_of. rewrite Hqueue. split; [done|]. by rewrite insert_id.
  - destruct (flows_open mgr qpn i Hm Hq Hf Hz) as [Hm1 Hf1]. apply arq_find_Some in Hz as [(c0 & Hc0 & _) _].
    exists i, (fresh_context qpn). split; [done|].
    split; [apply list_lookup_insert_eq; by eapply lookup_lt_Some|]. do 3 (split; [done|]).
    unfold queue_of. rewrite flow_absent by done. by split.
  - destruct Hroom as [[? ?]|[? ?]]; congruence.
Qed.

(** The packet is appended to the queue of its flow, as the bounded queue
    says, and the other flows stay as they are. *)
Lemma tracked_flows mgr qpn pn seg ip m b mgr' :
  mgr_wf mgr -> mgr_wf mgr' -> undrained mgr -> qpn <> 0 -> arq_room mgr qpn ->
  lan_tracked mgr qpn pn seg ip m b mgr' ->
  flows mgr' = <[qpn := snd (q_send (queue_of (flows mgr) qpn) (pn, Some m))]> (flows mgr).
Proof.
  intros Hm Hm' Hu Hq Hroom (r & mgr1 & Hgoc & Hr).
  destruct (opened_flow _ _ _ _ Hm Hu Hq Hroom Hgoc) as (i & c & -> & Hc & Hcq & Hm1 & Hu1 & Hqueue & Hf1).
  destruct Hr as (c' & rc & a & w1 & w2 & Hc' & Hl & Hrun & _ & ->).
  assert (c' = c) as -> by congruence. destruct (Hu1 i c Hc) as (Ht & Hb & _).
  pose proof (undrained_next c Ht Hb) as Hn. unfold WINDOW_SIZE in Hn.
  destruct (send_run _ _ _ _ _ _ _ _ Ht Hl ltac:(lia) Hrun) as (Hta & Haq & _ & Hsend).
  assert (Hat : contexts (ArqManager (<[i:=set_a_peer_ip ip a]> (contexts mgr1)) (a_global_lock mgr1)) !! i
                = Some (set_a_peer_ip ip a)) by (apply list_lookup_insert_eq; by eapply lookup_lt_Some).
  destruct (mgr_ctx _ Hm' i _ Hat) as [_ Hla].
  destruct (flows_put mgr1 i c (set_a_peer_ip ip a) Hm1 Hc ltac:(congruence) Haq (tight_wf _ Hta) Hla) as [_ ->].
  rewrite Hcq, Hf1, insert_insert_eq. f_equal. rewrite <- Hqueue, <- Hsend. done.
Qed.

(** Which way a packet goes. *)
Lemma lan_rx_split p m b lan wan pool w p' w' :
  w_mem w !! m = Some b -> proc_process_lan_rx p m lan wan pool w = Ret p' w' ->
  if lan_data (w_glob w) (room b) then exists ip, lan_write p m (room b) ip lan wan pool w = Ret p' w'
  else arq_mgr p' = arq_mgr p /\ names p' = names p.
Proof.
  intros Hb. unfold proc_process_lan_rx, lan_data. intros (ob & w1 & Ho & Hr)%bind_Ret.
  unfold mtod, deref, mbind, M_bind in Ho. rewrite Hb in Ho. injection Ho as <- <-. revert Hr.
  destruct (_ =? RTE_ETHER_TYPE_IPV4); cbn [negb andb]; [|by intros (? & ? & _ & [= <- _])%bind_Ret].
  intros (ip & w2 & Hip & Hr)%bind_Ret. injection Hip as <- <-. revert Hr.
  assert (Hpass : lan_passthrough p m wan w = Ret p' w' -> arq_mgr p' = arq_mgr p /\ names p' = names p).
  { by intros (? & ? & _ & [= <- _])%bind_Ret. }
  destruct (_ =? 0); cbn [negb andb]; [exact Hpass|]. destruct (_ =? IPPROTO_UDP); cbn [negb andb]; [|exact Hpass].
  destruct (_ =? WAN_UDP_PORT); cbn [negb andb]; [|exact Hpass]. destruct (is_write_opcode _); cbn [negb andb]; [|exact Hpass].
  intros Hr. by eexists.
Qed.

(** A WRITE packet to a peer adds its flow to the names, if anything. *)
Lemma lan_write_named p m ob ip lan wan pool w p' w' (S : gset Z) :
  qp_wf (qp_mgr p) -> named p S -> bth_get_qpn ob ∈ S ->
  lan_write p m ob ip lan wan pool w = Ret p' w' -> named p' S.
Proof.
  intros Hm Hn Hq (r & mgr & w1 & Hgoc & Hp')%lan_write_names.
  assert (Hr : qp_result (qp_mgr p) (bth_get_qpn ob) r mgr).
  { apply (wp_eq _ (fun x _ => qp_result (qp_mgr p) (bth_get_qpn ob) x.1 x.2) _ _ _ Hgoc).
    by apply qp_get_or_create_result; [apply Hm|]. }
  apply named_names. rewrite Hp'. apply (named_names (set_qp_mgr mgr p)). unfold named. cbn [qp_mgr set_qp_mgr].
  destruct Hr as [i Hf|i Hf Hz|Hf Hz]; [exact Hn| |exact Hn].
  intros j q. cbn [qps]. rewrite list_lookup_insert_Some. intros [(_ & <- & _)|[_ Hj]]; [intros _; exact Hq|by eapply Hn].
Qed.

End Packet.

(** ** The run with its history *)

(** The packets of the history the RoCE path takes, as the windows of their
    flow would have them. *)
Definition tracked `{Dpdk} (g : globals) (hist : list (nat * list Z)) (qpn : Z) : queue :=
  omap (fun x => if lan_data g x.2 && (bth_get_qpn x.2 =? qpn) then Some (bth_get_psn x.2, Some x.1) else None) hist.

(** The flows of the history. *)
Definition flow_names `{Dpdk} (g : globals) (hist : list (nat * list Z)) : gset Z :=
  list_to_set (omap (fun x => if lan_data g x.2 then Some (bth_get_qpn x.2) else None) hist).

Lemma tracked_snoc `{Dpdk} g hist x qpn :
  tracked g (hist ++ [x]) qpn =
  tracked g hist qpn ++ (if lan_data g x.2 && (bth_get_qpn x.2 =? qpn) then [(bth_get_psn x.2, Some x.1)] else []).
Proof. unfold tracked. rewrite omap_app. cbn. by destruct (_ && _). Qed.

Lemma flow_names_in `{Dpdk} g hist m ob : (m, ob) ∈ hist -> lan_data g ob = true -> bth_get_qpn ob ∈ flow_names g hist.
Proof.
  intros Hin Hd. apply elem_of_list_to_set, list_elem_of_omap. exists (m, ob). split; [done|]. cbn. by rewrite Hd.
Qed.

(** A send keeps the first 256. *)
Lemma q_send_take l x : snd (q_send (take 256 l) x) = take 256 (l ++ [x]).
Proof.
  unfold q_send. rewrite length_take. change WINDOW_SIZE with 256.
  destruct (Z.leb_spec 256 (Z.of_nat (256 `min` length l))); cbn [snd].
  - rewrite take_app_le by lia. done.
  - rewrite (take_ge l) by lia. rewrite take_ge; [done|]. rewrite length_app. cbn. lia.
Qed.

Section History.
Context `{DpdkSpec} (a : lcore_args).

(** [lan_run hist pend p w]: a LAN core has handled the packets of [hist],
    and those of [pend] are left of the current burst. *)
Inductive lan_run : list (nat * list Z) -> list (nat * mbuf) -> processor_context -> world -> Prop :=
  | lan_run_boot id ip w :
      world_ok w -> (forall j, held w j = 0) -> lan_run [] [] (proc_init id 1 ip) w
  | lan_run_poll hist p w bufs ms w' :
      lan_run hist [] p w -> bufs = env_rx (w_trace w) (la_lan_port a) (la_queue_id a) BURST_SIZE ->
      rte_eth_rx_burst (la_lan_port a) (la_queue_id a) BURST_SIZE w = Ret ms w' -> lan_run hist bufs p w'
  | lan_run_rx hist m b pend p w p' w' :
      lan_run hist ((m, b) :: pend) p w -> nonzero_write (room b) ->
      proc_process_lan_rx p m (la_lan_port a) (la_wan_port a) (la_mbuf_pool a) w = Ret p' w' ->
      lan_run (hist ++ [(m, room b)]) pend p' w'.

Lemma lan_run_core hist pend p w : lan_run hist pend p w -> lan_core a pend p w.
Proof. induction 1; [by apply lan_core_boot|by eapply lan_core_poll|by eapply lan_core_rx]. Qed.

(** The tables name flows of [S] only, and the windows hold what was tracked. *)
Record history_inv (S : gset Z) (g : globals) (hist : list (nat * list Z)) (p : processor_context) : Prop := HistoryInv {
  hi_named : named p S;
  hi_dom : dom (flows (arq_mgr p)) ⊆ S;
  hi_queue q : queue_of (flows (arq_mgr p)) q = take 256 (tracked g hist q) }.

Lemma history_boot S g id ip : history_inv S g [] (proc_init id 1 ip).
Proof.
  unfold proc_init. rewrite arq_mgr_init_zero. split; cbn [arq_mgr qp_mgr].
  - intros i q Hi Ha. apply lookup_replicate in Hi as [-> _]. by destruct Ha.
  - rewrite zero_manager_flows. apply empty_subseteq.
  - intros q. by rewrite zero_manager_flows.
Qed.

(** The classification only looks at the peer table. *)
Lemma lan_data_peers g g' b : g_peer_manager g' = g_peer_manager g -> lan_data g' b = lan_data g b.
Proof. unfold lan_data. by intros ->. Qed.

Lemma tracked_peers g g' hist q : g_peer_manager g' = g_peer_manager g -> tracked g' hist q = tracked g hist q.
Proof.
  intros Hg. apply list_omap_ext, list.Forall_Forall2_diag, list.Forall_true. intros x. by rewrite (lan_data_peers g g').
Qed.

Lemma flow_names_peers g g' hist : g_peer_manager g' = g_peer_manager g -> flow_names g' hist = flow_names g hist.
Proof.
  intros Hg. unfold flow_names. f_equal.
  apply list_omap_ext, list.Forall_Forall2_diag, list.Forall_true. intros x. by rewrite (lan_data_peers g g').
Qed.

Lemma history_peers S g g' hist p :
  g_peer_manager g' = g_peer_manager g -> history_inv S g hist p -> history_inv S g' hist p.
Proof. intros Hg [Hn Hd Hq]. split; [done|done|]. intros q. by rewrite Hq, (tracked_peers g g'). Qed.

Lemma history_rx S hist m b pend p w p' w' :
  core_inv ((m, b) :: pend) p w -> undrained (arq_mgr p) -> nonzero_write (room b) ->
  Z.of_nat (size S) <= MAX_QP_CTX -> (lan_data (w_glob w) (room b) = true -> bth_get_qpn (room b) ∈ S) ->
  proc_process_lan_rx p m (la_lan_port a) (la_wan_port a) (la_mbuf_pool a) w = Ret p' w' ->
  history_inv S (w_glob w) hist p -> history_inv S (w_glob w) (hist ++ [(m, room b)]) p'.
Proof.
  intros [Hw Hp Hqd _ _ Hb] Hu Hf Hsize Hin Hr [Hn Hd Hq]. apply Forall_cons_1 in Hb as [Hb _]. cbn [fst snd] in Hb.
  pose proof (lan_rx_split _ _ _ _ _ _ _ _ _ Hb Hr) as Hsplit.
  destruct (lan_data (w_glob w) (room b)) eqn:Hdata.
  - destruct Hsplit as [ip Hwrite]. specialize (Hin eq_refl). assert (Hqpn : bth_get_qpn (room b) <> 0).
    { apply Hf. unfold lan_data in Hdata. by apply andb_true_iff in Hdata as [_ ->]. }
    pose proof (qp_room_within p S _ (po_qp _ Hp) Hn Hin Hsize) as Hqroom.
    pose proof (arq_room_within _ S _ (po_arq _ Hp) Hd Hin Hqpn Hsize) as Haroom.
    assert (Htracked : proc_ok p' /\ exists ip t, lan_tracked (arq_mgr p) (bth_get_qpn (room b)) (bth_get_psn (room b))
              (get_segment_type (bth_opcode (room b))) ip m t (arq_mgr p')).
    { apply (wp_eq _ (fun p' _ => proc_ok p' /\ exists ip t, lan_tracked (arq_mgr p) (bth_get_qpn (room b))
               (bth_get_psn (room b)) (get_segment_type (bth_opcode (room b))) ip m t (arq_mgr p')) _ _ _ Hr).
      eapply proc_process_lan_rx_ev; [by apply evolves_refl|done|done|exact Hb|done|].
      intros p1 w1 _ Hp1 _ _ [_ Hdo]. split; [done|]. destruct (Hdo Hdata Hqroom) as [[t Ht] _]. by eexists _, t. }
    destruct Htracked as (Hp' & ip' & t & Ht).
    pose proof (tracked_flows _ _ _ _ _ _ _ _ (po_arq _ Hp) (po_arq _ Hp') Hu Hqpn Haroom Ht) as Hflows.
    split.
    + eapply lan_write_named; [apply Hp|exact Hn|exact Hin|exact Hwrite].
    + rewrite Hflows, dom_insert_L. apply union_least; [by apply singleton_subseteq_l|done].
    + intros q. rewrite Hflows, tracked_snoc. cbn [fst snd]. rewrite Hdata. cbn [andb].
      destruct (Z.eqb_spec (bth_get_qpn (room b)) q) as [<-|Hne].
      * rewrite queue_of_insert, Hq. apply q_send_take.
      * by rewrite queue_of_insert_ne, Hq, app_nil_r.
  - destruct Hsplit as [Ha Hnames]. split.
    + apply named_names. rewrite Hnames. by apply named_names.
    + by rewrite Ha.
    + intros q. rewrite Ha, tracked_snoc. cbn [fst snd]. rewrite Hdata. cbn [andb]. by rewrite app_nil_r.
Qed.

Lemma lan_rx_peers hist m b pend p w p' w' :
  lan_run hist ((m, b) :: pend) p w ->
  proc_process_lan_rx p m (la_lan_port a) (la_wan_port a) (la_mbuf_pool a) w = Ret p' w' -> nonzero_write (room b) ->
  g_peer_manager (w_glob w') = g_peer_manager (w_glob w).
Proof.
  intros Hrun Hr Hf.
  destruct (core_invariant _ _ _ _ (lan_core_core _ _ _ _ (lan_run_core _ _ _ _ Hrun))) as [Hw Hp Hqd _ _ Hb].
  apply Forall_cons_1 in Hb as [Hb _].
  apply (wp_eq _ (fun _ w' => g_peer_manager (w_glob w') = g_peer_manager (w_glob w)) _ _ _ Hr).
  eapply proc_process_lan_rx_ev; [by apply evolves_refl|done|done|exact Hb|done|].
  intros p1 w1 He1 _ _ _ _. apply (ev_pm _ _ _ He1).
Qed.

(** The next packet is always handled. *)
Lemma lan_run_step hist m b pend p w :
  lan_run hist ((m, b) :: pend) p w -> nonzero_write (room b) ->
  exists p' w', lan_run (hist ++ [(m, room b)]) pend p' w' /\ g_peer_manager (w_glob w') = g_peer_manager (w_glob w).
Proof.
  intros Hrun Hf. pose proof (core_invariant _ _ _ _ (lan_core_core _ _ _ _ (lan_run_core _ _ _ _ Hrun))) as Hi.
  destruct (wp_exists _ _ _ (lan_step a _ _ _ _ _ Hi Hf)) as (p' & w' & Hr & _). exists p', w'.
  split; [by eapply lan_run_rx|]. by eapply lan_rx_peers.
Qed.

End History.

(** ** Properties *)

Lemma lan_run_history `{DpdkSpec} a S hist pend p w :
  lan_run a hist pend p w -> Z.of_nat (size S) <= MAX_QP_CTX ->
  (forall m ob, (m, ob) ∈ hist -> lan_data (w_glob w) ob = true -> bth_get_qpn ob ∈ S) ->
  history_inv S (w_glob w) hist p.
Proof.
  intros Hrun Hsize. induction Hrun as [id ip w Hw Hh|hist p w bufs ms w' Hrun IH _ Hr|hist m b pend p w p' w' Hrun IH Hf Hr];
    intros Hin; [apply history_boot| |].
  - injection Hr as _ <-. pose proof (core_invariant _ _ _ _ (lan_core_core _ _ _ _ (lan_run_core _ _ _ _ _ Hrun))) as Hi.
    pose proof (ev_pm _ _ _ (poll_evolves (la_lan_port a) (la_queue_id a) BURST_SIZE w (ci_world _ _ _ Hi))) as Hg.
    apply (history_peers S (w_glob w)); [exact Hg|]. apply IH. intros m ob Hm Hd. eapply Hin; [exact Hm|].
    by rewrite (lan_data_peers _ _ _ Hg).
  - pose proof (lan_run_core _ _ _ _ _ Hrun) as Hc. pose proof (core_invariant _ _ _ _ (lan_core_core _ _ _ _ Hc)) as Hi.
    pose proof (lan_rx_peers a _ _ _ _ _ _ _ _ Hrun Hr Hf) as Hg.
    assert (Hin' : forall m' ob, (m', ob) ∈ hist ++ [(m, room b)] -> lan_data (w_glob w) ob = true -> bth_get_qpn ob ∈ S).
    { intros m' ob Hm Hd. eapply Hin; [exact Hm|]. by rewrite (lan_data_peers _ _ _ Hg). }
    apply (history_peers S (w_glob w)); [exact Hg|].
    eapply (history_rx a S hist m b pend p w p' w'); [exact Hi|eapply lan_core_undrained, Hc|exact Hf|exact Hsize| |exact Hr|].
    + apply (Hin' m). apply elem_of_app. right. by left.
    + apply IH. intros m' ob Hm. apply (Hin' m'). apply elem_of_app. by left.
Qed.

(** C6 After any packets, the ARQ window of each flow on a LAN core holds
    exactly the first 256 WRITE packets of the flow to a peer, in order of
    arrival, each under its PSN: those after them are sent without being
    tracked, packets of other kinds and of other flows make no difference,
    and nothing ever leaves a window.  As long as no more than 1024 flows
    were seen, no flow is refused. *)
Theorem lan_windows_hold_first_packets `{DpdkSpec} a hist pend p w q :
  lan_run a hist pend p w -> Z.of_nat (size (flow_names (w_glob w) hist)) <= MAX_QP_CTX -> q <> 0 ->
  flow_queue (arq_mgr p) q = take 256 (tracked (w_glob w) hist q).
Proof.
  intros Hrun Hsize Hq.
  pose proof (core_invariant _ _ _ _ (lan_core_core _ _ _ _ (lan_run_core _ _ _ _ _ Hrun))) as Hi.
  rewrite flow_queue_flows; [|apply (po_arq _ (ci_proc _ _ _ Hi))|exact Hq].
  apply (lan_run_history a _ _ _ _ _ Hrun Hsize). intros m ob. apply flow_names_in.
Qed.

(** A burst of two packets of flow 17 arrives and both are handled. *)
Lemma lan_windows_hold_first_packets_witness :
  exists p w, flow_queue (arq_mgr p) 17 = [(5, Some 1000%nat); (6, Some 1001%nat)] /\
    @lan_run (sim false) sim_args [(1000%nat, room (sim_mbuf (sim_packet 0x0A 17 5)));
                                   (1001%nat, room (sim_mbuf (sim_packet 0x0A 17 6)))] [] p w.
Proof.
  assert (Hc : @lan_run (sim false) sim_args [] [] sim_lan_core sim_boot) by (apply lan_run_boot; [apply sim_boot_ok|done]).
  eapply lan_run_poll in Hc; [|reflexivity..].
  change (env_rx _ _ _ BURST_SIZE)
    with [(1000%nat, sim_mbuf (sim_packet 0x0A 17 5)); (1001%nat, sim_mbuf (sim_packet 0x0A 17 6))] in Hc.
  assert (Hn : forall n, nonzero_write (room (sim_mbuf (sim_packet 0x0A 17 n)))) by (intros n _; vm_compute; discriminate).
  destruct (@lan_run_step (sim false) (sim_spec false) sim_args _ _ _ _ _ _ Hc (Hn 5)) as (p1 & w1 & Hc1 & Hg1).
  destruct (@lan_run_step (sim false) (sim_spec false) sim_args _ _ _ _ _ _ Hc1 (Hn 6)) as (p2 & w2 & Hc2 & Hg2).
  exists p2, w2. split; [|exact Hc2]. assert (Hg : g_peer_manager (w_glob w2) = sim_pm) by (rewrite Hg2, Hg1; reflexivity).
  rewrite (@lan_windows_hold_first_packets (sim false) (sim_spec false) sim_args _ _ _ _ 17 Hc2).
  - rewrite (@tracked_peers (sim false) sim_glob _ _ _ Hg). by vm_compute.
  - rewrite (@flow_names_peers (sim false) sim_glob _ _ Hg). by vm_compute.
  - done.
Defined.
