(* ===== verification/MainLoop.v ===== *)
(** * main.c: the loops of the LAN and WAN lcores

    [lan_main_loop] and [wan_main_loop], a round at a time.  Each round polls
    the core's own RX queue, hands every mbuf of the burst to the packet
    handler, and on a WAN core looks at the clock and runs the timer when the
    interval is over.  A run of a loop is given the signals that arrive in
    each of its rounds: [signal_handler] clears [g_running].  Then what the
    loops do: with any globals, and from the empty peer table [main] leaves. *)

From S2P Require Import Prelude Crc32 PeerManager Stats Env Sim RoceDefs Arq QpCtx.
From S2P Require Import WanTunnel Icrc Congestion ArqMsg JitterBuffer Processor LanPath WanPath Gateway.
From S2P Require Import LanForward Cores.

Definition APP_TIMER_INTERVAL_MS : Z := 10.

Definition SIGINT : Z := 2.
Definition SIGTERM : Z := 15.

(** [g_running] after a signal. *)
Definition signal_handler (g_running signum : Z) : Z :=
  if (signum =? SIGINT) || (signum =? SIGTERM) then 0 else g_running.

(** [while (g_running)]: the signals of each list arrive during one round;
    the result is the state and [g_running] when the loop is left, or when
    the lists are used up. *)
Fixpoint while_running {S} (sigs : list (list Z)) (g_running : Z) (f : S -> M S) (s : S) : M (S * Z) :=
  if g_running =? 0 then mret (s, 0)
  else
    match sigs with
    | [] => mret (s, g_running)
    | sg :: sigs => s ← f s; while_running sigs (fold_left signal_handler sg g_running) f s
    end.

Lemma signals_cleared sg : fold_left signal_handler sg 0 = 0.
Proof. induction sg as [|x sg IH]; [done|]. cbn [fold_left]. unfold signal_handler at 2. by destruct (_ || _). Qed.

Lemma signals_clear sg : fold_left signal_handler sg 1 = 0 <-> SIGINT ∈ sg \/ SIGTERM ∈ sg.
Proof.
  induction sg as [|x sg IH]; [split; [done|by intros [?%elem_of_nil|?%elem_of_nil]]|]. cbn [fold_left].
  unfold signal_handler at 2. rewrite !elem_of_cons.
  destruct (Z.eqb_spec x SIGINT) as [->|Hi]; cbn [orb]; [rewrite signals_cleared; split; [by left; left|done]|].
  destruct (Z.eqb_spec x SIGTERM) as [->|Ht]; [rewrite signals_cleared; split; [by right; left|done]|].
  rewrite IH. split; intros [Hx|Hx]; auto; destruct Hx; congruence || auto.
Qed.

(** Rounds that keep an invariant can be made for ever, and the loop is left
    at the first look at [g_running] after a SIGINT or a SIGTERM. *)
Lemma wp_while {S} (sigs : list (list Z)) (r : Z) (f : S -> M S) (I : S -> world -> Prop) s w :
  (forall s w, I s w -> wp (f s) I w) -> I s w ->
  wp (while_running sigs r f s) (fun s' w' => I s'.1 w' /\ s'.2 = fold_left signal_handler (concat sigs) r) w.
Proof.
  intros Hf. revert r s w. induction sigs as [|sg sigs IH]; intros r s w HI; cbn [while_running concat].
  - destruct (Z.eqb_spec r 0) as [->|_]; by apply wp_ret.
  - rewrite fold_left_app. destruct (Z.eqb_spec r 0) as [->|_].
    + apply wp_ret. by rewrite !signals_cleared.
    + apply wp_bind. eapply wp_mono; [by apply Hf|]. intros s' w' HI'. by apply IH.
Qed.

(** Rounds that either keep an invariant or hang for a known reason. *)
Definition returns_or_hangs {A} (o : outcome A) (Q : A -> world -> Prop) (stuck : Prop) : Prop :=
  match o with Ret a w => Q a w | Hang => stuck | Undef => False end.

Lemma while_returns_or_hangs {S} (sigs : list (list Z)) (r : Z) (f : S -> M S) (I : S -> world -> Prop) stuck s w :
  (forall s w, I s w -> returns_or_hangs (f s w) I stuck) -> I s w ->
  returns_or_hangs (while_running sigs r f s w)
    (fun s' w' => I s'.1 w' /\ s'.2 = fold_left signal_handler (concat sigs) r) stuck.
Proof.
  intros Hf. revert r s w. induction sigs as [|sg sigs IH]; intros r s w HI; cbn [while_running concat].
  - by destruct (Z.eqb_spec r 0) as [->|_].
  - rewrite fold_left_app. destruct (Z.eqb_spec r 0) as [->|_]; [split; [done|by rewrite !signals_cleared]|].
    unfold mbind, M_bind. pose proof (Hf s w HI) as Hs. destruct (f s w) as [s' w'| |]; [by apply IH|done..].
Qed.

Section Loops.
Context `{Dpdk} (a : lcore_args).

(** The body of the loop of [lan_main_loop]. *)
Definition lan_round (p : processor_context) : M processor_context :=
  ms ← rte_eth_rx_burst (la_lan_port a) (la_queue_id a) BURST_SIZE;
  foldM (fun p m => proc_process_lan_rx p m (la_lan_port a) (la_wan_port a) (la_mbuf_pool a)) ms p.

Definition lan_main_loop (sigs : list (list Z)) (p : processor_context) : M (processor_context * Z) :=
  while_running sigs 1 lan_round p.

(** [last_timer] and [timer_count] of [wan_main_loop]. *)
Record wan_loop := WanLoop {
  wl_proc : processor_context;
  last_timer : Z;
  timer_count : Z }.

Definition timer_interval : Z := u64 (rte_get_timer_hz * APP_TIMER_INTERVAL_MS) / 1000.

(** The body of the loop of [wan_main_loop]. *)
Definition wan_round (s : wan_loop) : M wan_loop :=
  ms ← rte_eth_rx_burst (la_wan_port a) (la_queue_id a) BURST_SIZE;
  p ← foldM (fun p m => proc_process_wan_rx p m (la_lan_port a) (la_wan_port a) (la_mbuf_pool a)) ms (wl_proc s);
  current ← rte_rdtsc;
  if timer_interval <=? u64 (current - last_timer s) then
    p ← proc_timer_callback p (la_wan_port a);
    mret (WanLoop p current (u64 (timer_count s + 1)))
  else mret (WanLoop p (last_timer s) (timer_count s)).

Definition wan_main_loop (sigs : list (list Z)) (p : processor_context) : M (wan_loop * Z) :=
  last ← rte_rdtsc; while_running sigs 1 wan_round (WanLoop p last 0).

(** What the NIC may deliver: no packet of QPN 0, and no WRITE data from the
    WAN (the first one hangs the core). *)
Definition lan_traffic : Prop := forall tr,
  Forall (fun x => nonzero_write (room x.2)) (env_rx tr (la_lan_port a) (la_queue_id a) BURST_SIZE).
Definition wan_traffic : Prop := forall tr,
  Forall (fun x => nonzero_ctrl (room x.2) /\ wan_data (room x.2) = false)
    (env_rx tr (la_wan_port a) (la_queue_id a) BURST_SIZE).

End Loops.

(** ** Rounds are runs of the core *)

Section Runs.
Context `{DpdkSpec} (a : lcore_args).

(** A burst is handled mbuf by mbuf. *)
Lemma burst_run (f : processor_context -> nat -> M processor_context) (ok : mbuf -> Prop) bufs p w :
  (forall m b pend p w, core a ((m, b) :: pend) p w -> ok b -> wp (f p m) (fun p' w' => core a pend p' w') w) ->
  core a bufs p w -> Forall (fun x => ok x.2) bufs -> wp (foldM f bufs.*1 p) (fun p' w' => core a [] p' w') w.
Proof.
  intros Hf. revert p w. induction bufs as [|[m b] bufs IH]; intros p w Hc Hok; [done|].
  apply Forall_cons_1 in Hok as [Hb Hok]. cbn [fmap list_fmap foldM fst]. apply wp_bind.
  eapply wp_mono; [by eapply Hf|]. intros p' w' Hc'. by apply IH.
Qed.

Lemma core_poll_run port queue p w (Q : list nat -> world -> Prop) :
  core a [] p w ->
  (forall w', let bufs := env_rx (w_trace w) port queue BURST_SIZE in core a bufs p w' -> Q bufs.*1 w') ->
  wp (rte_eth_rx_burst port queue BURST_SIZE) Q w.
Proof. intros Hc HQ. apply HQ. by eapply core_poll. Qed.

Lemma core_lan_run m b pend p w :
  core a ((m, b) :: pend) p w -> nonzero_write (room b) ->
  wp (proc_process_lan_rx p m (la_lan_port a) (la_wan_port a) (la_mbuf_pool a)) (fun p' w' => core a pend p' w') w.
Proof.
  intros Hc Hf. eapply wp_mono; [eapply wp_run, lan_step; [by eapply core_invariant|done]|].
  intros p' w' [_ Hr]. by eapply core_lan.
Qed.

Lemma core_wan_run m b pend p w :
  core a ((m, b) :: pend) p w -> nonzero_ctrl (room b) /\ wan_data (room b) = false ->
  wp (proc_process_wan_rx p m (la_lan_port a) (la_wan_port a) (la_mbuf_pool a)) (fun p' w' => core a pend p' w') w.
Proof.
  intros Hc [Hf Hd]. eapply wp_mono; [eapply wp_run, wan_step; [by eapply core_invariant|done..]|].
  intros p' w' [_ Hr]. by eapply core_wan.
Qed.

Lemma core_clock_run p w : core a [] p w -> wp rte_rdtsc (fun _ w' => core a [] p w') w.
Proof. intros Hc. apply wp_rdtsc. intros t Ht. eapply core_clock; [exact Hc|]. by rewrite Ht. Qed.

Lemma core_timer_run p w :
  core a [] p w -> wp (proc_timer_callback p (la_wan_port a)) (fun p' w' => core a [] p' w') w.
Proof.
  intros Hc. eapply wp_mono; [eapply wp_run, timer_step, core_invariant, Hc|].
  intros p' w' [_ Hr]. by eapply core_timer.
Qed.

Lemma lan_round_run p w : lan_traffic a -> core a [] p w -> wp (lan_round a p) (fun p' w' => core a [] p' w') w.
Proof.
  intros Ht Hc. unfold lan_round. apply wp_bind. apply (core_poll_run _ _ _ _ _ Hc). cbv zeta. intros w' Hc'.
  eapply (burst_run _ (fun b => nonzero_write (room b))); [|exact Hc'|apply Ht]. apply core_lan_run.
Qed.

(** A round of a WAN core; afterwards the clock was last read less than an
    interval after [last_timer]. *)
Lemma wan_round_run s w :
  wan_traffic a -> core a [] (wl_proc s) w -> wp (wan_round a s) (fun s' w' => core a [] (wl_proc s') w') w.
Proof.
  intros Ht Hc. unfold wan_round. apply wp_bind. apply (core_poll_run _ _ _ _ _ Hc). cbv zeta. intros w' Hc'.
  apply wp_bind. eapply wp_mono.
  - eapply (burst_run _ (fun b => nonzero_ctrl (room b) /\ wan_data (room b) = false)); [|exact Hc'|apply Ht].
    apply core_wan_run.
  - intros p1 w1 H1. apply wp_bind. eapply wp_mono; [by apply core_clock_run|]. intros t w2 H2.
    destruct (_ <=? _); [|by apply wp_ret]. apply wp_bind.
    eapply wp_mono; [by apply core_timer_run|]. intros p3 w3 H3. by apply wp_ret.
Qed.

End Runs.

(** The end of a loop: the windows of the processor account for every
    reference, and [g_running] is what the signals made it. *)
Definition loop_end (sigs : list (list Z)) (p : processor_context) (g_running : Z) (w : world) : Prop :=
  proc_ok p /\ (forall j, held w j = win_own p j) /\ g_running = fold_left signal_handler (concat sigs) 1.

(** Whatever signals arrive when, a loop of a fresh processor runs. *)
Lemma main_loops_never_block `{DpdkSpec} a sigs id lan ip w :
  world_ok w -> (forall j, held w j = 0) ->
  (lan_traffic a -> wp (lan_main_loop a sigs (proc_init id lan ip)) (fun r w' => loop_end sigs r.1 r.2 w') w) /\
  (wan_traffic a -> wp (wan_main_loop a sigs (proc_init id lan ip)) (fun r w' => loop_end sigs (wl_proc r.1) r.2 w') w).
Proof.
  intros Hw Hh. assert (Hc : core a [] (proc_init id lan ip) w) by by apply core_boot.
  assert (Hend : forall p' r w', core a [] p' w' /\ r = fold_left signal_handler (concat sigs) 1 -> loop_end sigs p' r w').
  { intros p' r w' [Hi Hr]. apply core_invariant in Hi. split; [apply Hi|]. split; [|done]. intros j.
    rewrite (ci_ledger _ _ _ Hi j). change (ones [].*1 j) with 0. lia. }
  split; intros Ht; (eapply wp_mono; [|intros r w'; apply Hend]).
  - apply (wp_while sigs 1 _ (fun p' w' => core a [] p' w')); [|done]. intros p' w' Hi. by apply lan_round_run.
  - unfold wan_main_loop. apply wp_bind. eapply wp_mono; [by apply core_clock_run|]. intros t w1 H1.
    apply (wp_while sigs 1 _ (fun s' w' => core a [] (wl_proc s') w')); [|done]. intros s' w' Hi. by apply wan_round_run.
Qed.

(** ** The loops of the gateway [main] starts

    Its peer table is empty and its WAN cores have no window, so that hardly
    anything is excluded: LAN lcores run on any traffic, WAN lcores on any
    but the WRITEs of a new flow. *)

(** The first WRITE of a burst. *)
Definition first_write `{Dpdk} (bufs : list (nat * mbuf)) : option mbuf :=
  head (filter (fun b => wan_data (room b) = true) bufs.*2).

(** What a poll by a WAN lcore yields. *)
Definition wan_burst `{Dpdk} (a : lcore_args) (w : world) : list (nat * mbuf) :=
  env_rx (w_trace w) (la_wan_port a) (la_queue_id a) BURST_SIZE.

(** The states of [wan_main_loop] after any number of rounds without a
    WRITE. *)
Inductive wan_rounds `{Dpdk} (a : lcore_args) (p0 : processor_context) (w0 : world) : wan_loop -> world -> Prop :=
  | wan_rounds_start t w : rte_rdtsc w0 = Ret t w -> wan_rounds a p0 w0 (WanLoop p0 t 0) w
  | wan_rounds_next s w s' w' :
      wan_rounds a p0 w0 s w -> first_write (wan_burst a w) = None -> wan_round a s w = Ret s' w' ->
      wan_rounds a p0 w0 s' w'.

(** No WRITE from the WAN names QPN 0. *)
Definition wan_writes_named `{Dpdk} (a : lcore_args) : Prop := forall w b,
  first_write (wan_burst a w) = Some b -> bth_get_qpn (room b) <> 0.

(** The end of a loop: nothing is held, and [g_running] is what the signals
    made it. *)
Definition idle_end (sigs : list (list Z)) (p : processor_context) (g_running : Z) (w : world) : Prop :=
  proc_ok p /\ (forall j, held w j = 0) /\ g_running = fold_left signal_handler (concat sigs) 1.

Section Started.
Context `{DpdkSpec} (a : lcore_args) (id lan ip : Z) (w0 : world).
Hypothesis boot_ok : world_ok w0.
Hypothesis boot_held : forall j, held w0 j = 0.
Let p0 := proc_init id lan ip.

(** Nothing has happened but that the mbufs [ms] are in hand. *)
Definition idle (ms : list nat) (p : processor_context) (w : world) : Prop :=
  evolves (ones ms) w0 w /\ same_queues p0 p.

Lemma idle_boot : idle [] p0 w0.
Proof. split; [by apply evolves_refl|apply same_queues_refl, proc_init_ok]. Qed.

Lemma idle_manager ms p w : idle ms p w -> arq_mgr p = zero_manager.
Proof. intros [_ Hp]. rewrite (sq_arq _ _ Hp). unfold p0, proc_init, arq_mgr_init. by rewrite lock_init. Qed.

Lemma idle_poll port queue p w (Q : list nat -> world -> Prop) :
  idle [] p w ->
  (forall w', let bufs := env_rx (w_trace w) port queue BURST_SIZE in
     idle bufs.*1 p w' -> Forall (fun x => w_mem w' !! x.1 = Some x.2) bufs -> Q bufs.*1 w') ->
  wp (rte_eth_rx_burst port queue BURST_SIZE) Q w.
Proof.
  intros [He Hp] HQ. cbv zeta in HQ. destruct (rx_fresh (w_trace w) port queue BURST_SIZE) as (_ & Hn & _). apply HQ.
  - split; [|done]. eapply evolves_seq; [exact He|apply poll_evolves, He|]. intros j. reflexivity.
  - by apply received_all_lookup.
Qed.

Lemma idle_end_of sigs p r w : idle [] p w -> r = fold_left signal_handler (concat sigs) 1 -> idle_end sigs p r w.
Proof.
  intros [He Hp] Hr. split; [apply Hp|]. split; [|done]. intros j.
  rewrite (ev_held _ _ _ He j), boot_held. reflexivity.
Qed.

(** *** LAN *)

Hypothesis no_peers : forall dst, pm_lookup (g_peer_manager (w_glob w0)) dst = 0.

Lemma idle_lan_burst ms p w :
  idle ms p w -> Forall (fun m => is_Some (w_mem w !! m)) ms ->
  wp (foldM (fun p m => proc_process_lan_rx p m (la_lan_port a) (la_wan_port a) (la_mbuf_pool a)) ms p) (idle []) w.
Proof.
  revert p w. induction ms as [|m ms IH]; intros p w Hi Hm; [done|].
  apply Forall_cons_1 in Hm as [[b Hb] Hm]. destruct Hi as [He Hp]. cbn [foldM]. apply wp_bind.
  eapply lan_rx_unmapped_ev; [apply evolves_refl, He|exact Hb|by rewrite (ev_pm _ _ _ He)|].
  intros c w' _ He'. apply IH.
  - split; [|by apply count_queues]. eapply evolves_seq; [exact He|exact He'|]. intros j. rewrite ones_cons. lia.
  - eapply list.Forall_impl; [exact Hm|]. intros x. apply (ev_mem _ _ _ He').
Qed.

Lemma idle_lan_round p w : idle [] p w -> wp (lan_round a p) (idle []) w.
Proof.
  intros Hi. unfold lan_round. apply wp_bind, (idle_poll _ _ _ _ _ Hi). cbv zeta. intros w' Hi' Hm.
  apply idle_lan_burst; [done|]. apply list.Forall_fmap. eapply list.Forall_impl; [exact Hm|]. cbn. eauto.
Qed.

Lemma idle_lan_loop sigs : wp (lan_main_loop a sigs p0) (fun r w' => idle_end sigs r.1 r.2 w') w0.
Proof.
  eapply wp_mono; [apply (wp_while sigs 1 _ (idle []) _ _ idle_lan_round idle_boot)|].
  intros r w' [Hi Hr]. by apply idle_end_of.
Qed.

(** *** WAN *)

Lemma idle_wan_rx m ms b p w :
  idle (m :: ms) p w -> w_mem w !! m = Some b -> wan_data (room b) = false ->
  wp (proc_process_wan_rx p m (la_lan_port a) (la_wan_port a) (la_mbuf_pool a))
     (fun p' w' => idle ms p' w' /\ w_mem w' = w_mem w) w.
Proof.
  intros Hi Hb Hd. pose proof (idle_manager _ _ _ Hi) as Hz. destruct Hi as [He Hp].
  assert (Hend : forall p', idled p p' -> idle ms p' (log_event (EvFree m) w)).
  { intros p' [_ Hq]. split; [|eapply same_queues_trans; [exact Hp|apply Hq, Hp]].
    eapply evolves_seq; [exact He|apply evolves_log; [apply He|intros j; reflexivity]|].
    intros j. rewrite ones_cons. unfold one. cbn. destruct (decide (m = j)); lia. }
  assert (Hdrop : wp (wan_drop p m) (fun p' w' => idle ms p' w' /\ w_mem w' = w_mem w) w).
  { unfold wan_drop. apply wp_bind, wp_free, wp_ret. split; [|done]. by apply Hend, idled_count, idled_refl. }
  unfold proc_process_wan_rx. apply wp_bind. eapply wp_mtod; [exact Hb|]. revert Hd. unfold wan_data.
  destruct (_ =? RTE_ETHER_TYPE_IPV4); cbn [negb andb]; [|done]. destruct (_ =? IPPROTO_UDP); cbn [negb andb]; [|done].
  destruct (_ =? ARQ_CTRL_PORT).
  { intros _. eapply wan_ctrl_idle; [done|exact Hb|]. intros p' Hp'. by split; [apply Hend|]. }
  destruct (_ =? WAN_UDP_PORT); cbn [negb andb]; [|done]. by intros ->.
Qed.

(** A burst runs up to its first WRITE. *)
Lemma idle_wan_burst bufs p w :
  idle bufs.*1 p w -> Forall (fun x => w_mem w !! x.1 = Some x.2) bufs ->
  let run := foldM (fun p m => proc_process_wan_rx p m (la_lan_port a) (la_wan_port a) (la_mbuf_pool a)) bufs.*1 p in
  match first_write bufs with
  | None => wp run (idle []) w
  | Some b => bth_get_qpn (room b) <> 0 -> run w = Hang
  end.
Proof.
  revert p w. induction bufs as [|[m b] bufs IH]; intros p w Hi Hm; [done|]. cbv zeta.
  apply Forall_cons_1 in Hm as [Hb Hm]. cbn [fmap list_fmap foldM fst snd] in *. unfold first_write.
  cbn [fmap list_fmap snd]. rewrite list.filter_cons. case_decide as Hd; cbn [head].
  - intros Hq. apply bind_hang. unfold wan_data in Hd. rewrite !andb_true_iff, !Z.eqb_eq in Hd.
    destruct Hd as [[[Het Hpr] Hdp] Hop]. destruct Hi as [_ Hp].
    eapply wan_write_hangs; [apply Hp|exact Hb|done..|]. rewrite (sq_jb _ _ Hp). by apply boot_jb_find.
  - apply not_true_is_false in Hd. pose proof (idle_wan_rx _ _ _ _ _ Hi Hb Hd) as Hs.
    apply wp_exists in Hs as (p' & w' & Hr & Hi' & Hmem).
    assert (Hm' : Forall (fun x => w_mem w' !! x.1 = Some x.2) bufs) by by rewrite Hmem.
    specialize (IH p' w' Hi' Hm'). cbv zeta in IH. unfold first_write in IH. unfold wp, mbind, M_bind. by rewrite Hr.
Qed.

Lemma idle_wan_round s w :
  idle [] (wl_proc s) w ->
  match first_write (wan_burst a w) with
  | None => wp (wan_round a s) (fun s' w' => idle [] (wl_proc s') w') w
  | Some b => bth_get_qpn (room b) <> 0 -> wan_round a s w = Hang
  end.
Proof.
  intros Hi. pose proof (idle_poll (la_wan_port a) (la_queue_id a) _ _ (fun ms w' =>
    ms = (wan_burst a w).*1 /\ idle ms (wl_proc s) w' /\ Forall (fun x => w_mem w' !! x.1 = Some x.2) (wan_burst a w)) Hi
    ltac:(done)) as Hpoll.
  apply wp_exists in Hpoll as (ms & w1 & Hr & -> & Hi1 & Hm1). pose proof (idle_wan_burst _ _ _ Hi1 Hm1) as Hburst.
  cbv zeta in Hburst. destruct (first_write _) as [b|].
  - intros Hq. unfold wan_round, mbind at 1, M_bind. rewrite Hr. by apply bind_hang, Hburst.
  - unfold wan_round. apply wp_bind. eapply wp_eq; [exact Hr|]. apply wp_bind. eapply wp_mono; [exact Hburst|].
    intros p2 w2 [He2 Hp2]. apply wp_bind. eapply ev_rdtsc_exact; [exact He2|]. intros t w3 He3 _ _.
    destruct (_ <=? _); [|by apply wp_ret]. apply wp_bind. apply timer_idle; [by eapply (idle_manager [])|].
    intros p4 t4 [_ Hq]. apply wp_ret. split; [|eapply same_queues_trans; [exact Hp2|apply Hq, Hp2]].
    eapply evolves_seq; [exact He3|apply evolves_log; [apply He3|intros j; reflexivity]|]. intros j. reflexivity.
Qed.

Lemma wan_rounds_idle s w : wan_rounds a p0 w0 s w -> idle [] (wl_proc s) w.
Proof.
  induction 1 as [t w Hr|s w s' w' _ IH Hf Hr].
  - apply (wp_eq _ (fun _ w' => idle [] p0 w') _ _ _ Hr). eapply ev_rdtsc_exact; [apply idle_boot|].
    intros t' w' He _ _. by split; [|apply idle_boot].
  - pose proof (idle_wan_round s w IH) as Hs. rewrite Hf in Hs.
    exact (proj1 (wp_eq _ _ _ _ _ Hr) Hs).
Qed.

(** What can follow a state so reached. *)
Lemma wan_rounds_next_round s w :
  wan_rounds a p0 w0 s w ->
  proc_ok (wl_proc s) /\ (forall j, held w j = 0) /\
  match first_write (wan_burst a w) with
  | None => exists s' w', wan_round a s w = Ret s' w' /\ wan_rounds a p0 w0 s' w'
  | Some b => bth_get_qpn (room b) <> 0 -> wan_round a s w = Hang
  end.
Proof.
  intros Hs. pose proof (wan_rounds_idle s w Hs) as Hi. pose proof (idle_wan_round s w Hi) as Hr.
  destruct Hi as [He Hp]. split; [apply Hp|]. split; [intros j; by rewrite (ev_held _ _ _ He j), boot_held|].
  destruct (first_write _) eqn:Hf; [exact Hr|]. apply wp_exists in Hr as (s' & w' & Hr & _).
  exists s', w'. split; [exact Hr|]. by eapply wan_rounds_next.
Qed.

Lemma idle_wan_loop sigs :
  wan_writes_named a ->
  returns_or_hangs (wan_main_loop a sigs p0 w0) (fun r w' => idle_end sigs (wl_proc r.1) r.2 w')
    (exists s w, wan_rounds a p0 w0 s w /\ first_write (wan_burst a w) <> None).
Proof.
  intros Hn. set (stuck := exists s w, _ /\ _). unfold wan_main_loop. unfold mbind at 1, M_bind.
  destruct (rte_rdtsc w0) as [t w1| |] eqn:Hr; [|done..].
  pose proof (while_returns_or_hangs sigs 1 (wan_round a) (wan_rounds a p0 w0) stuck (WanLoop p0 t 0) w1) as Hl.
  unfold returns_or_hangs at 2 in Hl. unfold returns_or_hangs at 1.
  assert (Hround : forall s w, wan_rounds a p0 w0 s w -> returns_or_hangs (wan_round a s w) (wan_rounds a p0 w0) stuck).
  { intros s w Hs. pose proof (idle_wan_round s w (wan_rounds_idle s w Hs)) as Hs'.
    destruct (first_write (wan_burst a w)) as [b|] eqn:Hf.
    - rewrite Hs' by by eapply Hn. exists s, w. by rewrite Hf.
    - apply wp_exists in Hs' as (s' & w' & Hr' & _). rewrite Hr'. by eapply wan_rounds_next. }
  specialize (Hl Hround (wan_rounds_start _ _ _ _ _ Hr)).
  destruct (while_running _ _ _ _ _) as [x w'| |]; [|done..]. destruct Hl as [Hw Hg].
  apply idle_end_of; [by apply wan_rounds_idle|done].
Qed.

End Started.

(** ** The simulated traffic *)

Lemma sim_lan_traffic : @lan_traffic (sim false) sim_args.
Proof.
  intros tr. cbn [env_rx sim]. change (la_lan_port sim_args) with 0. unfold sim_rx. apply Forall_take, list.Forall_forall.
  intros x (i & bs & -> & Hbs)%elem_of_lookup_imap_1. cbn [snd]. intros _.
  apply list_elem_of_lookup_2 in Hbs. unfold sim_arrivals in Hbs. change (0 =? 0) with true in Hbs. cbv iota in Hbs.
  destruct (existsb _ tr); [by apply elem_of_nil in Hbs|].
  apply elem_of_cons in Hbs as [->|Hbs]; [by vm_compute|]. apply elem_of_cons in Hbs as [->|Hbs]; [by vm_compute|by apply elem_of_nil in Hbs].
Qed.

Lemma sim_wan_traffic : @wan_traffic (sim false) sim_args.
Proof.
  intros tr. cbn [env_rx sim]. change (la_wan_port sim_args) with 1. unfold sim_rx. apply Forall_take, list.Forall_forall.
  intros x (i & bs & -> & Hbs)%elem_of_lookup_imap_1. cbn [snd].
  apply list_elem_of_lookup_2 in Hbs. unfold sim_arrivals in Hbs. change (1 =? 0) with false in Hbs. cbv iota in Hbs.
  apply elem_of_cons in Hbs as [->|Hbs]; [|by apply elem_of_nil in Hbs]. split; [|by vm_compute].
  intros msg. destruct (parse_ctrl _) as [m0|] eqn:E; [|done]. intros [= <-]. revert E. vm_compute. by intros [= <-].
Qed.
