(* ===== verification/Startup.v ===== *)
(** * main.c: start-up

    From the command line to the running loops: the option loop, port naming,
    the checks, [port_init] of the two ports, the processors, the arguments
    of the lcores and the launch; and the shutdown.  What [getopt_long]
    returned is the input; EAL and the device calls are the class [Eal]. *)

From Stdlib Require Import Strings.Ascii Strings.String.
From S2P Require Import Prelude Crc32 Inet PeerManager Stats Log PeerOption Env Sim RoceDefs Arq QpCtx.
From S2P Require Import WanTunnel Icrc Congestion ArqMsg JitterBuffer Processor LanPath Gateway.

(** ** What EAL and the devices answer *)

Record rte_eth_dev_info := DevInfo {
  driver_name : option (list Z);
  pci_name : option (list Z);
  flow_type_rss_offloads : Z }.

Inductive rx_mq_mode := RTE_ETH_MQ_RX_NONE | RTE_ETH_MQ_RX_RSS.

(** The calls that change a device. *)
Inductive dev_call :=
  | DevConfigure (port nb_rx nb_tx : Z) (mode : rx_mq_mode) (rss_hf : Z)
  | AdjustDesc (port nb_rxd nb_txd : Z)
  | RxQueueSetup (port queue nb_desc pool : Z)
  | TxQueueSetup (port queue nb_desc : Z)
  | DevStart (port : Z)
  | PromiscuousEnable (port : Z)
  | DevStop (port : Z)
  | MempoolFree (pool : Z).

Class Eal := {
  RTE_MAX_LCORE : Z;
  RTE_PGSIZE_1G : Z;
  RTE_ETH_RSS_IP : Z;
  RTE_ETH_RSS_UDP : Z;
  rte_lcore_count : Z;
  rte_lcore_id : Z;
  worker_lcores : list Z;
  rte_mem_get_dma_pagesize : Z;
  rte_eth_dev_count_avail : Z;
  rte_eth_dev_is_valid_port : Z -> bool;
  (** the return value, and the structure when it is 0 *)
  rte_eth_dev_info_get : Z -> Z * rte_eth_dev_info;
  (** the number of mbufs asked for; NULL or a pool *)
  rte_pktmbuf_pool_create : Z -> option Z;
  (** the return value of a device call, after the calls made so far *)
  dev_result : list dev_call -> dev_call -> Z;
  (** the descriptor counts [rte_eth_dev_adjust_nb_rx_tx_desc] leaves *)
  adjusted : Z -> Z * Z -> Z * Z;
  rte_eal_remote_launch : Z -> Z;
  fopen_succeeds : list Z -> bool }.

(** ** Programs that may exit *)

Inductive progress (A : Type) :=
  | Go (a : A)
  | Exit (code : Z)
  | Undefined.
Arguments Go {A}. Arguments Exit {A}. Arguments Undefined {A}.

#[export] Instance progress_ret : MRet progress := fun A a => Go a.
#[export] Instance progress_bind : MBind progress := fun A B f c =>
  match c with Go a => f a | Exit code => Exit code | Undefined => Undefined end.

(** The device calls made are threaded through. *)
Definition boot (A : Type) : Type := list dev_call -> progress A * list dev_call.

#[export] Instance boot_ret : MRet boot := fun A a tr => (Go a, tr).
#[export] Instance boot_bind : MBind boot := fun A B f c tr =>
  match c tr with
  | (Go a, tr) => f a tr
  | (Exit code, tr) => (Exit code, tr)
  | (Undefined, tr) => (Undefined, tr)
  end.

Definition lift {A} (c : progress A) : boot A := fun tr => (c, tr).
Definition exit_main {A} (code : Z) : boot A := lift (Exit code).

Section Startup.
Context `{Dpdk, Eal}.

Definition dev (c : dev_call) : boot Z := fun tr => (Go (dev_result tr c), tr ++ [c]).

(** ** Port naming *)

Definition NO_PORT : Z := u16 (-1).

(** The test of the search loop; a device whose information cannot be read
    is skipped. *)
Definition port_named (name : list Z) (port_id : Z) : bool :=
  match rte_eth_dev_info_get port_id with
  | (ret, info) =>
      (ret =? 0) &&
      (bool_decide (driver_name info = Some name) || bool_decide (pci_name info = Some name))
  end.

Definition port_name_to_id (name : list Z) : Z :=
  match name with
  | [] => NO_PORT
  | c :: _ =>
      let nb_ports := rte_eth_dev_count_avail in
      if isdigit c then
        let port_id := u16 (atoi name) in
        if port_id <? nb_ports then port_id else NO_PORT
      else
        match list_find (fun port_id => port_named name port_id = true) (seqZ 0 nb_ports) with
        | Some (_, port_id) => port_id
        | None => NO_PORT
        end
  end.

(** ** The option loop *)

Record main_state := MainState {
  g_lan_port : Z;
  g_wan_port : Z;
  g_lan_core_count : Z;
  g_wan_core_count : Z;
  m_peers : peer_manager;
  verbose : bool;
  src_ip_str : option (list Z);
  log_file_path : option (list Z) }.

Definition zero_peers : peer_manager := pm_init (PeerManager [] 0 0 []).
Definition main_state_init : main_state := MainState 0 1 1 1 zero_peers false None None.

(** What [getopt_long] returns: the option and [optarg]. *)
Definition getopt_result : Type := ascii * list Z.

Definition main_option (st : main_state) (o : getopt_result) : progress main_state :=
  let '(opt, optarg) := o in
  let '(MainState lan wan lan_n wan_n pm v src file) := st in
  if ascii_dec opt "h" then Exit 0
  else if ascii_dec opt "l" then
    let port_id := port_name_to_id optarg in
    if port_id =? NO_PORT then Exit (-1) else Go (MainState port_id wan lan_n wan_n pm v src file)
  else if ascii_dec opt "w" then
    let port_id := port_name_to_id optarg in
    if port_id =? NO_PORT then Exit (-1) else Go (MainState lan port_id lan_n wan_n pm v src file)
  else if ascii_dec opt "s" then Go (MainState lan wan lan_n wan_n pm v (Some optarg) file)
  else if ascii_dec opt "a" then Go (MainState lan wan (u32 (atoi optarg)) wan_n pm v src file)
  else if ascii_dec opt "b" then Go (MainState lan wan lan_n (u32 (atoi optarg)) pm v src file)
  else if ascii_dec opt "p" then
    match parse_peer_string optarg with
    | None => Undefined
    | Some po =>
        match main_peer_option pm po with
        | Some pm => Go (MainState lan wan lan_n wan_n pm v src file)
        | None => Exit (-1)
        end
    end
  else if ascii_dec opt "v" then Go (MainState lan wan lan_n wan_n pm true src file)
  else if ascii_dec opt "f" then Go (MainState lan wan lan_n wan_n pm v src (Some optarg))
  else Exit (-1).

Fixpoint main_options (st : main_state) (os : list getopt_result) : progress main_state :=
  match os with
  | [] => Go st
  | o :: os => st ← main_option st o; main_options st os
  end.

(** ** [port_init] *)

Definition RX_RING_SIZE : Z := 1024.
Definition TX_RING_SIZE : Z := 1024.

Fixpoint rx_queues (port nb_rxd pool : Z) (qs : list Z) : boot Z :=
  match qs with
  | [] => mret 0
  | i :: qs =>
      retval ← dev (RxQueueSetup port (u16 i) nb_rxd pool);
      if retval <? 0 then mret retval else rx_queues port nb_rxd pool qs
  end.

Definition port_conf (num_rx_queues : Z) (info : rte_eth_dev_info) : rx_mq_mode * Z :=
  if 1 <? num_rx_queues
  then (RTE_ETH_MQ_RX_RSS, Z.land (Z.lor RTE_ETH_RSS_IP RTE_ETH_RSS_UDP) (flow_type_rss_offloads info))
  else (RTE_ETH_MQ_RX_NONE, 0).

Definition port_init (port pool num_rx_queues : Z) : boot Z :=
  if negb (rte_eth_dev_is_valid_port port) then mret (-1)
  else
    let '(retval, info) := rte_eth_dev_info_get port in
    if negb (retval =? 0) then mret retval
    else
      let '(mode, rss_hf) := port_conf num_rx_queues info in
      retval ← dev (DevConfigure port (u16 num_rx_queues) 1 mode rss_hf);
      if negb (retval =? 0) then mret retval
      else
        retval ← dev (AdjustDesc port RX_RING_SIZE TX_RING_SIZE);
        let '(nb_rxd, nb_txd) := adjusted port (RX_RING_SIZE, TX_RING_SIZE) in
        if negb (retval =? 0) then mret retval
        else
          retval ← rx_queues port nb_rxd pool (seqZ 0 num_rx_queues);
          if retval <? 0 then mret retval
          else
            retval ← dev (TxQueueSetup port 0 nb_txd);
            if retval <? 0 then mret retval
            else
              retval ← dev (DevStart port);
              if retval <? 0 then mret retval
              else
                _ ← dev (PromiscuousEnable port);
                mret 0.

(** ** Processors, lcore arguments, launch *)

Inductive loop_kind := LanMainLoop | WanMainLoop.

Record gateway := Gateway {
  gw_main : main_state;
  gw_logger : logger;
  gw_globals : globals;
  gw_pool : Z;
  gw_processors : list processor_context;
  gw_args : list lcore_args;
  gw_dump : list (list Z);
  gw_running : list (Z * loop_kind * lcore_args) }.

(** [g_processors[i]] and [lcore_args[i]], for [i < total]: the two loops
    over the LAN cores and over the rest. *)
Definition processor_at (lan src_ip i : Z) : processor_context :=
  proc_init i (if i <? lan then 1 else 0) src_ip.

Definition lcore_args_at (st : main_state) (pool i : Z) : lcore_args :=
  if i <? g_lan_core_count st
  then LcoreArgs i (g_lan_port st) (g_wan_port st) (u16 i) pool 1
  else LcoreArgs i (g_lan_port st) (g_wan_port st) (u16 (i - g_lan_core_count st)) pool 0.

(** What lcore [id] runs. *)
Definition lcore_loop (st : main_state) (pool id : Z) : Z * loop_kind * lcore_args :=
  (id, if id <? g_lan_core_count st then LanMainLoop else WanMainLoop, lcore_args_at st pool id).

Fixpoint launch (st : main_state) (pool total : Z) (ids : list Z) : progress (list (Z * loop_kind * lcore_args)) :=
  match ids with
  | [] => Go []
  | id :: ids =>
      if total <=? id then launch st pool total ids
      else if negb (rte_eal_remote_launch id =? 0) then Exit (-1)
      else rest ← launch st pool total ids; Go (lcore_loop st pool id :: rest)
  end.

(** ** [main], from the return of [rte_eal_init] to the running loops *)

Definition NUM_MBUFS : Z := 8191.

Definition main_logger (st : main_state) : logger :=
  let l := log_set_level (if verbose st then LOG_LEVEL_DEBUG else LOG_LEVEL_INFO) logger_init in
  match log_file_path st with
  | Some path => log_open_file path (fopen_succeeds path) l
  | None => l
  end.

(** The globals of the packet path when the loops start: the addresses just
    set, what [arp_cache_init] leaves of the zeroed cache, and no CRC table
    built. *)
Definition main_globals (src_ip : Z) (peers : peer_manager) : globals :=
  let g := Globals src_ip peers (replicate (Z.to_nat ARP_CACHE_SIZE) zero_arp) 0 0 crc_statics_zero in
  match arp_cache_init (World g ∅ []) with Ret _ w => w_glob w | _ => g end.

(** The number of cores [main] computes. *)
Definition total_cores (st : main_state) : Z := u32 (g_lan_core_count st + g_wan_core_count st).

Definition main_start (os : list getopt_result) : boot gateway :=
  st ← lift (main_options main_state_init os);
  match src_ip_str st with
  | None => exit_main (-1)
  | Some src =>
      let lan := g_lan_core_count st in
      let total := total_cores st in
      if rte_lcore_count <? total then exit_main (-1)
      else
        let src_ip := inet_addr src in
        if negb (rte_mem_get_dma_pagesize =? RTE_PGSIZE_1G) then exit_main (-1)
        else
          let peers := pm_init (m_peers st) in
          if rte_eth_dev_count_avail <? 2 then exit_main (-1)
          else
            match rte_pktmbuf_pool_create (u32 (NUM_MBUFS * total)) with
            | None => exit_main (-1)
            | Some pool =>
                r ← port_init (g_lan_port st) pool lan;
                if negb (r =? 0) then exit_main (-1)
                else
                  r ← port_init (g_wan_port st) pool (g_wan_core_count st);
                  if negb (r =? 0) then exit_main (-1)
                  else if RTE_MAX_LCORE <? Z.max lan total then lift Undefined
                  else
                    let ids := seqZ 0 (Z.max lan total) in
                    running ← lift (launch st pool total worker_lcores);
                    let running := running ++ (if rte_lcore_id <? total then [lcore_loop st pool rte_lcore_id] else []) in
                    mret (Gateway st (main_logger st) (main_globals src_ip peers) pool (processor_at lan src_ip <$> ids)
                            (lcore_args_at st pool <$> ids) (pm_dump peers) running)
            end
  end.

(** After the loops have returned. *)
Definition main_shutdown (g : gateway) : boot unit :=
  _ ← dev (DevStop (g_lan_port (gw_main g)));
  _ ← dev (DevStop (g_wan_port (gw_main g)));
  _ ← dev (MempoolFree (gw_pool g));
  mret tt.

End Startup.

(** What the code takes for granted: the number of ports is a [uint16_t],
    lcores are numbered below [RTE_MAX_LCORE], and each only once. *)
Class EalSpec `{Eal} : Prop := {
  dev_count : 0 <= rte_eth_dev_count_avail < 2 ^ 16;
  max_lcore : 0 < RTE_MAX_LCORE < 2 ^ 16;
  lcores_distinct : NoDup (rte_lcore_id :: worker_lcores);
  lcores_range : Forall (fun id => 0 <= id < RTE_MAX_LCORE) (rte_lcore_id :: worker_lcores) }.

(** ** Inversion *)

Lemma boot_Go {A B} (c : boot A) (f : A -> boot B) tr b tr' :
  (c ≫= f) tr = (Go b, tr') -> exists a tr1, c tr = (Go a, tr1) /\ f a tr1 = (Go b, tr').
Proof. unfold mbind, boot_bind. destruct (c tr) as [[a| |] tr1]; naive_solver. Qed.

Lemma lift_Go {A} (c : progress A) tr a tr' : lift c tr = (Go a, tr') -> c = Go a /\ tr' = tr.
Proof. unfold lift. naive_solver. Qed.

Lemma exit_Go {A} code tr (a : A) tr' : exit_main code tr <> (Go a, tr').
Proof. done. Qed.

Section Ports.
Context `{Dpdk, Eal}.

(** ** [port_init] as a list of calls *)

(** Calls made one after the other until one fails; [0] when all succeed. *)
Definition failed (c : dev_call) (r : Z) : bool :=
  match c with
  | DevConfigure _ _ _ _ _ | AdjustDesc _ _ _ => negb (r =? 0)
  | PromiscuousEnable _ => false
  | _ => r <? 0
  end.

Fixpoint run_calls (cs : list dev_call) : boot Z :=
  match cs with
  | [] => mret 0
  | c :: cs => r ← dev c; if failed c r then mret r else run_calls cs
  end.

(** The calls that bring up a port with [n] receive queues. *)
Definition port_calls (port pool n : Z) : list dev_call :=
  let '(mode, rss_hf) := port_conf n (rte_eth_dev_info_get port).2 in
  let '(nb_rxd, nb_txd) := adjusted port (RX_RING_SIZE, TX_RING_SIZE) in
  [DevConfigure port (u16 n) 1 mode rss_hf; AdjustDesc port RX_RING_SIZE TX_RING_SIZE] ++
  ((fun i => RxQueueSetup port (u16 i) nb_rxd pool) <$> seqZ 0 n) ++
  [TxQueueSetup port 0 nb_txd; DevStart port; PromiscuousEnable port].

Lemma bind_dev {A} c (f : Z -> boot A) tr : (dev c ≫= f) tr = f (dev_result tr c) (tr ++ [c]).
Proof. done. Qed.

Lemma bind_ext {A B} (c : boot A) (f g : A -> boot B) tr :
  (forall a tr', f a tr' = g a tr') -> (c ≫= f) tr = (c ≫= g) tr.
Proof. intros Hfg. unfold mbind, boot_bind. destruct (c tr) as [[a| |] tr']; [apply Hfg|done..]. Qed.

Lemma run_rx_queues port nb_rxd pool qs cs tr :
  (r ← rx_queues port nb_rxd pool qs; if r <? 0 then mret r else run_calls cs) tr =
  run_calls (((fun i => RxQueueSetup port (u16 i) nb_rxd pool) <$> qs) ++ cs) tr.
Proof.
  revert tr. induction qs as [|i qs IH]; intros tr; [done|]. cbn [rx_queues fmap list_fmap app run_calls failed].
  specialize (IH (tr ++ [RxQueueSetup port (u16 i) nb_rxd pool])). unfold mbind, boot_bind, dev in *.
  destruct (Z.ltb_spec (dev_result tr (RxQueueSetup port (u16 i) nb_rxd pool)) 0) as [Hn|_]; [|exact IH].
  cbn [mret boot_ret]. by rewrite (proj2 (Z.ltb_lt _ _) Hn).
Qed.

Lemma port_init_calls port pool n tr :
  port_init port pool n tr =
  if negb (rte_eth_dev_is_valid_port port) then (Go (-1), tr)
  else if negb ((rte_eth_dev_info_get port).1 =? 0) then (Go (rte_eth_dev_info_get port).1, tr)
  else run_calls (port_calls port pool n) tr.
Proof.
  unfold port_init, port_calls. destruct (negb (rte_eth_dev_is_valid_port port)); [done|].
  destruct (rte_eth_dev_info_get port) as [ret info]. cbn [fst snd]. destruct (negb (ret =? 0)); [done|].
  destruct (port_conf n info) as [mode rss_hf], (adjusted port (RX_RING_SIZE, TX_RING_SIZE)) as [nb_rxd nb_txd].
  cbn [app run_calls failed]. rewrite !bind_dev. destruct (negb _); [done|].
  rewrite !bind_dev. destruct (negb _); [done|]. rewrite <- run_rx_queues. apply bind_ext.
  intros r tr1. destruct (r <? 0); [done|]. cbn [run_calls failed]. rewrite !bind_dev. destruct (_ <? 0); [done|].
  rewrite !bind_dev. by destruct (_ <? 0).
Qed.

(** A list of calls always returns; it returns 0 when every call was made. *)
Lemma run_calls_returns cs tr :
  exists r tr', run_calls cs tr = (Go r, tr') /\ (r = 0 -> tr' = tr ++ cs).
Proof.
  revert tr. induction cs as [|c cs IH]; intros tr; [do 2 eexists; split; [done|]; by rewrite app_nil_r|].
  cbn [run_calls]. rewrite bind_dev. destruct (failed c _) eqn:Ef.
  - do 2 eexists. split; [done|]. intros Hr. rewrite Hr in Ef. by destruct c.
  - destruct (IH (tr ++ [c])) as (r & tr' & Hr & Htr). exists r, tr'. split; [done|]. intros Hz.
    by rewrite (Htr Hz), <- (assoc app).
Qed.

Lemma port_init_Go port pool n tr tr' :
  port_init port pool n tr = (Go 0, tr') ->
  rte_eth_dev_is_valid_port port = true /\ (rte_eth_dev_info_get port).1 = 0 /\ tr' = tr ++ port_calls port pool n.
Proof.
  rewrite port_init_calls. destruct (rte_eth_dev_is_valid_port port); cbn [negb]; [|done].
  destruct (Z.eqb_spec (rte_eth_dev_info_get port).1 0) as [Hr|Hr]; cbn [negb]; [|by intros [= Hz _]].
  destruct (run_calls_returns (port_calls port pool n) tr) as (r & tr1 & Hrun & Htr). rewrite Hrun.
  intros [= -> <-]. auto.
Qed.

End Ports.

(** ** A machine: four lcores, two ports *)

#[export] Instance sim_eal : Eal := {
  RTE_MAX_LCORE := 128;
  RTE_PGSIZE_1G := 2 ^ 30;
  RTE_ETH_RSS_IP := 0xA38C;
  RTE_ETH_RSS_UDP := 0x8220;
  rte_lcore_count := 4;
  rte_lcore_id := 0;
  worker_lcores := [1; 2; 3];
  rte_mem_get_dma_pagesize := 2 ^ 30;
  rte_eth_dev_count_avail := 2;
  rte_eth_dev_is_valid_port p := (0 <=? p) && (p <? 2);
  rte_eth_dev_info_get p := (0, DevInfo (Some (str "net_ixgbe")) (Some (str "0000:03:00." ++ dec p)) 0x38D34);
  rte_pktmbuf_pool_create _ := Some 7;
  dev_result _ _ := 0;
  adjusted _ n := n;
  rte_eal_remote_launch _ := 0;
  fopen_succeeds _ := true }.

#[export] Instance sim_eal_spec : EalSpec.
Proof.
  split; [by vm_compute|by vm_compute|by_dec|by_dec].
Qed.

(** -s 192.0.2.1 --lan-cores 2 --wan-cores 2 --peer 10.0.2.0/24:192.0.2.9 *)
Definition sim_options : list getopt_result :=
  [("s"%char, str "192.0.2.1"); ("a"%char, str "2"); ("b"%char, str "2"); ("p"%char, str "10.0.2.0/24:192.0.2.9")].

(** What to look at in a run of [main_start]: the ports, the LAN cores and
    the running loops. *)
Definition outline (r : progress gateway * list dev_call) : option (Z * Z * Z * list (Z * loop_kind * lcore_args) * nat) :=
  match r with
  | (Go g, tr) =>
      Some (g_lan_port (gw_main g), g_wan_port (gw_main g), g_lan_core_count (gw_main g), gw_running g, length tr)
  | _ => None
  end.

Lemma sim_starts :
  exists g tr, @main_start (sim false) sim_eal sim_options [] = (Go g, tr) /\
    g_lan_port (gw_main g) = 0 /\ g_wan_port (gw_main g) = 1 /\ g_lan_core_count (gw_main g) = 2 /\
    total_cores (gw_main g) = 4 /\
    gw_running g = [(1, LanMainLoop, LcoreArgs 1 0 1 1 7 1); (2, WanMainLoop, LcoreArgs 2 0 1 0 7 0);
                    (3, WanMainLoop, LcoreArgs 3 0 1 1 7 0); (0, LanMainLoop, LcoreArgs 0 0 1 0 7 1)].
Proof.
  assert (Ho : outline (@main_start (sim false) sim_eal sim_options []) =
    Some (0, 1, 2, [(1, LanMainLoop, LcoreArgs 1 0 1 1 7 1); (2, WanMainLoop, LcoreArgs 2 0 1 0 7 0);
                    (3, WanMainLoop, LcoreArgs 3 0 1 1 7 0); (0, LanMainLoop, LcoreArgs 0 0 1 0 7 1)], 14%nat)) by by vm_compute.
  assert (Ht : option_map (fun g => total_cores (gw_main g))
    (match (@main_start (sim false) sim_eal sim_options []).1 with Go g => Some g | _ => None end) = Some 4) by by vm_compute.
  destruct (@main_start (sim false) sim_eal sim_options []) as [[g|c|] tr]; [|done..].
  exists g, tr. cbn in Ho, Ht. injection Ho as ????. injection Ht as ?. auto 10.
Qed.
