(* ===== verification/Boot.v ===== *)
(** * The gateway once it has started

    What holds whenever [main] gets to the running loops: the checks that
    passed, the device calls made, the processors and the arguments of the
    lcores, which queues are polled, and what lets the loops run or hangs
    them. *)

From Stdlib Require Import Strings.Ascii Strings.String.
From S2P Require Import Prelude Crc32 Inet PeerManager Stats Log PeerOption Env Sim RoceDefs Arq QpCtx.
From S2P Require Import WanTunnel Icrc Congestion ArqMsg JitterBuffer Processor LanPath WanPath Gateway Cores MainLoop Startup.

Section Boot.
Context `{Dpdk, Eal}.

Lemma launch_Go st pool total ids running :
  launch st pool total ids = Go running ->
  running = lcore_loop st pool <$> filter (fun id => id < total) ids /\
  Forall (fun id => id < total -> rte_eal_remote_launch id = 0) ids.
Proof.
  revert running. induction ids as [|id ids IH]; intros running Hr; [by injection Hr as <-|].
  cbn [launch] in Hr. rewrite filter_cons. destruct (Z.leb_spec total id) as [Hge|Hlt].
  - rewrite decide_False by lia. destruct (IH _ Hr) as [-> Hf]. split; [done|]. apply Forall_cons_2; [lia|done].
  - rewrite decide_True by lia. revert Hr. destruct (Z.eqb_spec (rte_eal_remote_launch id) 0) as [Hz|]; cbn [negb]; [|done].
    unfold mbind, progress_bind. destruct (launch st pool total ids) as [rest| |]; [|done..].
    intros [= <-]. destruct (IH rest eq_refl) as [-> Hf]. split; [done|]. by apply Forall_cons_2.
Qed.

Record started (os : list getopt_result) (g : gateway) (tr : list dev_call) : Prop := Started {
  st_options : main_options main_state_init os = Go (gw_main g);
  st_src : exists src, src_ip_str (gw_main g) = Some src /\
    gw_globals g = main_globals (inet_addr src) (pm_init (m_peers (gw_main g)));
  st_cores : total_cores (gw_main g) <= rte_lcore_count;
  st_hugepages : rte_mem_get_dma_pagesize = RTE_PGSIZE_1G;
  st_ports : 2 <= rte_eth_dev_count_avail;
  st_pool : rte_pktmbuf_pool_create (u32 (NUM_MBUFS * total_cores (gw_main g))) = Some (gw_pool g);
  st_calls : tr = port_calls (g_lan_port (gw_main g)) (gw_pool g) (g_lan_core_count (gw_main g)) ++
                  port_calls (g_wan_port (gw_main g)) (gw_pool g) (g_wan_core_count (gw_main g));
  st_valid : rte_eth_dev_is_valid_port (g_lan_port (gw_main g)) = true /\
             rte_eth_dev_is_valid_port (g_wan_port (gw_main g)) = true;
  st_bound : Z.max (g_lan_core_count (gw_main g)) (total_cores (gw_main g)) <= RTE_MAX_LCORE;
  st_processors : gw_processors g =
    processor_at (g_lan_core_count (gw_main g)) (wan_tunnel_src_ip (gw_globals g)) <$>
    seqZ 0 (Z.max (g_lan_core_count (gw_main g)) (total_cores (gw_main g)));
  st_args : gw_args g = lcore_args_at (gw_main g) (gw_pool g) <$>
    seqZ 0 (Z.max (g_lan_core_count (gw_main g)) (total_cores (gw_main g)));
  st_dump : gw_dump g = pm_dump (pm_init (m_peers (gw_main g)));
  st_running : exists ids, gw_running g = lcore_loop (gw_main g) (gw_pool g) <$> ids /\
    ids ≡ₚ filter (fun id => id < total_cores (gw_main g)) (rte_lcore_id :: worker_lcores) }.

Lemma main_globals_src src peers : wan_tunnel_src_ip (main_globals src peers) = src.
Proof. done. Qed.

Lemma main_start_Go os g tr : main_start os [] = (Go g, tr) -> started os g tr.
Proof.
  unfold main_start. intros (st & tr0 & [Hst ->]%lift_Go & Hr)%boot_Go. revert Hr.
  destruct (src_ip_str st) as [src|] eqn:Esrc; [|done]. cbv zeta.
  destruct (Z.ltb_spec rte_lcore_count (total_cores st)) as [|Hcores]; [done|].
  destruct (Z.eqb_spec rte_mem_get_dma_pagesize RTE_PGSIZE_1G) as [Hpage|]; cbn [negb]; [|done].
  destruct (Z.ltb_spec rte_eth_dev_count_avail 2) as [|Hports]; [done|].
  destruct (rte_pktmbuf_pool_create _) as [pool|] eqn:Epool; [|done].
  intros (r1 & tr1 & Hlan & Hr)%boot_Go. revert Hr. destruct (Z.eqb_spec r1 0) as [->|]; cbn [negb]; [|done].
  intros (r2 & tr2 & Hwan & Hr)%boot_Go. revert Hr. destruct (Z.eqb_spec r2 0) as [->|]; cbn [negb]; [|done].
  destruct (Z.ltb_spec RTE_MAX_LCORE (Z.max (g_lan_core_count st) (total_cores st))) as [|Hmax]; [done|].
  intros (running & tr3 & [Hl ->]%lift_Go & Hr)%boot_Go. injection Hr as <- <-.
  apply launch_Go in Hl as [-> _]. apply port_init_Go in Hlan as (Hv1 & _ & ->). apply port_init_Go in Hwan as (Hv2 & _ & ->).
  split; cbn [gw_main gw_globals gw_pool gw_processors gw_args gw_dump gw_running]; try done; try lia.
  - by exists src.
  - exists (filter (fun id => id < total_cores st) worker_lcores ++ (if rte_lcore_id <? total_cores st then [rte_lcore_id] else [])).
    rewrite fmap_app, filter_cons. split; [by destruct (_ <? _)|].
    destruct (Z.ltb_spec rte_lcore_id (total_cores st)).
    + rewrite decide_True by done. by rewrite Permutation_app_comm.
    + rewrite decide_False by lia. by rewrite app_nil_r.
Qed.

End Boot.

(** ** The option loop keeps the counts 32 bits wide *)

Definition counts_ok (st : main_state) : Prop := is_u32 (g_lan_core_count st) /\ is_u32 (g_wan_core_count st).

Section Options.
Context `{Dpdk, Eal}.

Lemma main_option_counts st o st' : main_option st o = Go st' -> counts_ok st -> counts_ok st'.
Proof.
  destruct o as [opt optarg], st as [lan wan lan_n wan_n pm v src file]. unfold main_option, counts_ok.
  intros Hr [H1 H2]. cbn [g_lan_core_count g_wan_core_count] in *.
  repeat case_match; simplify_eq; cbn [g_lan_core_count g_wan_core_count]; split; auto using u32_range.
Qed.

Lemma main_options_counts os st : main_options main_state_init os = Go st -> counts_ok st.
Proof.
  assert (Hg : forall os st st', main_options st os = Go st' -> counts_ok st -> counts_ok st').
  { clear. induction os as [|o os IH]; intros st st' Hr Hst; [by injection Hr as <-|].
    cbn [main_options] in Hr. unfold mbind, progress_bind in Hr. destruct (main_option st o) as [st1| |] eqn:E; [|done..].
    eapply IH; [exact Hr|]. by eapply main_option_counts. }
  intros Hr. apply (Hg _ _ _ Hr). split; cbn; unfold is_u32; lia.
Qed.

End Options.

(** ** The running loops *)

(** The port a loop polls. *)
Definition polled_port (kind : loop_kind) (a : lcore_args) : Z :=
  match kind with LanMainLoop => la_lan_port a | WanMainLoop => la_wan_port a end.

Section Running.
Context `{Dpdk, EalSpec}.

Lemma started_ids os g tr :
  started os g tr ->
  exists ids, gw_running g = lcore_loop (gw_main g) (gw_pool g) <$> ids /\ NoDup ids /\
    forall id, id ∈ ids <-> id < total_cores (gw_main g) /\ id ∈ rte_lcore_id :: worker_lcores.
Proof.
  intros Hs. destruct (st_running _ _ _ Hs) as (ids & Hr & Hp). exists ids. split; [done|].
  split; [rewrite Hp; apply list.NoDup_filter, lcores_distinct|].
  intros id. by rewrite Hp, list_elem_of_filter.
Qed.

(** A running lcore is in range, and so is its queue. *)
Lemma started_range os g tr id :
  started os g tr -> id < total_cores (gw_main g) -> id ∈ rte_lcore_id :: worker_lcores ->
  0 <= id < 2 ^ 16 /\
  (g_lan_core_count (gw_main g) <= id -> 0 <= id - g_lan_core_count (gw_main g) < g_wan_core_count (gw_main g)).
Proof.
  intros Hs Ht Hid. pose proof max_lcore as Hm. pose proof (st_bound _ _ _ Hs) as Hb.
  destruct (main_options_counts _ _ (st_options _ _ _ Hs)) as [Hl Hw].
  pose proof lcores_range as Hrange. rewrite list.Forall_forall in Hrange. specialize (Hrange id Hid).
  split; [lia|]. intros Hge. unfold total_cores, u32, is_u32 in *. zdiv.
Qed.

Lemma port_calls_queue port pool n q :
  0 <= q < n -> q < 2 ^ 16 -> exists nb, RxQueueSetup port q nb pool ∈ port_calls port pool n.
Proof.
  intros Hq Hb. unfold port_calls. destruct (port_conf _ _) as [mode rss], (adjusted _ _) as [nb_rxd nb_txd].
  exists nb_rxd. apply elem_of_app. right. apply elem_of_app. left. apply list_elem_of_fmap.
  exists q. split; [|by apply elem_of_seqZ]. unfold u16. by rewrite Z.mod_small by lia.
Qed.

(** What one running lcore was given. *)
Lemma started_loop os g tr id :
  started os g tr -> id < total_cores (gw_main g) -> id ∈ rte_lcore_id :: worker_lcores ->
  let '(_, kind, a) := lcore_loop (gw_main g) (gw_pool g) id in
  gw_args g !! Z.to_nat id = Some a /\ la_proc a = id /\ la_mbuf_pool a = gw_pool g /\
  (exists p, gw_processors g !! Z.to_nat id = Some p /\ lcore_id p = id /\ is_lan_core p = la_is_lan_core a) /\
  la_is_lan_core a = match kind with LanMainLoop => 1 | WanMainLoop => 0 end /\
  exists nb, RxQueueSetup (polled_port kind a) (la_queue_id a) nb (gw_pool g) ∈ tr.
Proof.
  intros Hs Ht Hid. destruct (started_range os g tr id Hs Ht Hid) as [Hr Hw]. unfold lcore_loop.
  pose proof (main_options_counts _ _ (st_options _ _ _ Hs)) as [Hl _]. unfold is_u32 in Hl.
  assert (Hseq : seqZ 0 (Z.max (g_lan_core_count (gw_main g)) (total_cores (gw_main g))) !! Z.to_nat id = Some id).
  { apply lookup_seqZ. lia. }
  rewrite (st_args _ _ _ Hs), (st_processors _ _ _ Hs), !list_lookup_fmap, Hseq. cbn [fmap option_fmap option_map].
  split; [done|]. split; [unfold lcore_args_at; by destruct (_ <? _)|].
  split; [unfold lcore_args_at; by destruct (_ <? _)|].
  split; [eexists; split; [done|]; split; [done|]; unfold lcore_args_at; cbn; by destruct (_ <? _)|].
  rewrite (st_calls _ _ _ Hs). unfold lcore_args_at.
  destruct (Z.ltb_spec id (g_lan_core_count (gw_main g))) as [Hlt|Hge]; (split; [done|]); cbn [polled_port la_lan_port la_wan_port la_queue_id].
  - destruct (port_calls_queue (g_lan_port (gw_main g)) (gw_pool g) (g_lan_core_count (gw_main g)) id) as [nb Hnb]; [lia..|].
    exists nb. apply elem_of_app. left. unfold u16. by rewrite Z.mod_small by lia.
  - specialize (Hw Hge).
    destruct (port_calls_queue (g_wan_port (gw_main g)) (gw_pool g) (g_wan_core_count (gw_main g))
      (id - g_lan_core_count (gw_main g))) as [nb Hnb]; [lia..|].
    exists nb. apply elem_of_app. right. unfold u16. by rewrite Z.mod_small by lia.
Qed.

(** Two running lcores poll different queues. *)
Lemma started_queue_inj os g tr id id' :
  started os g tr -> g_lan_port (gw_main g) <> g_wan_port (gw_main g) ->
  id < total_cores (gw_main g) -> id ∈ rte_lcore_id :: worker_lcores ->
  id' < total_cores (gw_main g) -> id' ∈ rte_lcore_id :: worker_lcores ->
  let queue x := let '(_, kind, a) := lcore_loop (gw_main g) (gw_pool g) x in (polled_port kind a, la_queue_id a) in
  queue id = queue id' -> id = id'.
Proof.
  intros Hs Hp Ht Hid Ht' Hid'. destruct (started_range os g tr id Hs Ht Hid) as [Hr Hw].
  destruct (started_range os g tr id' Hs Ht' Hid') as [Hr' Hw']. unfold lcore_loop, lcore_args_at. cbv zeta.
  pose proof (main_options_counts _ _ (st_options _ _ _ Hs)) as [Hl _]. unfold is_u32 in Hl. unfold u16.
  destruct (Z.ltb_spec id (g_lan_core_count (gw_main g))), (Z.ltb_spec id' (g_lan_core_count (gw_main g)));
    cbn [polled_port la_lan_port la_wan_port la_queue_id]; intros Heq;
    pose proof (f_equal fst Heq) as Hpp; pose proof (f_equal snd Heq) as Hq; cbn [fst snd] in *; try congruence;
    rewrite !Z.mod_small in Hq by lia; lia.
Qed.

End Running.

(** ** Properties *)

(** C14 When [main] reaches its loops, every lcore that runs one has arguments
    of its own role: its processor is the one with its number and was set up
    for the same side, it runs the loop of that side, and the receive queue
    it polls has been set up on that side's port with the common pool.  No
    two lcores share a processor, nor, when the two ports differ, a queue. *)
Theorem startup_types_cores `{Dpdk, EalSpec} os g tr :
  main_start os [] = (Go g, tr) ->
  (forall id kind a, (id, kind, a) ∈ gw_running g ->
     gw_args g !! Z.to_nat id = Some a /\ la_proc a = id /\ la_mbuf_pool a = gw_pool g /\
     (exists p, gw_processors g !! Z.to_nat id = Some p /\ lcore_id p = id /\ is_lan_core p = la_is_lan_core a) /\
     la_is_lan_core a = match kind with LanMainLoop => 1 | WanMainLoop => 0 end /\
     exists nb, RxQueueSetup (polled_port kind a) (la_queue_id a) nb (gw_pool g) ∈ tr) /\
  NoDup ((fun x => la_proc x.2) <$> gw_running g) /\
  (g_lan_port (gw_main g) <> g_wan_port (gw_main g) ->
   NoDup ((fun x => (polled_port x.1.2 x.2, la_queue_id x.2)) <$> gw_running g)).
Proof.
  intros Hr%main_start_Go. destruct (started_ids os g tr Hr) as (ids & -> & Hn & Hids). split; [|split].
  - intros id kind a (id0 & Heq & [Ht Hid]%Hids)%list_elem_of_fmap.
    pose proof (started_loop os g tr id0 Hr Ht Hid) as Hl. rewrite <- Heq in Hl.
    assert (id = id0) as -> by by apply (f_equal (fun x => x.1.1)) in Heq. exact Hl.
  - rewrite <- list_fmap_compose. apply NoDup_fmap_2_strong; [|done].
    intros x y [Hx Hxi]%Hids [Hy Hyi]%Hids. unfold compose, lcore_loop, lcore_args_at. by repeat destruct (_ <? _).
  - intros Hp. rewrite <- list_fmap_compose. apply NoDup_fmap_2_strong; [|done].
    intros x y [Hx Hxi]%Hids [Hy Hyi]%Hids Heq. by apply (started_queue_inj os g tr).
Qed.

(** C15 Receive queue [q] of a side is polled exactly when there is an lcore
    whose number is [q] on the LAN side, and the number of LAN cores plus [q]
    on the WAN side: with lcores numbered from 0 every queue is served, and
    when all of them are numbered from the total up (the check only counts
    them) no loop runs at all. *)
Theorem queues_are_served_by_number `{Dpdk, EalSpec} os g tr :
  main_start os [] = (Go g, tr) ->
  let lan := g_lan_core_count (gw_main g) in
  let total := total_cores (gw_main g) in
  (forall q, 0 <= q < Z.min lan total ->
     (exists id a, (id, LanMainLoop, a) ∈ gw_running g /\ la_queue_id a = q) <-> q ∈ rte_lcore_id :: worker_lcores) /\
  (forall q, 0 <= q < total - lan ->
     (exists id a, (id, WanMainLoop, a) ∈ gw_running g /\ la_queue_id a = q) <->
     lan + q ∈ rte_lcore_id :: worker_lcores) /\
  (Forall (fun id => total <= id) (rte_lcore_id :: worker_lcores) -> gw_running g = []).
Proof.
  intros Hr%main_start_Go. cbv zeta. destruct (started_ids os g tr Hr) as (ids & Hrun & Hn & Hids). rewrite Hrun.
  pose proof (main_options_counts _ _ (st_options _ _ _ Hr)) as [Hl _]. unfold is_u32 in Hl.
  assert (Hin : forall id kind a, (id, kind, a) ∈ lcore_loop (gw_main g) (gw_pool g) <$> ids <->
            (id, kind, a) = lcore_loop (gw_main g) (gw_pool g) id /\ id < total_cores (gw_main g) /\
            id ∈ rte_lcore_id :: worker_lcores).
  { intros id kind a. rewrite list_elem_of_fmap. split.
    - intros (x & Heq & Hx). assert (id = x) as -> by by apply (f_equal (fun x => x.1.1)) in Heq.
      split; [done|]. by apply Hids.
    - intros [Heq Hx]. exists id. split; [done|]. by apply Hids. }
  assert (Hq : forall id, id < total_cores (gw_main g) -> id ∈ rte_lcore_id :: worker_lcores -> u16 id = id /\
            (g_lan_core_count (gw_main g) <= id -> u16 (id - g_lan_core_count (gw_main g)) = id - g_lan_core_count (gw_main g))).
  { intros id Ht Hid. destruct (started_range os g tr id Hr Ht Hid) as [Hb _]. unfold u16.
    split; [by apply Z.mod_small; lia|]. intros. apply Z.mod_small. lia. }
  unfold lcore_loop, lcore_args_at in *. split; [|split].
  - intros q Hqr. split.
    + intros (id & a & (Heq & Ht & Hid)%Hin & Hqa). destruct (Hq id Ht Hid) as [Hu _].
      destruct (_ <? _); [|done]. injection Heq as ->. cbn in Hqa. congruence.
    + intros Hid. exists q. eexists. split; [apply Hin; split; [|split; [lia|done]]|].
      * rewrite (proj2 (Z.ltb_lt q (g_lan_core_count (gw_main g)))) by lia. done.
      * by apply Hq; [lia|].
  - intros q Hqr. split.
    + intros (id & a & (Heq & Ht & Hid)%Hin & Hqa). destruct (Hq id Ht Hid) as [_ Hu].
      destruct (Z.ltb_spec id (g_lan_core_count (gw_main g))) as [|Hge]; [done|]. injection Heq as ->. cbn in Hqa.
      rewrite Hu in Hqa by lia. by replace (g_lan_core_count (gw_main g) + q) with id by lia.
    + intros Hid. exists (g_lan_core_count (gw_main g) + q). eexists. split; [apply Hin; split; [|split; [lia|done]]|].
      * rewrite (proj2 (Z.ltb_ge (g_lan_core_count (gw_main g) + q) (g_lan_core_count (gw_main g)))) by lia. done.
      * cbn. rewrite (proj2 (Hq (g_lan_core_count (gw_main g) + q) ltac:(lia) Hid)) by lia. lia.
  - intros Hall. destruct ids as [|id ids]; [done|]. exfalso.
    destruct (proj1 (Hids id) ltac:(left)) as [Ht Hid]. rewrite list.Forall_forall in Hall. specialize (Hall id Hid).
    cbv beta in Hall. lia.
Qed.

(** On [sim_eal] lcores 0 and 1 poll the LAN queues, 2 and 3 the WAN ones. *)
Lemma startup_types_cores_witness :
  exists g tr, @main_start (sim false) sim_eal sim_options [] = (Go g, tr) /\
    exists nb, RxQueueSetup 1 0 nb 7 ∈ tr.
Proof.
  destruct sim_starts as (g & tr & Hg & _ & _ & _ & _ & Hrun). exists g, tr. split; [exact Hg|].
  destruct (@startup_types_cores (sim false) sim_eal sim_eal_spec sim_options g tr Hg) as [Hall _].
  destruct (Hall 2 WanMainLoop (LcoreArgs 2 0 1 0 7 0)) as (_ & _ & Hpool & _ & _ & nb & Hnb).
  - rewrite Hrun. right. left.
  - exists nb. cbn in Hnb, Hpool. by rewrite Hpool.
Defined.

Lemma queues_are_served_by_number_witness :
  exists g tr, @main_start (sim false) sim_eal sim_options [] = (Go g, tr) /\
    exists id a, (id, WanMainLoop, a) ∈ gw_running g /\ la_queue_id a = 1.
Proof.
  destruct sim_starts as (g & tr & Hg & _ & _ & Hlan & Ht & _). exists g, tr. split; [exact Hg|].
  destruct (@queues_are_served_by_number (sim false) sim_eal sim_eal_spec sim_options g tr Hg) as (_ & Hwan & _).
  apply Hwan; rewrite Hlan, ?Ht; [lia|]. right. right. right. left.
Defined.

(** ** From the command line to the packets *)

Lemma main_globals_ok `{DpdkSpec} src peers : pm_wf peers -> glob_ok (main_globals src peers).
Proof.
  intros Hp. unfold main_globals. cbn. split; [done|]. split.
  - apply Forall_replicate. split; [done|by apply (Forall_replicate _ 6 0)].
  - split; [apply lock_init|]. split; [apply crc_statics_zero_ok|exact Hp].
Qed.

(** C2 What a started lcore's loop does, round after round, whatever DPDK
    answers and from the processor and the globals [main] prepared.  A LAN
    lcore never blocks, whatever arrives.  A WAN lcore goes on through any
    rounds without a WRITE; the first burst with a WRITE hangs it in that
    round, if the WRITE names a QPN other than 0 ([jb_add_seg], see
    [wan_write_to_new_flow_deadlocks]), so that when no WRITE names QPN 0 its
    loop ends or has met a WRITE.  A loop is left after a SIGINT or SIGTERM
    and only then, and holds no mbuf in the end.  Were the globals other than
    [main] leaves them, with peers in the table, the loops would run on any
    traffic without QPN 0 and without WRITEs from the WAN, and hold in the
    end what their windows hold. *)
Theorem started_loops_block_only_on_writes `{DpdkSpec, EalSpec} os g tr id kind a p sigs :
  main_start os [] = (Go g, tr) -> (id, kind, a) ∈ gw_running g -> gw_processors g !! Z.to_nat id = Some p ->
  let w := World (gw_globals g) ∅ [] in
  match kind with
  | LanMainLoop => wp (lan_main_loop a sigs p) (fun r w' => idle_end sigs r.1 r.2 w') w
  | WanMainLoop =>
      (forall s w1, wan_rounds a p w s w1 ->
         proc_ok (wl_proc s) /\ (forall j, held w1 j = 0) /\
         match first_write (wan_burst a w1) with
         | None => exists s' w2, wan_round a s w1 = Ret s' w2 /\ wan_rounds a p w s' w2
         | Some b => bth_get_qpn (room b) <> 0 -> wan_round a s w1 = Hang
         end) /\
      (wan_writes_named a ->
         returns_or_hangs (wan_main_loop a sigs p w) (fun r w' => idle_end sigs (wl_proc r.1) r.2 w')
           (exists s w1, wan_rounds a p w s w1 /\ first_write (wan_burst a w1) <> None))
  end /\
  (fold_left signal_handler (concat sigs) 1 = 0 <-> SIGINT ∈ concat sigs \/ SIGTERM ∈ concat sigs) /\
  (forall w, world_ok w -> (forall j, held w j = 0) ->
     match kind with
     | LanMainLoop => lan_traffic a -> wp (lan_main_loop a sigs p) (fun r w' => loop_end sigs r.1 r.2 w') w
     | WanMainLoop => wan_traffic a -> wp (wan_main_loop a sigs p) (fun r w' => loop_end sigs (wl_proc r.1) r.2 w') w
     end).
Proof.
  intros Hr%main_start_Go Hin Hp. cbv zeta. rewrite (st_processors _ _ _ Hr), list_lookup_fmap in Hp.
  destruct (seqZ _ _ !! Z.to_nat id) as [i|]; [|done]. injection Hp as <-.
  split; [|split; [apply signals_clear|]].
  2: { intros w Hw Hh. destruct (main_loops_never_block a sigs i (if i <? g_lan_core_count (gw_main g) then 1 else 0)
         (wan_tunnel_src_ip (gw_globals g)) _ Hw Hh) as [Hlan Hwan]. by destruct kind. }
  destruct (st_src _ _ _ Hr) as (src & _ & Hg).
  assert (Hw : world_ok (World (gw_globals g) ∅ [])).
  { split; [|apply map_Forall_empty]. rewrite Hg. apply main_globals_ok, pm_init_wf. }
  destruct kind.
  - apply idle_lan_loop; [done|done|]. intros dst. by rewrite Hg.
  - split; [|by apply idle_wan_loop]. intros s w1 Hs. by apply (wan_rounds_next_round a).
Qed.

(** Lcore 0: two WRITEs in the first round, nothing in a second, SIGTERM
    during the third. *)
Definition sim_signals : list (list Z) := [[]; [1]; [SIGTERM]; []].

(** Lcore 2, the first on the WAN side. *)
Definition sim_wan_args : lcore_args := LcoreArgs 2 0 1 0 7 0.

Lemma sim_wan_burst w : @first_write (sim false) (@wan_burst (sim false) sim_wan_args w) = None.
Proof. reflexivity. Qed.

(** Both run to the end; the WAN lcore can go on after every round. *)
Lemma started_loops_block_only_on_writes_witness :
  exists g tr p0 p2, @main_start (sim false) sim_eal sim_options [] = (Go g, tr) /\
    let w := World (gw_globals g) ∅ [] in
    wp (@lan_main_loop (sim false) sim_args sim_signals p0) (fun r w' => idle_end sim_signals r.1 r.2 w') w /\
    (exists s w1 s' w2, @wan_rounds (sim false) sim_wan_args p2 w s w1 /\ @wan_round (sim false) sim_wan_args s w1 = Ret s' w2) /\
    returns_or_hangs (@wan_main_loop (sim false) sim_wan_args sim_signals p2 w)
      (fun r w' => idle_end sim_signals (wl_proc r.1) r.2 w') False.
Proof.
  destruct sim_starts as (g & tr & Hg & _ & _ & Hlan & Ht & Hrun).
  pose proof (st_processors _ _ _ (@main_start_Go (sim false) sim_eal _ _ _ Hg)) as Hps. rewrite Hlan, Ht in Hps.
  assert (Hp0 : exists p, gw_processors g !! 0%nat = Some p) by (rewrite Hps; by eexists).
  assert (Hp2 : exists p, gw_processors g !! 2%nat = Some p) by (rewrite Hps; by eexists).
  destruct Hp0 as [p0 Hp0], Hp2 as [p2 Hp2]. exists g, tr, p0, p2. split; [exact Hg|]. cbv zeta.
  assert (Hin0 : (0, LanMainLoop, sim_args) ∈ gw_running g) by (rewrite Hrun; right; right; right; left).
  assert (Hin2 : (2, WanMainLoop, sim_wan_args) ∈ gw_running g) by (rewrite Hrun; right; left).
  split; [exact (proj1 (@started_loops_block_only_on_writes (sim false) (sim_spec false) sim_eal sim_eal_spec sim_options g tr 0
            LanMainLoop sim_args p0 sim_signals Hg Hin0 Hp0))|].
  destruct (proj1 (@started_loops_block_only_on_writes (sim false) (sim_spec false) sim_eal sim_eal_spec sim_options g tr 2
            WanMainLoop sim_wan_args p2 sim_signals Hg Hin2 Hp2)) as [Hround Hloop]. split.
  - pose proof (@wan_rounds_start (sim false) sim_wan_args p2 (World (gw_globals g) ∅ []) _ _ eq_refl) as Hs.
    do 2 eexists. destruct (Hround _ _ Hs) as (_ & _ & s' & w2 & Hr & _). exists s', w2. split; [exact Hs|exact Hr].
  - assert (Hn : @wan_writes_named (sim false) sim_wan_args) by (intros w b; rewrite sim_wan_burst; done).
    specialize (Hloop Hn). destruct (@wan_main_loop (sim false) _ _ _ _); [exact Hloop| |exact Hloop].
    destruct Hloop as (s & w1 & _ & Hf). apply Hf, sim_wan_burst.
Defined.

(** C33 Whatever [--peer] options were given, the
    cores start with an empty peer table ([main] calls [pm_init] after the
    option loop) and the dump says so: every LAN packet is dropped or passed
    through, the RoCE path is never taken. *)
Theorem configured_peers_are_lost `{DpdkSpec, Eal} os g tr p m b lan wan pool w :
  main_start os [] = (Go g, tr) ->
  world_ok w -> g_peer_manager (w_glob w) = g_peer_manager (gw_globals g) -> w_mem w !! m = Some b ->
  gw_dump g = [str "=== Peer Manager Configuration ==="; str "Total peers: 0"; str "No default peer configured";
               str "==================================="] /\
  wp (proc_process_lan_rx p m lan wan pool)
     (fun p' w' => p' = count STAT_PKTS_DROPPED p \/ p' = count STAT_PKTS_PASSTHROUGH p) w.
Proof.
  intros Hs%main_start_Go Hw Hpm Hb. destruct (st_src _ _ _ Hs) as (src & _ & Hg). split.
  - rewrite (st_dump _ _ _ Hs). by vm_compute.
  - eapply lan_rx_unmapped_ev; [by apply evolves_refl|exact Hb| |intros c w' [-> | ->] _; auto].
    rewrite Hpm, Hg. reflexivity.
Qed.

(** The rule for 10.0.2.0/24 of [sim_options], and a packet to 10.0.2.5. *)
Lemma configured_peers_are_lost_witness :
  exists g tr, @main_start (sim false) sim_eal sim_options [] = (Go g, tr) /\
    let w := World (@main_globals (sim false) (htonl 0xC0000201) zero_peers) {[ 1%nat := sim_mbuf (sim_packet 0x0A 17 5) ]} [EvRx 1] in
    wp (@proc_process_lan_rx (sim false) sim_proc 1 0 1 7)
       (fun p' w' => p' = count STAT_PKTS_DROPPED sim_proc \/ p' = count STAT_PKTS_PASSTHROUGH sim_proc) w.
Proof.
  destruct sim_starts as (g & tr & Hg & _). exists g, tr. split; [exact Hg|]. cbv zeta.
  refine (proj2 (@configured_peers_are_lost (sim false) (sim_spec false) sim_eal sim_options g tr sim_proc 1
            (sim_mbuf (sim_packet 0x0A 17 5)) 0 1 7 _ Hg _ _ (lookup_insert_eq _ _ _))).
  - split; [apply (@main_globals_ok (sim false) (sim_spec false)), pm_init_wf|]. apply map_Forall_singleton, sim_mbuf_wf, sim_packet_ok. unfold byte_ok. lia.
  - destruct (st_src _ _ _ (@main_start_Go (sim false) sim_eal _ _ _ Hg)) as (src & _ & ->). reflexivity.
Defined.

(** C24 [port_init] makes the calls of [port_calls], in that order, and stops
    at the first that fails: configuration with one receive queue per core
    (RSS only with more than one), every receive queue in turn, one transmit
    queue, start, promiscuous mode.  It always returns, and 0 only when the
    port is valid and every call has been made. *)
Theorem port_init_correct `{Eal} port pool n tr :
  exists r tr', port_init port pool n tr = (Go r, tr') /\
    (rte_eth_dev_is_valid_port port = true -> (rte_eth_dev_info_get port).1 = 0 ->
     run_calls (port_calls port pool n) tr = (Go r, tr')) /\
    (r = 0 -> rte_eth_dev_is_valid_port port = true /\ tr' = tr ++ port_calls port pool n).
Proof.
  rewrite port_init_calls. destruct (rte_eth_dev_is_valid_port port) eqn:Hv; cbn [negb].
  2: { do 2 eexists. split; [done|]. split; [done|]. lia. }
  destruct (Z.eqb_spec (rte_eth_dev_info_get port).1 0) as [Hi|Hi]; cbn [negb].
  2: { do 2 eexists. split; [done|]. by split. }
  destruct (run_calls_returns (port_calls port pool n) tr) as (r & tr' & Hr & Htr).
  exists r, tr'. split; [done|]. split; [done|]. intros Hz. split; [done|]. by apply Htr.
Qed.

(** C26 Port names: a decimal number names the port with that number when
    there is one; a name that does not start with a digit names the first
    port whose driver or PCI name it is; whatever is not refused is a port
    that exists. *)
Theorem port_name_to_id_correct `{EalSpec} name :
  (forall k, 0 <= k < rte_eth_dev_count_avail -> port_name_to_id (dec k) = k) /\
  (port_name_to_id name = NO_PORT \/ 0 <= port_name_to_id name < rte_eth_dev_count_avail) /\
  match name with
  | [] => port_name_to_id name = NO_PORT
  | c :: _ =>
      isdigit c = false ->
      forall k, 0 <= k < NO_PORT ->
        (port_name_to_id name = k <->
         k < rte_eth_dev_count_avail /\ port_named name k = true /\ forall j, 0 <= j < k -> port_named name j = false)
  end.
Proof.
  pose proof dev_count as Hn. split; [|split].
  - intros k Hk. pose proof (dec_head k [] ltac:(lia)) as (c & s & Hs & Hc). rewrite app_nil_r in Hs.
    unfold port_name_to_id. rewrite Hs, Hc, <- Hs. unfold atoi. rewrite <- (app_nil_r (dec k)), strtol10_dec by (done || lia).
    rewrite s32_small by lia. unfold u16. rewrite Z.mod_small by lia. by rewrite (proj2 (Z.ltb_lt _ _)) by lia.
  - unfold port_name_to_id. destruct name as [|c s]; [by left|]. destruct (isdigit c).
    + destruct (Z.ltb_spec (u16 (atoi (c :: s))) rte_eth_dev_count_avail); [right|by left].
      pose proof (u16_range (atoi (c :: s))). lia.
    + destruct (list_find _ _) as [[i k]|] eqn:E; [right|by left].
      apply list_find_Some in E as (Hk & _ & _). apply lookup_seqZ in Hk. lia.
  - destruct name as [|c s]; [done|]. intros Hc k Hk. unfold port_name_to_id. rewrite Hc.
    assert (Hno : NO_PORT = 65535) by reflexivity. split.
    + destruct (list_find _ _) as [[i j]|] eqn:E; [|lia]. intros ->.
      apply list_find_Some in E as (Hik & Hnamed & Hbefore). apply lookup_seqZ in Hik as [Hik Hi].
      split; [lia|]. split; [done|]. intros j Hj. apply not_true_is_false.
      apply (Hbefore (Z.to_nat j) j); [apply lookup_seqZ; lia|lia].
    + intros (Hkn & Hnamed & Hbefore). destruct (list_find _ _) as [[i j]|] eqn:E.
      * apply list_find_Some in E as (Hij & Hj & Hb). apply lookup_seqZ in Hij as [Hij Hi].
        destruct (Z.lt_trichotomy j k) as [Hlt|[->|Hgt]]; [|done|].
        -- rewrite Hbefore in Hj by lia. done.
        -- exfalso. apply (Hb (Z.to_nat k) k); [apply lookup_seqZ; lia|lia|done].
      * apply list_find_None in E. rewrite list.Forall_forall in E. exfalso. apply (E k); [|done].
        apply elem_of_seqZ. lia.
Qed.

(** The second function of the card, by its PCI name. *)
Lemma port_name_to_id_correct_witness : @port_name_to_id sim_eal (str "pci") = NO_PORT \/ @port_name_to_id sim_eal (dec 1) = 1.
Proof. right. apply (@port_name_to_id_correct sim_eal sim_eal_spec (str "pci")). cbn. lia. Defined.

(** C25 A configuration [main] refuses is refused before any device is
    touched: a bad option ends with the code of the option loop, and a
    missing source address, more cores than lcores, pages that are not 1G or
    fewer than two ports with -1, all without a single device call. *)
Theorem refusals_touch_no_device `{Dpdk, Eal} os :
  match main_options main_state_init os with
  | Exit code => main_start os [] = (Exit code, []) /\ (code = 0 \/ code = -1)
  | Undefined => main_start os [] = (Undefined, [])
  | Go st =>
      src_ip_str st = None \/ rte_lcore_count < total_cores st \/ rte_mem_get_dma_pagesize <> RTE_PGSIZE_1G \/
      rte_eth_dev_count_avail < 2 -> main_start os [] = (Exit (-1), [])
  end.
Proof.
  assert (Hopt : forall st o code, main_option st o = Exit code -> code = 0 \/ code = -1).
  { intros st [opt optarg] code. unfold main_option. destruct st. intros Hr. repeat case_match; simplify_eq; auto. }
  assert (Hopts : forall os st code, main_options st os = Exit code -> code = 0 \/ code = -1).
  { clear os. induction os as [|o os IH]; intros st code; [done|]. cbn [main_options]. unfold mbind, progress_bind.
    destruct (main_option st o) eqn:E; [apply IH|intros [= <-]; by eapply Hopt|done]. }
  unfold main_start, mbind, boot_bind, lift. destruct (main_options main_state_init os) as [st|code|] eqn:E; [|split; [done|by eapply Hopts]|done].
  intros Hc. destruct (src_ip_str st) as [src|]; [|done]. cbv zeta.
  destruct (Z.ltb_spec rte_lcore_count (total_cores st)); [done|].
  destruct (Z.eqb_spec rte_mem_get_dma_pagesize RTE_PGSIZE_1G); cbn [negb]; [|done].
  destruct (Z.ltb_spec rte_eth_dev_count_avail 2); [done|]. destruct Hc as [?|[?|[?|?]]]; [done|lia|done|lia].
Qed.

(** 2^32 - 1 LAN cores and two WAN cores count as one. *)
Example core_count_wraps : total_cores (MainState 0 1 (u32 (atoi (str "-1"))) 2 zero_peers false None None) = 1.
Proof. reflexivity. Qed.

(** A port number is cut to 16 bits. *)
Example port_number_wraps : @port_name_to_id sim_eal (str "65537") = 1.
Proof. reflexivity. Qed.

(** Nothing keeps the two sides apart. *)
Example same_port_accepted :
  match @main_options sim_eal main_state_init [("l"%char, str "1"); ("w"%char, str "1")] with
  | Go st => g_lan_port st = g_wan_port st
  | _ => False
  end.
Proof. reflexivity. Qed.

(** What is not a number asks for no core at all. *)
Example no_cores_accepted :
  match @main_options sim_eal main_state_init [("a"%char, str "two")] with
  | Go st => g_lan_core_count st = 0
  | _ => False
  end.
Proof. reflexivity. Qed.
