(* ===== verification/Multicore.v ===== *)
(** * The lcores together

    The processors of all lcores and the world they share, as a transition
    system: any lcore may make the next step, a poll of a port, a packet of
    its burst, or a tick of the timer; the clock is read in between.  A
    handler is one step: lcores share no table but the globals, which the
    handlers leave in order.

    The system starts from fresh processors and any globals, in particular
    any peer table, and any lcore may run the handlers of either side: the
    gateway that [main] starts is one instance ([main_starts_a_system]), whose
    peer table is empty and whose lcores run one side each. *)

From S2P Require Import Prelude Crc32 Inet PeerManager Stats Log PeerOption Env Sim RoceDefs Arq QpCtx.
From S2P Require Import WanTunnel Icrc Congestion ArqMsg JitterBuffer Processor LanPath LanForward WanPath Gateway Cores MainLoop Startup Boot.

(** ** States and steps *)

(** An lcore: its arguments, the rest of the burst in hand, its processor. *)
Record lcore_state := LcoreState {
  lc_args : lcore_args;
  lc_pending : list (nat * mbuf);
  lc_proc : processor_context }.

(** The lcores as [main] starts them. *)
Definition initial_cores (g : gateway) : list lcore_state :=
  omap (fun x => p ← gw_processors g !! Z.to_nat x.1.1; Some (LcoreState x.2 [] p)) (gw_running g).

Section System.
Context `{DpdkSpec}.

(** A processor out of [proc_init], nothing received. *)
Definition fresh_core (c : lcore_state) : Prop :=
  lc_pending c = [] /\ exists id lan ip, lc_proc c = proc_init id lan ip.

(** No packet names QPN 0, and no WRITE comes back from the WAN: the first
    overwrites windows, the second hangs the core. *)
Inductive system : list lcore_state -> world -> Prop :=
  | sys_start cs w :
      world_ok w -> (forall j, held w j = 0) -> Forall fresh_core cs -> system cs w
  | sys_poll cs w i a p port queue bufs ms w' :
      system cs w -> cs !! i = Some (LcoreState a [] p) ->
      bufs = env_rx (w_trace w) port queue BURST_SIZE ->
      rte_eth_rx_burst port queue BURST_SIZE w = Ret ms w' ->
      system (<[i := LcoreState a bufs p]> cs) w'
  | sys_lan cs w i a m b pend p p' w' :
      system cs w -> cs !! i = Some (LcoreState a ((m, b) :: pend) p) -> nonzero_write (room b) ->
      proc_process_lan_rx p m (la_lan_port a) (la_wan_port a) (la_mbuf_pool a) w = Ret p' w' ->
      system (<[i := LcoreState a pend p']> cs) w'
  | sys_wan cs w i a m b pend p p' w' :
      system cs w -> cs !! i = Some (LcoreState a ((m, b) :: pend) p) ->
      nonzero_ctrl (room b) -> wan_data (room b) = false ->
      proc_process_wan_rx p m (la_lan_port a) (la_wan_port a) (la_mbuf_pool a) w = Ret p' w' ->
      system (<[i := LcoreState a pend p']> cs) w'
  | sys_clock cs w t w' :
      system cs w -> rte_rdtsc w = Ret t w' -> system cs w'
  | sys_timer cs w i a p p' w' :
      system cs w -> cs !! i = Some (LcoreState a [] p) ->
      proc_timer_callback p (la_wan_port a) w = Ret p' w' ->
      system (<[i := LcoreState a [] p']> cs) w'.

(** ** The invariant *)

(** The references to [j] an lcore accounts for, and how often [j] is in its
    burst. *)
Definition core_refs (j : nat) (c : lcore_state) : Z := win_own (lc_proc c) j + ones (lc_pending c).*1 j.
Definition core_pend (j : nat) (c : lcore_state) : Z := ones (lc_pending c).*1 j.

Definition core_ok (w : world) (c : lcore_state) : Prop :=
  proc_ok (lc_proc c) /\ queued (lc_proc c) w /\ Forall (fun x => w_mem w !! x.1 = Some x.2) (lc_pending c).

Record sys_inv (cs : list lcore_state) (w : world) : Prop := SysInv {
  si_world : world_ok w;
  si_cores i c : cs !! i = Some c -> core_ok w c;
  si_ledger j : held w j = sumZ (core_refs j) cs;
  si_distinct j : sumZ (core_pend j) cs <= 1 }.

Lemma win_own_nonneg p j : 0 <= win_own p j.
Proof. apply mgr_refs_nonneg. Qed.

Lemma core_pend_nonneg j c : 0 <= core_pend j c.
Proof. apply ones_nonneg. Qed.

Lemma core_pend_le j c : core_pend j c <= core_refs j c.
Proof. unfold core_refs, core_pend. pose proof (win_own_nonneg (lc_proc c) j). lia. Qed.

Lemma sumZ_le {A} (f g : A -> Z) l : (forall x, f x <= g x) -> sumZ f l <= sumZ g l.
Proof. intros Hfg. induction l as [|x l IH]; cbn [sumZ]; [lia|]. specialize (Hfg x). lia. Qed.

Lemma sumZ_member {A} (f : A -> Z) l i x : (forall x, 0 <= f x) -> l !! i = Some x -> f x <= sumZ f l.
Proof.
  intros Hf. revert i. induction l as [|y l IH]; intros i Hi; [done|]. cbn [sumZ].
  pose proof (sumZ_nonneg f l Hf). pose proof (Hf y). destruct i as [|i]; cbn in Hi; [simplify_eq; lia|].
  specialize (IH i Hi). lia.
Qed.

Lemma sumZ_two {A} (f : A -> Z) l i i' x x' :
  (forall x, 0 <= f x) -> i <> i' -> l !! i = Some x -> l !! i' = Some x' -> f x + f x' <= sumZ f l.
Proof.
  intros Hf. revert i i'. induction l as [|y l IH]; intros i i' Hne Hi Hi'; [done|].
  cbn [sumZ]. pose proof (Hf y) as Hy. destruct i as [|i], i' as [|i']; cbn in Hi, Hi'; simplify_eq.
  - pose proof (sumZ_member f l i' x' Hf Hi'). lia.
  - pose proof (sumZ_member f l i x Hf Hi). lia.
  - specialize (IH i i' ltac:(congruence) Hi Hi'). lia.
Qed.

(** A pending mbuf is held. *)
Lemma pending_held cs w i c x :
  sys_inv cs w -> cs !! i = Some c -> x ∈ lc_pending c -> 1 <= held w x.1.
Proof.
  intros Hi Hc Hx. rewrite (si_ledger _ _ Hi).
  pose proof (sumZ_le (core_pend x.1) (core_refs x.1) cs (core_pend_le x.1)).
  pose proof (sumZ_member (core_pend x.1) cs i c (core_pend_nonneg x.1) Hc).
  assert (1 <= core_pend x.1 c) by (apply ones_elem; by apply list_elem_of_fmap_2). lia.
Qed.

(** ** Steps keep the invariant *)

(** One lcore moves; the others see only that the mbufs they account for are
    where they were. *)
Lemma sys_step cs w i c c' w' d :
  sys_inv cs w -> cs !! i = Some c -> evolves d w w' -> core_ok w' c' ->
  (forall j, d j = core_refs j c' - core_refs j c) ->
  (forall i' c2 x, i' <> i -> cs !! i' = Some c2 -> x ∈ lc_pending c2 -> w_mem w' !! x.1 = w_mem w !! x.1) ->
  (forall j, sumZ (core_pend j) cs - core_pend j c + core_pend j c' <= 1) -> sys_inv (<[i := c']> cs) w'.
Proof.
  intros Hi Hc He Hok Hd Hmem Hone. pose proof (lookup_lt_Some _ _ _ Hc) as Hlt. split.
  - apply He.
  - intros i' c2 Hc2. destruct (decide (i' = i)) as [->|Hne].
    + rewrite list_lookup_insert_eq in Hc2 by done. by injection Hc2 as <-.
    + rewrite list_lookup_insert_ne in Hc2 by done. destruct (si_cores _ _ Hi i' c2 Hc2) as (Hp2 & Hq2 & Hpend).
      split; [done|]. split; [eapply queued_le; [exact Hq2|exact (ev_mem _ _ _ He)]|].
      rewrite list.Forall_forall in Hpend |- *. intros x Hx. rewrite (Hmem i' c2 x Hne Hc2 Hx). auto.
  - intros j. rewrite (ev_held _ _ _ He j), (si_ledger _ _ Hi j), (sumZ_insert _ _ _ _ _ Hc), Hd. lia.
  - intros j. rewrite (sumZ_insert _ _ _ _ _ Hc). apply Hone.
Qed.

Lemma ones_absent ms j : j ∉ ms -> ones ms j = 0.
Proof.
  induction ms as [|m ms IH]; intros Hj; [done|]. rewrite ones_cons. apply not_elem_of_cons in Hj as [Hne Hj].
  rewrite IH by done. unfold one. by rewrite decide_False.
Qed.

Lemma ones_distinct ms j : NoDup ms -> ones ms j <= 1.
Proof.
  induction 1 as [|m ms Hm _ IH]; [done|]. rewrite ones_cons. unfold one. case_decide; [|lia].
  subst. rewrite (ones_absent ms) by done. lia.
Qed.

(** The mbuf handled is in no other place. *)
Lemma handled_elsewhere cs w i a m b pend p i' c2 x :
  sys_inv cs w -> cs !! i = Some (LcoreState a ((m, b) :: pend) p) ->
  (i' <> i /\ cs !! i' = Some c2 /\ x ∈ lc_pending c2) \/ x ∈ pend -> x.1 <> m.
Proof.
  intros Hi Hc Hx <-. pose proof (si_distinct _ _ Hi x.1) as Hd.
  assert (Hm : core_pend x.1 (LcoreState a ((x.1, b) :: pend) p) = 1 + ones pend.*1 x.1).
  { unfold core_pend. cbn [lc_pending]. rewrite fmap_cons, ones_cons. unfold one. by rewrite decide_True. }
  pose proof (ones_nonneg pend.*1 x.1). destruct Hx as [(Hne & Hc2 & Hx)|Hx].
  - pose proof (sumZ_two (core_pend x.1) cs i i' _ _ (core_pend_nonneg x.1) (not_eq_sym Hne) Hc Hc2).
    assert (1 <= core_pend x.1 c2) by (apply ones_elem; by apply list_elem_of_fmap_2). lia.
  - pose proof (sumZ_member (core_pend x.1) cs i _ (core_pend_nonneg x.1) Hc).
    assert (1 <= ones pend.*1 x.1) by (apply ones_elem; by apply list_elem_of_fmap_2). lia.
Qed.

Lemma sys_handled cs w i a m b pend p p' w' :
  sys_inv cs w -> cs !! i = Some (LcoreState a ((m, b) :: pend) p) ->
  evolves (fun j => 0 + (win_own p' j - win_own p j - one m j)) w w' -> proc_ok p' -> queued p' w' ->
  kept_but m w w' -> sys_inv (<[i := LcoreState a pend p']> cs) w'.
Proof.
  intros Hi Hc He Hp Hq Hk. pose proof (si_cores _ _ Hi i _ Hc) as (_ & _ & Hpend).
  apply Forall_cons_1 in Hpend as [_ Hpend]. eapply sys_step; [exact Hi|exact Hc|exact He| | | |].
  - split; [done|]. split; [done|]. cbn [lc_pending]. rewrite list.Forall_forall in Hpend |- *. intros x Hx.
    rewrite (Hk x.1); [by apply Hpend|apply (handled_elsewhere cs w i a m b pend p i (LcoreState a pend p) x Hi Hc); by right|].
    apply (pending_held cs w i _ x Hi Hc). by right.
  - intros j. unfold core_refs. cbn [lc_pending lc_proc]. rewrite fmap_cons, ones_cons. cbn [fst]. lia.
  - intros i' c2 x Hne Hc2 Hx. apply Hk; [eapply handled_elsewhere; [exact Hi|exact Hc|left; eauto]|].
    by apply (pending_held cs w i' c2).
  - intros j. pose proof (si_distinct _ _ Hi j). unfold core_pend at 2 3. cbn [lc_pending].
    rewrite fmap_cons, ones_cons. unfold one. case_decide; lia.
Qed.

Lemma sys_polled cs w i a p port queue :
  sys_inv cs w -> cs !! i = Some (LcoreState a [] p) ->
  let bufs := env_rx (w_trace w) port queue BURST_SIZE in
  sys_inv (<[i := LcoreState a bufs p]> cs) (received_all bufs (log_event (EvPoll port queue) w)).
Proof.
  intros Hi Hc. cbv zeta. pose proof (poll_evolves port queue BURST_SIZE w (si_world _ _ Hi)) as He.
  destruct (rx_fresh (w_trace w) port queue BURST_SIZE) as (_ & Hn & Hf).
  set (bufs := env_rx (w_trace w) port queue BURST_SIZE) in *.
  assert (Hfresh : forall j, j ∈ bufs.*1 -> held w j <= 0).
  { intros j (x & -> & Hx)%list_elem_of_fmap. rewrite list.Forall_forall in Hf. apply (Hf x Hx). }
  destruct (si_cores _ _ Hi i _ Hc) as (Hp & Hq & _). eapply sys_step; [exact Hi|exact Hc|exact He| | | |].
  - split; [done|]. split; [exact (queued_le _ _ _ Hq (ev_mem _ _ _ He))|]. by apply received_all_lookup.
  - intros j. unfold core_refs. cbn [lc_pending lc_proc]. change (ones [].*1 j) with 0. lia.
  - intros i' c2 x Hne Hc2 Hx. etrans; [apply received_all_other|done]. intros Hin%Hfresh.
    pose proof (pending_held cs w i' c2 x Hi Hc2 Hx). lia.
  - intros j. unfold core_pend at 2 3. cbn [lc_pending]. change (ones [].*1 j) with 0.
    pose proof (si_distinct _ _ Hi j) as Hd. destruct (decide (j ∈ bufs.*1)) as [Hin|Hin].
    + pose proof (ones_distinct _ j Hn). pose proof (Hfresh j Hin) as Hh. rewrite (si_ledger _ _ Hi) in Hh.
      pose proof (sumZ_le (core_pend j) (core_refs j) cs (core_pend_le j)). lia.
    + rewrite ones_absent by done. lia.
Qed.

Lemma sys_ticked cs w i a p p' w' :
  sys_inv cs w -> cs !! i = Some (LcoreState a [] p) ->
  evolves (fun j => 0 + (win_own p' j - win_own p j)) w w' -> proc_ok p' -> queued p' w' ->
  w_mem w' = w_mem w -> sys_inv (<[i := LcoreState a [] p']> cs) w'.
Proof.
  intros Hi Hc He Hp Hq Hm. eapply sys_step; [exact Hi|exact Hc|exact He|done| | |].
  - intros j. unfold core_refs. cbn [lc_pending lc_proc]. lia.
  - intros i' c2 x _ _ _. by rewrite Hm.
  - intros j. pose proof (si_distinct _ _ Hi j). unfold core_pend at 2 3. cbn [lc_pending]. lia.
Qed.

Lemma sys_clocked cs w t w' : sys_inv cs w -> rte_rdtsc w = Ret t w' -> sys_inv cs w'.
Proof.
  intros [Hw Hc Hl Hd] Hr. apply (wp_eq _ (fun _ w' => sys_inv cs w') _ _ _ Hr).
  eapply ev_rdtsc_exact; [by apply evolves_refl|]. intros t' w1 He Hm _. split; [apply He| | |done].
  - intros i c Hic. destruct (Hc i c Hic) as (Hp & Hq & Hpend). split; [done|]. unfold queued. by rewrite Hm.
  - intros j. rewrite (ev_held _ _ _ He j), Hl. lia.
Qed.

Lemma sys_started cs w :
  world_ok w -> (forall j, held w j = 0) -> Forall fresh_core cs -> sys_inv cs w.
Proof.
  intros Hw Hh Hf. assert (Hzero : forall j, Forall (fun c => core_refs j c = 0 /\ core_pend j c = 0) cs).
  { intros j. eapply list.Forall_impl; [exact Hf|]. intros c (Hpe & id & lan & ip & Hp).
    unfold core_refs, core_pend, win_own. rewrite Hpe, Hp. change (ones [].*1 j) with 0. split; [|done].
    cbn. rewrite mgr_refs_zero; [done|]. apply win_refs_zero. }
  split; [done| | |].
  - intros i c Hc%list_elem_of_lookup_2. rewrite list.Forall_forall in Hf. destruct (Hf c Hc) as (Hpe & id & lan & ip & Hp).
    pose proof (core_boot_inv id lan ip _ Hw Hh) as [_ Hpo Hq _ _ _]. unfold core_ok. rewrite Hpe, Hp. done.
  - intros j. rewrite sumZ_zero; [by rewrite Hh|]. eapply list.Forall_impl; [apply Hzero|]. by intros c [Hc _].
  - intros j. rewrite sumZ_zero; [done|]. eapply list.Forall_impl; [apply (Hzero j)|]. by intros c [_ Hc].
Qed.

(** Every handler returns from the invariant and restores it. *)
Lemma sys_lan_step cs w i a m b pend p :
  sys_inv cs w -> cs !! i = Some (LcoreState a ((m, b) :: pend) p) -> nonzero_write (room b) ->
  wp (proc_process_lan_rx p m (la_lan_port a) (la_wan_port a) (la_mbuf_pool a))
     (fun p' => sys_inv (<[i := LcoreState a pend p']> cs)) w.
Proof.
  intros Hi Hc Hf. destruct (si_cores _ _ Hi i _ Hc) as (Hp & Hq & Hb). apply Forall_cons_1 in Hb as [Hb _].
  eapply proc_process_lan_rx_ev; [apply evolves_refl, Hi|done|done|exact Hb|done|].
  intros p' w' He' Hp' Hq' Hk _. by eapply sys_handled.
Qed.

Lemma sys_wan_step cs w i a m b pend p :
  sys_inv cs w -> cs !! i = Some (LcoreState a ((m, b) :: pend) p) ->
  nonzero_ctrl (room b) -> wan_data (room b) = false ->
  wp (proc_process_wan_rx p m (la_lan_port a) (la_wan_port a) (la_mbuf_pool a))
     (fun p' => sys_inv (<[i := LcoreState a pend p']> cs)) w.
Proof.
  intros Hi Hc Hf Hd. destruct (si_cores _ _ Hi i _ Hc) as (Hp & Hq & Hb). apply Forall_cons_1 in Hb as [Hb _].
  eapply wan_rx_ctrl_ev; [apply evolves_refl, Hi|done|done|exact Hb|done|done|].
  intros p' w' He' Hp' Hq' Hm. eapply sys_handled; [exact Hi|exact Hc|done..|by apply kept_but_mem].
Qed.

Lemma sys_timer_step cs w i a p :
  sys_inv cs w -> cs !! i = Some (LcoreState a [] p) ->
  wp (proc_timer_callback p (la_wan_port a)) (fun p' => sys_inv (<[i := LcoreState a [] p']> cs)) w.
Proof.
  intros Hi Hc. destruct (si_cores _ _ Hi i _ Hc) as (Hp & Hq & _).
  eapply timer_ev; [apply evolves_refl, Hi|done|done|]. intros p' w' He' Hp' Hq' Hm. by eapply sys_ticked.
Qed.

Lemma system_invariant cs w : system cs w -> sys_inv cs w.
Proof.
  induction 1 as [cs w Hw Hh Hf|cs w i a p port queue bufs ms w' _ IH Hc -> Hr|cs w i a m b pend p p' w' _ IH Hc Hf Hr
    |cs w i a m b pend p p' w' _ IH Hc Hf Hd Hr|cs w t w' _ IH Hr|cs w i a p p' w' _ IH Hc Hr].
  - by apply sys_started.
  - injection Hr as _ <-. by apply sys_polled.
  - apply (wp_eq _ (fun p' => sys_inv (<[i := LcoreState a pend p']> cs)) _ _ _ Hr). by eapply sys_lan_step.
  - apply (wp_eq _ (fun p' => sys_inv (<[i := LcoreState a pend p']> cs)) _ _ _ Hr). by eapply sys_wan_step.
  - by eapply sys_clocked.
  - apply (wp_eq _ (fun p' => sys_inv (<[i := LcoreState a [] p']> cs)) _ _ _ Hr). by apply sys_timer_step.
Qed.

End System.

(** What [main] starts is such a system. *)
Lemma main_starts_a_system `{DpdkSpec, EalSpec} os g tr :
  main_start os [] = (Go g, tr) -> system (initial_cores g) (World (gw_globals g) ∅ []).
Proof.
  intros Hs%main_start_Go. apply sys_start; [|done|].
  - destruct (st_src _ _ _ Hs) as (src & _ & ->). split; [|apply map_Forall_empty]. apply main_globals_ok, pm_init_wf.
  - apply list.Forall_forall. intros c (x & Hx & Hc)%list_elem_of_omap. apply bind_Some in Hc as (p & Hp & [= <-]).
    split; [done|]. rewrite (st_processors _ _ _ Hs), list_lookup_fmap in Hp. destruct (_ !! _) as [i|]; [|done].
    injection Hp as <-. by do 3 eexists.
Qed.

(** ** Properties *)

(** C1 Any number of lcores on one world, started from fresh processors and
    any peer table, moving in any order, running the handlers of either side,
    DPDK answering in any way: the mbuf references the program holds are
    exactly those of the retransmission windows and of the bursts in hand of
    all lcores together (nothing leaks, nothing is released twice, no mbuf is
    in two bursts), and all tables stay well formed.  The next poll or tick
    of an lcore, and its next packet provided it names no QPN 0 and is not a
    WRITE from the WAN, is carried out to the end, with no deadlock and no
    invalid dereference, whatever the others have done meanwhile. *)
Theorem lcores_share_the_ledger `{DpdkSpec} cs w :
  system cs w ->
  (forall j, held w j = sumZ (core_refs j) cs /\ sumZ (core_pend j) cs <= 1) /\ world_ok w /\
  forall i a pend p, cs !! i = Some (LcoreState a pend p) ->
    proc_ok p /\
    match pend with
    | [] =>
        (forall port queue, exists w', let bufs := env_rx (w_trace w) port queue BURST_SIZE in
           rte_eth_rx_burst port queue BURST_SIZE w = Ret bufs.*1 w' /\
           system (<[i := LcoreState a bufs p]> cs) w') /\
        (exists p' w', proc_timer_callback p (la_wan_port a) w = Ret p' w' /\
           system (<[i := LcoreState a [] p']> cs) w')
    | (m, b) :: pend =>
        w_mem w !! m = Some b /\
        (nonzero_write (room b) -> exists p' w',
           proc_process_lan_rx p m (la_lan_port a) (la_wan_port a) (la_mbuf_pool a) w = Ret p' w' /\
           system (<[i := LcoreState a pend p']> cs) w') /\
        (nonzero_ctrl (room b) -> wan_data (room b) = false -> exists p' w',
           proc_process_wan_rx p m (la_lan_port a) (la_wan_port a) (la_mbuf_pool a) w = Ret p' w' /\
           system (<[i := LcoreState a pend p']> cs) w')
    end.
Proof.
  intros Hs. pose proof (system_invariant cs w Hs) as Hi.
  split; [intros j; split; apply Hi|]. split; [apply Hi|]. intros i a pend p Hc.
  pose proof (si_cores _ _ Hi i _ Hc) as (Hp & _ & Hpend). split; [done|]. destruct pend as [|[m b] pend].
  - split.
    + intros port queue. cbv zeta. eexists. split; [reflexivity|]. by eapply sys_poll.
    + destruct (wp_exists _ _ _ (sys_timer_step cs w i a p Hi Hc)) as (p' & w' & Hr & _).
      exists p', w'. split; [done|]. by eapply sys_timer.
  - apply Forall_cons_1 in Hpend as [Hb _]. split; [exact Hb|]. split.
    + intros Hf. destruct (wp_exists _ _ _ (sys_lan_step cs w i a m b pend p Hi Hc Hf)) as (p' & w' & Hr & _).
      exists p', w'. split; [done|]. by eapply sys_lan.
    + intros Hf Hd. destruct (wp_exists _ _ _ (sys_wan_step cs w i a m b pend p Hi Hc Hf Hd)) as (p' & w' & Hr & _).
      exists p', w'. split; [done|]. by eapply sys_wan.
Qed.

(** A run of two lcores with a configured peer: lcore 0 polls the LAN port
    and handles the two WRITEs of QPN 17 it gets, then polls the WAN port and
    handles the acknowledgement of the first. *)
Definition sim_lan_rx (m : nat) (s : processor_context * world) : outcome processor_context :=
  @proc_process_lan_rx (sim false) s.1 m (la_lan_port sim_args) (la_wan_port sim_args) (la_mbuf_pool sim_args) s.2.
Definition sim_polled (port : Z) (s : processor_context * world) : processor_context * world :=
  (s.1, (ret_of (@rte_eth_rx_burst (sim false) port 0 BURST_SIZE s.2) ([], s.2)).2).
Definition sim_polled_lan : processor_context * world := sim_polled 0 (sim_lan_core, sim_boot).
Definition sim_sent_one : processor_context * world := ret_of (sim_lan_rx 1000 sim_polled_lan) sim_polled_lan.
Definition sim_sent_two : processor_context * world := ret_of (sim_lan_rx 1001 sim_sent_one) sim_sent_one.
Definition sim_polled_wan : processor_context * world := sim_polled 1 sim_sent_two.
Definition sim_ack_rx : outcome processor_context :=
  @proc_process_wan_rx (sim false) sim_polled_wan.1 1004 (la_lan_port sim_args) (la_wan_port sim_args)
    (la_mbuf_pool sim_args) sim_polled_wan.2.
Definition sim_acked : processor_context * world := ret_of sim_ack_rx sim_polled_wan.

Lemma sim_first_rx : sim_lan_rx 1000 sim_polled_lan = Ret sim_sent_one.1 sim_sent_one.2.
Proof. apply (ret_of_eq (sim_lan_rx 1000 sim_polled_lan) sim_polled_lan). by vm_compute. Qed.

Lemma sim_second_rx : sim_lan_rx 1001 sim_sent_one = Ret sim_sent_two.1 sim_sent_two.2.
Proof. apply (ret_of_eq (sim_lan_rx 1001 sim_sent_one) sim_sent_one). by vm_compute. Qed.

Lemma sim_acked_rx : sim_ack_rx = Ret sim_acked.1 sim_acked.2.
Proof. apply (ret_of_eq sim_ack_rx sim_polled_wan). by vm_compute. Qed.

(** The other lcore. *)
Definition sim_core_1 : lcore_state := LcoreState (LcoreArgs 1 0 1 1 7 1) [] (@proc_init (sim false) 1 1 0xC0000201).
Definition sim_core_0 (pend : list (nat * mbuf)) (s : processor_context * world) : list lcore_state :=
  [LcoreState sim_args pend s.1; sim_core_1].

Lemma sim_system : @system (sim false) (sim_core_0 [] sim_sent_two) sim_sent_two.2 /\
                   @system (sim false) (sim_core_0 [] sim_acked) sim_acked.2.
Proof.
  assert (H0 : @system (sim false) (sim_core_0 [] (sim_lan_core, sim_boot)) sim_boot).
  { apply sys_start; [apply sim_boot_ok|done|].
    apply Forall_cons_2; [split; [done|by do 3 eexists]|]. apply Forall_cons_2; [split; [done|by do 3 eexists]|done]. }
  assert (H1 : @system (sim false) (sim_core_0 [(1000%nat, sim_mbuf (sim_packet 0x0A 17 5)); (1001%nat, sim_mbuf (sim_packet 0x0A 17 6))]
                 sim_polled_lan) sim_polled_lan.2)
    by exact (@sys_poll (sim false) _ _ 0%nat _ _ 0 0 _ _ _ H0 eq_refl eq_refl eq_refl).
  assert (Hnz : forall n, nonzero_write (room (sim_mbuf (sim_packet 0x0A 17 n)))) by (intros n _; vm_compute; discriminate).
  assert (H2 : @system (sim false) (sim_core_0 [(1001%nat, sim_mbuf (sim_packet 0x0A 17 6))] sim_sent_one) sim_sent_one.2).
  { refine (@sys_lan (sim false) _ _ 0%nat _ _ _ _ _ _ _ H1 eq_refl (Hnz 5) _). exact sim_first_rx. }
  assert (H3 : @system (sim false) (sim_core_0 [] sim_sent_two) sim_sent_two.2).
  { refine (@sys_lan (sim false) _ _ 0%nat _ _ _ _ _ _ _ H2 eq_refl (Hnz 6) _). exact sim_second_rx. }
  split; [exact H3|].
  assert (H4 : @system (sim false) (sim_core_0 [(1004%nat, sim_mbuf (sim_ack 17 5))] sim_polled_wan) sim_polled_wan.2).
  { refine (@sys_poll (sim false) _ _ 0%nat _ _ 1 0 [(1004%nat, sim_mbuf (sim_ack 17 5))] _ _ H3 eq_refl _ eq_refl). by vm_compute. }
  refine (@sys_wan (sim false) (sim_core_0 [(1004%nat, sim_mbuf (sim_ack 17 5))] sim_polled_wan) sim_polled_wan.2 0%nat
            sim_args 1004%nat (sim_mbuf (sim_ack 17 5)) [] sim_polled_wan.1 sim_acked.1 sim_acked.2 H4 eq_refl _ _ sim_acked_rx).
  - intros msg. destruct (parse_ctrl _) as [m0|] eqn:E; [|done]. intros [= <-]. revert E. vm_compute. by intros [= <-].
  - by vm_compute.
Qed.

(** Before the acknowledgement the window of lcore 0 holds both packets, and
    so does the program, once each; afterwards it holds the second only. *)
Lemma lcores_share_the_ledger_witness :
  (forall j, held sim_sent_two.2 j = sumZ (core_refs j) (sim_core_0 [] sim_sent_two)) /\
  (held sim_sent_two.2 1000%nat, held sim_sent_two.2 1001%nat) = (1, 1) /\
  (win_own sim_sent_two.1 1000%nat, win_own sim_sent_two.1 1001%nat) = (1, 1) /\
  (forall j, held sim_acked.2 j = sumZ (core_refs j) (sim_core_0 [] sim_acked)) /\
  (held sim_acked.2 1000%nat, held sim_acked.2 1001%nat) = (0, 1).
Proof.
  refine (conj (fun j => proj1 (proj1 (@lcores_share_the_ledger (sim false) (sim_spec false) (sim_core_0 [] sim_sent_two) sim_sent_two.2
                                        (proj1 sim_system)) j)) _).
  split; [by vm_compute|]. split; [by vm_compute|].
  refine (conj (fun j => proj1 (proj1 (@lcores_share_the_ledger (sim false) (sim_spec false) (sim_core_0 [] sim_acked) sim_acked.2
                                        (proj2 sim_system)) j)) _).
  by vm_compute.
Defined.
